(** * AutoTrader: a shallow embedding of the trading control loop

    The development follows the Python sources:
    - [src/trading/executor.py]         -> [Module Executor]
    - [src/trading/position_manager.py] -> [Module PositionManager]
    - [src/utils/runtime_config.py]     -> [Module RuntimeConfig]
    - [src/trader/timeout.py]           -> [Module Timeout]
    - [src/trader/ibkr_account.py]      -> [Module IbkrAccount]
    - [src/trader/runner.py]            -> [Module Runner], [Module Universe]
    - [src/trader/market_hours.py]      -> [Module MarketHours]
    - [src/trader/flatten.py]           -> [Module Flatten]
    - [src/research/ai_researcher.py]   -> [Module Selection]
    [Module OrderManagement] and [Module ReviewLoops] hold the order
    management of the executor and the review loops of the position manager.
    [Module ExitOrders] states the standing invariant of the protective
    orders, [Module Database] holds the rows of the persistence collaborator,
    [Module SpecWords] the formulas of the specification in its own words,
    [Module Examples] and [Module Scenarios] concrete sessions and documents,
    [Module Notions] and [Module ConfigNotions] the notions in which the
    further properties are stated.  The properties come last: one theorem
    per claim, named after the claim, and then the further properties of the
    code.

    Modelling conventions.
    - Python [float] prices and cash amounts are exact rationals ([Q]);
      comparisons are the rational ones, [int(x)] truncates towards zero
      and [a // b] is the floor of the quotient.  The prices of a position
      review (the price read from the portfolio, the stop and the
      take-profit that the decision service proposes) and the prices of an
      order are [pyfloat]: a rational or [nan], since the code puts them
      through [float(...)] without a range check; every comparison with
      [nan] is false.
    - Share quantities and broker order ids are integers ([Z]).
    - The broker session ([ib_insync.IB]) is an explicit state: the list of
      open trades, the positions, the request-id counter and the log of every
      [placeOrder] call.  [cancelOrder] removes the order from the open
      trades; [placeOrder] modifies the open trade with the same id or adds a
      new one; neither raises.  Fills are not modelled.
    - What the collaborators answer (market data, decision service, clock)
      is an input of the function that consumes it; a call that may raise
      answers with a [result].
    - Dictionaries keyed by strings are [gmap string _]; JSON-like documents
      are the type [json], a dict being an association list in insertion
      order.
    - Log lines and live-status updates are left out unless a property
      speaks about them. *)

From Stdlib Require Import ZArith QArith Qround Qabs Qminmax Lqa String Ascii List Lia DecimalString.
From stdpp Require Import base option list gmap strings.

Local Open Scope string_scope.
Local Open Scope list_scope.
Local Open Scope Z_scope.

(** ** Python arithmetic helpers *)

(** [int(x)] on a float: truncation towards zero. *)
Definition py_int (x : Q) : Z := Z.quot (Qnum x) (Zpos (Qden x)).

(** [a // b] on floats for [b <> 0]: floor of the exact quotient. *)
Definition py_floordiv (a b : Q) : Z := Qfloor (a / b).

(** [x <= y], [x < y], [x == y] on floats as boolean tests. *)
Definition Qleb (x y : Q) : bool := Qle_bool x y.
Definition Qltb (x y : Q) : bool := negb (Qle_bool y x).
Definition Qeqb (x y : Q) : bool := Qeq_bool x y.

(** A Python [float] that reaches a comparison of the code without a check
    of its own: a rational or [nan].  Every comparison with [nan] is false.
    The infinities are left out: in the comparisons of the code they stand
    like a price above, or below, every other. *)
Inductive pyfloat := Finite (q : Q) | NaN.
Bind Scope Q_scope with pyfloat.
Coercion Finite : Q >-> pyfloat.

(** [x <= y] and [x < y] on such floats. *)
Definition fleb (x y : pyfloat) : bool :=
  match x, y with
  | Finite a, Finite b => Qleb a b
  | _, _ => false
  end.
Definition fltb (x y : pyfloat) : bool :=
  match x, y with
  | Finite a, Finite b => Qltb a b
  | _, _ => false
  end.

(** An arithmetic expression in one float: [nan] gives [nan]. *)
Definition float_map (f : Q -> Q) (x : pyfloat) : pyfloat :=
  match x with
  | Finite a => Finite (f a)
  | NaN => NaN
  end.

(** [str(n)] for an integer. *)
Definition py_str_int (n : Z) : string := NilZero.string_of_int (Z.to_int n).

(** ** src/trading/executor.py *)
Module Executor.

Inductive Action := BUY | SELL.
Inductive OrderType := MKT | LMT | STP.

Definition Action_eqb (a b : Action) : bool :=
  match a, b with BUY, BUY | SELL, SELL => true | _, _ => false end.
Definition OrderType_eqb (a b : OrderType) : bool :=
  match a, b with MKT, MKT | LMT, LMT | STP, STP => true | _, _ => false end.

(** [ib_insync.Contract], restricted to the attributes the code reads. *)
Record Contract := mkContract {
  conId : Z;
  symbol : string;
  exchange : string;
  currency : string
}.

(** [ib_insync.Order], restricted to the attributes the code reads or
    writes.  [orderId = 0] means "not yet assigned". *)
Record Order := mkOrder {
  orderId : Z;
  action : Action;
  orderType : OrderType;
  totalQuantity : Z;
  lmtPrice : pyfloat;
  auxPrice : pyfloat;
  parentId : Z;
  ocaGroup : string;
  ocaType : Z;
  transmit : bool
}.

Record Trade := mkTrade { contract : Contract; order : Order }.

Record Position := mkPosition {
  p_contract : Contract;
  position : Z;
  avgCost : Q
}.

(** The broker session. [minTicks] answers [reqContractDetails(...)[0].minTick]
    per symbol; [placed] logs every [placeOrder] call, oldest first. *)
Record IB := mkIB {
  openTrades : list Trade;
  positions : list Position;
  nextReqId : Z;
  minTicks : gmap string Q;
  placed : list Trade
}.

Definition set_openTrades (ib : IB) (l : list Trade) : IB :=
  mkIB l (positions ib) (nextReqId ib) (minTicks ib) (placed ib).

(** Attribute assignments on an order object. *)
Definition set_orderId (o : Order) (i : Z) : Order :=
  mkOrder i (action o) (orderType o) (totalQuantity o) (lmtPrice o) (auxPrice o)
          (parentId o) (ocaGroup o) (ocaType o) (transmit o).
Definition set_lmtPrice (o : Order) (p : pyfloat) : Order :=
  mkOrder (orderId o) (action o) (orderType o) (totalQuantity o) p (auxPrice o)
          (parentId o) (ocaGroup o) (ocaType o) (transmit o).
Definition set_auxPrice (o : Order) (p : pyfloat) : Order :=
  mkOrder (orderId o) (action o) (orderType o) (totalQuantity o) (lmtPrice o) p
          (parentId o) (ocaGroup o) (ocaType o) (transmit o).
Definition set_parentId (o : Order) (i : Z) : Order :=
  mkOrder (orderId o) (action o) (orderType o) (totalQuantity o) (lmtPrice o) (auxPrice o)
          i (ocaGroup o) (ocaType o) (transmit o).
(** [o.ocaGroup = g; o.ocaType = 1] *)
Definition set_oca (o : Order) (g : string) : Order :=
  mkOrder (orderId o) (action o) (orderType o) (totalQuantity o) (lmtPrice o) (auxPrice o)
          (parentId o) g 1 (transmit o).

(** Order constructors of ib_insync ([transmit] defaults to [True]). *)
Definition MarketOrder (a : Action) (q : Z) : Order :=
  mkOrder 0 a MKT q 0 0 0 "" 0 true.
Definition LimitOrder (a : Action) (q : Z) (p : pyfloat) : Order :=
  mkOrder 0 a LMT q p 0 0 "" 0 true.
Definition StopOrder (a : Action) (q : Z) (p : pyfloat) : Order :=
  mkOrder 0 a STP q 0 p 0 "" 0 true.

(** [ib.client.getReqId()] *)
Definition getReqId (ib : IB) : IB * Z :=
  (mkIB (openTrades ib) (positions ib) (nextReqId ib + 1) (minTicks ib) (placed ib),
   nextReqId ib).

(** [ib.cancelOrder(order)] *)
Definition cancelOrder (ib : IB) (o : Order) : IB :=
  set_openTrades ib
    (List.filter (fun t => negb (orderId (order t) =? orderId o)) (openTrades ib)).

Definition oid (t : Trade) : Z := orderId (order t).

(** [order.orderId or self.client.getReqId()]: the id under which
    [placeOrder] files the order. *)
Definition placed_id (ib : IB) (o : Order) : Z :=
  if orderId o =? 0 then nextReqId ib else orderId o.

Definition has_order_id (i : Z) (l : list Trade) : bool :=
  existsb (fun t => orderId (order t) =? i) l.

(** [ib.placeOrder(contract, order)]: [orderId = order.orderId or getReqId()];
    an open trade with that id is modified in place, otherwise a new trade
    is created. *)
Definition placeOrder (ib : IB) (c : Contract) (o : Order) : IB * Trade :=
  let '(ib1, i) := if orderId o =? 0 then getReqId ib else (ib, orderId o) in
  let o' := set_orderId o i in
  if has_order_id i (openTrades ib1) then
    let book := List.map (fun t => if orderId (order t) =? i
                                   then mkTrade (contract t) o' else t)
                         (openTrades ib1) in
    let t' := mkTrade c o' in
    (mkIB book (positions ib1) (nextReqId ib1) (minTicks ib1) (placed ib1 ++ [t']), t')
  else
    let t' := mkTrade c o' in
    (mkIB (openTrades ib1 ++ [t']) (positions ib1) (nextReqId ib1) (minTicks ib1)
          (placed ib1 ++ [t']), t').

(** [calculate_position_size(price, stop_loss_price, net_liquidation)] *)
Definition calculate_position_size (risk_per_trade : Q)
           (price stop_loss_price net_liquidation : Q) : Z :=
  let cash_risk := (net_liquidation * risk_per_trade)%Q in
  let risk_per_share := Qabs (price - stop_loss_price) in
  if Qeqb risk_per_share 0 then 0
  else py_int (cash_risk / risk_per_share).

(** [_get_min_tick(contract)]: the broker's min tick when it is [> 0]. *)
Definition _get_min_tick (ib : IB) (c : Contract) : option Q :=
  match minTicks ib !! symbol c with
  | Some mt => if Qltb 0 mt then Some mt else None
  | None => None
  end.

Definition _round_price_down_to_tick (price min_tick : Q) : Q :=
  if Qleb min_tick 0 then price
  else (inject_Z (Qfloor (price / min_tick)) * min_tick)%Q.

Definition _round_price_up_to_tick (price min_tick : Q) : Q :=
  if Qleb min_tick 0 then price
  else (inject_Z (Qceiling (price / min_tick)) * min_tick)%Q.

(** The two roundings on a price that may be [nan]: [Decimal("nan")]
    goes through the division, [to_integral_value] and the product, and
    [float] gives [nan] back. *)
Definition round_down_float (price : pyfloat) (min_tick : Q) : pyfloat :=
  float_map (fun p => _round_price_down_to_tick p min_tick) price.
Definition round_up_float (price : pyfloat) (min_tick : Q) : pyfloat :=
  float_map (fun p => _round_price_up_to_tick p min_tick) price.

(** [get_open_trades_for_symbol(symbol)] *)
Definition get_open_trades_for_symbol (ib : IB) (sym : string) : list Trade :=
  List.filter (fun t => String.eqb (symbol (contract t)) sym) (openTrades ib).

(** [cancel_orders_for_symbol(symbol)]: returns the count cancelled. *)
Definition cancel_orders_for_symbol (ib : IB) (sym : string) : IB * Z :=
  let trades := get_open_trades_for_symbol ib sym in
  (fold_left (fun ib t => cancelOrder ib (order t)) trades ib,
   Z.of_nat (length trades)).

(** [get_position_quantity(symbol)]: first matching position, else 0. *)
Fixpoint position_quantity_in (l : list Position) (sym : string) : Z :=
  match l with
  | [] => 0
  | p :: rest => if String.eqb (symbol (p_contract p)) sym then position p
                 else position_quantity_in rest sym
  end.
Definition get_position_quantity (ib : IB) (sym : string) : Z :=
  position_quantity_in (positions ib) sym.

(** [sell_position(contract, quantity)] *)
Definition sell_position (ib : IB) (c : Contract) (quantity : Z) : IB * option Trade :=
  if quantity <=? 0 then (ib, None)
  else
    let actual_position := get_position_quantity ib (symbol c) in
    if actual_position <=? 0 then (ib, None)
    else
      let safe_quantity := Z.min quantity actual_position in
      let ib1 := fst (cancel_orders_for_symbol ib (symbol c)) in
      let sell_order := MarketOrder SELL safe_quantity in
      let '(ib2, trade) := placeOrder ib1 c sell_order in
      (ib2, Some trade).

Definition is_sell_stop (t : Trade) : bool :=
  OrderType_eqb (orderType (order t)) STP && Action_eqb (action (order t)) SELL.
Definition is_sell_limit (t : Trade) : bool :=
  OrderType_eqb (orderType (order t)) LMT && Action_eqb (action (order t)) SELL.

(** [for extra in trades: self.ib.cancelOrder(extra.order)] *)
Definition cancel_extras (ib : IB) (extras : list Trade) : IB :=
  fold_left (fun ib t => cancelOrder ib (order t)) extras ib.

Definition oca_exit_group (sym : string) : string := String.append "OCA_EXIT_" sym.

(** [upsert_stop_loss(contract, stop_price, quantity)] *)
Definition upsert_stop_loss (ib : IB) (c : Contract) (stop_price : pyfloat)
           (quantity : option Z) : IB * bool :=
  let sym := symbol c in
  if String.eqb sym "" then (ib, false)
  else
    let stop_price :=
      match _get_min_tick ib c with
      | Some min_tick => round_down_float stop_price min_tick
      | None => stop_price
      end in
    let trades := get_open_trades_for_symbol ib sym in
    let stop_trades := List.filter is_sell_stop trades in
    let tp_trades := List.filter is_sell_limit trades in
    match stop_trades with
    | trade :: extra_stops =>
        (* If we already have a stop, modify it *)
        let order0 := set_auxPrice (order trade) stop_price in
        let '(ib1, order1) :=
          match tp_trades with
          | tp0 :: extra_tps =>
              let oca_group := oca_exit_group sym in
              let order1 := set_oca order0 oca_group in
              let ib1 := cancel_extras ib extra_tps in
              let tp_order := set_oca (order tp0) oca_group in
              (fst (placeOrder ib1 (contract tp0) tp_order), order1)
          | [] => (ib, order0)
          end in
        let ib2 := fst (placeOrder ib1 (contract trade) order1) in
        (cancel_extras ib2 extra_stops, true)
    | [] =>
        (* Otherwise, create a new stop-loss *)
        let qty := match quantity with
                   | Some q => q
                   | None => get_position_quantity ib sym
                   end in
        if qty <=? 0 then (ib, false)
        else
          let sl_order0 := StopOrder SELL qty stop_price in
          let '(ib1, sl_order) :=
            match tp_trades with
            | tp0 :: extra_tps =>
                let oca_group := oca_exit_group sym in
                let sl_order := set_oca sl_order0 oca_group in
                let ib1 := cancel_extras ib extra_tps in
                let tp_order := set_oca (order tp0) oca_group in
                (fst (placeOrder ib1 (contract tp0) tp_order), sl_order)
            | [] => (ib, sl_order0)
            end in
          (fst (placeOrder ib1 c sl_order), true)
    end.

(** [upsert_take_profit(contract, take_profit_price, quantity)] *)
Definition upsert_take_profit (ib : IB) (c : Contract) (take_profit_price : pyfloat)
           (quantity : option Z) : IB * bool :=
  let sym := symbol c in
  if String.eqb sym "" then (ib, false)
  else
    let take_profit_price :=
      match _get_min_tick ib c with
      | Some min_tick => round_up_float take_profit_price min_tick
      | None => take_profit_price
      end in
    let trades := get_open_trades_for_symbol ib sym in
    let stop_trades := List.filter is_sell_stop trades in
    let tp_trades := List.filter is_sell_limit trades in
    match tp_trades with
    | trade :: extra_tps =>
        (* If we already have a TP, modify it *)
        let order0 := set_lmtPrice (order trade) take_profit_price in
        let '(ib1, order1) :=
          match stop_trades with
          | sl0 :: extra_stops =>
              let oca_group := oca_exit_group sym in
              let order1 := set_oca order0 oca_group in
              let ib1 := cancel_extras ib extra_stops in
              let sl_order := set_oca (order sl0) oca_group in
              (fst (placeOrder ib1 (contract sl0) sl_order), order1)
          | [] => (ib, order0)
          end in
        let ib2 := fst (placeOrder ib1 (contract trade) order1) in
        (cancel_extras ib2 extra_tps, true)
    | [] =>
        (* Otherwise, create a new TP *)
        let qty := match quantity with
                   | Some q => q
                   | None => get_position_quantity ib sym
                   end in
        if qty <=? 0 then (ib, false)
        else
          let tp_order0 := LimitOrder SELL qty take_profit_price in
          let '(ib1, tp_order) :=
            match stop_trades with
            | sl0 :: extra_stops =>
                let oca_group := oca_exit_group sym in
                let tp_order := set_oca tp_order0 oca_group in
                let ib1 := cancel_extras ib extra_stops in
                let sl_order := set_oca (order sl0) oca_group in
                (fst (placeOrder ib1 (contract sl0) sl_order), tp_order)
            | [] => (ib, tp_order0)
            end in
          (fst (placeOrder ib1 c tp_order), true)
    end.

(** [get_pending_sell_orders_for_symbol(symbol)]: every open SELL order
    (MKT, LMT or STP) of the symbol. *)
Definition get_pending_sell_orders_for_symbol (ib : IB) (sym : string) : list Trade :=
  List.filter (fun t => Action_eqb (action (order t)) SELL)
              (get_open_trades_for_symbol ib sym).

Definition oca_parent_group (parent_id : Z) : string :=
  String.append "OCA_" (py_str_int parent_id).

(** [execute_buy_order(contract, quantity, stop_loss_price, take_profit_price)] *)
Definition execute_buy_order (ib : IB) (c : Contract) (quantity : Z)
           (stop_loss_price take_profit_price : option Q) : IB * option Trade :=
  if quantity <=? 0 then (ib, None)
  else
    match stop_loss_price, take_profit_price with
    | None, None =>
        let '(ib1, trade) := placeOrder ib c (MarketOrder BUY quantity) in
        (ib1, Some trade)
    | _, _ =>
        let '(ib1, parent_id) := getReqId ib in
        let parent_order := set_orderId (MarketOrder BUY quantity) parent_id in
        let oca_group := oca_parent_group parent_id in
        let '(ib2, children_tp) :=
          match take_profit_price with
          | Some tp =>
              let '(ib2, i) := getReqId ib1 in
              (ib2, [set_oca (set_parentId (set_orderId (LimitOrder SELL quantity tp) i)
                                           parent_id) oca_group])
          | None => (ib1, [])
          end in
        let '(ib3, children_sl) :=
          match stop_loss_price with
          | Some sl =>
              let '(ib3, i) := getReqId ib2 in
              (ib3, [set_oca (set_parentId (set_orderId (StopOrder SELL quantity sl) i)
                                           parent_id) oca_group])
          | None => (ib2, [])
          end in
        let children := children_tp ++ children_sl in
        let '(ib4, trade) := placeOrder ib3 c parent_order in
        (fold_left (fun ib child => fst (placeOrder ib c child)) children ib4,
         Some trade)
    end.

End Executor.

(** ** Protective exit orders: the standing invariant *)
Module ExitOrders.
Import Executor.

(** The live protective stops (SELL STP) and take-profits (SELL LMT) of a
    symbol. *)
Definition stops_of (ib : IB) (sym : string) : list Trade :=
  List.filter is_sell_stop (get_open_trades_for_symbol ib sym).
Definition tps_of (ib : IB) (sym : string) : list Trade :=
  List.filter is_sell_limit (get_open_trades_for_symbol ib sym).

(** At most one order of each of two kinds for the symbol, and when both
    exist they share one (non-empty) OCA group. *)
Definition pair_invariant (mine other : Trade -> bool) (ib : IB) (sym : string) : Prop :=
  (length (List.filter mine (get_open_trades_for_symbol ib sym)) <= 1)%nat /\
  (length (List.filter other (get_open_trades_for_symbol ib sym)) <= 1)%nat /\
  forall s t,
    In s (List.filter mine (get_open_trades_for_symbol ib sym)) ->
    In t (List.filter other (get_open_trades_for_symbol ib sym)) ->
    ocaGroup (order s) = ocaGroup (order t) /\ ocaGroup (order s) <> "".

(** "At most one live stop order and at most one live take-profit order, and
    if both exist they share one OCA group". *)
Definition exit_invariant (ib : IB) (sym : string) : Prop :=
  pair_invariant is_sell_stop is_sell_limit ib sym.

(** Request ids are positive, and the order ids of the open trades are
    distinct, positive, and below the next request id: every open order was
    filed through [placeOrder]. *)
Definition well_formed (ib : IB) : Prop :=
  0 < nextReqId ib /\
  NoDup (List.map oid (openTrades ib)) /\
  Forall (fun t => 0 < oid t < nextReqId ib) (openTrades ib).

(** The common shape of [upsert_stop_loss] and [upsert_take_profit], after
    the symbol test and the tick rounding: [mine] selects the orders of the
    kind being upserted, [other] those of the opposite kind, [reprice] sets
    the new price on an existing order and [fresh] builds a new one. *)
Definition upsert_shape (mine other : Trade -> bool) (reprice : Order -> Order)
           (fresh : Z -> Order) (ib : IB) (c : Contract) (quantity : option Z) : IB * bool :=
  let sym := symbol c in
  let trades := get_open_trades_for_symbol ib sym in
  let mine_trades := List.filter mine trades in
  let other_trades := List.filter other trades in
  match mine_trades with
  | trade :: extras =>
      let order0 := reprice (order trade) in
      let '(ib1, order1) :=
        match other_trades with
        | o0 :: extra_others =>
            let oca_group := oca_exit_group sym in
            let order1 := set_oca order0 oca_group in
            let ib1 := cancel_extras ib extra_others in
            let o_order := set_oca (order o0) oca_group in
            (fst (placeOrder ib1 (contract o0) o_order), order1)
        | [] => (ib, order0)
        end in
      let ib2 := fst (placeOrder ib1 (contract trade) order1) in
      (cancel_extras ib2 extras, true)
  | [] =>
      let qty := match quantity with
                 | Some q => q
                 | None => get_position_quantity ib sym
                 end in
      if qty <=? 0 then (ib, false)
      else
        let new0 := fresh qty in
        let '(ib1, new_order) :=
          match other_trades with
          | o0 :: extra_others =>
              let oca_group := oca_exit_group sym in
              let new_order := set_oca new0 oca_group in
              let ib1 := cancel_extras ib extra_others in
              let o_order := set_oca (order o0) oca_group in
              (fst (placeOrder ib1 (contract o0) o_order), new_order)
          | [] => (ib, new0)
          end in
        (fst (placeOrder ib1 c new_order), true)
  end.

(** Every open trade of [ib'] descends from a trade of [book0] with the same
    id and the same contract. *)
Definition descends (book0 : list Trade) (ib' : IB) : Prop :=
  forall y, In y (openTrades ib') ->
            exists y0, In y0 book0 /\ oid y0 = oid y /\ contract y0 = contract y.

(** The open trades consist of [S], of [T] when [hasT] holds, and of trades
    of [book0] that are of neither kind for the symbol. *)
Definition covered (mine other : Trade -> bool) (sym : string) (S T : Trade)
           (hasT : Prop) (book0 book : list Trade) : Prop :=
  forall x, In x book ->
            x = S \/ (hasT /\ x = T) \/
            (In x book0 /\
             ~ (symbol (contract x) = sym /\ mine x = true) /\
             ~ (symbol (contract x) = sym /\ other x = true)).

(** What an operation on the exit orders of [sym] leaves behind: distinct
    ids, a cover of the open trades by the order [S] it filed, the order [T]
    it re-linked (when [hasT]) and untouched trades of [book0]; [S] and [T]
    are of the two kinds, for the symbol, under ids below the next request
    id, and in one OCA group. *)
Definition exit_cover (mine other : Trade -> bool) (sym : string) (book0 : list Trade)
           (ib' : IB) (S T : Trade) (hasT : Prop) : Prop :=
  NoDup (List.map oid (openTrades ib')) /\
  covered mine other sym S T hasT book0 (openTrades ib') /\
  other S = false /\ (hasT -> mine T = false) /\
  (hasT -> ocaGroup (order S) = ocaGroup (order T) /\ ocaGroup (order S) <> "") /\
  symbol (contract S) = sym /\ (hasT -> symbol (contract T) = sym) /\
  0 < oid S < nextReqId ib' /\ (hasT -> 0 < oid T < nextReqId ib').

(** The linking step of an upsert: when orders of the opposite kind exist,
    the extras are cancelled and the first one is re-filed in the symbol's
    OCA group, and the upserted order joins that group. *)
Definition link_other (other : Trade -> bool) (ib : IB) (sym : string) : IB :=
  match List.filter other (get_open_trades_for_symbol ib sym) with
  | o0 :: extra_others =>
      fst (placeOrder (cancel_extras ib extra_others) (contract o0)
                      (set_oca (order o0) (oca_exit_group sym)))
  | [] => ib
  end.
Definition link_order (other : Trade -> bool) (ib : IB) (sym : string) (o : Order) : Order :=
  match List.filter other (get_open_trades_for_symbol ib sym) with
  | _ :: _ => set_oca o (oca_exit_group sym)
  | [] => o
  end.
Definition linked_other (other : Trade -> bool) (ib : IB) (sym : string) : Trade :=
  match List.filter other (get_open_trades_for_symbol ib sym) with
  | o0 :: _ => mkTrade (contract o0) (set_oca (order o0) (oca_exit_group sym))
  | [] => mkTrade (mkContract 0 "" "" "") (MarketOrder BUY 0)
  end.
Definition has_other (other : Trade -> bool) (ib : IB) (sym : string) : Prop :=
  List.filter other (get_open_trades_for_symbol ib sym) <> [].

(** The stop price after tick rounding. *)
Definition rounded_stop (ib : IB) (c : Contract) (stop_price : pyfloat) : pyfloat :=
  match _get_min_tick ib c with
  | Some min_tick => round_down_float stop_price min_tick
  | None => stop_price
  end.
Definition rounded_take_profit (ib : IB) (c : Contract) (take_profit_price : pyfloat)
  : pyfloat :=
  match _get_min_tick ib c with
  | Some min_tick => round_up_float take_profit_price min_tick
  | None => take_profit_price
  end.

End ExitOrders.

(** ** Persistence collaborator (src/utils/database.py), append-only logs *)
Module Database.

(** A row written by [record_trade]. *)
Record TradeRecord := mkTradeRecord {
  tr_symbol : string;
  tr_action : string;
  tr_quantity : Z;
  tr_price : pyfloat;
  tr_stop_loss : option Q;
  tr_take_profit : option Q;
  tr_sentiment_score : Q;
  tr_status : string;
  tr_rationale : option string
}.

Inductive ReviewAction := HOLD | SELL | ADJUST_STOP | ADJUST_TP.

(** A row written by [log_position_review]; its id is its index. *)
Record ReviewRecord := mkReviewRecord {
  rv_symbol : string;
  rv_current_price : pyfloat;
  rv_quantity : Z;
  rv_action : ReviewAction;
  rv_new_stop_loss : option pyfloat;
  rv_new_take_profit : option pyfloat;
  rv_rationale : string;
  rv_executed : bool
}.

Definition set_executed (r : ReviewRecord) : ReviewRecord :=
  mkReviewRecord (rv_symbol r) (rv_current_price r) (rv_quantity r) (rv_action r)
                 (rv_new_stop_loss r) (rv_new_take_profit r) (rv_rationale r) true.

(** [mark_position_review_executed(review_id)] *)
Definition mark_position_review_executed (reviews : list ReviewRecord) (review_id : nat)
  : list ReviewRecord := alter set_executed review_id reviews.

End Database.

(** ** src/trading/position_manager.py *)
Module PositionManager.
Import Executor Database.

(** An entry of [_position_metadata]; times are seconds as rationals. *)
Record Meta := mkMeta {
  entry_time : Q;
  entry_price : Q;
  adjustment_count : Z;
  peak_pnl_pct : Q;
  peak_price : Q
}.

(** The validated answer of [ai_researcher.review_position]: the two prices
    are [float(...)] of the reply without a range check, so they may be
    [nan]. *)
Record AIReview := mkAIReview {
  ai_action : ReviewAction;
  ai_confidence : Q;
  ai_urgency : string;
  ai_rationale : string;
  new_stop_loss : option pyfloat;
  new_take_profit : option pyfloat
}.

Record PM := mkPM {
  ib : IB;
  review_interval_seconds : Q;
  _position_metadata : gmap string Meta;
  _last_review : gmap string Q;
  reviews : list ReviewRecord;
  trades : list TradeRecord
}.

(** What the collaborators answer during one review: the clock, the price
    (the portfolio's [float(marketPrice)], taken as it is and so possibly
    [nan]; else the quote fallback, which is checked; [None] when no price
    can be obtained), whether an entry time is known, and the decision
    service's answer ([None] when the call raised). *)
Record ReviewInput := mkReviewInput {
  now : Q;
  quote : option pyfloat;
  entry_time_known : bool;
  ai_answer : option AIReview
}.

(** The dict returned by [_review_single_position]. *)
Record ReviewResult := mkReviewResult {
  res_symbol : string;
  res_action : ReviewAction;
  res_executed : bool;
  res_execution_result : option string;
  res_review_id : nat
}.

Definition with_ib (pm : PM) (b : IB) : PM :=
  mkPM b (review_interval_seconds pm) (_position_metadata pm) (_last_review pm)
       (reviews pm) (trades pm).
Definition with_meta (pm : PM) (m : gmap string Meta) : PM :=
  mkPM (ib pm) (review_interval_seconds pm) m (_last_review pm) (reviews pm) (trades pm).
Definition with_last_review (pm : PM) (m : gmap string Q) : PM :=
  mkPM (ib pm) (review_interval_seconds pm) (_position_metadata pm) m (reviews pm) (trades pm).
Definition with_reviews (pm : PM) (l : list ReviewRecord) : PM :=
  mkPM (ib pm) (review_interval_seconds pm) (_position_metadata pm) (_last_review pm)
       l (trades pm).
Definition with_trades (pm : PM) (l : list TradeRecord) : PM :=
  mkPM (ib pm) (review_interval_seconds pm) (_position_metadata pm) (_last_review pm)
       (reviews pm) l.

(** [_record_position_entry(symbol, entry_price)] *)
Definition _record_position_entry (pm : PM) (t : Q) (sym : string) (price : Q) : PM :=
  with_meta pm (<[sym := mkMeta t price 0 0 price]> (_position_metadata pm)).

(** [_increment_adjustment_count(symbol)] *)
Definition _increment_adjustment_count (pm : PM) (sym : string) : PM :=
  let m := default (mkMeta 0 0 0 0 0) (_position_metadata pm !! sym) in
  with_meta pm (<[sym := mkMeta (entry_time m) (entry_price m) (adjustment_count m + 1)
                                (peak_pnl_pct m) (peak_price m)]> (_position_metadata pm)).

(** [_clear_position_metadata(symbol)] *)
Definition _clear_position_metadata (pm : PM) (sym : string) : PM :=
  with_last_review (with_meta pm (delete sym (_position_metadata pm)))
                   (delete sym (_last_review pm)).

(** Peak tracking: [peak_pnl_pct] and [peak_price] only ever increase
    ([if pnl_pct > peak_pnl_pct], [if current_price > peak_price]: false for
    [nan]). *)
Definition update_peaks (pm : PM) (sym : string) (pnl_pct current_price : pyfloat) : PM :=
  match _position_metadata pm !! sym with
  | None => pm
  | Some m =>
      let pk := match pnl_pct with
                | Finite x => if Qltb (peak_pnl_pct m) x then x else peak_pnl_pct m
                | NaN => peak_pnl_pct m
                end in
      let pp := match current_price with
                | Finite x => if Qltb (peak_price m) x then x else peak_price m
                | NaN => peak_price m
                end in
      with_meta pm (<[sym := mkMeta (entry_time m) (entry_price m) (adjustment_count m) pk pp]>
                      (_position_metadata pm))
  end.

(** The action dispatch at the end of [_review_single_position], after the
    review row [review_id] was logged with [executed=False].  The execution
    results "STOP" and "TP" stand for [f"STOP -> {new_stop:.2f}"] and
    [f"TP -> {new_tp:.2f}"]. *)
Definition apply_decision (pm : PM) (c : Contract) (quantity : Z) (current_price : pyfloat)
           (d : AIReview) (review_id : nat) : PM * bool * option string :=
  let sym := symbol c in
  match ai_action d with
  | HOLD => (pm, false, None)
  | SELL =>
      let existing_sells := get_pending_sell_orders_for_symbol (ib pm) sym in
      match existing_sells with
      | _ :: _ => (pm, false, None)
      | [] =>
          match sell_position (ib pm) c quantity with
          | (ib1, Some _) =>
              let pm1 := _clear_position_metadata (with_ib pm ib1) sym in
              let pm2 := with_reviews pm1 (mark_position_review_executed (reviews pm1) review_id) in
              let pm3 := with_trades pm2
                           (trades pm2 ++
                            [mkTradeRecord sym "SELL" quantity current_price None None
                                           (ai_confidence d) "EXECUTED" (Some (ai_rationale d))]) in
              (pm3, true, Some "SOLD")
          | (ib1, None) => (with_ib pm ib1, false, None)
          end
      end
  | ADJUST_STOP =>
      match new_stop_loss d with
      | None => (pm, false, None)
      | Some new_stop =>
          if fleb new_stop 0 || fleb current_price new_stop then (pm, false, None)
          else
            match upsert_stop_loss (ib pm) c new_stop (Some quantity) with
            | (ib1, true) =>
                let pm1 := _increment_adjustment_count (with_ib pm ib1) sym in
                (with_reviews pm1 (mark_position_review_executed (reviews pm1) review_id),
                 true, Some "STOP")
            | (ib1, false) => (with_ib pm ib1, false, None)
            end
      end
  | ADJUST_TP =>
      match new_take_profit d with
      | None => (pm, false, None)
      | Some new_tp =>
          if fleb new_tp current_price then (pm, false, None)
          else
            match upsert_take_profit (ib pm) c new_tp (Some quantity) with
            | (ib1, true) =>
                let pm1 := _increment_adjustment_count (with_ib pm ib1) sym in
                (with_reviews pm1 (mark_position_review_executed (reviews pm1) review_id),
                 true, Some "TP")
            | (ib1, false) => (with_ib pm ib1, false, None)
            end
      end
  end.

(** [_review_single_position(position, ...)] *)
Definition _review_single_position (pm : PM) (pos : Position) (inp : ReviewInput)
  : PM * option ReviewResult :=
  let c := p_contract pos in
  let sym := symbol c in
  let quantity := position pos in
  let avg_cost := avgCost pos in
  if quantity <=? 0 then (pm, None)
  else
    let last_review := default 0%Q (_last_review pm !! sym) in
    if Qltb (now inp - last_review) (review_interval_seconds pm) then (pm, None)
    else
      let pm := with_last_review pm (<[sym := now inp]> (_last_review pm)) in
      match quote inp with
      | None => (pm, None)
      | Some current_price =>
          let pnl_pct : pyfloat :=
            if Qltb 0 avg_cost
            then float_map (fun cp => ((cp - avg_cost) / avg_cost * 100)%Q) current_price
            else 0%Q in
          let pm := if entry_time_known inp then pm
                    else _record_position_entry pm (now inp) sym avg_cost in
          let pm := match _position_metadata pm !! sym with
                    | Some _ => pm
                    | None => _record_position_entry pm (now inp) sym avg_cost
                    end in
          let pm := update_peaks pm sym pnl_pct current_price in
          match ai_answer inp with
          | None => (pm, None)
          | Some d =>
              let review_id := length (reviews pm) in
              let pm := with_reviews pm
                          (reviews pm ++
                           [mkReviewRecord sym current_price quantity (ai_action d)
                                           (new_stop_loss d) (new_take_profit d)
                                           (ai_rationale d) false]) in
              let '(pm', executed, execution_result) :=
                apply_decision pm c quantity current_price d review_id in
              (pm', Some (mkReviewResult sym (ai_action d) executed execution_result review_id))
          end
      end.

End PositionManager.

(** ** Python exceptions and a small error monad *)

(** JSON-like Python values (documents, configs, override values).  A dict is
    an association list in insertion order. *)
#[local] Unset Elimination Schemes.
Inductive json :=
| JNull
| JBool (b : bool)
| JInt (n : Z)
| JFloat (q : Q)
| JStr (s : string)
| JList (l : list json)
| JDict (d : list (string * json)).
#[local] Set Elimination Schemes.

(** The exceptions the modelled code raises or catches.  [ValueErrorFmt p v]
    is a [ValueError] whose message is the f-string [f"{p}{v}"] for a value
    [v] that is not a string. *)
Inductive PyExn :=
| SymbolTimeout (msg : string)
| TimeoutError (msg : string)
| ConnectionError (msg : string)
| ValueError (msg : string)
| ValueErrorFmt (prefix : string) (v : json)
| AttributeError (msg : string)
| TypeError (msg : string)
| ZeroDivisionError
| OtherError (type_name msg : string).

Inductive result (A : Type) :=
| Ok (a : A)
| Raise (e : PyExn).
Arguments Ok {A} a.
Arguments Raise {A} e.

Definition rbind {A B} (r : result A) (k : A -> result B) : result B :=
  match r with
  | Ok a => k a
  | Raise e => Raise e
  end.

Declare Scope result_scope.
Delimit Scope result_scope with result.
Notation "'let*' x := r 'in' k" := (rbind r (fun x => k))
  (at level 10, x name, r at level 100, k at level 200) : result_scope.

(** ** String helpers: [str.strip()], [str.upper()] on ASCII *)

Definition is_space (c : ascii) : bool :=
  let n := nat_of_ascii c in
  ((9 <=? n)%nat && (n <=? 13)%nat) || ((28 <=? n)%nat && (n <=? 32)%nat).

Fixpoint lstrip (s : string) : string :=
  match s with
  | EmptyString => EmptyString
  | String c rest => if is_space c then lstrip rest else s
  end.

Fixpoint rstrip (s : string) : string :=
  match s with
  | EmptyString => EmptyString
  | String c rest =>
      match rstrip rest with
      | EmptyString => if is_space c then EmptyString else String c EmptyString
      | r => String c r
      end
  end.

Definition strip (s : string) : string := rstrip (lstrip s).

Definition upper_ascii (c : ascii) : ascii :=
  let n := nat_of_ascii c in
  if ((97 <=? n)%nat && (n <=? 122)%nat) then ascii_of_nat (n - 32) else c.

Fixpoint upper (s : string) : string :=
  match s with
  | EmptyString => EmptyString
  | String c rest => String (upper_ascii c) (upper rest)
  end.

Definition nonblank (s : string) : bool := negb (String.eqb (strip s) "").

(** ** src/utils/runtime_config.py *)
Module RuntimeConfig.

Local Open Scope result_scope.

(** [d.get(k)] *)
Fixpoint dict_get (d : list (string * json)) (k : string) : option json :=
  match d with
  | [] => None
  | (k', v) :: rest => if String.eqb k' k then Some v else dict_get rest k
  end.

(** [d[k] = v]: overwrite in place, or add at the end. *)
Fixpoint dict_set (d : list (string * json)) (k : string) (v : json) : list (string * json) :=
  match d with
  | [] => [(k, v)]
  | (k', v') :: rest => if String.eqb k' k then (k, v) :: rest
                        else (k', v') :: dict_set rest k v
  end.

(** [d.pop(k, None)] *)
Definition dict_pop (d : list (string * json)) (k : string) : list (string * json) :=
  List.filter (fun kv => negb (String.eqb (fst kv) k)) d.

Definition dict_has (d : list (string * json)) (k : string) : bool :=
  match dict_get d k with Some _ => true | None => false end.

(** Python truthiness. *)
Definition truthy (v : json) : bool :=
  match v with
  | JNull => false
  | JBool b => b
  | JInt n => negb (n =? 0)
  | JFloat q => negb (Qeqb q 0)
  | JStr s => negb (String.eqb s "")
  | JList l => match l with [] => false | _ => true end
  | JDict d => match d with [] => false | _ => true end
  end.

Definition default_runtime_config : json :=
  JDict [("schema_version", JInt 1);
         ("overrides", JDict []);
         ("strategies", JList [JDict [("name", JStr "Default"); ("overrides", JDict [])]]);
         ("active_strategy", JStr "Default")].

Definition deprecated_ai_keys : list string :=
  ["trade_decision_enabled"; "sentiment_threshold"; "sentiment_analysis_enabled";
   "trade_decision_system_prompt"; "trade_decision_prompt_addendum";
   "buy_selection_prompt_addendum"; "position_review_prompt_addendum";
   "order_review_prompt_addendum"].

(** The migration applied to one [overrides] holder. *)
Definition migrate_holder (holder : json) : json :=
  match holder with
  | JDict h =>
      let h1 :=
        match dict_get h "ai" with
        | Some (JDict ai) =>
            let ai1 :=
              match dict_get ai "trade_decision_system_prompt" with
              | Some v => if dict_has ai "shortlist_system_prompt" then ai
                          else dict_set ai "shortlist_system_prompt" v
              | None => ai
              end in
            dict_set h "ai" (JDict (fold_left dict_pop deprecated_ai_keys ai1))
        | _ => h
        end in
      let h2 :=
        match dict_get h1 "position_management" with
        | Some (JDict pm) => dict_set h1 "position_management" (JDict (dict_pop pm "enabled"))
        | _ => h1
        end in
      JDict h2
  | _ => holder
  end.

(** One strategy entry [s]: [(s or {}).get("overrides")] is migrated when
    it is a dict; a truthy [s] that is not a dict has no [get]. *)
Definition migrate_strategy (s : json) : result json :=
  if negb (truthy s) then Ok s
  else match s with
       | JDict d =>
           match dict_get d "overrides" with
           | Some (JDict h) => Ok (JDict (dict_set d "overrides" (migrate_holder (JDict h))))
           | _ => Ok s
           end
       | _ => Raise (AttributeError "object has no attribute 'get'")
       end.

Fixpoint migrate_strategies (l : list json) : result (list json) :=
  match l with
  | [] => Ok []
  | s :: rest =>
      let* s' := migrate_strategy s in
      let* rest' := migrate_strategies rest in
      Ok (s' :: rest')
  end.

(** [normalise_runtime_config(doc)] *)
Definition normalise_runtime_config (doc : option json) : result json :=
  match doc with
  | None => Ok default_runtime_config
  | Some (JDict d) =>
      let out := if dict_has d "schema_version" then d
                 else dict_set d "schema_version" (JInt 1) in
      let out := match dict_get out "overrides" with
                 | None | Some JNull => dict_set out "overrides" (JDict [])
                 | _ => out
                 end in
      let out := match dict_get out "strategies" with
                 | None | Some JNull =>
                     dict_set out "strategies"
                              (JList [JDict [("name", JStr "Default"); ("overrides", JDict [])]])
                 | _ => out
                 end in
      let out := if dict_has out "active_strategy" then out
                 else dict_set out "active_strategy" (JStr "Default") in
      let out := match dict_get out "overrides" with
                 | Some h => dict_set out "overrides" (migrate_holder h)
                 | None => out
                 end in
      match dict_get out "strategies" with
      | Some (JList l) =>
          let* l' := migrate_strategies l in
          Ok (JDict (dict_set out "strategies" (JList l')))
      | Some v =>
          if negb (truthy v) then Ok (JDict out)
          else match v with
               | JDict keys =>
                   (* iterating a dict yields its keys: strings without [get] *)
                   if forallb (fun kv => String.eqb (fst kv) "") keys then Ok (JDict out)
                   else Raise (AttributeError "'str' object has no attribute 'get'")
               | JStr _ => Raise (AttributeError "'str' object has no attribute 'get'")
               | _ => Raise (TypeError "object is not iterable")
               end
      | None => Ok (JDict out)
      end
  | Some _ => Raise (ValueError "runtime config must be an object")
  end.

(** [_is_number(v)]: int or float, not bool. *)
Definition _is_number (v : json) : bool :=
  match v with JInt _ | JFloat _ => true | _ => false end.

(** [float(v)] for a number. *)
Definition to_float (v : json) : Q :=
  match v with JInt n => inject_Z n | JFloat q => q | _ => 0%Q end.

Definition join_key (prefix k : string) : string :=
  if String.eqb prefix "" then k else String.append prefix (String.append "." k).

(** [_flatten_overrides]: the value stored under path [key]. *)
Fixpoint flatten_value (key : string) (v : json) {struct v} : list (string * json) :=
  match v with
  | JDict d =>
      if String.eqb key "trading.min_cash_reserve_by_currency" then [(key, v)]
      else
        (fix items (d : list (string * json)) : list (string * json) :=
           match d with
           | [] => []
           | (k, v') :: rest => flatten_value (join_key key k) v' ++ items rest
           end) d
  | _ => [(key, v)]
  end.

(** [_flatten_overrides(overrides, prefix="")] *)
Fixpoint _flatten_overrides (overrides : list (string * json)) (prefix : string)
  : list (string * json) :=
  match overrides with
  | [] => []
  | (k, v) :: rest => flatten_value (join_key prefix k) v ++ _flatten_overrides rest prefix
  end.

Definition msg2 (a b : string) : string := String.append a b.

(** [_validate_markets] *)
Fixpoint validate_market_entries (l : list json) : result unit :=
  match l with
  | [] => Ok tt
  | JStr m :: rest =>
      if negb (nonblank m)
      then Raise (ValueError "trading.markets entries must be non-empty strings")
      else
        let mm := upper (strip m) in
        if String.eqb mm "US" || String.eqb mm "UK"
        then validate_market_entries rest
        else Raise (ValueError (msg2 "Unsupported market: " mm))
  | _ :: _ => Raise (ValueError "trading.markets entries must be non-empty strings")
  end.

Definition _validate_markets (v : json) : result unit :=
  match v with
  | JList (m :: l) => validate_market_entries (m :: l)
  | _ => Raise (ValueError "trading.markets must be a non-empty array")
  end.

Definition _validate_bool (name : string) (v : json) : result unit :=
  match v with
  | JBool _ => Ok tt
  | _ => Raise (ValueError (msg2 name " must be boolean"))
  end.

Definition _validate_float_0_1 (name : string) (v : json) : result unit :=
  if negb (_is_number v) then Raise (ValueError (msg2 name " must be a number"))
  else
    let vv := to_float v in
    if Qltb vv 0 || Qltb 1 vv
    then Raise (ValueError (msg2 name " must be between 0 and 1"))
    else Ok tt.

Definition _validate_positive_number (name : string) (v : json) : result unit :=
  if negb (_is_number v) then Raise (ValueError (msg2 name " must be a number"))
  else if Qleb (to_float v) 0 then Raise (ValueError (msg2 name " must be > 0"))
  else Ok tt.

Definition _validate_non_negative_int (name : string) (v : json) : result unit :=
  match v with
  | JInt n => if n <? 0 then Raise (ValueError (msg2 name " must be >= 0")) else Ok tt
  | _ => Raise (ValueError (msg2 name " must be an integer"))
  end.

Definition _validate_positive_int (name : string) (v : json) : result unit :=
  let* _ := _validate_non_negative_int name v in
  match v with
  | JInt n => if n <=? 0 then Raise (ValueError (msg2 name " must be > 0")) else Ok tt
  | _ => Ok tt
  end.

Definition _validate_string_list (name : string) (max_items : nat) (v : json) : result unit :=
  match v with
  | JList l =>
      if (max_items <? length l)%nat
      then Raise (ValueError (msg2 name (msg2 " must have at most "
                                (msg2 (py_str_int (Z.of_nat max_items)) " entries"))))
      else if forallb (fun item => match item with JStr x => nonblank x | _ => false end) l
      then Ok tt
      else Raise (ValueError (msg2 name " entries must be non-empty strings"))
  | _ => Raise (ValueError (msg2 name " must be an array"))
  end.

Fixpoint validate_reserve_items (d : list (string * json)) : result unit :=
  match d with
  | [] => Ok tt
  | (k, val) :: rest =>
      if negb (nonblank k) then Raise (ValueError "Currency codes must be non-empty strings")
      else if negb (_is_number val)
      then Raise (ValueError (msg2 "Reserve for " (msg2 k " must be a number")))
      else if Qltb (to_float val) 0
      then Raise (ValueError (msg2 "Reserve for " (msg2 k " must be >= 0")))
      else validate_reserve_items rest
  end.

Definition _validate_min_cash_reserve (v : json) : result unit :=
  match v with
  | JDict d => validate_reserve_items d
  | _ => Raise (ValueError "trading.min_cash_reserve_by_currency must be an object")
  end.

Definition _validate_prompt_override (name : string) (v : json) : result unit :=
  match v with
  | JStr x => if 20000 <? Z.of_nat (String.length x)
              then Raise (ValueError (msg2 name " is too long (max 20000 characters)"))
              else Ok tt
  | _ => Raise (ValueError (msg2 name " must be a string"))
  end.

(** [(isinstance(v, str) and v.strip()) or _raise(...)] *)
Definition validate_nonempty_string (name : string) (v : json) : result unit :=
  match v with
  | JStr x => if nonblank x then Ok tt
              else Raise (ValueError (msg2 name " must be a non-empty string"))
  | _ => Raise (ValueError (msg2 name " must be a non-empty string"))
  end.

(** [(_is_number(v) and float(v) >= 0) or _raise(...)] *)
Definition validate_volatility_threshold (v : json) : result unit :=
  if _is_number v && Qleb 0 (to_float v) then Ok tt
  else Raise (ValueError "trading.volatility_threshold must be >= 0").

(** [_ALLOWED_OVERRIDE_VALIDATORS] *)
Definition _ALLOWED_OVERRIDE_VALIDATORS : list (string * (json -> result unit)) :=
  [ ("trading.max_cash_utilisation", _validate_float_0_1 "trading.max_cash_utilisation");
    ("trading.risk_per_trade", _validate_float_0_1 "trading.risk_per_trade");
    ("trading.max_positions", _validate_non_negative_int "trading.max_positions");
    ("trading.max_new_positions_per_cycle",
       _validate_non_negative_int "trading.max_new_positions_per_cycle");
    ("trading.cash_budget_tag", validate_nonempty_string "trading.cash_budget_tag");
    ("trading.markets", _validate_markets);
    ("trading.min_cash_reserve_by_currency", _validate_min_cash_reserve);
    ("trading.max_share_price", _validate_positive_number "trading.max_share_price");
    ("trading.min_share_price", _validate_positive_number "trading.min_share_price");
    ("trading.min_avg_volume", _validate_non_negative_int "trading.min_avg_volume");
    ("trading.exclude_microcap", _validate_bool "trading.exclude_microcap");
    ("trading.screener.max_candidates",
       _validate_positive_int "trading.screener.max_candidates");
    ("trading.screener.scan_codes",
       _validate_string_list "trading.screener.scan_codes" 20);
    ("trading.screener.include_reddit_symbols",
       _validate_bool "trading.screener.include_reddit_symbols");
    ("trading.screener.include_symbols",
       _validate_string_list "trading.screener.include_symbols" 500);
    ("trading.screener.exclude_symbols",
       _validate_string_list "trading.screener.exclude_symbols" 500);
    ("trading.volatility_threshold", validate_volatility_threshold);
    ("ai.model", validate_nonempty_string "ai.model");
    ("ai.shortlist_system_prompt", _validate_prompt_override "ai.shortlist_system_prompt");
    ("ai.buy_selection_system_prompt",
       _validate_prompt_override "ai.buy_selection_system_prompt");
    ("ai.position_review_system_prompt",
       _validate_prompt_override "ai.position_review_system_prompt");
    ("ai.order_review_system_prompt",
       _validate_prompt_override "ai.order_review_system_prompt");
    ("ai.trade_decision_system_prompt",
       _validate_prompt_override "ai.trade_decision_system_prompt");
    ("ai.trade_decision_prompt_addendum",
       _validate_prompt_override "ai.trade_decision_prompt_addendum");
    ("ai.buy_selection_prompt_addendum",
       _validate_prompt_override "ai.buy_selection_prompt_addendum");
    ("ai.position_review_prompt_addendum",
       _validate_prompt_override "ai.position_review_prompt_addendum");
    ("ai.order_review_prompt_addendum",
       _validate_prompt_override "ai.order_review_prompt_addendum");
    ("ai.sentiment_threshold", _validate_float_0_1 "ai.sentiment_threshold");
    ("intraday.enabled", _validate_bool "intraday.enabled");
    ("intraday.cycle_interval_seconds",
       _validate_non_negative_int "intraday.cycle_interval_seconds");
    ("intraday.cycle_interval_seconds_closed",
       _validate_non_negative_int "intraday.cycle_interval_seconds_closed");
    ("intraday.flatten_minutes_before_close",
       _validate_non_negative_int "intraday.flatten_minutes_before_close");
    ("reddit.enabled", _validate_bool "reddit.enabled") ].

(** [_ALLOWED_OVERRIDE_VALIDATORS.get(path)] *)
Fixpoint lookup_validator (tbl : list (string * (json -> result unit))) (path : string)
  : option (json -> result unit) :=
  match tbl with
  | [] => None
  | (k, f) :: rest => if String.eqb k path then Some f else lookup_validator rest path
  end.

Definition allowed_path (path : string) : bool :=
  match lookup_validator _ALLOWED_OVERRIDE_VALIDATORS path with
  | Some _ => true
  | None => false
  end.

(** The loop of [_validate_override_dict] over the flattened pairs. *)
Fixpoint validate_pairs (pairs : list (string * json)) : result unit :=
  match pairs with
  | [] => Ok tt
  | (path, value) :: rest =>
      match lookup_validator _ALLOWED_OVERRIDE_VALIDATORS path with
      | None => Raise (ValueError (msg2 "Unsupported override key: " path))
      | Some validator => let* _ := validator value in validate_pairs rest
      end
  end.

(** [_validate_override_dict(overrides)] *)
Definition _validate_override_dict (overrides : list (string * json)) : result unit :=
  validate_pairs (_flatten_overrides overrides "").

(** [schema_version != 1] is false for [1], [1.0] and [True]. *)
Definition py_eq_one (v : json) : bool :=
  match v with
  | JInt n => n =? 1
  | JFloat q => Qeqb q 1
  | JBool b => b
  | _ => false
  end.

(** The [for s in strategies] loop of [validate_runtime_config]; returns
    the set [seen] of stripped names. *)
Fixpoint validate_strategies (l : list json) (seen : list string) : result (list string) :=
  match l with
  | [] => Ok seen
  | JDict s :: rest =>
      match dict_get s "name" with
      | Some (JStr name) =>
          if negb (nonblank name)
          then Raise (ValueError "Strategy name must be a non-empty string")
          else
            let name := strip name in
            if existsb (String.eqb name) seen
            then Raise (ValueError (msg2 "Duplicate strategy name: " name))
            else
              match default (JDict []) (dict_get s "overrides") with
              | JDict ov =>
                  let* _ := _validate_override_dict ov in
                  validate_strategies rest (seen ++ [name])
              | _ => Raise (ValueError (msg2 "Strategy overrides for "
                                             (msg2 name " must be an object")))
              end
      | _ => Raise (ValueError "Strategy name must be a non-empty string")
      end
  | _ :: _ => Raise (ValueError "Each strategy must be an object")
  end.

(** [validate_runtime_config(doc)] *)
Definition validate_runtime_config (doc : json) : result unit :=
  match doc with
  | JDict d =>
      let schema_version := default (JInt 1) (dict_get d "schema_version") in
      if negb (py_eq_one schema_version)
      then Raise (ValueErrorFmt "Unsupported runtime config schema_version: " schema_version)
      else
        match default (JDict []) (dict_get d "overrides") with
        | JDict overrides =>
            match default (JList []) (dict_get d "strategies") with
            | JList (s0 :: sl) =>
                let* seen := validate_strategies (s0 :: sl) [] in
                let* _ :=
                  match default JNull (dict_get d "active_strategy") with
                  | JNull => Ok tt
                  | JStr active =>
                      if negb (nonblank active)
                      then Raise (ValueError "active_strategy must be a non-empty string or null")
                      else if existsb (String.eqb (strip active)) seen then Ok tt
                      else Raise (ValueError (msg2 "active_strategy not found in strategies: "
                                                   (strip active)))
                  | _ => Raise (ValueError "active_strategy must be a non-empty string or null")
                  end in
                _validate_override_dict overrides
            | _ => Raise (ValueError "runtime.strategies must be a non-empty array")
            end
        | _ => Raise (ValueError "runtime.overrides must be an object")
        end
  | _ => Raise (ValueError "runtime config must be an object")
  end.

(** [deep_merge(base, patch)] for a dict [patch]. *)
Fixpoint deep_merge (base : list (string * json)) (patch : json) {struct patch}
  : list (string * json) :=
  match patch with
  | JDict p =>
      (fix go (p : list (string * json)) (out : list (string * json)) {struct p}
         : list (string * json) :=
         match p with
         | [] => out
         | (k, v) :: rest =>
             let out' :=
               match v, dict_get out k with
               | JDict _, Some (JDict bv) => dict_set out k (JDict (deep_merge bv v))
               | _, _ => dict_set out k v
               end in
             go rest out'
         end) p base
  | _ => base
  end.

(** The [for s in strategies: if s.get("name") == active] search of
    [apply_runtime_config]. *)
Fixpoint active_overrides (strategies : list json) (active : json) : option json :=
  match strategies with
  | [] => None
  | JDict s :: rest =>
      match dict_get s "name", active with
      | Some (JStr n), JStr a =>
          if String.eqb n a then Some (default (JDict []) (dict_get s "overrides"))
          else active_overrides rest active
      | _, _ => active_overrides rest active
      end
  | _ :: rest => active_overrides rest active
  end.

Definition or_empty_dict (v : option json) : json :=
  match v with
  | Some x => if truthy x then x else JDict []
  | None => JDict []
  end.

(** [apply_runtime_config(base_config, runtime_doc)] *)
Definition apply_runtime_config (base_config : list (string * json)) (runtime_doc : json)
  : result (list (string * json)) :=
  let* doc := normalise_runtime_config (Some runtime_doc) in
  let* _ := validate_runtime_config doc in
  match doc with
  | JDict d =>
      let cfg := deep_merge base_config (or_empty_dict (dict_get d "overrides")) in
      let active := default JNull (dict_get d "active_strategy") in
      let strategies := match or_empty_dict (dict_get d "strategies") with
                        | JList l => l
                        | _ => []
                        end in
      if truthy active then
        match active_overrides strategies active with
        | Some ov => Ok (deep_merge cfg (if truthy ov then ov else JDict []))
        | None => Ok cfg
        end
      else Ok cfg
  | _ => Ok base_config
  end.

End RuntimeConfig.

(** ** src/trader/timeout.py *)
Module Timeout.

(** A call of [func] as seen by its caller: how long it runs (seconds)
    and what it returns or raises. *)
Record Call (T : Type) := mkCall { call_duration : Q; call_result : result T }.
Arguments mkCall {T} _ _.
Arguments call_duration {T} _.
Arguments call_result {T} _.

(** [process_with_timeout(func, timeout_seconds, ...)]:
    [future.result(timeout=timeout_seconds)], and [SymbolTimeout] when the
    wait times out (its message is
    [f"Processing timed out after {timeout_seconds}s"]). *)
Definition process_with_timeout {T} (func : Call T) (timeout_seconds : Q) : result T :=
  if Qltb timeout_seconds (call_duration func)
  then Raise (SymbolTimeout "Processing timed out")
  else call_result func.

End Timeout.

(** ** src/trader/ibkr_account.py *)
Module IbkrAccount.

(** An [AccountValue] row; [av_value = None] when [float(v.value)] raises. *)
Record AccountValue := mkAccountValue {
  av_tag : string;
  av_currency : string;
  av_value : option Q
}.

(** [for v in matches: if P(v): try: return float(v.value) except: continue] *)
Fixpoint first_parseable (P : AccountValue -> bool) (l : list AccountValue) : option Q :=
  match l with
  | [] => None
  | v :: rest =>
      if P v then
        match av_value v with
        | Some x => Some x
        | None => first_parseable P rest
        end
      else first_parseable P rest
  end.

Definition or_else {A} (a b : option A) : option A :=
  match a with Some _ => a | None => b end.

(** [get_account_value(account_values, tag, currency)] *)
Definition get_account_value (account_values : list AccountValue) (tag : string)
           (currency : option string) : option Q :=
  let matches := List.filter (fun v => String.eqb (av_tag v) tag) account_values in
  match matches with
  | [] => None
  | _ :: _ =>
      match currency with
      | Some cur =>
          or_else (first_parseable (fun v => String.eqb (av_currency v) cur) matches)
         (or_else (first_parseable (fun v => String.eqb (av_currency v) "BASE"
                                             || String.eqb (av_currency v) "") matches)
                  (if String.eqb tag "TotalCashValue"
                   then first_parseable (fun v => String.eqb (av_tag v) "CashBalance"
                                                  && String.eqb (av_currency v) cur)
                                        account_values
                   else None))
      | None =>
          or_else (first_parseable (fun v => String.eqb (av_currency v) "BASE") matches)
         (or_else (first_parseable (fun v => String.eqb (av_currency v) "USD") matches)
         (or_else (first_parseable (fun v => String.eqb (av_currency v) "GBP") matches)
                  (first_parseable (fun _ => true) matches)))
      end
  end.

End IbkrAccount.

(** ** src/trader/runner.py *)
Module Runner.
Import Executor Database IbkrAccount RuntimeConfig Timeout.

(** Timeout for processing a single symbol (seconds) *)
Definition SYMBOL_TIMEOUT_SECONDS : Q := 45.

Inductive Decision := REJECTED | SHORTLISTED | TRADE.
Inductive AIChoice := SHORTLIST | SKIP.

(** The validated answer of [ai_researcher.decide_intraday_trade]. *)
Record AIDecision := mkAIDecision {
  ai_decision : AIChoice;
  ai_score : Q;
  ai_sentiment : Q;
  ai_confidence : Q;
  ai_rationale : string
}.

(** The [decision_reason] / [reason] texts, one constructor per f-string. *)
Inductive Reason :=
| Uninitialised                 (* "Uninitialised" *)
| NoMarketData                  (* "No market data" *)
| AIShortlist (label : string) (conf : Q) (rationale : string)
                                (* "{ai_label}: SHORTLIST (conf {c:.2f}) — {rationale}" *)
| AISkip (label : string) (conf : Q) (rationale : string)
                                (* "{ai_label}: SKIP (conf {c:.2f}) — {rationale}" *)
| MarketClosed (inner : Reason) (* "Market closed: {decision_reason}" *)
| TooCloseToClose               (* "Too close to market close (no new entries)" *)
| AlreadyHolding                (* "Already holding a position" *)
| NoCashBudget (cur : string)   (* "No available cash budget for {currency}" *)
| SymbolTimedOut (e : PyExn)    (* "Symbol processing timed out: {e}" *)
| TimeoutDuringAnalysis (e : PyExn)  (* "Timeout during analysis: {e}" *)
| ConnectionErrorDuring (e : PyExn)  (* "Connection error: {e}" *)
| ErrorDuringAnalysis (e : PyExn)    (* "Error during analysis: {type(e).__name__}: {e}" *)
| NotSelected                   (* "Shortlisted; not selected this cycle" *)
| ATRMissing                    (* "Selected by AI but ATR missing; cannot set stop-loss" *)
| StopNonPositive               (* "Selected by AI but stop-loss would be <= 0; skipping" *)
| NetLiqMissing                 (* "Selected by AI but net liquidation not available; cannot size position" *)
| InsufficientBudget (cur : string)
                                (* "Selected by AI but insufficient {cur} budget for position sizing" *)
| PlacementFailed               (* "Selected by AI but order placement failed" *)
| OrderPlaced (status : string) (* "Order placed ({order_status})" *).

(** The last bar with its indicators ([df.iloc[-1]]). *)
Record Latest := mkLatest {
  close : Q;
  RSI_14 : option Q;
  volatility_ratio : option Q;
  ATRr_14 : option Q
}.

(** An item of [current_watch_list]. *)
Record WatchItem := mkWatchItem {
  w_symbol : string;
  w_exchange : string;
  w_currency : string
}.

(** What the collaborators answer while one symbol is researched: how long
    the research takes, the bars with indicators ([None] for an empty
    frame), the qualified contract, the decision service's answer with the
    label of its data sources, and the market-hours tests. *)
Record Obs := mkObs {
  o_duration : Q;
  o_bars : result (option Latest);
  o_contract : result Contract;
  o_ai_label : string;
  o_ai : result AIDecision;
  o_market_open : bool;
  o_near_close : bool
}.

(** The same observation with another research duration. *)
Definition with_duration (obs : Obs) (d : Q) : Obs :=
  mkObs d (o_bars obs) (o_contract obs) (o_ai_label obs) (o_ai obs)
        (o_market_open obs) (o_near_close obs).

(** A row written by [log_research]; its id is its index.  The Reddit
    columns, copied from the sentiment cache, and the reasoning text are left
    out. *)
Record ResearchRecord := mkResearchRecord {
  rr_symbol : string;
  rr_exchange : string;
  rr_currency : string;
  rr_price : option Q;
  rr_rsi : option Q;
  rr_vol_ratio : option Q;
  rr_sentiment_score : option Q;
  rr_score : option Q;
  rr_rank : option nat;
  rr_decision : Decision;
  rr_reason : Reason
}.

(** [update_research_decision(research_id, decision, reason, rank)] *)
Definition update_research_decision (log : list ResearchRecord) (research_id : nat)
           (d : Decision) (r : Reason) (rank : nat) : list ResearchRecord :=
  alter (fun row => mkResearchRecord (rr_symbol row) (rr_exchange row) (rr_currency row)
                      (rr_price row) (rr_rsi row) (rr_vol_ratio row)
                      (rr_sentiment_score row) (rr_score row) (Some rank) d r)
        research_id log.

(** The [eligible_candidate] dict. *)
Record Eligible := mkEligible {
  e_symbol : string;
  e_exchange : string;
  e_currency : string;
  e_price : Q;
  e_contract : Contract;
  e_latest : Latest;
  e_score : Q;
  e_sentiment_score : Q;
  e_decision_reason : Reason;
  e_research_id : nat;
  e_rank : nat
}.

Definition set_research_id (c : Eligible) (i : nat) : Eligible :=
  mkEligible (e_symbol c) (e_exchange c) (e_currency c) (e_price c) (e_contract c)
             (e_latest c) (e_score c) (e_sentiment_score c) (e_decision_reason c) i (e_rank c).
Definition set_rank (c : Eligible) (r : nat) : Eligible :=
  mkEligible (e_symbol c) (e_exchange c) (e_currency c) (e_price c) (e_contract c)
             (e_latest c) (e_score c) (e_sentiment_score c) (e_decision_reason c)
             (e_research_id c) r.

(** The configuration values the cycle reads. *)
Record Knobs := mkKnobs {
  intraday_enabled : bool;
  max_positions : Z;
  max_new_positions_per_cycle : Z;
  max_cash_utilisation : Q;
  cash_budget_tag : string;
  min_cash_reserve : gmap string Q;
  stop_atr_multiplier : Q;
  take_profit_r : Q;
  risk_per_trade : Q
}.

(** The budget of one currency (lines "Cash budgets by currency"). *)
Definition budget_for (k : Knobs) (acc_summary : list AccountValue) (cur : string) : Q :=
  match get_account_value acc_summary (cash_budget_tag k) (Some cur) with
  | None => 0%Q
  | Some available =>
      let reserve := default 0%Q (min_cash_reserve k !! cur) in
      let cap_by_util := (available * max_cash_utilisation k)%Q in
      let cap_by_reserve := (available - reserve)%Q in
      Qmax 0 (Qmin cap_by_util cap_by_reserve)
  end.

(** [budgets], for the currencies of the watch list. *)
Definition compute_budgets (k : Knobs) (acc_summary : list AccountValue)
           (currencies : list string) : gmap string Q :=
  fold_left (fun b cur => <[cur := budget_for k acc_summary cur]> b) currencies ∅.

(** The local variables of one iteration of the research loop. *)
Record Vars := mkVars {
  v_price : option Q;
  v_rsi : option Q;
  v_vol_ratio : option Q;
  v_sentiment_score : option Q;
  v_score : option Q;
  v_decision : Decision;
  v_reason : Reason;
  v_eligible : option Eligible
}.

Definition defaults : Vars :=
  mkVars None None None None None REJECTED Uninitialised None.

Definition set_outcome (v : Vars) (d : Decision) (r : Reason) : Vars :=
  mkVars (v_price v) (v_rsi v) (v_vol_ratio v) (v_sentiment_score v) (v_score v) d r
         (v_eligible v).

(** The [try] body of the research loop: the variables as they stand when
    the body ends, and the exception that ended it, if any. *)
Definition research_body (k : Knobs) (open_symbols : gset string)
           (budget_remaining : gmap string Q) (item : WatchItem) (obs : Obs)
  : Vars * option PyExn :=
  match o_bars obs with
  | Raise e => (defaults, Some e)
  | Ok None => (set_outcome defaults REJECTED NoMarketData, None)
  | Ok (Some latest) =>
      let price := close latest in
      let v1 := mkVars (Some price) (RSI_14 latest) (volatility_ratio latest) None None
                       REJECTED Uninitialised None in
      match o_contract obs with
      | Raise e => (v1, Some e)
      | Ok contract =>
          match o_ai obs with
          | Raise e => (v1, Some e)
          | Ok ai =>
              let v2 := mkVars (Some price) (RSI_14 latest) (volatility_ratio latest)
                               (Some (ai_sentiment ai)) (Some (ai_score ai))
                               REJECTED Uninitialised None in
              match ai_decision ai with
              | SKIP =>
                  (set_outcome v2 REJECTED
                     (AISkip (o_ai_label obs) (ai_confidence ai) (ai_rationale ai)), None)
              | SHORTLIST =>
                  let reason := AIShortlist (o_ai_label obs) (ai_confidence ai)
                                            (ai_rationale ai) in
                  if negb (o_market_open obs)
                  then (set_outcome v2 REJECTED (MarketClosed reason), None)
                  else if intraday_enabled k && o_near_close obs
                  then (set_outcome v2 REJECTED TooCloseToClose, None)
                  else if bool_decide (w_symbol item ∈ open_symbols)
                  then (set_outcome v2 REJECTED AlreadyHolding, None)
                  else if Qleb (default 0%Q (budget_remaining !! w_currency item)) 0
                  then (set_outcome v2 REJECTED (NoCashBudget (w_currency item)), None)
                  else
                    let cand := mkEligible (w_symbol item) (w_exchange item)
                                  (w_currency item) price contract latest (ai_score ai)
                                  (ai_sentiment ai) reason 0 0 in
                    (mkVars (Some price) (RSI_14 latest) (volatility_ratio latest)
                            (Some (ai_sentiment ai)) (Some (ai_score ai))
                            SHORTLISTED reason (Some cand), None)
              end
          end
      end
  end.

(** The [except] clauses of the research loop. *)
Definition handle_exception (v : Vars) (e : PyExn) : Vars :=
  match e with
  | SymbolTimeout _ => set_outcome v REJECTED (SymbolTimedOut e)
  | TimeoutError _ => set_outcome v REJECTED (TimeoutDuringAnalysis e)
  | ConnectionError _ => set_outcome v REJECTED (ConnectionErrorDuring e)
  | _ => set_outcome v REJECTED (ErrorDuringAnalysis e)
  end.

(** The state of one cycle. [selected] keeps, for each symbol appended to
    the source's [selected] list, the candidate and the quantity bought. *)
Record Cycle := mkCycle {
  c_ib : IB;
  budget_remaining : gmap string Q;
  research_log : list ResearchRecord;
  trade_log : list TradeRecord;
  selected : list (Eligible * Z);
  clock : Q
}.

(** One iteration of [for idx, item in enumerate(current_watch_list)]:
    the research runs inline, then exactly one [log_research] call. *)
Definition process_candidate (k : Knobs) (open_symbols : gset string)
           (st : Cycle) (item : WatchItem) (obs : Obs) : Cycle * option Eligible :=
  let '(v, raised) := research_body k open_symbols (budget_remaining st) item obs in
  let v := match raised with
           | Some e => handle_exception v e
           | None => v
           end in
  let research_id := length (research_log st) in
  let row := mkResearchRecord (w_symbol item) (w_exchange item) (w_currency item)
               (v_price v) (v_rsi v) (v_vol_ratio v) (v_sentiment_score v) (v_score v)
               None (v_decision v) (v_reason v) in
  let st' := mkCycle (c_ib st) (budget_remaining st) (research_log st ++ [row])
                     (trade_log st) (selected st) (clock st + o_duration obs)%Q in
  (st', option_map (fun c => set_research_id c research_id) (v_eligible v)).

(** The research loop; returns the [eligible] list. *)
Fixpoint research_loop (k : Knobs) (open_symbols : gset string) (st : Cycle)
         (watch : list (WatchItem * Obs)) : Cycle * list Eligible :=
  match watch with
  | [] => (st, [])
  | (item, obs) :: rest =>
      let '(st1, cand) := process_candidate k open_symbols st item obs in
      let '(st2, eligible) := research_loop k open_symbols st1 rest in
      (st2, match cand with Some c => c :: eligible | None => eligible end)
  end.

(** [eligible.sort(key=lambda x: (x.get("score") is not None, x.get("score", 0.0)),
    reverse=True)]: stable, by score descending (every eligible candidate
    has a score). *)
Fixpoint insert_by_score (x : Eligible) (l : list Eligible) : list Eligible :=
  match l with
  | [] => [x]
  | y :: rest => if Qltb (e_score x) (e_score y) then y :: insert_by_score x rest
                 else x :: y :: rest
  end.
Definition sort_by_score (l : list Eligible) : list Eligible :=
  foldr insert_by_score [] l.

(** [for rank, cand in enumerate(eligible, start=1): cand["rank"] = rank; ...] *)
Fixpoint assign_ranks (rank : nat) (l : list Eligible) (log : list ResearchRecord)
  : list Eligible * list ResearchRecord :=
  match l with
  | [] => ([], log)
  | cand :: rest =>
      let log1 := update_research_decision log (e_research_id cand) SHORTLISTED
                                           (e_decision_reason cand) rank in
      let '(rest', log2) := assign_ranks (S rank) rest log1 in
      (set_rank cand rank :: rest', log2)
  end.

(** [for cand in eligible: if cand.get("symbol") not in desired_set: ...] *)
Definition mark_not_selected (desired : list string) (eligible : list Eligible)
           (log : list ResearchRecord) : list ResearchRecord :=
  fold_left (fun log cand =>
               if existsb (String.eqb (e_symbol cand)) desired then log
               else update_research_decision log (e_research_id cand) SHORTLISTED
                                             NotSelected (e_rank cand))
            eligible log.

(** [cand_by_symbol = {str(c.get("symbol") or "").upper(): c for c in eligible}] *)
Definition cand_by_symbol (eligible : list Eligible) : gmap string Eligible :=
  fold_left (fun m c => <[upper (e_symbol c) := c]> m) eligible ∅.

Definition with_research_log (st : Cycle) (log : list ResearchRecord) : Cycle :=
  mkCycle (c_ib st) (budget_remaining st) log (trade_log st) (selected st) (clock st).

Definition skip_with (st : Cycle) (cand : Eligible) (r : Reason) : Cycle :=
  with_research_log st
    (update_research_decision (research_log st) (e_research_id cand) SHORTLISTED r
                              (e_rank cand)).

(** The status of the trade returned by [placeOrder]. *)
Definition order_status : string := "PendingSubmit".

(** The body of [for sym in desired] after the capacity test. *)
Definition buy_one (k : Knobs) (net_liq : option Q) (by_symbol : gmap string Eligible)
           (sym : string) (st : Cycle) : Cycle * option PyExn :=
  match by_symbol !! upper sym with
  | None => (st, None)
  | Some cand =>
      let cur := e_currency cand in
      let price := e_price cand in
      match ATRr_14 (e_latest cand) with
      | None => (skip_with st cand ATRMissing, None)
      | Some atr =>
          let stop_loss := (price - stop_atr_multiplier k * atr)%Q in
          if Qleb stop_loss 0 then (skip_with st cand StopNonPositive, None)
          else
            match net_liq with
            | None => (skip_with st cand NetLiqMissing, None)
            | Some nl =>
                let qty_risk := calculate_position_size (risk_per_trade k) price stop_loss nl in
                if Qeqb price 0 then (st, Some ZeroDivisionError)
                else
                  let max_affordable :=
                    py_floordiv (default 0%Q (budget_remaining st !! cur)) price in
                  let quantity := Z.min qty_risk max_affordable in
                  if quantity <=? 0 then (skip_with st cand (InsufficientBudget cur), None)
                  else
                    let take_profit := (price + take_profit_r k * (price - stop_loss))%Q in
                    match execute_buy_order (c_ib st) (e_contract cand) quantity
                                            (Some stop_loss) (Some take_profit) with
                    | (ib1, None) =>
                        (skip_with (mkCycle ib1 (budget_remaining st) (research_log st)
                                            (trade_log st) (selected st) (clock st))
                                   cand PlacementFailed, None)
                    | (ib1, Some _) =>
                        let row := mkTradeRecord (e_symbol cand) "BUY" quantity price
                                     (Some stop_loss) (Some take_profit)
                                     (e_sentiment_score cand) order_status None in
                        let remaining :=
                          Qmax 0 (default 0%Q (budget_remaining st !! cur)
                                  - inject_Z quantity * price) in
                        let st1 := mkCycle ib1 (<[cur := remaining]> (budget_remaining st))
                                           (research_log st) (trade_log st ++ [row])
                                           (selected st ++ [(cand, quantity)]) (clock st) in
                        (with_research_log st1
                           (update_research_decision (research_log st1) (e_research_id cand)
                                                     TRADE (OrderPlaced order_status)
                                                     (e_rank cand)),
                         None)
                    end
            end
      end
  end.

(** [for sym in desired: if len(selected) >= max_new: break ...] *)
Fixpoint buy_loop (k : Knobs) (net_liq : option Q) (max_new : Z)
         (by_symbol : gmap string Eligible) (desired : list string) (st : Cycle)
  : Cycle * option PyExn :=
  match desired with
  | [] => (st, None)
  | sym :: rest =>
      if max_new <=? Z.of_nat (length (selected st)) then (st, None)
      else
        match buy_one k net_liq by_symbol sym st with
        | (st1, Some e) => (st1, Some e)
        | (st1, None) => buy_loop k net_liq max_new by_symbol rest st1
        end
  end.

(** How one pass of the [while True] body ends. *)
Inductive CycleEnd :=
| NoCapacity                      (* "No capacity for new positions" *)
| SelectionFailed (e : PyExn)     (* "Buy selection AI failed" *)
| Crashed (e : PyExn)             (* an exception left the loop body *)
| Completed.

(** The part of the loop body from [positions = executor.get_open_positions()]
    to the end of the selection and execution stage.  [select] is
    [ai_researcher.select_buys_from_shortlist]. *)
Definition trading_cycle (k : Knobs) (ib0 : IB) (acc_summary : list AccountValue)
           (watch : list (WatchItem * Obs))
           (select : list Eligible -> Z -> gmap string Q -> result (list string))
  : Cycle * CycleEnd :=
  let open_symbols : gset string :=
    list_to_set (List.map (fun p => symbol (p_contract p)) (positions ib0)) in
  let open_count := Z.of_nat (size open_symbols) in
  let available_slots := max_positions k - open_count in
  let max_new := Z.max 0 (Z.min available_slots (max_new_positions_per_cycle k)) in
  if max_new =? 0 then (mkCycle ib0 ∅ [] [] [] 0, NoCapacity)
  else
    let budgets := compute_budgets k acc_summary (List.map (fun w => w_currency (fst w)) watch) in
    let net_liq := get_account_value acc_summary "NetLiquidation" None in
    let st0 := mkCycle ib0 budgets [] [] [] 0 in
    let '(st1, eligible) := research_loop k open_symbols st0 watch in
    match eligible with
    | [] => (st1, Completed)
    | _ :: _ =>
        let '(eligible, log) := assign_ranks 1 (sort_by_score eligible) (research_log st1) in
        let st2 := with_research_log st1 log in
        if max_new <=? 0 then (st2, Completed)
        else
          match select eligible max_new (budget_remaining st2) with
          | Raise e => (st2, SelectionFailed e)
          | Ok desired =>
              let st3 := with_research_log st2
                           (mark_not_selected desired eligible (research_log st2)) in
              match buy_loop k net_liq max_new (cand_by_symbol eligible) desired st3 with
              | (st4, Some e) => (st4, Crashed e)
              | (st4, None) => (st4, Completed)
              end
          end
    end.

(** The buy notional of the cycle in one currency: the sum of
    [quantity * price] over the orders placed for candidates of that
    currency. *)
Definition buy_notional (cur : string) (sel : list (Eligible * Z)) : Q :=
  fold_right (fun cq acc =>
                if String.eqb (e_currency (fst cq)) cur
                then (inject_Z (snd cq) * e_price (fst cq) + acc)%Q else acc)
             0%Q sel.

(** *** The runtime-config step at the top of the loop *)

Inductive Event :=
| ConfigError (e : PyExn)   (* "Runtime config unavailable/invalid: ..." *).

(** The scheduler's variables that the step reads or writes. *)
Record Sched := mkSched {
  base_config : list (string * json);
  config : list (string * json);
  cycle_interval_seconds : Z;
  live_status : option (string * string);
  events : list Event;
  slept : list Z
}.

Inductive StepEnd := Restart | Proceed.

(** The [except Exception as e] branch: the error is logged, the live status
    says paused, the loop sleeps one cycle interval; [config] keeps the value
    of the previous iteration. *)
Definition paused (s : Sched) (e : PyExn) : Sched :=
  mkSched (base_config s) (config s) (cycle_interval_seconds s)
          (Some ("Config", "Runtime config error; trading paused"))
          (events s ++ [ConfigError e]) (slept s ++ [cycle_interval_seconds s]).

(** The [try: ... except Exception] block that opens each iteration;
    [runtime_doc] is what [get_runtime_config()] returns or raises.  The
    derived knobs ([cycle_interval_seconds] among them) are refreshed from
    [config] only after this block. *)
Definition config_step (s : Sched) (runtime_doc : result (option json)) : Sched * StepEnd :=
  let attempt :=
    (let* doc := runtime_doc in
     let* runtime_n := normalise_runtime_config doc in
     let* _ := validate_runtime_config runtime_n in
     apply_runtime_config (base_config s) runtime_n)%result in
  match attempt with
  | Ok cfg =>
      (mkSched (base_config s) cfg (cycle_interval_seconds s) (live_status s)
               (events s) (slept s), Proceed)
  | Raise e => (paused s e, Restart)
  end.

End Runner.

(** ** src/trading/executor.py: safety nets and edits of single orders *)
Module OrderManagement.
Import Executor.

(** [Stock(symbol, exchange, currency)]: a contract that is not yet
    qualified. *)
Definition Stock (sym exch cur : string) : Contract := mkContract 0 sym exch cur.

(** [x or d] for a string [x]. *)
Definition str_or (x d : string) : string := if String.eqb x "" then d else x.

(** [close_short_position(symbol, exchange, currency)]; [qualify] is what
    [qualifyContracts] makes of the new contract. *)
Definition close_short_position (qualify : Contract -> Contract) (ib : IB)
           (sym exch cur : string) : IB * option Trade :=
  let position_qty := get_position_quantity ib sym in
  if 0 <=? position_qty then (ib, None)
  else
    let buy_quantity := Z.abs position_qty in
    let c := qualify (Stock sym exch cur) in
    let ib1 := fst (cancel_orders_for_symbol ib sym) in
    let '(ib2, trade) := placeOrder ib1 c (MarketOrder BUY buy_quantity) in
    (ib2, Some trade).

(** [close_all_shorts()]: the (symbol, quantity) pairs for which a buy
    order was placed. *)
Definition close_all_shorts (qualify : Contract -> Contract) (ib : IB)
  : IB * list (string * Z) :=
  fold_left
    (fun '(ib, closed) pos =>
       let qty := position pos in
       if qty <? 0 then
         let sym := symbol (p_contract pos) in
         match close_short_position qualify ib sym
                 (str_or (exchange (p_contract pos)) "SMART")
                 (str_or (currency (p_contract pos)) "USD") with
         | (ib', Some _) => (ib', closed ++ [(sym, Z.abs qty)])
         | (ib', None) => (ib', closed)
         end
       else (ib, closed))
    (positions ib) (ib, []).

(** [{p.contract.symbol for p in positions if p.position > 0}] *)
Definition long_symbols (ib : IB) : gset string :=
  list_to_set (List.map (fun p => symbol (p_contract p))
                        (List.filter (fun p => 0 <? position p) (positions ib))).

(** The test of [cancel_orphaned_sell_orders] on one open trade: a SELL
    order with a symbol for which no long position is held. *)
Definition is_orphaned_sell (long : gset string) (t : Trade) : bool :=
  Action_eqb (action (order t)) SELL &&
  (negb (String.eqb (symbol (contract t)) "") &&
   negb (bool_decide (symbol (contract t) ∈ long))).

(** [cancel_orphaned_sell_orders()]: returns the count cancelled. *)
Definition cancel_orphaned_sell_orders (ib : IB) : IB * Z :=
  let long := long_symbols ib in
  fold_left
    (fun '(ib', cancelled) trade =>
       if is_orphaned_sell long trade
       then (cancelOrder ib' (order trade), cancelled + 1)
       else (ib', cancelled))
    (openTrades ib) (ib, 0).

(** [modify_stop_loss(symbol, new_stop_price)]: the first SELL STP of the
    symbol gets the new price. *)
Definition modify_stop_loss (ib : IB) (sym : string) (new_stop_price : Q) : IB * bool :=
  match List.find is_sell_stop (get_open_trades_for_symbol ib sym) with
  | Some trade =>
      (fst (placeOrder ib (contract trade) (set_auxPrice (order trade) new_stop_price)),
       true)
  | None => (ib, false)
  end.

(** [modify_take_profit(symbol, new_take_profit_price)] *)
Definition modify_take_profit (ib : IB) (sym : string) (new_take_profit_price : Q)
  : IB * bool :=
  match List.find is_sell_limit (get_open_trades_for_symbol ib sym) with
  | Some trade =>
      (fst (placeOrder ib (contract trade)
                       (set_lmtPrice (order trade) new_take_profit_price)),
       true)
  | None => (ib, false)
  end.

(** The dict returned by [get_orders_summary_for_symbol]. *)
Record OrdersSummary := mkOrdersSummary {
  os_stop_loss : option pyfloat;
  os_take_profit : option pyfloat;
  os_stop_order_id : option Z;
  os_tp_order_id : option Z
}.

(** [get_orders_summary_for_symbol(symbol)]: a later order of a kind
    overwrites an earlier one. *)
Definition get_orders_summary_for_symbol (ib : IB) (sym : string) : OrdersSummary :=
  fold_left
    (fun summary trade =>
       let o := order trade in
       if OrderType_eqb (orderType o) STP && Action_eqb (action o) SELL
       then mkOrdersSummary (Some (auxPrice o)) (os_take_profit summary)
                            (Some (orderId o)) (os_tp_order_id summary)
       else if OrderType_eqb (orderType o) LMT && Action_eqb (action o) SELL
       then mkOrdersSummary (os_stop_loss summary) (Some (lmtPrice o))
                            (os_stop_order_id summary) (Some (orderId o))
       else summary)
    (get_open_trades_for_symbol ib sym)
    (mkOrdersSummary None None None None).

(** [cancel_order(order_id)] *)
Definition cancel_order (ib : IB) (order_id : Z) : IB * bool :=
  match List.find (fun t => orderId (order t) =? order_id) (openTrades ib) with
  | Some trade => (cancelOrder ib (order trade), true)
  | None => (ib, false)
  end.

(** [adjust_order_price(order_id, new_price)]: the limit price of a LMT
    order, the stop price of a STP order; other order types are refused. *)
Definition adjust_order_price (ib : IB) (order_id : Z) (new_price : Q) : IB * bool :=
  match List.find (fun t => orderId (order t) =? order_id) (openTrades ib) with
  | Some trade =>
      match orderType (order trade) with
      | LMT => (fst (placeOrder ib (contract trade)
                                (set_lmtPrice (order trade) new_price)), true)
      | STP => (fst (placeOrder ib (contract trade)
                                (set_auxPrice (order trade) new_price)), true)
      | MKT => (ib, false)
      end
  | None => (ib, false)
  end.

(** An entry of [get_all_open_orders_with_details]; the exchange and the
    currency are those of the contract, the status columns are left out. *)
Record OrderInfo := mkOrderInfo {
  oi_order_id : Z;
  oi_symbol : string;
  oi_contract : Contract;
  oi_action : Action;
  oi_order_type : OrderType;
  oi_quantity : Z;
  oi_order_price : option pyfloat;
  oi_age_minutes : Z;
  oi_parent_id : Z
}.

(** [get_all_open_orders_with_details()]; [age_minutes] is the age the
    clock gives to a trade (0 for a trade without log entries). *)
Definition get_all_open_orders_with_details (ib : IB) (age_minutes : Trade -> Z)
  : list OrderInfo :=
  List.map
    (fun trade =>
       let o := order trade in
       let order_price := match orderType o with
                          | LMT => Some (lmtPrice o)
                          | STP => Some (auxPrice o)
                          | MKT => None
                          end in
       mkOrderInfo (orderId o) (symbol (contract trade)) (contract trade) (action o)
                   (orderType o) (totalQuantity o) order_price (age_minutes trade)
                   (parentId o))
    (openTrades ib).

End OrderManagement.

(** ** src/trading/position_manager.py: the review loops *)
Module ReviewLoops.
Import Executor Database PositionManager OrderManagement.

(** [review_all_positions()]: every position of the session is reviewed in
    turn, and the non-empty results are collected.  [inputs i] is what the
    collaborators answer during the review of the [i]-th position. *)
Fixpoint review_positions_from (i : nat) (inputs : nat -> ReviewInput) (pm : PM)
         (l : list Position) : PM * list ReviewResult :=
  match l with
  | [] => (pm, [])
  | pos :: rest =>
      let '(pm1, result) := _review_single_position pm pos (inputs i) in
      let '(pm2, results) := review_positions_from (S i) inputs pm1 rest in
      (pm2, match result with Some r => r :: results | None => results end)
  end.

Definition review_all_positions (pm : PM) (inputs : nat -> ReviewInput)
  : PM * list ReviewResult :=
  review_positions_from 0 inputs pm (positions (ib pm)).

Inductive OrderAction := KEEP | CANCEL | ADJUST_PRICE.

(** The validated answer of [ai_researcher.review_order]. *)
Record AIOrderReview := mkAIOrderReview {
  oa_action : OrderAction;
  oa_new_price : option Q;
  oa_confidence : Q;
  oa_rationale : string
}.

(** A row written by [log_order_review]; its id is its index. *)
Record OrderReviewRecord := mkOrderReviewRecord {
  orv_order_id : Z;
  orv_symbol : string;
  orv_order_price : option pyfloat;
  orv_current_price : option Q;
  orv_action : OrderAction;
  orv_new_price : option Q;
  orv_rationale : string;
  orv_executed : bool
}.

Definition set_order_review_executed (r : OrderReviewRecord) : OrderReviewRecord :=
  mkOrderReviewRecord (orv_order_id r) (orv_symbol r) (orv_order_price r)
                      (orv_current_price r) (orv_action r) (orv_new_price r)
                      (orv_rationale r) true.

(** [mark_order_review_executed(review_id)] *)
Definition mark_order_review_executed (log : list OrderReviewRecord) (review_id : nat)
  : list OrderReviewRecord := alter set_order_review_executed review_id log.

(** What the collaborators answer during the review of one order: the
    market price ([None] when none can be obtained; the request may raise)
    and the decision service's answer. *)
Record OrderObs := mkOrderObs {
  oo_price : result (option Q);
  oo_ai : result AIOrderReview
}.

(** The dict returned by [_review_single_order]. *)
Record OrderReviewResult := mkOrderReviewResult {
  orr_order_id : Z;
  orr_symbol : string;
  orr_action : OrderAction;
  orr_executed : bool;
  orr_execution_result : option string;
  orr_review_id : nat
}.

(** The state the order review works on: the session and the table of
    order reviews. *)
Record OM := mkOM {
  om_ib : IB;
  order_reviews : list OrderReviewRecord
}.

(** [_review_single_order(order_info)].  An exception of the market-data
    request leaves the function; an exception of the decision service is
    caught and ends the review without a row.  The execution result "PRICE"
    stands for [f"PRICE -> {new_price:.2f}"]. *)
Definition _review_single_order (om : OM) (order_info : OrderInfo) (obs : OrderObs)
  : result (OM * option OrderReviewResult) :=
  let order_id := oi_order_id order_info in
  let sym := oi_symbol order_info in
  match oo_price obs with
  | Raise e => Raise e
  | Ok current_price =>
      match oo_ai obs with
      | Raise _ => Ok (om, None)
      | Ok d =>
          let review_id := length (order_reviews om) in
          let log := order_reviews om ++
                     [mkOrderReviewRecord order_id sym (oi_order_price order_info)
                                          current_price (oa_action d) (oa_new_price d)
                                          (oa_rationale d) false] in
          let '(ib', executed, execution_result) :=
            match oa_action d with
            | KEEP => (om_ib om, false, None)
            | CANCEL =>
                match cancel_order (om_ib om) order_id with
                | (ib', true) => (ib', true, Some "CANCELLED")
                | (ib', false) => (ib', false, None)
                end
            | ADJUST_PRICE =>
                match oa_new_price d with
                | None => (om_ib om, false, None)
                | Some new_price =>
                    if Qleb new_price 0 then (om_ib om, false, None)
                    else
                      match adjust_order_price (om_ib om) order_id new_price with
                      | (ib', true) => (ib', true, Some "PRICE")
                      | (ib', false) => (ib', false, None)
                      end
                end
            end in
          let log' := if executed then mark_order_review_executed log review_id else log in
          Ok (mkOM ib' log',
              Some (mkOrderReviewResult order_id sym (oa_action d) executed
                                        execution_result review_id))
      end
  end.

(** The orders that [review_open_orders] passes on to the review: old
    enough, and not the child of another order. *)
Definition orders_to_review (open_orders : list OrderInfo) (min_age_minutes : Z)
  : list OrderInfo :=
  List.filter (fun oi => negb (oi_age_minutes oi <? min_age_minutes) &&
                         (oi_parent_id oi =? 0))
              open_orders.

(** [review_open_orders(min_age_minutes)]: an exception of one review is
    logged and the loop goes on. *)
Definition review_open_orders (om : OM) (min_age_minutes : Z) (age_minutes : Trade -> Z)
           (observe : OrderInfo -> OrderObs) : OM * list OrderReviewResult :=
  let open_orders := get_all_open_orders_with_details (om_ib om) age_minutes in
  fold_left
    (fun '(om, results) order_info =>
       match _review_single_order om order_info (observe order_info) with
       | Ok (om', Some r) => (om', results ++ [r])
       | Ok (om', None) => (om', results)
       | Raise _ => (om, results)
       end)
    (orders_to_review open_orders min_age_minutes) (om, []).

End ReviewLoops.

(** ** src/trader/market_hours.py *)
Module MarketHours.

(** The wall clock of one time zone: the weekday (Monday is 0) and the time
    of day in seconds since midnight, microseconds as fractions. *)
Record LocalTime := mkLocalTime {
  weekday : Z;
  time_of_day : Q
}.

(** [datetime.now(tz=ZoneInfo("UTC"))], as [astimezone] shows it in
    Europe/London and in America/New_York. *)
Record Clock := mkClock {
  london : LocalTime;
  new_york : LocalTime
}.

(** [dt_time(h, m)] *)
Definition dt_time (h m : Z) : Q := inject_Z (h * 3600 + m * 60).

(** [is_market_open(exchange, currency)] *)
Definition is_market_open (exchange currency : string) (now_utc : Clock) : bool :=
  if String.eqb currency "GBP" || String.eqb exchange "LSE" then
    let now_local := london now_utc in
    if 5 <=? weekday now_local then false
    else Qleb (dt_time 8 0) (time_of_day now_local) &&
         Qleb (time_of_day now_local) (dt_time 16 30)
  else
    let now_local := new_york now_utc in
    if 5 <=? weekday now_local then false
    else Qleb (dt_time 9 30) (time_of_day now_local) &&
         Qleb (time_of_day now_local) (dt_time 16 0).

(** [is_near_market_close(exchange, currency, minutes_before_close)]: the
    close of the same day on the local wall clock. *)
Definition is_near_market_close (exchange currency : string) (minutes_before_close : Z)
           (now_utc : Clock) : bool :=
  let mins := minutes_before_close in
  if mins <=? 0 then false
  else if String.eqb currency "GBP" || String.eqb exchange "LSE" then
    let now_local := london now_utc in
    if 5 <=? weekday now_local then false
    else
      let delta_minutes := ((dt_time 16 30 - time_of_day now_local) / 60)%Q in
      Qleb 0 delta_minutes && Qleb delta_minutes (inject_Z mins)
  else
    let now_local := new_york now_utc in
    if 5 <=? weekday now_local then false
    else
      let delta_minutes := ((dt_time 16 0 - time_of_day now_local) / 60)%Q in
      Qleb 0 delta_minutes && Qleb delta_minutes (inject_Z mins).

End MarketHours.

(** ** src/trader/flatten.py *)
Module Flatten.
Import Executor MarketHours.

(** An item of [ib.portfolio()]; [pf_contract] is [None] for an item
    without a contract. *)
Record PortfolioItem := mkPortfolioItem {
  pf_contract : option Contract;
  pf_position : Q;
  pf_marketPrice : option Q
}.

(** The [record_trade] call of the flattening: the stop, the take-profit
    and the sentiment score are [None], the rationale is
    [f"Flatten before close ({minutes_before_close}m)"]. *)
Record FlattenRecord := mkFlattenRecord {
  fr_symbol : string;
  fr_action : Action;
  fr_quantity : Z;
  fr_price : option Q;
  fr_status : string
}.

(** The body of [for p in portfolio]; [now_utc] is the clock when the item
    is reached. *)
Definition flatten_item (minutes_before_close : Z) (st : IB * list FlattenRecord)
           (p : PortfolioItem) (now_utc : Clock) : IB * list FlattenRecord :=
  match pf_contract p with
  | None => st
  | Some c =>
      let sym := symbol c in
      let pos := pf_position p in
      if Qeqb pos 0 then st
      else if negb (is_near_market_close (exchange c) (currency c)
                                         minutes_before_close now_utc)
      then st
      else
        (* Cancel any open orders for this symbol first *)
        let ib1 :=
          fold_left (fun ib t => cancelOrder ib (order t))
                    (List.filter (fun t => String.eqb (symbol (contract t)) sym)
                                 (openTrades (fst st)))
                    (fst st) in
        let action := if Qltb 0 pos then SELL else BUY in
        let qty := py_int (Qabs pos) in
        if 0 <? qty then
          let '(ib2, trade) := placeOrder ib1 c (MarketOrder action qty) in
          (ib2, snd st ++ [mkFlattenRecord sym action qty (pf_marketPrice p)
                                           Runner.order_status])
        else (ib1, snd st)
  end.

(** [flatten_positions_if_needed(conn, minutes_before_close)]; a portfolio
    that cannot be loaded is logged and nothing is done. *)
Definition flatten_positions_if_needed (ib : IB) (minutes_before_close : Z)
           (portfolio : result (list (PortfolioItem * Clock))) : IB * list FlattenRecord :=
  match portfolio with
  | Raise _ => (ib, [])
  | Ok items =>
      fold_left (fun st pc => flatten_item minutes_before_close st (fst pc) (snd pc))
                items (ib, [])
  end.

End Flatten.

(** ** src/trader/runner.py: the candidate universe *)
Module Universe.
Import Runner.

(** [str(c.get("symbol") or "").strip().upper()] *)
Definition norm_symbol (s : string) : string := upper (strip s).

(** The loop of [_dedupe_candidates], with the set [seen] so far. *)
Fixpoint dedupe_from (seen : gset string) (candidates : list WatchItem) : list WatchItem :=
  match candidates with
  | [] => []
  | c :: rest =>
      let sym := norm_symbol (w_symbol c) in
      if String.eqb sym "" || bool_decide (sym ∈ seen) then dedupe_from seen rest
      else c :: dedupe_from ({[sym]} ∪ seen) rest
  end.

(** [_dedupe_candidates(candidates)] *)
Definition _dedupe_candidates (candidates : list WatchItem) : list WatchItem :=
  dedupe_from ∅ candidates.

(** The watch list after the Reddit augmentation:
    [_dedupe_candidates(reddit_candidates + current_watch_list)[:max_candidates]]
    when there are Reddit candidates. *)
Definition merge_reddit_candidates (reddit_candidates current_watch_list : list WatchItem)
           (max_candidates : nat) : list WatchItem :=
  match reddit_candidates with
  | [] => current_watch_list
  | _ :: _ => firstn max_candidates
                     (_dedupe_candidates (reddit_candidates ++ current_watch_list))
  end.

End Universe.

(** ** src/research/ai_researcher.py: the buy selection *)
Module Selection.
Import Runner RuntimeConfig.

Local Open Scope result_scope.

(** [str(s).strip().upper()] *)
Definition norm_symbol (s : string) : string := upper (strip s).

(** [isinstance(v, list) and all(isinstance(x, str) for x in v)]: the
    strings of the list, when it is one of strings. *)
Fixpoint string_items (l : list json) : option (list string) :=
  match l with
  | [] => Some []
  | JStr x :: rest => option_map (cons x) (string_items rest)
  | _ :: _ => None
  end.

(** The loop over the [selected_symbols] of the reply. *)
Fixpoint select_from (allowed : gset string) (max_new : Z) (selected_symbols : list string)
         (seen : gset string) (selected_norm : list string) : result (list string) :=
  match selected_symbols with
  | [] => Ok selected_norm
  | s :: rest =>
      let ss := norm_symbol s in
      if String.eqb ss "" || bool_decide (ss ∈ seen)
      then select_from allowed max_new rest seen selected_norm
      else if negb (bool_decide (ss ∈ allowed))
      then Raise (ValueError (String.append "AI selected unknown symbol: " ss))
      else
        let selected_norm := selected_norm ++ [ss] in
        if max_new <=? Z.of_nat (length selected_norm) then Ok selected_norm
        else select_from allowed max_new rest ({[ss]} ∪ seen) selected_norm
  end.

(** [select_buys_from_shortlist(candidates, max_new, ...)]: the
    [selected_symbols] of the returned dict.  [has_client] says whether the
    API client is configured; [reply] is the reply of the completion parsed
    by [json.loads], or the exception that the request or the parser
    raised. *)
Definition select_buys_from_shortlist (has_client : bool) (candidates : list Eligible)
           (max_new : Z) (reply : result json) : result (list string) :=
  if negb has_client
  then Raise (OtherError "RuntimeError"
                         "OPENAI_API_KEY is not set; cannot run AI buy selection.")
  else if max_new <? 0 then Raise (ValueError "max_new must be a non-negative integer")
  else if (max_new =? 0) || (match candidates with [] => true | _ => false end)
  then Ok []
  else
    let cand_symbols :=
      List.filter (fun sym => negb (String.eqb sym ""))
                  (List.map (fun c => norm_symbol (e_symbol c)) candidates) in
    match cand_symbols with
    | [] => Ok []
    | _ :: _ =>
        let* parsed := reply in
        match parsed with
        | JDict d =>
            match dict_get d "selected_symbols" with
            | Some (JList l) =>
                match string_items l with
                | Some selected_symbols =>
                    select_from (list_to_set cand_symbols) max_new selected_symbols ∅ []
                | None => Raise (ValueError "AI selected_symbols must be a list of strings")
                end
            | _ => Raise (ValueError "AI selected_symbols must be a list of strings")
            end
        | _ => Raise (ValueError "AI returned unexpected JSON type for buy selection")
        end
    end.

(** The [select] step of the cycle when the decision service answers
    [reply]: the budgets only go into the request. *)
Definition select_with (reply : result json)
  : list Eligible -> Z -> gmap string Q -> result (list string) :=
  fun candidates max_new _ => select_buys_from_shortlist true candidates max_new reply.

End Selection.

(** * The specification's formulas, stated in its own words *)
Module SpecWords.


(** "Exactly one persisted research record with a decision and a reason,
    even on timeout or exception (decision = REJECTED, reason = failure
    description)": the row that belongs to one candidate of the watch list,
    given the budgets the research sees. *)
Definition records_candidate (k : Runner.Knobs) (open_symbols : gset string)
           (budgets : gmap string Q) (w : Runner.WatchItem * Runner.Obs)
           (row : Runner.ResearchRecord) : Prop :=
  Runner.rr_symbol row = Runner.w_symbol (fst w) /\
  Runner.rr_exchange row = Runner.w_exchange (fst w) /\
  Runner.rr_currency row = Runner.w_currency (fst w) /\
  match Runner.research_body k open_symbols budgets (fst w) (snd w) with
  | (_, Some e) =>
      Runner.rr_decision row = Runner.REJECTED /\
      (Runner.rr_reason row = Runner.SymbolTimedOut e \/
       Runner.rr_reason row = Runner.TimeoutDuringAnalysis e \/
       Runner.rr_reason row = Runner.ConnectionErrorDuring e \/
       Runner.rr_reason row = Runner.ErrorDuringAnalysis e)
  | (v, None) =>
      Runner.rr_decision row = Runner.v_decision v /\
      Runner.rr_reason row = Runner.v_reason v
  end.

(** "A runtime-config document containing an override path": the paths of
    the global overrides and of every strategy's overrides, as
    [_flatten_overrides] lists them.  These are the dotted paths of the
    values: a key whose value is an object stands for the paths below it,
    and has none when that object is empty. *)
Definition override_paths_of (v : json) : list string :=
  match v with
  | JDict ov => List.map fst (RuntimeConfig._flatten_overrides ov "")
  | _ => []
  end.

Definition strategy_paths (s : json) : list string :=
  match s with
  | JDict sd => override_paths_of (default (JDict []) (RuntimeConfig.dict_get sd "overrides"))
  | _ => []
  end.

Definition doc_override_paths (doc : json) : list string :=
  match doc with
  | JDict d =>
      override_paths_of (default (JDict []) (RuntimeConfig.dict_get d "overrides")) ++
      match default (JList []) (RuntimeConfig.dict_get d "strategies") with
      | JList l => List.concat (List.map strategy_paths l)
      | _ => []
      end
  | _ => []
  end.

(** The error that names the path: "Unsupported override key: {path}". *)
Definition names_path (e : PyExn) (path : string) : Prop :=
  e = ValueError (String.append "Unsupported override key: " path).

End SpecWords.

(** * Concrete inputs used by the examples *)
Module Examples.
Import Executor.

(** A session holding 30 shares of AAPL, with no open order. *)
Definition demo_contract : Contract := mkContract 265598 "AAPL" "SMART" "USD".
Definition demo_ib : IB :=
  mkIB [] [mkPosition demo_contract 30 (150#1)] 10 ∅ [].

(** A cycle with a USD budget of 10000 and one shortlisted candidate at
    50 with an ATR of 1 (stop 48 with a multiplier of 2). *)
Definition demo_knobs : Runner.Knobs :=
  Runner.mkKnobs true 5 2 (1#2) "TotalCashValue" ∅ 2 1 (1#100).
Definition demo_latest : Runner.Latest := Runner.mkLatest 50 None None (Some 1%Q).
Definition demo_cand : Runner.Eligible :=
  Runner.mkEligible "AAPL" "SMART" "USD" 50 demo_contract demo_latest (8#10) (5#10)
                    (Runner.AIShortlist "AI (Technicals)" (9#10) "momentum") 0 1.
Definition demo_row : Runner.ResearchRecord :=
  Runner.mkResearchRecord "AAPL" "SMART" "USD" (Some 50%Q) None None (Some (5#10))
                          (Some (8#10)) (Some 1%nat) Runner.SHORTLISTED
                          (Runner.AIShortlist "AI (Technicals)" (9#10) "momentum").
Definition demo_cycle : Runner.Cycle :=
  Runner.mkCycle demo_ib {["USD" := 10000%Q]} [demo_row] [] [] 0.

(** A position manager over that session, and reviews of the AAPL
    position at a current price of 155. *)
Definition demo_pm : PositionManager.PM :=
  PositionManager.mkPM demo_ib 60
    {["AAPL" := PositionManager.mkMeta 0 150 0 (15#1) 170]} ∅ [] [].
Definition demo_position : Position := mkPosition demo_contract 30 (150#1).
Definition demo_bad_stop : PositionManager.AIReview :=
  PositionManager.mkAIReview Database.ADJUST_STOP (8#10) "low" "tighten the stop"
                             (Some (Finite (160#1))) None.
Definition demo_sell : PositionManager.AIReview :=
  PositionManager.mkAIReview Database.SELL (9#10) "high" "momentum faded" None None.
Definition demo_review (d : PositionManager.AIReview) : PositionManager.ReviewInput :=
  PositionManager.mkReviewInput 1000 (Some (Finite (155#1))) true (Some d).

(** A watch-list item whose research takes 60 seconds and ends with the
    decision service shortlisting it, in an open market. *)
Definition slow_item : Runner.WatchItem := Runner.mkWatchItem "AAPL" "SMART" "USD".
Definition slow_obs : Runner.Obs :=
  Runner.mkObs 60 (Ok (Some demo_latest)) (Ok demo_contract) "AI (Technicals)"
               (Ok (Runner.mkAIDecision Runner.SHORTLIST (8#10) (5#10) (9#10) "momentum"))
               true false.
Definition fresh_cycle : Runner.Cycle :=
  Runner.mkCycle demo_ib {["USD" := 10000%Q]} [] [] [] 0.

(** An account summary with USD cash only, and a GBP candidate that the
    decision service skips. *)
Definition usd_only_summary : list IbkrAccount.AccountValue :=
  [IbkrAccount.mkAccountValue "NetLiquidation" "USD" (Some 100000%Q);
   IbkrAccount.mkAccountValue "TotalCashValue" "USD" (Some 20000%Q)].
Definition gbp_item : Runner.WatchItem := Runner.mkWatchItem "VOD" "LSE" "GBP".
Definition gbp_contract : Contract := mkContract 1 "VOD" "LSE" "GBP".
Definition gbp_skipped : Runner.Obs :=
  Runner.mkObs 3 (Ok (Some demo_latest)) (Ok gbp_contract) "AI (Technicals)"
               (Ok (Runner.mkAIDecision Runner.SKIP (2#10) (1#10) (7#10) "weak volume"))
               true false.
Definition gbp_shortlisted : Runner.Obs :=
  Runner.mkObs 3 (Ok (Some demo_latest)) (Ok gbp_contract) "AI (Technicals)"
               (Ok (Runner.mkAIDecision Runner.SHORTLIST (8#10) (5#10) (9#10) "breakout"))
               true false.

(** A session holding AAPL with a protective stop at 140 (order 5), and the
    same session with two take-profits besides (orders 6 and 7). *)
Definition stop_5 : Trade :=
  mkTrade demo_contract (mkOrder 5 SELL STP 30 0 (140#1) 0 "" 0 true).
Definition tp_6 : Trade :=
  mkTrade demo_contract (mkOrder 6 SELL LMT 30 (170#1) 0 0 "" 0 true).
Definition tp_7 : Trade :=
  mkTrade demo_contract (mkOrder 7 SELL LMT 30 (175#1) 0 0 "" 0 true).
Definition ib_one_stop : IB :=
  mkIB [stop_5] [mkPosition demo_contract 30 (150#1)] 10 ∅ [].
Definition ib_stop_two_tps : IB :=
  mkIB [stop_5; tp_6; tp_7] [mkPosition demo_contract 30 (150#1)] 10 ∅ [].

(** An account summary whose cash tag only has a BASE row. *)
Definition base_only_summary : list IbkrAccount.AccountValue :=
  [IbkrAccount.mkAccountValue "TotalCashValue" "BASE" (Some 20000%Q)].

(** The cycle state after the budgets were computed from an account summary
    without GBP cash, for a watch list with one GBP candidate. *)
Definition gbp_cycle : Runner.Cycle :=
  Runner.mkCycle demo_ib (Runner.compute_budgets demo_knobs usd_only_summary ["GBP"])
                 [] [] [] 0.

(** Runtime-config documents: one whose only defect is the unknown override
    key "bogus", and one where an out-of-range value comes before it. *)
Definition default_strategies : json :=
  JList [JDict [("name", JStr "Default"); ("overrides", JDict [])]].
Definition doc_unknown_key : json :=
  JDict [("schema_version", JInt 1);
         ("overrides", JDict [("trading", JDict [("risk_per_trade", JFloat (1#100))]);
                              ("bogus", JBool true)]);
         ("strategies", default_strategies);
         ("active_strategy", JStr "Default")].
Definition doc_two_defects : json :=
  JDict [("schema_version", JInt 1);
         ("overrides", JDict [("trading", JDict [("risk_per_trade", JInt 5)]);
                              ("bogus", JBool true)]);
         ("strategies", default_strategies);
         ("active_strategy", JStr "Default")].
Definition demo_sched : Runner.Sched :=
  Runner.mkSched [("trading", JDict [("risk_per_trade", JFloat (2#100))])]
                 [("trading", JDict [("risk_per_trade", JFloat (2#100))])]
                 3600 None [] [].

(** An ADJUST_STOP whose price is [nan] ([float("nan")], which
    [review_position] lets through), and a review at a portfolio price that
    is [nan]. *)
Definition demo_nan_stop : PositionManager.AIReview :=
  PositionManager.mkAIReview Database.ADJUST_STOP (8#10) "low" "tighten the stop"
                             (Some NaN) None.
Definition demo_stop_140 : PositionManager.AIReview :=
  PositionManager.mkAIReview Database.ADJUST_STOP (8#10) "low" "tighten the stop"
                             (Some (Finite (140#1))) None.
Definition demo_review_nan_price (d : PositionManager.AIReview)
  : PositionManager.ReviewInput :=
  PositionManager.mkReviewInput 1000 (Some NaN) true (Some d).

(** Runtime-config documents: one whose global overrides hold the unknown
    key "bogus" with an empty object as its value, and one whose only
    defect is the unknown key "bogus" in the overrides of its strategy. *)
Definition doc_empty_object : json :=
  JDict [("schema_version", JInt 1);
         ("overrides", JDict [("bogus", JDict [])]);
         ("strategies", default_strategies);
         ("active_strategy", JStr "Default")].
Definition doc_strategy_unknown_key : json :=
  JDict [("schema_version", JInt 1);
         ("overrides", JDict []);
         ("strategies",
          JList [JDict [("name", JStr "Default");
                        ("overrides",
                         JDict [("trading", JDict [("risk_per_trade", JFloat (1#100))]);
                                ("bogus", JBool true)])]]);
         ("active_strategy", JStr "Default")].

(** A session whose only open order is a protective stop for AAPL that
    was entered in TWS itself: [reqAllOpenOrders] shows it with
    [orderId = 0]. *)
Definition stop_0 : Trade :=
  mkTrade demo_contract (mkOrder 0 SELL STP 30 0 (140#1) 0 "" 0 true).
Definition ib_foreign_stop : IB :=
  mkIB [stop_0] [mkPosition demo_contract 30 (150#1)] 10 ∅ [].

End Examples.

(** * Concrete inputs used by the further examples *)
Module Scenarios.
Import Executor Examples.

(** A Tuesday, 15:55 in New York and 20:55 in London. *)
Definition tuesday_1555_ny : MarketHours.Clock :=
  MarketHours.mkClock (MarketHours.mkLocalTime 1 75300) (MarketHours.mkLocalTime 1 57300).

(** One Reddit candidate, and a scanner list that names it again in another
    spelling. *)
Definition reddit_gme : list Runner.WatchItem :=
  [Runner.mkWatchItem "GME" "SMART" "USD"].
Definition scanner_list : list Runner.WatchItem :=
  [Runner.mkWatchItem "AAPL" "SMART" "USD"; Runner.mkWatchItem " gme " "SMART" "USD";
   Runner.mkWatchItem "MSFT" "SMART" "USD"].

(** A reply of the decision service that names AAPL twice, in two
    spellings. *)
Definition reply_aapl : result json :=
  Ok (JDict [("selected_symbols", JList [JStr " aapl "; JStr "AAPL"]);
             ("rationale", JStr "strongest momentum")]).

(** A session that holds AAPL long and TSLA short, with the AAPL stop
    (order 5) and a left-over TSLA stop (order 8). *)
Definition tsla_contract : Contract := mkContract 76792991 "TSLA" "SMART" "USD".
Definition tsla_stop_8 : Trade :=
  mkTrade tsla_contract (mkOrder 8 SELL STP 5 0 (200#1) 0 "" 0 true).
Definition ib_short : IB :=
  mkIB [stop_5; tsla_stop_8]
       [mkPosition demo_contract 30 (150#1); mkPosition tsla_contract (-5) (210#1)]
       10 ∅ [].

(** The session with one stop and two take-profits, with a price increment
    of 0.05 for AAPL. *)
Definition ib_ticked : IB :=
  mkIB [stop_5; tp_6; tp_7] [mkPosition demo_contract 30 (150#1)] 10
       {["AAPL" := (5#100)%Q]} [].

(** A session with an unfilled bracket for AAPL: the parent BUY (order 3)
    and its two exits (orders 4 and 5); and a decision service that wants
    every order cancelled. *)
Definition bracket_parent : Trade :=
  mkTrade demo_contract (mkOrder 3 BUY MKT 30 0 0 0 "" 0 true).
Definition bracket_tp : Trade :=
  mkTrade demo_contract (mkOrder 4 SELL LMT 30 (170#1) 0 3 "OCA_3" 1 true).
Definition bracket_sl : Trade :=
  mkTrade demo_contract (mkOrder 5 SELL STP 30 0 (140#1) 3 "OCA_3" 1 true).
Definition om_bracket : ReviewLoops.OM :=
  ReviewLoops.mkOM (mkIB [bracket_parent; bracket_tp; bracket_sl] [] 10 ∅ []) [].
Definition cancel_all (_ : OrderManagement.OrderInfo) : ReviewLoops.OrderObs :=
  ReviewLoops.mkOrderObs (Ok (Some (150#1)))
    (Ok (ReviewLoops.mkAIOrderReview ReviewLoops.CANCEL None (9#10) "stale order")).

(** A decision to hold the AAPL position. *)
Definition demo_hold : PositionManager.AIReview :=
  PositionManager.mkAIReview Database.HOLD (7#10) "low" "trend intact" None None.

(** A portfolio with a long AAPL item of 30.5 shares, read at 15:55 in New
    York. *)
Definition portfolio_aapl : list (Flatten.PortfolioItem * MarketHours.Clock) :=
  [(Flatten.mkPortfolioItem (Some demo_contract) (61#2) (Some (150#1)), tuesday_1555_ny)].

(** A stored document from before the upgrade, with deprecated keys, and
    what it is normalised to. *)
Definition doc_legacy : json :=
  JDict [("overrides",
          JDict [("ai", JDict [("trade_decision_enabled", JBool true);
                               ("trade_decision_system_prompt", JStr "Be careful.")]);
                 ("position_management", JDict [("enabled", JBool true)])])].
Definition doc_legacy_normalised : json :=
  JDict [("overrides",
          JDict [("ai", JDict [("shortlist_system_prompt", JStr "Be careful.")]);
                 ("position_management", JDict [])]);
         ("schema_version", JInt 1);
         ("strategies", JList [JDict [("name", JStr "Default"); ("overrides", JDict [])]]);
         ("active_strategy", JStr "Default")].

(** A base configuration and an overrides object that lowers one of its
    trading limits. *)
Definition base_cfg : list (string * json) :=
  [("trading", JDict [("max_positions", JInt 5); ("risk_per_trade", JFloat (1#100))]);
   ("ai", JDict [("model", JStr "m")])].
Definition patch_max_positions : list (string * json) :=
  [("trading", JDict [("max_positions", JInt 3)])].

End Scenarios.

(** * Notions used by the further properties *)
Module Notions.
Import Executor Runner.

(** A candidate that passed every gate of the research loop: it stands for
    an item of the watch list that the decision service shortlisted while
    its market was open and not near the close, and whose symbol was not
    held. *)
Definition passed_gates (k : Knobs) (os : gset string) (watch : list (WatchItem * Obs))
           (c : Eligible) : Prop :=
  exists item obs ai,
    In (item, obs) watch /\
    e_symbol c = w_symbol item /\ e_currency c = w_currency item /\
    o_ai obs = Ok ai /\ ai_decision ai = SHORTLIST /\
    o_market_open obs = true /\
    intraday_enabled k && o_near_close obs = false /\
    w_symbol item ∉ os.

(** The symbols of the open positions, and the number of new positions
    that a cycle may open. *)
Definition open_symbols_of (ib0 : IB) : gset string :=
  list_to_set (List.map (fun p => symbol (p_contract p)) (positions ib0)).
Definition max_new_of (k : Knobs) (ib0 : IB) : Z :=
  Z.max 0 (Z.min (max_positions k - Z.of_nat (size (open_symbols_of ib0)))
                 (max_new_positions_per_cycle k)).

(** An open order that is another one but for its prices and its OCA
    type: the same id, contract, side, type, quantity, parent and OCA
    group. *)
Definition same_order_but_price (x t : Trade) : Prop :=
  oid x = oid t /\ contract x = contract t /\
  action (order x) = action (order t) /\ orderType (order x) = orderType (order t) /\
  totalQuantity (order x) = totalQuantity (order t) /\
  parentId (order x) = parentId (order t) /\ ocaGroup (order x) = ocaGroup (order t).

(** The order after [adjust_order_price]: the limit price of a LMT order,
    the stop price of a STP order. *)
Definition repriced (new_price : Q) (o : Order) : Order :=
  match orderType o with
  | LMT => set_lmtPrice o new_price
  | STP => set_auxPrice o new_price
  | MKT => o
  end.

(** A market order that closes (part of) the portfolio item [p], sent
    while the item's market is within [m] minutes of its close on the clock
    [now]: a SELL for a long item and a BUY for a short one, of at least one
    share and of no more than the item holds. *)
Definition reduces_item (m : Z) (p : Flatten.PortfolioItem) (now : MarketHours.Clock)
           (t : Trade) : Prop :=
  Flatten.pf_contract p = Some (contract t) /\
  orderType (order t) = MKT /\
  action (order t) = (if Qltb 0 (Flatten.pf_position p) then SELL else BUY) /\
  0 < totalQuantity (order t) /\
  (inject_Z (totalQuantity (order t)) <= Qabs (Flatten.pf_position p))%Q /\
  MarketHours.is_near_market_close (exchange (contract t)) (currency (contract t)) m now = true.

(** The trade record of a flattening order. *)
Definition records_order (t : Trade) (r : Flatten.FlattenRecord) : Prop :=
  Flatten.fr_symbol r = symbol (contract t) /\
  Flatten.fr_action r = action (order t) /\
  Flatten.fr_quantity r = totalQuantity (order t).

(** A list of candidates in which no candidate has a higher score than one
    before it. *)
Fixpoint by_score_desc (l : list Eligible) : Prop :=
  match l with
  | [] => True
  | x :: r => Forall (fun y => (e_score y <= e_score x)%Q) r /\ by_score_desc r
  end.

(** The research row [row] after it was ranked: the rank, the decision
    SHORTLISTED and the candidate's reason are written, the rest is kept. *)
Definition ranked_row (row : ResearchRecord) (rank : nat) (c : Eligible) : ResearchRecord :=
  mkResearchRecord (rr_symbol row) (rr_exchange row) (rr_currency row) (rr_price row)
                   (rr_rsi row) (rr_vol_ratio row) (rr_sentiment_score row) (rr_score row)
                   (Some rank) SHORTLISTED (e_decision_reason c).

(** The BUY orders of a [placeOrder] log, oldest first: the contract and
    the quantity [placeOrder] was called with. *)
Definition buys_of (l : list Trade) : list (Contract * Z) :=
  List.map (fun t => (contract t, totalQuantity (order t)))
           (List.filter (fun t => Action_eqb (action (order t)) BUY) l).

(** The order that stands behind an entry of the cycle's [selected] list:
    the candidate's contract and the quantity booked against the budget. *)
Definition order_of_entry (cq : Eligible * Z) : Contract * Z :=
  (e_contract (fst cq), snd cq).

End Notions.

(** * Notions used by the properties of the runtime configuration *)
Module ConfigNotions.
Import RuntimeConfig.

(** An override [path = value] that the allow-list knows and whose
    validator accepts the value. *)
Definition accepted_pair (pv : string * json) : Prop :=
  exists validator,
    lookup_validator _ALLOWED_OVERRIDE_VALIDATORS (fst pv) = Some validator /\
    validator (snd pv) = Ok tt.

(** An [overrides] object all of whose flattened pairs are accepted. *)
Definition accepted_overrides (ov : list (string * json)) : Prop :=
  Forall accepted_pair (_flatten_overrides ov "").

(** A strategy entry with the stripped name [name]: an object with a
    non-blank string [name] and, if present, an [overrides] object whose
    pairs are accepted. *)
Definition accepted_strategy (s : json) (name : string) : Prop :=
  exists sd raw ov,
    s = JDict sd /\
    dict_get sd "name" = Some (JStr raw) /\ nonblank raw = true /\ name = strip raw /\
    default (JDict []) (dict_get sd "overrides") = JDict ov /\
    accepted_overrides ov.

(** [active_strategy] is null (or absent), or names one of the strategies
    up to surrounding blanks. *)
Definition accepted_active (active : json) (names : list string) : Prop :=
  match active with
  | JNull => True
  | JStr a => nonblank a = true /\ In (strip a) names
  | _ => False
  end.

(** An [overrides] holder without the deprecated keys: its [ai] object
    (if it has one) has none of the deprecated keys and its
    [position_management] object (if it has one) has no [enabled]. *)
Definition migrated (holder : json) : Prop :=
  match holder with
  | JDict h =>
      (forall ai k, dict_get h "ai" = Some (JDict ai) -> In k deprecated_ai_keys ->
                    dict_get ai k = None) /\
      (forall pm, dict_get h "position_management" = Some (JDict pm) ->
                  dict_get pm "enabled" = None)
  | _ => True
  end.

(** A strategy entry whose [overrides] object (if it has one) is
    migrated. *)
Definition migrated_strategy (s : json) : Prop :=
  forall sd h, s = JDict sd -> dict_get sd "overrides" = Some (JDict h) -> migrated (JDict h).

(** [cfg[k1][k2]...]: the value at a path of keys, through nested objects. *)
Fixpoint get_path (v : json) (path : list string) : option json :=
  match path with
  | [] => Some v
  | k :: rest =>
      match v with
      | JDict d => match dict_get d k with
                   | Some x => get_path x rest
                   | None => None
                   end
      | _ => None
      end
  end.

Definition is_dict (v : json) : bool :=
  match v with JDict _ => true | _ => false end.

Fixpoint distinct (l : list string) : bool :=
  match l with
  | [] => true
  | x :: r => negb (existsb (String.eqb x) r) && distinct r
  end.

(** A value as Python holds it: the keys of every dict in it are pairwise
    distinct. *)
Fixpoint unique_keys (v : json) : bool :=
  match v with
  | JDict d =>
      distinct (List.map fst d) &&
      (fix all (d : list (string * json)) : bool :=
         match d with
         | [] => true
         | (_, x) :: r => unique_keys x && all r
         end) d
  | JList l =>
      (fix all (l : list json) : bool :=
         match l with
         | [] => true
         | x :: r => unique_keys x && all r
         end) l
  | _ => true
  end.

End ConfigNotions.

(** * Properties *)

Import Executor SpecWords Examples.

(** ** Arithmetic facts about the Python helpers *)

Lemma Qleb_true (x y : Q) : Qleb x y = true <-> (x <= y)%Q.
Proof. unfold Qleb. apply Qle_bool_iff. Qed.

Lemma Qleb_false (x y : Q) : Qleb x y = false <-> (y < x)%Q.
Proof.
  unfold Qleb. split; intros H.
  - apply Qnot_le_lt. intros Hle. apply Qle_bool_iff in Hle. congruence.
  - destruct (Qle_bool x y) eqn:E; [|reflexivity].
    apply Qle_bool_iff in E. exfalso. eapply Qlt_not_le; eauto.
Qed.

Lemma Qltb_true (x y : Q) : Qltb x y = true <-> (x < y)%Q.
Proof.
  unfold Qltb. rewrite negb_true_iff. apply (Qleb_false y x).
Qed.

Lemma Qltb_false (x y : Q) : Qltb x y = false <-> (y <= x)%Q.
Proof.
  unfold Qltb. rewrite negb_false_iff. apply (Qleb_true y x).
Qed.

Lemma Qeqb_true (x y : Q) : Qeqb x y = true <-> (x == y)%Q.
Proof. unfold Qeqb. apply Qeq_bool_iff. Qed.

Lemma Qeqb_false (x y : Q) : Qeqb x y = false <-> ~ (x == y)%Q.
Proof.
  rewrite <- Qeqb_true. destruct (Qeqb x y); split; congruence.
Qed.

(** On a non-negative float, [int] is the floor. *)
Lemma py_int_floor (x : Q) : (0 <= x)%Q -> py_int x = Qfloor x.
Proof.
  destruct x as [n d]. unfold py_int, Qfloor, Qle. simpl. intros H.
  apply Z.quot_div_nonneg; lia.
Qed.





(** ** The broker session *)

Lemma placeOrder_placed ib c o :
  placed (fst (placeOrder ib c o)) = placed ib ++ [snd (placeOrder ib c o)].
Proof.
  unfold placeOrder. destruct (orderId o =? 0); simpl;
    match goal with |- context [if ?b then _ else _] => destruct b end; reflexivity.
Qed.

Lemma placeOrder_trade ib c o :
  snd (placeOrder ib c o) =
  mkTrade c (set_orderId o (if orderId o =? 0 then nextReqId ib else orderId o)).
Proof.
  unfold placeOrder. destruct (orderId o =? 0); simpl;
    match goal with |- context [if ?b then _ else _] => destruct b end; reflexivity.
Qed.

Lemma cancelOrder_placed ib o : placed (cancelOrder ib o) = placed ib.
Proof. reflexivity. Qed.

Lemma cancelOrder_nextReqId ib o : nextReqId (cancelOrder ib o) = nextReqId ib.
Proof. reflexivity. Qed.

Lemma cancel_extras_placed extras ib : placed (cancel_extras ib extras) = placed ib.
Proof.
  unfold cancel_extras. revert ib.
  induction extras as [|t l IH]; intros ib; simpl; [reflexivity|].
  rewrite IH. reflexivity.
Qed.

Lemma cancel_extras_nextReqId extras ib :
  nextReqId (cancel_extras ib extras) = nextReqId ib.
Proof.
  unfold cancel_extras. revert ib.
  induction extras as [|t l IH]; intros ib; simpl; [reflexivity|].
  rewrite IH. reflexivity.
Qed.

Lemma cancel_orders_for_symbol_eq ib sym :
  fst (cancel_orders_for_symbol ib sym) =
  cancel_extras ib (get_open_trades_for_symbol ib sym).
Proof. reflexivity. Qed.

(** *** Membership in the open trades after an operation *)

Lemma cancelOrder_in ib o x :
  In x (openTrades (cancelOrder ib o)) <-> In x (openTrades ib) /\ oid x <> orderId o.
Proof.
  unfold cancelOrder. simpl. rewrite filter_In, negb_true_iff, Z.eqb_neq. reflexivity.
Qed.

Lemma cancel_extras_in extras ib x :
  In x (openTrades (cancel_extras ib extras)) <->
  In x (openTrades ib) /\ forall e, In e extras -> oid x <> oid e.
Proof.
  unfold cancel_extras. revert ib.
  induction extras as [|e l IH]; intros ib; simpl.
  - split; [intros H; split; [exact H|intros e []]|intros [H _]; exact H].
  - rewrite IH, cancelOrder_in. split.
    + intros [[H1 H2] H3]. split; [exact H1|]. intros e' [<-|He]; [exact H2|exact (H3 e' He)].
    + intros [H1 H2]. repeat split; [exact H1|apply H2; left; reflexivity|].
      intros e' He. apply H2. right. exact He.
Qed.

Lemma NoDup_map_filter {A B} (f : A -> B) (P : A -> bool) (l : list A) :
  NoDup (List.map f l) -> NoDup (List.map f (List.filter P l)).
Proof.
  induction l as [|a l IH]; simpl; intros H; [constructor|].
  apply NoDup_cons in H as [Hn Hd]. destruct (P a); simpl.
  - apply NoDup_cons. split; [|apply IH; exact Hd].
    rewrite list_elem_of_In in *. rewrite in_map_iff in *.
    intros (y & Hy & Hin). apply Hn. exists y. split; [exact Hy|].
    apply filter_In in Hin. tauto.
  - apply IH; exact Hd.
Qed.

Lemma cancel_extras_NoDup extras ib :
  NoDup (List.map oid (openTrades ib)) ->
  NoDup (List.map oid (openTrades (cancel_extras ib extras))).
Proof.
  unfold cancel_extras. revert ib.
  induction extras as [|e l IH]; intros ib H; simpl; [exact H|].
  apply IH. unfold cancelOrder. simpl. apply NoDup_map_filter. exact H.
Qed.

Lemma has_order_id_false i l :
  has_order_id i l = false -> forall t, In t l -> oid t <> i.
Proof.
  unfold has_order_id. intros H t Ht E.
  assert (existsb (fun t => orderId (order t) =? i) l = true) as C.
  { apply existsb_exists. exists t. split; [exact Ht|]. apply Z.eqb_eq. exact E. }
  congruence.
Qed.

Lemma placeOrder_in ib c o x :
  let o' := set_orderId o (placed_id ib o) in
  In x (openTrades (fst (placeOrder ib c o))) ->
  x = mkTrade c o' \/
  (exists t0, In t0 (openTrades ib) /\ oid t0 = placed_id ib o /\ x = mkTrade (contract t0) o') \/
  (In x (openTrades ib) /\ oid x <> placed_id ib o).
Proof.
  unfold placeOrder, placed_id. destruct (orderId o =? 0); simpl;
    match goal with |- context [has_order_id ?i ?l] => destruct (has_order_id i l) eqn:E end;
    simpl; intros H.
  all: try (apply in_map_iff in H as (t0 & Hx & Hin);
            destruct (orderId (order t0) =? _) eqn:Ei;
            [ right; left; exists t0; apply Z.eqb_eq in Ei; auto
            | right; right; subst x; apply Z.eqb_neq in Ei; auto ]).
  all: apply in_app_iff in H as [H|[<-|[]]]; [|left; reflexivity];
    right; right; split; [exact H|]; eapply has_order_id_false; eauto.
Qed.

Lemma placeOrder_NoDup ib c o :
  NoDup (List.map oid (openTrades ib)) ->
  NoDup (List.map oid (openTrades (fst (placeOrder ib c o)))).
Proof.
  assert (forall i o' l,
             orderId o' = i ->
             List.map oid (List.map (fun t => if orderId (order t) =? i
                                              then mkTrade (contract t) o' else t) l)
             = List.map oid l) as Hmap.
  { intros i o' l Ho. induction l as [|t l IH]; simpl; [reflexivity|].
    rewrite IH. f_equal. destruct (orderId (order t) =? i) eqn:E; [|reflexivity].
    apply Z.eqb_eq in E. unfold oid. simpl. congruence. }
  assert (forall i l t', oid t' = i -> has_order_id i l = false ->
                         NoDup (List.map oid l) -> NoDup (List.map oid (l ++ [t']))) as Happ.
  { intros i l t' Ht Hh Hn. rewrite map_app. simpl.
    apply NoDup_app. split; [exact Hn|]. split; [|apply NoDup_singleton].
    intros y Hy Hy'. apply list_elem_of_In in Hy. apply in_map_iff in Hy as (t & <- & Hin).
    apply list_elem_of_In in Hy'. destruct Hy' as [Hy'|[]].
    eapply has_order_id_false; eauto. congruence. }
  intros Hn. unfold placeOrder. destruct (orderId o =? 0); simpl;
    match goal with |- context [has_order_id ?i ?l] => destruct (has_order_id i l) eqn:E end;
    simpl.
  all: try (rewrite Hmap; [exact Hn|destruct o; reflexivity]).
  all: eapply Happ; eauto; destruct o; reflexivity.
Qed.

Lemma placeOrder_nextReqId ib c o :
  orderId o <> 0 -> nextReqId (fst (placeOrder ib c o)) = nextReqId ib.
Proof.
  intros H. unfold placeOrder. apply Z.eqb_neq in H. rewrite H.
  destruct (has_order_id _ _); reflexivity.
Qed.

Lemma set_orderId_same o : set_orderId o (orderId o) = o.
Proof. destruct o; reflexivity. Qed.

(** After [cancel_orders_for_symbol] no open trade of the symbol is left. *)
Lemma cancel_orders_for_symbol_clears ib sym x :
  In x (openTrades (fst (cancel_orders_for_symbol ib sym))) ->
  symbol (contract x) <> sym.
Proof.
  rewrite cancel_orders_for_symbol_eq, cancel_extras_in. intros [Hin Hne] Hs.
  apply (Hne x); [|reflexivity].
  unfold get_open_trades_for_symbol. apply filter_In. split; [exact Hin|].
  apply String.eqb_eq. exact Hs.
Qed.

(** A sale of a held position: one market SELL is placed, capped by the
    held quantity, and it is the only open trade left for the symbol. *)
Lemma sell_position_sells ib c quantity :
  let held := get_position_quantity ib (symbol c) in
  0 < quantity -> 0 < held ->
  exists ib' trade,
    sell_position ib c quantity = (ib', Some trade) /\
    placed ib' = placed ib ++ [trade] /\
    trade = mkTrade c (set_orderId (MarketOrder SELL (Z.min quantity held)) (nextReqId ib)) /\
    (forall x, In x (openTrades ib') -> symbol (contract x) = symbol c -> x = trade).
Proof.
  intros held Hq Hh. unfold sell_position. fold held.
  replace (quantity <=? 0) with false by (symmetry; apply Z.leb_gt; lia).
  replace (held <=? 0) with false by (symmetry; apply Z.leb_gt; lia).
  set (ib1 := fst (cancel_orders_for_symbol ib (symbol c))).
  set (o := MarketOrder SELL (Z.min quantity held)).
  destruct (placeOrder ib1 c o) as [ib2 trade] eqn:E.
  exists ib2, trade.
  pose proof (placeOrder_placed ib1 c o) as Hp.
  pose proof (placeOrder_trade ib1 c o) as Ht.
  pose proof (placeOrder_in ib1 c o) as Hin.
  rewrite E in Hp, Ht, Hin. simpl in Hp, Ht, Hin.
  assert (nextReqId ib1 = nextReqId ib) as Hn
      by (subst ib1; rewrite cancel_orders_for_symbol_eq; apply cancel_extras_nextReqId).
  rewrite Hn in Ht.
  split; [reflexivity|]. split; [|split; [exact Ht|]].
  - rewrite Hp. subst ib1. rewrite cancel_orders_for_symbol_eq, cancel_extras_placed.
    reflexivity.
  - intros x Hx Hs. unfold placed_id in Hin. simpl in Hin. rewrite Hn in Hin.
    destruct (Hin x Hx) as [->|[(t0 & Ht0 & _ & ->)|[Hx1 _]]].
    + symmetry. exact Ht.
    + exfalso. eapply cancel_orders_for_symbol_clears; eauto.
    + exfalso. eapply cancel_orders_for_symbol_clears; eauto.
Qed.

(** C10. [sell_position(contract, quantity)]: with a non-positive requested
    quantity or a non-positive held quantity the call places nothing and
    returns [None]; otherwise exactly one order is placed, a market SELL of
    [min(quantity, held)] shares, which is at most the held quantity. *)
Theorem C10_sell_position_never_oversells (ib : IB) (c : Contract) (quantity : Z) :
  let held := get_position_quantity ib (symbol c) in
  (quantity <= 0 \/ held <= 0 -> sell_position ib c quantity = (ib, None)) /\
  (0 < quantity -> 0 < held ->
   exists ib' trade,
     sell_position ib c quantity = (ib', Some trade) /\
     placed ib' = placed ib ++ [trade] /\
     contract trade = c /\
     action (order trade) = SELL /\
     orderType (order trade) = MKT /\
     totalQuantity (order trade) = Z.min quantity held /\
     totalQuantity (order trade) <= held).
Proof.
  intros held. unfold sell_position. fold held. split.
  - intros [H|H].
    + replace (quantity <=? 0) with true by (symmetry; apply Z.leb_le; lia). reflexivity.
    + destruct (quantity <=? 0); [reflexivity|].
      replace (held <=? 0) with true by (symmetry; apply Z.leb_le; lia). reflexivity.
  - intros Hq Hh. unfold sell_position in *.
    destruct (sell_position_sells ib c quantity Hq Hh) as (ib' & trade & E & Hp & Ht & _).
    exists ib', trade. fold held in Ht. unfold sell_position in E.
    split; [exact E|]. split; [exact Hp|]. subst trade. simpl. repeat split; lia.
Qed.

Lemma C10_sell_position_witness :
  exists ib' trade,
    sell_position demo_ib demo_contract 100 = (ib', Some trade) /\
    placed ib' = placed demo_ib ++ [trade] /\
    contract trade = demo_contract /\
    action (order trade) = SELL /\
    orderType (order trade) = MKT /\
    totalQuantity (order trade) = Z.min 100 30 /\
    totalQuantity (order trade) <= 30.
Proof.
  apply (proj2 (C10_sell_position_never_oversells demo_ib demo_contract 100)).
  - lia.
  - vm_compute. reflexivity.
Defined.

Lemma execute_buy_order_bracket ib c q sl tp :
  0 < q ->
  exists ib' trade,
    execute_buy_order ib c q (Some sl) (Some tp) = (ib', Some trade) /\
    contract trade = c /\ action (order trade) = BUY /\
    orderType (order trade) = MKT /\ totalQuantity (order trade) = q.
Proof.
  intros Hq. unfold execute_buy_order.
  replace (q <=? 0) with false by (symmetry; apply Z.leb_gt; lia).
  cbn [getReqId].
  match goal with
  | |- context [placeOrder ?i ?cc ?o] =>
      pose proof (placeOrder_trade i cc o) as Ht;
      destruct (placeOrder i cc o) as [ib4 trade] eqn:E
  end.
  simpl in Ht. eexists _, trade. split; [reflexivity|].
  subst trade. simpl. repeat split.
Qed.

(** ** Position sizing *)
Section Sizing.
Import Runner Database.



End Sizing.


(** ** Position reviews *)
Section Reviews.
Import Database PositionManager.

Lemma update_peaks_ib pm sym pnl cp : ib (update_peaks pm sym pnl cp) = ib pm.
Proof. unfold update_peaks. destruct (_position_metadata pm !! sym); reflexivity. Qed.

(** Up to the dispatch, a review does not touch the broker session. *)
Lemma review_prefix_ib pm pos inp :
  match ai_answer inp, quote inp with
  | Some d, Some cp =>
      (position pos <=? 0) = false ->
      Qltb (now inp - default 0%Q (_last_review pm !! symbol (p_contract pos)))
           (review_interval_seconds pm) = false ->
      exists pm1 id,
        ib pm1 = ib pm /\
        _review_single_position pm pos inp =
        (let '(pm', executed, execution_result) :=
           apply_decision pm1 (p_contract pos) (position pos) cp d id in
         (pm', Some (mkReviewResult (symbol (p_contract pos)) (ai_action d) executed
                                    execution_result id)))
  | _, _ => ib (fst (_review_single_position pm pos inp)) = ib pm /\
            snd (_review_single_position pm pos inp) = None
  end.
Proof.
  unfold _review_single_position.
  destruct (ai_answer inp) as [d|] eqn:Ea; destruct (quote inp) as [cp|] eqn:Eq.
  - intros -> ->. eexists _, _. split; [|reflexivity].
    simpl. rewrite update_peaks_ib.
    repeat match goal with
           | |- context [if ?b then _ else _] => destruct b
           | |- context [match ?x with Some _ => _ | None => _ end] => destruct x
           end; reflexivity.
  - destruct (position pos <=? 0); [split; reflexivity|].
    destruct (Qltb _ _); split; reflexivity.
  - destruct (position pos <=? 0); [split; reflexivity|].
    destruct (Qltb _ _); [split; reflexivity|].
    split; [|reflexivity]. simpl. rewrite update_peaks_ib.
    repeat match goal with
           | |- context [if ?b then _ else _] => destruct b
           | |- context [match ?x with Some _ => _ | None => _ end] => destruct x
           end; reflexivity.
  - destruct (position pos <=? 0); [split; reflexivity|].
    destruct (Qltb _ _); split; reflexivity.
Qed.

(** A review that returns without reaching the dispatch. *)
Lemma review_early pm pos inp :
  (position pos <=? 0) = true \/
  Qltb (now inp - default 0%Q (_last_review pm !! symbol (p_contract pos)))
       (review_interval_seconds pm) = true ->
  ib (fst (_review_single_position pm pos inp)) = ib pm /\
  snd (_review_single_position pm pos inp) = None.
Proof.
  unfold _review_single_position. intros [H|H].
  - rewrite H. split; reflexivity.
  - destruct (position pos <=? 0); [split; reflexivity|].
    rewrite H. split; reflexivity.
Qed.

(** The part of the bounds that the dispatch keeps for every float: a
    review whose decision is ADJUST_STOP with [new_stop <= 0] or
    [new_stop >= current_price] true, or ADJUST_TP with
    [new_tp <= current_price] true, leaves the broker session untouched and
    is not executed; when these comparisons are false, the dispatch does
    exactly what [upsert_stop_loss] / [upsert_take_profit] do with that
    price. *)
Lemma adjust_dispatch :
  (forall pm pos inp d cp ns,
      ai_answer inp = Some d -> quote inp = Some cp ->
      ai_action d = ADJUST_STOP -> new_stop_loss d = Some ns ->
      fleb ns 0 = true \/ fleb cp ns = true ->
      ib (fst (_review_single_position pm pos inp)) = ib pm /\
      forall res, snd (_review_single_position pm pos inp) = Some res ->
                  res_executed res = false) /\
  (forall pm pos inp d cp nt,
      ai_answer inp = Some d -> quote inp = Some cp ->
      ai_action d = ADJUST_TP -> new_take_profit d = Some nt ->
      fleb nt cp = true ->
      ib (fst (_review_single_position pm pos inp)) = ib pm /\
      forall res, snd (_review_single_position pm pos inp) = Some res ->
                  res_executed res = false) /\
  (forall pm c quantity d cp ns review_id,
      ai_action d = ADJUST_STOP -> new_stop_loss d = Some ns ->
      fleb ns 0 = false -> fleb cp ns = false ->
      let r := apply_decision pm c quantity cp d review_id in
      let u := upsert_stop_loss (ib pm) c ns (Some quantity) in
      ib (fst (fst r)) = fst u /\ snd (fst r) = snd u) /\
  (forall pm c quantity d cp nt review_id,
      ai_action d = ADJUST_TP -> new_take_profit d = Some nt ->
      fleb nt cp = false ->
      let r := apply_decision pm c quantity cp d review_id in
      let u := upsert_take_profit (ib pm) c nt (Some quantity) in
      ib (fst (fst r)) = fst u /\ snd (fst r) = snd u).
Proof.
  assert (forall pm pos inp d cp,
             ai_answer inp = Some d -> quote inp = Some cp ->
             (forall pm1 id, apply_decision pm1 (p_contract pos) (position pos) cp d id
                             = (pm1, false, None)) ->
             ib (fst (_review_single_position pm pos inp)) = ib pm /\
             forall res, snd (_review_single_position pm pos inp) = Some res ->
                         res_executed res = false) as Hrej.
  { intros pm pos inp d cp Ha Hq Hd.
    destruct (position pos <=? 0) eqn:E1.
    { destruct (review_early pm pos inp (or_introl E1)) as [-> ->]. split; congruence. }
    destruct (Qltb (now inp - default 0%Q (_last_review pm !! symbol (p_contract pos)))
                   (review_interval_seconds pm)) eqn:E2.
    { destruct (review_early pm pos inp (or_intror E2)) as [-> ->]. split; congruence. }
    pose proof (review_prefix_ib pm pos inp) as H. rewrite Ha, Hq in H.
    destruct (H E1 E2) as (pm1 & id & Hib & ->). rewrite Hd. simpl.
    split; [exact Hib|]. intros res [= <-]. reflexivity. }
  split; [|split; [|split]].
  - intros pm pos inp d cp ns Ha Hq Hact Hns Hbad.
    apply (Hrej pm pos inp d cp Ha Hq). intros pm1 id.
    unfold apply_decision. rewrite Hact, Hns.
    replace (fleb ns 0 || fleb cp ns) with true; [reflexivity|].
    symmetry. apply orb_true_iff. exact Hbad.
  - intros pm pos inp d cp nt Ha Hq Hact Hnt Hbad.
    apply (Hrej pm pos inp d cp Ha Hq). intros pm1 id.
    unfold apply_decision. rewrite Hact, Hnt, Hbad. reflexivity.
  - intros pm c quantity d cp ns review_id Hact Hns H0 H1 r u. subst r u.
    unfold apply_decision. rewrite Hact, Hns, H0, H1.
    simpl. destruct (upsert_stop_loss (ib pm) c ns (Some quantity)) as [ib1 [|]];
      split; reflexivity.
  - intros pm c quantity d cp nt review_id Hact Hnt H1 r u. subst r u.
    unfold apply_decision. rewrite Hact, Hnt, H1.
    destruct (upsert_take_profit (ib pm) c nt (Some quantity)) as [ib1 [|]];
      split; reflexivity.
Qed.

End Reviews.

(** A stop proposed at 160 while the price is 155: nothing happens. *)
Lemma adjust_dispatch_example :
  PositionManager.ib
    (fst (PositionManager._review_single_position demo_pm demo_position
            (demo_review demo_bad_stop))) = PositionManager.ib demo_pm /\
  forall res,
    snd (PositionManager._review_single_position demo_pm demo_position
           (demo_review demo_bad_stop)) = Some res ->
    PositionManager.res_executed res = false.
Proof.
  apply (proj1 adjust_dispatch demo_pm demo_position (demo_review demo_bad_stop)
               demo_bad_stop (155#1) (160#1)).
  - reflexivity.
  - reflexivity.
  - reflexivity.
  - reflexivity.
  - right. vm_compute. reflexivity.
Defined.

(** C5. The bounds are not kept for [nan].  The guards of the dispatch are
    [new_stop <= 0 or new_stop >= current_price] and
    [new_tp <= current_price]; every comparison with [nan] is false, so
    they let [nan] through.  A review of the AAPL position at a price of 155
    whose ADJUST_STOP carries the stop [nan] is executed: one SELL STP with
    the stop price [nan] is placed, although [0 < new_stop < current_price]
    does not hold.  The same happens for a stop of 140 when the portfolio
    price is [nan]. *)
Theorem C5_nan_passes_the_guards :
  let r := PositionManager._review_single_position
             demo_pm demo_position (demo_review demo_nan_stop) in
  let r' := PositionManager._review_single_position
              demo_pm demo_position (demo_review_nan_price demo_stop_140) in
  (fltb 0 NaN && fltb NaN (155#1) = false /\
   (exists res, snd r = Some res /\ PositionManager.res_executed res = true) /\
   exists t, placed (PositionManager.ib (fst r)) =
             placed (PositionManager.ib demo_pm) ++ [t] /\
             is_sell_stop t = true /\ auxPrice (order t) = NaN) /\
  (fltb 0 (140#1) && fltb (140#1) NaN = false /\
   (exists res, snd r' = Some res /\ PositionManager.res_executed res = true) /\
   exists t, placed (PositionManager.ib (fst r')) =
             placed (PositionManager.ib demo_pm) ++ [t] /\
             is_sell_stop t = true /\ auxPrice (order t) = Finite (140#1)).
Proof.
  cbv zeta. split.
  - split; [reflexivity|]. split.
    + eexists. split; [vm_compute; reflexivity|reflexivity].
    + eexists. split; [vm_compute; reflexivity|]. split; reflexivity.
  - split; [reflexivity|]. split.
    + eexists. split; [vm_compute; reflexivity|reflexivity].
    + eexists. split; [vm_compute; reflexivity|]. split; reflexivity.
Qed.

Section SellReview.
Import Database PositionManager.

(** C6, as the specification words it, fails on the status of the trade
    record: a SELL decision on a position without pending SELL orders is
    executed, and the one trade record written does not have the status
    "SOLD". *)
Lemma C6_status_counterexample :
  get_pending_sell_orders_for_symbol (ib demo_pm) "AAPL" = [] /\
  snd (fst (apply_decision demo_pm demo_contract 30 (155#1) demo_sell 0)) = true /\
  ~ (exists row,
        trades (fst (fst (apply_decision demo_pm demo_contract 30 (155#1) demo_sell 0)))
        = [row] /\ tr_status row = "SOLD").
Proof.
  split; [reflexivity|]. split; [reflexivity|].
  intros (row & Hrow & Hst). vm_compute in Hrow.
  injection Hrow as <-. simpl in Hst. discriminate.
Qed.

(** C6 (amended). On a SELL decision: with a SELL order already pending for
    the symbol nothing is placed and nothing changes; otherwise, for the
    held quantity of the symbol, the working orders of the symbol are
    cancelled, one market SELL of the full quantity is placed, the
    position metadata is cleared, the review is marked executed with the
    result "SOLD", and exactly one trade record is appended, with action
    "SELL" and status "EXECUTED". *)
Theorem C6_sell_decision pm c quantity cp d review_id :
  ai_action d = SELL ->
  (get_pending_sell_orders_for_symbol (ib pm) (symbol c) <> [] ->
   apply_decision pm c quantity cp d review_id = (pm, false, None)) /\
  (get_pending_sell_orders_for_symbol (ib pm) (symbol c) = [] ->
   0 < quantity ->
   get_position_quantity (ib pm) (symbol c) = quantity ->
   exists pm' trade,
     apply_decision pm c quantity cp d review_id = (pm', true, Some "SOLD") /\
     placed (ib pm') = placed (ib pm) ++ [trade] /\
     contract trade = c /\
     action (order trade) = Executor.SELL /\
     orderType (order trade) = MKT /\
     totalQuantity (order trade) = quantity /\
     (forall x, In x (openTrades (ib pm')) ->
                symbol (contract x) = symbol c -> x = trade) /\
     _position_metadata pm' !! symbol c = None /\
     _last_review pm' !! symbol c = None /\
     reviews pm' = mark_position_review_executed (reviews pm) review_id /\
     trades pm' = trades pm ++
                  [mkTradeRecord (symbol c) "SELL" quantity cp None None
                                 (ai_confidence d) "EXECUTED" (Some (ai_rationale d))]).
Proof.
  intros Hact. unfold apply_decision. rewrite Hact. split.
  - intros Hp. destruct (get_pending_sell_orders_for_symbol (ib pm) (symbol c));
      [congruence|reflexivity].
  - intros Hp Hq Hheld. rewrite Hp.
    assert (0 < get_position_quantity (ib pm) (symbol c)) as Hh by lia.
    destruct (sell_position_sells (ib pm) c quantity Hq Hh)
      as (ib' & trade & E & Hpl & Ht & Hopen).
    rewrite E. eexists _, trade. split; [reflexivity|].
    rewrite Hheld, Z.min_id in Ht.
    simpl. split; [exact Hpl|]. subst trade. simpl.
    repeat split; try reflexivity.
    + exact Hopen.
    + apply lookup_delete_eq.
    + apply lookup_delete_eq.
Qed.

(** The scenario of the specification: the AAPL position of 30 shares is
    sold in full. *)
Lemma C6_sell_decision_witness :
  exists pm' trade,
    apply_decision demo_pm demo_contract 30 (155#1) demo_sell 0
    = (pm', true, Some "SOLD") /\
    placed (ib pm') = placed (ib demo_pm) ++ [trade] /\
    contract trade = demo_contract /\
    action (order trade) = Executor.SELL /\
    orderType (order trade) = MKT /\
    totalQuantity (order trade) = 30 /\
    (forall x, In x (openTrades (ib pm')) ->
               symbol (contract x) = symbol demo_contract -> x = trade) /\
    _position_metadata pm' !! symbol demo_contract = None /\
    _last_review pm' !! symbol demo_contract = None /\
    reviews pm' = mark_position_review_executed (reviews demo_pm) 0 /\
    trades pm' = trades demo_pm ++
                 [mkTradeRecord (symbol demo_contract) "SELL" 30 (155#1) None None
                                (ai_confidence demo_sell) "EXECUTED"
                                (Some (ai_rationale demo_sell))].
Proof.
  apply (proj2 (C6_sell_decision demo_pm demo_contract 30 (155#1) demo_sell 0 eq_refl)).
  - reflexivity.
  - lia.
  - reflexivity.
Defined.

End SellReview.

(** ** Cash budgets *)
Section Budget.
Import Runner IbkrAccount.

(** [budget_remaining.get(cur, 0.0)] *)
Local Abbreviation rem st cur := (default 0%Q (budget_remaining st !! cur)).

Lemma floor_cap (remaining price : Q) (q : Z) :
  (0 <= remaining)%Q -> 0 < q -> q <= Qfloor (remaining / price) ->
  (0 < price)%Q /\ (inject_Z q * price <= remaining)%Q.
Proof.
  intros Hr Hq Hcap.
  assert (1 <= remaining / price)%Q as H1.
  { apply Qle_trans with (inject_Z (Qfloor (remaining / price))); [|apply Qfloor_le].
    change 1%Q with (inject_Z 1). rewrite <- Zle_Qle. lia. }
  assert (inject_Z q <= remaining / price)%Q as Hq'.
  { apply Qle_trans with (inject_Z (Qfloor (remaining / price))); [|apply Qfloor_le].
    rewrite <- Zle_Qle. exact Hcap. }
  assert (0 < price)%Q as Hp.
  { destruct (Qlt_le_dec 0 price) as [L|L]; [exact L|exfalso].
    destruct (Qeq_dec price 0) as [E|E].
    - rewrite E in H1. unfold Qdiv in H1. change (/ 0)%Q with 0%Q in H1. lra.
    - assert (price < 0)%Q as Hneg by (apply Qle_lteq in L as [L|L]; [exact L|contradiction]).
      assert (0 < - price)%Q as Hn by lra.
      pose proof (Qinv_lt_0_compat _ Hn) as Hi.
      assert (remaining / price == - (remaining * / (- price)))%Q as Eq
          by (field; lra).
      rewrite Eq in H1.
      pose proof (Qmult_le_0_compat _ _ Hr (Qlt_le_weak _ _ Hi)). lra. }
  split; [exact Hp|].
  apply Qle_trans with (remaining / price * price)%Q.
  - apply Qmult_le_compat_r; [exact Hq'|apply Qlt_le_weak; exact Hp].
  - assert (remaining / price * price == remaining)%Q as -> by (field; lra).
    apply Qle_refl.
Qed.

Lemma buy_notional_snoc cur sel cand q :
  (buy_notional cur (sel ++ [(cand, q)]) ==
   buy_notional cur sel +
   (if String.eqb (e_currency cand) cur then inject_Z q * e_price cand else 0))%Q.
Proof.
  induction sel as [|[c' q'] sel IH]; simpl.
  - destruct (String.eqb (e_currency cand) cur); lra.
  - destruct (String.eqb (e_currency c') cur); rewrite IH;
      destruct (String.eqb (e_currency cand) cur); lra.
Qed.

(** What one pass of the buy loop does to the budgets and to [selected]:
    either nothing, or one buy of [q] shares of the candidate found for the
    symbol, with [q] capped by the floor of the remaining budget over the
    price, the notional taken from the candidate's currency only. *)
Lemma buy_one_effect k nl by_symbol sym st :
  (forall cur, 0 <= rem st cur)%Q ->
  let st' := fst (buy_one k nl by_symbol sym st) in
  (selected st' = selected st /\ budget_remaining st' = budget_remaining st /\
   c_ib st' = c_ib st) \/
  (exists cand q,
      by_symbol !! upper sym = Some cand /\
      snd (buy_one k nl by_symbol sym st) = None /\
      selected st' = selected st ++ [(cand, q)] /\
      0 < q /\ q <= Qfloor (rem st (e_currency cand) / e_price cand) /\
      (0 < e_price cand)%Q /\
      (inject_Z q * e_price cand <= rem st (e_currency cand))%Q /\
      (rem st' (e_currency cand) ==
       rem st (e_currency cand) - inject_Z q * e_price cand)%Q /\
      (forall cur, cur <> e_currency cand -> rem st' cur = rem st cur)).
Proof.
  intros Hnn st'. subst st'. unfold buy_one.
  destruct (by_symbol !! upper sym) as [cand|] eqn:Hc; [|left; repeat split].
  destruct (ATRr_14 (e_latest cand)) as [atr|]; [|left; repeat split].
  destruct (Qleb _ 0); [left; repeat split|].
  destruct nl as [equity|]; [|left; repeat split].
  destruct (Qeqb (e_price cand) 0) eqn:Hp0; [left; repeat split|].
  set (q := Z.min _ _).
  destruct (q <=? 0) eqn:Hq; [left; repeat split|].
  apply Z.leb_gt in Hq.
  assert (q <= Qfloor (rem st (e_currency cand) / e_price cand)) as Hcap
      by (subst q; unfold py_floordiv; lia).
  destruct (floor_cap _ _ _ (Hnn (e_currency cand)) Hq Hcap) as [Hpos Hle].
  destruct (execute_buy_order_bracket (c_ib st) (e_contract cand) q
              (e_price cand - stop_atr_multiplier k * atr)%Q
              (e_price cand + take_profit_r k *
                 (e_price cand - (e_price cand - stop_atr_multiplier k * atr)))%Q Hq)
    as (ib' & trade & E & _).
  rewrite E. right. exists cand, q. simpl.
  repeat split; try assumption.
  - rewrite lookup_insert_eq. simpl. apply Q.max_r. lra.
  - intros cur Hne. rewrite lookup_insert_ne by congruence. reflexivity.
Qed.

(** Budgets stay non-negative, never grow, and what leaves a budget is
    exactly the notional bought in that currency. *)
Lemma buy_one_budget k nl by_symbol sym st :
  (forall cur, 0 <= rem st cur)%Q ->
  let st' := fst (buy_one k nl by_symbol sym st) in
  forall cur,
    (0 <= rem st' cur)%Q /\ (rem st' cur <= rem st cur)%Q /\
    (buy_notional cur (selected st') + rem st' cur ==
     buy_notional cur (selected st) + rem st cur)%Q.
Proof.
  intros Hnn st' cur. subst st'.
  destruct (buy_one_effect k nl by_symbol sym st Hnn)
    as [(Hs & Hb & _)|(cand & q & _ & _ & Hs & Hq & _ & Hp & Hle & Hrem & Hother)].
  - rewrite Hs, Hb. pose proof (Hnn cur). repeat split; lra.
  - rewrite Hs, buy_notional_snoc.
    destruct (String.eqb_spec (e_currency cand) cur) as [<-|Hne].
    + rewrite Hrem.
      assert (0 <= inject_Z q * e_price cand)%Q.
      { apply Qmult_le_0_compat; [|lra].
        change 0%Q with (inject_Z 0). rewrite <- Zle_Qle. lia. }
      repeat split; lra.
    + rewrite (Hother cur) by congruence. pose proof (Hnn cur). repeat split; lra.
Qed.

Lemma buy_loop_budget k nl max_new by_symbol desired :
  forall st,
    (forall cur, 0 <= rem st cur)%Q ->
    forall cur,
      (0 <= rem (fst (buy_loop k nl max_new by_symbol desired st)) cur)%Q /\
      (rem (fst (buy_loop k nl max_new by_symbol desired st)) cur <= rem st cur)%Q /\
      (buy_notional cur (selected (fst (buy_loop k nl max_new by_symbol desired st)))
       + rem (fst (buy_loop k nl max_new by_symbol desired st)) cur ==
       buy_notional cur (selected st) + rem st cur)%Q.
Proof.
  induction desired as [|sym rest IH]; intros st Hnn cur; simpl.
  - pose proof (Hnn cur). repeat split; lra.
  - destruct (max_new <=? Z.of_nat (length (selected st))).
    { simpl. pose proof (Hnn cur). repeat split; lra. }
    pose proof (buy_one_budget k nl by_symbol sym st Hnn) as Hstep. simpl in Hstep.
    destruct (buy_one k nl by_symbol sym st) as [st1 [e|]]; simpl in Hstep |- *.
    + exact (Hstep cur).
    + assert (forall c, 0 <= rem st1 c)%Q as Hnn1 by (intros c; apply (Hstep c)).
      destruct (IH st1 Hnn1 cur) as (A & B & C).
      destruct (Hstep cur) as (A1 & B1 & C1).
      repeat split; lra.
Qed.

(** The buys of the loop follow the order of [desired]: they are the
    candidates found for a sub-sequence of it, each with a positive
    quantity. *)
Lemma buy_loop_order k nl max_new by_symbol desired :
  forall st,
    (forall cur, 0 <= rem st cur)%Q ->
    exists ds pairs,
      sublist ds desired /\
      selected (fst (buy_loop k nl max_new by_symbol desired st)) = selected st ++ pairs /\
      Forall2 (fun sym cq => by_symbol !! upper sym = Some (fst cq) /\ 0 < snd cq) ds pairs.
Proof.
  induction desired as [|sym rest IH]; intros st Hnn; simpl.
  - exists [], []. rewrite app_nil_r. repeat split; constructor.
  - destruct (max_new <=? Z.of_nat (length (selected st))).
    { exists [], []. simpl. rewrite app_nil_r. repeat split; [apply sublist_nil_l|constructor]. }
    pose proof (buy_one_budget k nl by_symbol sym st Hnn) as Hstep.
    pose proof (buy_one_effect k nl by_symbol sym st Hnn) as Heff. simpl in Hstep, Heff.
    destruct (buy_one k nl by_symbol sym st) as [st1 [e|]]; simpl in Hstep, Heff |- *.
    + destruct Heff as [[Hs _]|(cand & q & _ & Hnone & _)]; [|discriminate].
      exists [], []. rewrite Hs, app_nil_r.
      repeat split; [apply sublist_nil_l|constructor].
    + assert (forall c, 0 <= rem st1 c)%Q as Hnn1 by (intros c; apply (Hstep c)).
      destruct (IH st1 Hnn1) as (ds & pairs & Hsub & Hsel & Hall).
      destruct Heff as [[Hs _]|(cand & q & Hc & _ & Hs & Hq & _)].
      * exists ds, pairs. rewrite Hsel, Hs.
        repeat split; [apply sublist_cons; exact Hsub|exact Hall].
      * exists (sym :: ds), ((cand, q) :: pairs). rewrite Hsel, Hs, <- app_assoc.
        repeat split; [apply sublist_skip; exact Hsub|].
        constructor; [split; assumption|exact Hall].
Qed.

Lemma process_candidate_frame k os st item obs :
  c_ib (fst (process_candidate k os st item obs)) = c_ib st /\
  budget_remaining (fst (process_candidate k os st item obs)) = budget_remaining st /\
  selected (fst (process_candidate k os st item obs)) = selected st /\
  trade_log (fst (process_candidate k os st item obs)) = trade_log st.
Proof.
  unfold process_candidate.
  destruct (research_body k os (budget_remaining st) item obs) as [v r].
  repeat split.
Qed.

(** The research loop reads the budgets; it does not spend them. *)
Lemma research_loop_frame k os watch :
  forall st,
    c_ib (fst (research_loop k os st watch)) = c_ib st /\
    budget_remaining (fst (research_loop k os st watch)) = budget_remaining st /\
    selected (fst (research_loop k os st watch)) = selected st /\
    trade_log (fst (research_loop k os st watch)) = trade_log st.
Proof.
  induction watch as [|[item obs] rest IH]; intros st; simpl; [repeat split|].
  pose proof (process_candidate_frame k os st item obs) as (A & B & C & D).
  destruct (process_candidate k os st item obs) as [st1 cand]. simpl in *.
  specialize (IH st1). destruct (research_loop k os st1 rest) as [st2 el]. simpl in *.
  destruct IH as (A' & B' & C' & D'). repeat split; congruence.
Qed.

Lemma budget_for_nonneg k acc cur : (0 <= budget_for k acc cur)%Q.
Proof.
  unfold budget_for. destruct (get_account_value _ _ _); [apply Q.le_max_l|apply Qle_refl].
Qed.

Lemma compute_budgets_lookup k acc (currencies : list string) cur :
  compute_budgets k acc currencies !! cur =
  if decide (cur ∈ currencies) then Some (budget_for k acc cur) else None.
Proof.
  unfold compute_budgets.
  assert (forall (m : gmap string Q),
             fold_left (fun b c => <[c := budget_for k acc c]> b) currencies m !! cur =
             if decide (cur ∈ currencies) then Some (budget_for k acc cur) else m !! cur)
    as H.
  { induction currencies as [|a l IH]; intros m; simpl.
    - destruct (decide (cur ∈ [])) as [Hin|_]; [|reflexivity].
      apply elem_of_nil in Hin. contradiction.
    - rewrite IH. destruct (decide (cur ∈ l)) as [Hin|Hnin].
      + destruct (decide (cur ∈ a :: l)) as [_|Hn]; [reflexivity|].
        exfalso. apply Hn. apply elem_of_cons. right. exact Hin.
      + destruct (decide (a = cur)) as [->|Hne].
        * rewrite lookup_insert_eq.
          destruct (decide (cur ∈ cur :: l)) as [_|Hn]; [reflexivity|].
          exfalso. apply Hn. apply elem_of_cons. left. reflexivity.
        * rewrite lookup_insert_ne by exact Hne.
          destruct (decide (cur ∈ a :: l)) as [Hin|_]; [|reflexivity].
          apply elem_of_cons in Hin as [->|Hin]; [congruence|contradiction]. }
  rewrite H. destruct (decide (cur ∈ currencies)); [reflexivity|apply lookup_empty].
Qed.

Lemma compute_budgets_nonneg k acc currencies cur :
  (0 <= default 0%Q (compute_budgets k acc currencies !! cur))%Q.
Proof.
  rewrite compute_budgets_lookup. destruct (decide (cur ∈ currencies)); simpl;
    [apply budget_for_nonneg|apply Qle_refl].
Qed.

(** ** The orders behind the ledger *)

Lemma buys_of_app l1 l2 :
  Notions.buys_of (l1 ++ l2) = Notions.buys_of l1 ++ Notions.buys_of l2.
Proof. unfold Notions.buys_of. rewrite List.filter_app, List.map_app. reflexivity. Qed.

(** A bracket entry hands [placeOrder] one BUY order, for the contract and
    the quantity it was called with; its two children are SELL orders. *)
Lemma execute_buy_order_buys ib c q sl tp :
  0 < q ->
  Notions.buys_of (placed (fst (execute_buy_order ib c q (Some sl) (Some tp)))) =
  Notions.buys_of (placed ib) ++ [(c, q)].
Proof.
  intros Hq. unfold execute_buy_order.
  replace (q <=? 0) with false by (symmetry; apply Z.leb_gt; lia).
  cbn [getReqId].
  match goal with
  | |- context [placeOrder ?i ?cc ?o] =>
      pose proof (placeOrder_placed i cc o) as Hp;
      pose proof (placeOrder_trade i cc o) as Ht;
      destruct (placeOrder i cc o) as [ib4 trade] eqn:E
  end.
  cbn [fst snd fold_left app] in *.
  rewrite !placeOrder_placed, !placeOrder_trade, Hp, Ht.
  rewrite !buys_of_app. simpl. rewrite !app_nil_r. reflexivity.
Qed.

(** One pass of the buy loop: what it appends to [selected] is what it
    hands to [placeOrder] as BUY orders, contract and quantity. *)
Lemma buy_one_placed k nl by_symbol sym st :
  exists new,
    selected (fst (buy_one k nl by_symbol sym st)) = selected st ++ new /\
    Notions.buys_of (placed (c_ib (fst (buy_one k nl by_symbol sym st)))) =
    Notions.buys_of (placed (c_ib st)) ++ List.map Notions.order_of_entry new.
Proof.
  assert (exists new : list (Eligible * Z),
             selected st = selected st ++ new /\
             Notions.buys_of (placed (c_ib st)) =
             Notions.buys_of (placed (c_ib st)) ++ List.map Notions.order_of_entry new)
    as Hsame by (exists []; simpl; rewrite !app_nil_r; split; reflexivity).
  unfold buy_one.
  destruct (by_symbol !! upper sym) as [cand|]; [|exact Hsame].
  destruct (ATRr_14 (e_latest cand)) as [atr|]; [|exact Hsame].
  destruct (Qleb _ 0); [exact Hsame|].
  destruct nl as [equity|]; [|exact Hsame].
  destruct (Qeqb (e_price cand) 0); [exact Hsame|].
  set (q := Z.min _ _).
  destruct (q <=? 0) eqn:Hq; [exact Hsame|].
  apply Z.leb_gt in Hq.
  pose proof (execute_buy_order_buys (c_ib st) (e_contract cand) q
                (e_price cand - stop_atr_multiplier k * atr)%Q
                (e_price cand + take_profit_r k *
                   (e_price cand - (e_price cand - stop_atr_multiplier k * atr)))%Q Hq)
    as Hb.
  destruct (execute_buy_order_bracket (c_ib st) (e_contract cand) q
              (e_price cand - stop_atr_multiplier k * atr)%Q
              (e_price cand + take_profit_r k *
                 (e_price cand - (e_price cand - stop_atr_multiplier k * atr)))%Q Hq)
    as (ib' & trade & E & _).
  rewrite E in Hb |- *. simpl in Hb |- *.
  exists [(cand, q)]. split; [reflexivity|exact Hb].
Qed.

Lemma buy_loop_placed k nl max_new by_symbol desired :
  forall st,
    exists new,
      selected (fst (buy_loop k nl max_new by_symbol desired st)) = selected st ++ new /\
      Notions.buys_of (placed (c_ib (fst (buy_loop k nl max_new by_symbol desired st)))) =
      Notions.buys_of (placed (c_ib st)) ++ List.map Notions.order_of_entry new.
Proof.
  induction desired as [|sym rest IH]; intros st; simpl.
  - exists []. simpl. rewrite !app_nil_r. split; reflexivity.
  - destruct (max_new <=? Z.of_nat (length (selected st))).
    { exists []. simpl. rewrite !app_nil_r. split; reflexivity. }
    destruct (buy_one_placed k nl by_symbol sym st) as (new1 & Hs1 & Hb1).
    destruct (buy_one k nl by_symbol sym st) as [st1 [e|]]; simpl in Hs1, Hb1 |- *.
    + exists new1. split; assumption.
    + destruct (IH st1) as (new2 & Hs2 & Hb2).
      exists (new1 ++ new2). rewrite Hs2, Hb2, Hs1, Hb1, List.map_app, !app_assoc.
      split; reflexivity.
Qed.

Lemma trading_cycle_placed k ib0 acc watch select :
  Notions.buys_of (placed (c_ib (fst (trading_cycle k ib0 acc watch select)))) =
  Notions.buys_of (placed ib0) ++
  List.map Notions.order_of_entry (selected (fst (trading_cycle k ib0 acc watch select))).
Proof.
  assert (forall s : Cycle,
             c_ib s = ib0 -> selected s = [] ->
             Notions.buys_of (placed (c_ib s)) =
             Notions.buys_of (placed ib0) ++ List.map Notions.order_of_entry (selected s))
    as Hstart.
  { intros s -> ->. simpl. rewrite app_nil_r. reflexivity. }
  unfold trading_cycle.
  destruct (Z.max 0 _ =? 0); [apply Hstart; reflexivity|].
  set (st0 := mkCycle ib0 _ [] [] [] 0).
  pose proof (research_loop_frame k
                (list_to_set (List.map (fun p => symbol (p_contract p)) (positions ib0)))
                watch st0) as (Hib & _ & Hsel & _).
  destruct (research_loop _ _ st0 watch) as [st1 eligible]. simpl in Hib, Hsel.
  destruct eligible as [|e0 el]; [apply Hstart; assumption|].
  destruct (assign_ranks 1 _ _) as [ranked log].
  destruct (Z.max 0 _ <=? 0); [apply Hstart; assumption|].
  destruct (select _ _ _) as [desired|e]; [|apply Hstart; assumption].
  set (st3 := with_research_log _ _).
  assert (selected st3 = []) as Hs3 by exact Hsel.
  assert (c_ib st3 = ib0) as Hi3 by exact Hib.
  destruct (buy_loop_placed k (get_account_value acc "NetLiquidation" None)
              (Z.max 0 (Z.min (max_positions k - Z.of_nat (size
                 (list_to_set (List.map (fun p => symbol (p_contract p))
                                        (positions ib0)) : gset string)))
                              (max_new_positions_per_cycle k)))
              (cand_by_symbol ranked) desired st3) as (new & Hs & Hb).
  rewrite Hs3 in Hs. rewrite Hi3 in Hb. simpl in Hs.
  destruct (buy_loop _ _ _ _ desired st3) as [st4 [e|]]; simpl in *;
    rewrite Hb, Hs; reflexivity.
Qed.

(** C1. In every cycle and for every currency, the notional bought is at
    most the budget computed at the start of the cycle, and the remaining
    budget ends between zero and that budget; the BUY orders the cycle
    hands to [placeOrder] are exactly the entries of [selected] over which
    the notional is summed, in the same order, each for the candidate's
    contract and with the quantity booked against the budget.  Along the
    buy loop the remaining budgets never grow and never go below zero, and
    what leaves a budget is exactly the notional bought; the buys follow
    the order of the selection and so do the BUY orders placed; each buy is
    capped by [floor(remaining / price)] and places one BUY order of that
    quantity, and a pass of the loop that buys nothing leaves the broker
    session untouched. *)
Theorem C1_budget_never_oversubscribed :
  (forall k ib0 acc watch select cur,
      let st := fst (trading_cycle k ib0 acc watch select) in
      let budget :=
        default 0%Q (compute_budgets k acc (List.map (fun w => w_currency (fst w)) watch)
                     !! cur) in
      (buy_notional cur (selected st) <= budget)%Q /\
      (0 <= rem st cur)%Q /\ (rem st cur <= budget)%Q /\
      Notions.buys_of (placed (c_ib st)) =
      Notions.buys_of (placed ib0) ++ List.map Notions.order_of_entry (selected st)) /\
  (forall k nl max_new by_symbol desired st,
      (forall cur, 0 <= rem st cur)%Q ->
      let st' := fst (buy_loop k nl max_new by_symbol desired st) in
      (forall cur,
          (0 <= rem st' cur)%Q /\ (rem st' cur <= rem st cur)%Q /\
          (buy_notional cur (selected st') + rem st' cur ==
           buy_notional cur (selected st) + rem st cur)%Q) /\
      (exists ds pairs,
          sublist ds desired /\
          selected st' = selected st ++ pairs /\
          Forall2 (fun sym cq => by_symbol !! upper sym = Some (fst cq) /\ 0 < snd cq)
                  ds pairs /\
          Notions.buys_of (placed (c_ib st')) =
          Notions.buys_of (placed (c_ib st)) ++ List.map Notions.order_of_entry pairs)) /\
  (forall k nl by_symbol sym st,
      (forall cur, 0 <= rem st cur)%Q ->
      let st' := fst (buy_one k nl by_symbol sym st) in
      (selected st' = selected st /\ budget_remaining st' = budget_remaining st /\
       c_ib st' = c_ib st) \/
      (exists cand q,
          by_symbol !! upper sym = Some cand /\
          selected st' = selected st ++ [(cand, q)] /\
          0 < q /\ q <= Qfloor (rem st (e_currency cand) / e_price cand) /\
          (rem st' (e_currency cand) ==
           rem st (e_currency cand) - inject_Z q * e_price cand)%Q /\
          Notions.buys_of (placed (c_ib st')) =
          Notions.buys_of (placed (c_ib st)) ++ [(e_contract cand, q)])).
Proof.
  split; [|split].
  - intros k ib0 acc watch select cur st budget.
    assert ((buy_notional cur (selected st) <= budget)%Q /\
            (0 <= rem st cur)%Q /\ (rem st cur <= budget)%Q) as (A & B & C);
      [|repeat split; try assumption; apply trading_cycle_placed].
    pose proof (compute_budgets_nonneg k acc
                  (List.map (fun w => w_currency (fst w)) watch) cur) as Hb.
    fold budget in Hb.
    assert (forall s : Cycle,
               selected s = [] ->
               budget_remaining s =
               compute_budgets k acc (List.map (fun w => w_currency (fst w)) watch) ->
               (buy_notional cur (selected s) <= budget)%Q /\
               (0 <= rem s cur)%Q /\ (rem s cur <= budget)%Q) as Hstart.
    { intros s Hs Hbr. rewrite Hs, Hbr. fold budget. simpl. repeat split; lra. }
    subst st. unfold trading_cycle.
    destruct (Z.max 0 _ =? 0).
    { simpl. rewrite lookup_empty. simpl. repeat split; lra. }
    set (st0 := mkCycle ib0 _ [] [] [] 0).
    pose proof (research_loop_frame k
                  (list_to_set (List.map (fun p => symbol (p_contract p)) (positions ib0)))
                  watch st0) as (_ & Hbr & Hsel & _).
    destruct (research_loop _ _ st0 watch) as [st1 eligible]. simpl in Hbr, Hsel.
    destruct eligible as [|e0 el]; [apply Hstart; assumption|].
    destruct (assign_ranks 1 _ _) as [ranked log].
    destruct (Z.max 0 _ <=? 0); [apply Hstart; assumption|].
    destruct (select _ _ _) as [desired|e]; [|apply Hstart; assumption].
    set (st3 := with_research_log _ _).
    assert (selected st3 = []) as Hs3 by exact Hsel.
    assert (budget_remaining st3 =
            compute_budgets k acc (List.map (fun w => w_currency (fst w)) watch))
      as Hb3 by exact Hbr.
    assert (forall c, 0 <= rem st3 c)%Q as Hnn.
    { intros c. rewrite Hb3. apply compute_budgets_nonneg. }
    pose proof (buy_loop_budget k (get_account_value acc "NetLiquidation" None)
                  (Z.max 0 (Z.min (max_positions k - Z.of_nat (size
                     (list_to_set (List.map (fun p => symbol (p_contract p))
                                            (positions ib0)) : gset string)))
                                  (max_new_positions_per_cycle k)))
                  (cand_by_symbol ranked) desired st3 Hnn cur) as (A & B & C).
    destruct (Hstart st3 Hs3 Hb3) as (A0 & B0 & C0).
    rewrite Hs3 in C. simpl in C.
    destruct (buy_loop _ _ _ _ desired st3) as [st4 [e|]]; simpl in *;
      repeat split; lra.
  - intros k nl max_new by_symbol desired st Hnn st'. split.
    + intros cur. apply buy_loop_budget. exact Hnn.
    + destruct (buy_loop_order k nl max_new by_symbol desired st Hnn)
        as (ds & pairs & Hsub & Hsel & Hall).
      destruct (buy_loop_placed k nl max_new by_symbol desired st) as (new & Hs & Hb).
      exists ds, pairs. repeat split; try assumption.
      subst st'. rewrite Hsel in Hs. apply app_inv_head in Hs. subst new. exact Hb.
  - intros k nl by_symbol sym st Hnn st'.
    destruct (buy_one_effect k nl by_symbol sym st Hnn)
      as [H|(cand & q & Hc & _ & Hs & Hq & Hcap & _ & _ & Hrem & _)].
    + left. exact H.
    + right. exists cand, q.
      destruct (buy_one_placed k nl by_symbol sym st) as (new & Hs' & Hb).
      repeat split; try assumption.
      subst st'. rewrite Hs in Hs'. apply app_inv_head in Hs'. subst new. exact Hb.
Qed.

End Budget.

(** Two requests for AAPL against a USD budget of 10000: the first buy takes
    200 shares at 50, and the budget is accounted for in full. *)
Lemma C1_budget_witness :
  let st' := fst (Runner.buy_loop demo_knobs (Some 100000%Q) 2
                    (Runner.cand_by_symbol [demo_cand]) ["aapl"; "aapl"] demo_cycle) in
  (0 <= default 0%Q (Runner.budget_remaining st' !! "USD"))%Q /\
  (default 0%Q (Runner.budget_remaining st' !! "USD")
   <= default 0%Q (Runner.budget_remaining demo_cycle !! "USD"))%Q /\
  (Runner.buy_notional "USD" (Runner.selected st')
   + default 0%Q (Runner.budget_remaining st' !! "USD") ==
   Runner.buy_notional "USD" (Runner.selected demo_cycle)
   + default 0%Q (Runner.budget_remaining demo_cycle !! "USD"))%Q.
Proof.
  refine (proj1 (proj1 (proj2 C1_budget_never_oversubscribed) demo_knobs (Some 100000%Q) 2
                       (Runner.cand_by_symbol [demo_cand]) ["aapl"; "aapl"] demo_cycle _)
                "USD").
  intros cur. unfold demo_cycle. simpl.
  destruct (decide (cur = "USD")) as [->|Hne].
  - vm_compute. discriminate.
  - rewrite lookup_singleton_ne by congruence. vm_compute. discriminate.
Defined.

(** ** The research loop *)
Section Research.
Import Runner Timeout.

Lemma process_candidate_row k os st item obs :
  exists row,
    research_log (fst (process_candidate k os st item obs)) = research_log st ++ [row] /\
    records_candidate k os (budget_remaining st) (item, obs) row /\
    (snd (process_candidate k os st item obs) <> None ->
     rr_decision row = SHORTLISTED).
Proof.
  unfold process_candidate, records_candidate. simpl.
  destruct (research_body k os (budget_remaining st) item obs) as [v [e|]] eqn:E;
    eexists; (split; [reflexivity|]); simpl.
  - split.
    + repeat split; destruct e; simpl; auto.
    + intros H. exfalso. apply H.
      unfold research_body in E.
      repeat match type of E with
             | context [match ?x with _ => _ end] => destruct x; try discriminate
             end; injection E as <- _; destruct e; reflexivity.
  - split; [repeat split|].
    intros H. unfold research_body in E.
    repeat match type of E with
           | context [match ?x with _ => _ end] => destruct x; try discriminate
           end; injection E as <-; simpl in *; congruence.
Qed.

(** C4. The research loop appends exactly one research record per candidate
    of the watch list, in order, each carrying the candidate's symbol, a
    decision and a reason; when the research of a candidate raised (timeout
    or any other exception) its record is REJECTED with the reason built
    from the exception.  No later stage of the cycle adds or removes a
    record. *)
Theorem C4_one_research_record_per_candidate :
  (forall k os watch st,
      exists rows,
        research_log (fst (research_loop k os st watch)) = research_log st ++ rows /\
        Forall2 (records_candidate k os (budget_remaining st)) watch rows) /\
  (forall k ib0 acc watch select,
      snd (trading_cycle k ib0 acc watch select) = NoCapacity \/
      length (research_log (fst (trading_cycle k ib0 acc watch select))) = length watch).
Proof.
  assert (forall k os watch st,
             exists rows,
               research_log (fst (research_loop k os st watch)) = research_log st ++ rows /\
               Forall2 (records_candidate k os (budget_remaining st)) watch rows) as Hloop.
  { intros k os watch. induction watch as [|[item obs] rest IH]; intros st; simpl.
    - exists []. rewrite app_nil_r. split; [reflexivity|constructor].
    - destruct (process_candidate_row k os st item obs) as (row & Hlog & Hrow & _).
      pose proof (process_candidate_frame k os st item obs) as (_ & Hb & _).
      destruct (process_candidate k os st item obs) as [st1 cand]. simpl in *.
      destruct (IH st1) as (rows & Hlog' & Hrows).
      destruct (research_loop k os st1 rest) as [st2 el]. simpl in *.
      exists (row :: rows). rewrite Hlog', Hlog, <- app_assoc. split; [reflexivity|].
      constructor; [exact Hrow|]. rewrite <- Hb. exact Hrows. }
  split; [exact Hloop|].
  intros k ib0 acc watch select. unfold trading_cycle.
  destruct (Z.max 0 _ =? 0); [left; reflexivity|right].
  set (st0 := mkCycle ib0 _ [] [] [] 0).
  destruct (Hloop k (list_to_set (List.map (fun p => Executor.symbol (Executor.p_contract p))
                                          (Executor.positions ib0))) watch st0)
    as (rows & Hlog & Hrows).
  apply Forall2_length in Hrows.
  destruct (research_loop _ _ st0 watch) as [st1 eligible]. simpl in Hlog.
  assert (length (research_log st1) = length watch) as Hlen by (rewrite Hlog; simpl; lia).
  clear Hlog Hrows.
  assert (forall log i d r rk,
             length (update_research_decision log i d r rk) = length log) as Hupd.
  { intros. unfold update_research_decision. apply length_alter. }
  assert (forall l rank log, length (snd (assign_ranks rank l log)) = length log) as Hranks.
  { induction l as [|c l IH]; intros rank log; simpl; [reflexivity|].
    specialize (IH (S rank) (update_research_decision log (e_research_id c) SHORTLISTED
                                                      (e_decision_reason c) rank)).
    destruct (assign_ranks (S rank) l _) as [rest' log2]. simpl in *.
    rewrite IH. apply Hupd. }
  assert (forall desired l log, length (mark_not_selected desired l log) = length log) as Hmark.
  { intros desired l. unfold mark_not_selected.
    induction l as [|c l IH]; intros log; simpl; [reflexivity|].
    rewrite IH. destruct (existsb _ desired); [reflexivity|apply Hupd]. }
  assert (forall k nl bys sym st,
             length (research_log (fst (buy_one k nl bys sym st))) = length (research_log st))
    as Hone.
  { intros k' nl bys sym st. unfold buy_one, skip_with, with_research_log.
    repeat match goal with
           | |- context [match ?x with _ => _ end] => destruct x
           end; simpl; rewrite ?Hupd; reflexivity. }
  assert (forall k nl mx bys desired st,
             length (research_log (fst (buy_loop k nl mx bys desired st)))
             = length (research_log st)) as Hbuy.
  { intros k' nl mx bys desired. induction desired as [|sym rest IH]; intros st; simpl;
      [reflexivity|].
    destruct (mx <=? _); [reflexivity|].
    pose proof (Hone k' nl bys sym st) as H1.
    destruct (buy_one k' nl bys sym st) as [s1 [e|]]; simpl in *; [exact H1|].
    rewrite IH. exact H1. }
  destruct eligible as [|e0 el]; [exact Hlen|].
  pose proof (Hranks (sort_by_score (e0 :: el)) 1%nat (research_log st1)) as Hr.
  destruct (assign_ranks 1 _ _) as [ranked log]. simpl in Hr.
  destruct (Z.max 0 _ <=? 0); [simpl; congruence|].
  destruct (select _ _ _) as [desired|e]; [|simpl; congruence].
  match goal with
  | |- context [buy_loop ?a ?b ?c ?d ?e ?f] =>
      pose proof (Hbuy a b c d e f) as Hb; destruct (buy_loop a b c d e f) as [st4 [x|]]
  end; simpl in *; rewrite Hb, Hmark; congruence.
Qed.

End Research.

Section ResearchTimeout.
Import Runner Timeout.

(** C3. The research loop never applies the per-symbol timeout: the record
    written for a candidate and its eligibility do not depend on how long
    the research took.  A research that takes 60 seconds, for which
    [process_with_timeout] with the 45 s limit raises [SymbolTimeout], runs
    to its end inline and the candidate is recorded as SHORTLISTED. *)
Theorem C3_research_runs_without_timeout :
  (forall k os st item obs d,
      research_log (fst (process_candidate k os st item (with_duration obs d)))
      = research_log (fst (process_candidate k os st item obs)) /\
      snd (process_candidate k os st item (with_duration obs d))
      = snd (process_candidate k os st item obs)) /\
  Qltb SYMBOL_TIMEOUT_SECONDS (o_duration slow_obs) = true /\
  process_with_timeout (mkCall (o_duration slow_obs) (Ok tt)) SYMBOL_TIMEOUT_SECONDS
  = Raise (SymbolTimeout "Processing timed out") /\
  exists row,
    research_log (fst (process_candidate demo_knobs ∅ fresh_cycle slow_item slow_obs)) = [row] /\
    rr_decision row = SHORTLISTED /\
    (clock (fst (process_candidate demo_knobs ∅ fresh_cycle slow_item slow_obs)) == 60)%Q.
Proof.
  split; [|split; [reflexivity|split; [reflexivity|]]].
  - intros k os st item obs d. unfold process_candidate.
    change (research_body k os (budget_remaining st) item (with_duration obs d))
      with (research_body k os (budget_remaining st) item obs).
    destruct (research_body k os (budget_remaining st) item obs) as [v r].
    split; reflexivity.
  - eexists. split; [vm_compute; reflexivity|]. split; reflexivity.
Qed.

End ResearchTimeout.

(** ** Currencies without a cash budget *)
Section NoBudget.
Import Runner IbkrAccount.

Local Abbreviation rem st cur := (default 0%Q (budget_remaining st !! cur)).

(** A candidate becomes eligible only with a positive budget in its
    currency. *)
Lemma process_candidate_eligible k os st item obs c :
  snd (process_candidate k os st item obs) = Some c ->
  e_currency c = w_currency item /\ (0 < rem st (w_currency item))%Q.
Proof.
  unfold process_candidate.
  destruct (research_body k os (budget_remaining st) item obs) as [v r] eqn:E.
  simpl. unfold research_body in E.
  repeat match type of E with
         | context [match ?x with _ => _ end] => destruct x eqn:?; try discriminate
         | context [if ?x then _ else _] => destruct x eqn:?; try discriminate
         end; injection E as <- <-; simpl; try discriminate;
    try (match goal with e : PyExn |- _ => destruct e; discriminate end).
  intros [= <-]. simpl. split; [reflexivity|].
  match goal with H : Qleb _ 0 = false |- _ => apply Qleb_false in H; exact H end.
Qed.

Lemma process_candidate_no_budget k os st item obs :
  (rem st (w_currency item) <= 0)%Q ->
  snd (process_candidate k os st item obs) = None /\
  exists row,
    research_log (fst (process_candidate k os st item obs)) = research_log st ++ [row] /\
    rr_decision row = REJECTED /\
    (forall latest c ai,
        o_bars obs = Ok (Some latest) -> o_contract obs = Ok c -> o_ai obs = Ok ai ->
        ai_decision ai = SHORTLIST -> o_market_open obs = true ->
        intraday_enabled k && o_near_close obs = false ->
        w_symbol item ∉ os ->
        rr_reason row = NoCashBudget (w_currency item)).
Proof.
  intros Hb.
  assert (snd (process_candidate k os st item obs) = None) as Hnone.
  { destruct (snd (process_candidate k os st item obs)) as [c|] eqn:E; [|reflexivity].
    apply process_candidate_eligible in E as [_ E]. lra. }
  split; [exact Hnone|].
  apply Qleb_true in Hb.
  unfold process_candidate in *.
  destruct (research_body k os (budget_remaining st) item obs) as [v r] eqn:E.
  eexists. split; [reflexivity|]. simpl in *.
  unfold research_body in E. split.
  - repeat match type of E with
           | context [match ?x with _ => _ end] => destruct x eqn:?; try discriminate
           | context [if ?x then _ else _] => destruct x eqn:?; try discriminate
           end; injection E as <- <-; simpl in *; try reflexivity; try congruence;
      match goal with e : PyExn |- _ => destruct e; reflexivity end.
  - intros latest c ai H1 H2 H3 H4 H5 H6 H7.
    rewrite H1, H2, H3, H4, H5, H6, Hb in E. simpl in E.
    rewrite bool_decide_eq_false_2 in E by exact H7.
    injection E as <- <-. reflexivity.
Qed.

Lemma research_loop_eligible k os watch :
  forall st,
    Forall (fun c => 0 < rem st (e_currency c))%Q (snd (research_loop k os st watch)).
Proof.
  induction watch as [|[item obs] rest IH]; intros st; simpl; [constructor|].
  pose proof (process_candidate_eligible k os st item obs) as Hc.
  pose proof (process_candidate_frame k os st item obs) as (_ & Hb & _).
  destruct (process_candidate k os st item obs) as [st1 cand]. simpl in *.
  specialize (IH st1). rewrite Hb in IH.
  destruct (research_loop k os st1 rest) as [st2 el]. simpl in *.
  destruct cand as [c|]; [|exact IH].
  constructor; [|exact IH]. destruct (Hc c eq_refl) as [-> H]. exact H.
Qed.

Lemma sort_by_score_Forall (P : Eligible -> Prop) l :
  Forall P l -> Forall P (sort_by_score l).
Proof.
  assert (forall x l, P x -> Forall P l -> Forall P (insert_by_score x l)) as Hins.
  { intros x l' Hx. induction l' as [|y l' IH]; intros Hl; simpl.
    - constructor; [exact Hx|constructor].
    - apply Forall_cons in Hl as [Hy Hl].
      destruct (Qltb (e_score x) (e_score y)).
      + constructor; [exact Hy|apply IH; exact Hl].
      + constructor; [exact Hx|]. constructor; assumption. }
  induction 1 as [|x l' Hx Hl IH]; simpl; [constructor|].
  apply Hins; assumption.
Qed.

Lemma assign_ranks_currency (P : string -> Prop) l :
  forall rank log,
    Forall (fun c => P (e_currency c)) l ->
    Forall (fun c => P (e_currency c)) (fst (assign_ranks rank l log)).
Proof.
  induction l as [|c l IH]; intros rank log H; simpl; [constructor|].
  apply Forall_cons in H as [Hc Hl].
  specialize (IH (S rank) (update_research_decision log (e_research_id c) SHORTLISTED
                                                    (e_decision_reason c) rank) Hl).
  destruct (assign_ranks (S rank) l _) as [rest' log2]. simpl in *.
  constructor; [exact Hc|exact IH].
Qed.

Lemma cand_by_symbol_values l key c :
  cand_by_symbol l !! key = Some c -> In c l.
Proof.
  unfold cand_by_symbol.
  assert (forall m : gmap string Eligible,
             fold_left (fun m c => <[upper (e_symbol c) := c]> m) l m !! key = Some c ->
             In c l \/ m !! key = Some c) as H.
  { induction l as [|x l IH]; intros m; simpl; [auto|].
    intros Hl. apply IH in Hl as [Hl|Hl]; [auto|].
    destruct (decide (upper (e_symbol x) = key)) as [<-|Hne].
    - rewrite lookup_insert_eq in Hl. injection Hl as <-. auto.
    - rewrite lookup_insert_ne in Hl by exact Hne. auto. }
  intros Hl. apply H in Hl as [Hl|Hl]; [exact Hl|].
  rewrite lookup_empty in Hl. discriminate.
Qed.

Lemma buy_notional_other cur (sel : list (Eligible * Z)) :
  Forall (fun cq => e_currency (fst cq) <> cur) sel -> buy_notional cur sel = 0%Q.
Proof.
  induction 1 as [|[c q] l Hc Hl IH]; simpl; [reflexivity|].
  destruct (String.eqb_spec (e_currency c) cur) as [E|_]; [contradiction|exact IH].
Qed.

Lemma first_parseable_filter P R l :
  first_parseable P (List.filter R l) = first_parseable (fun v => R v && P v) l.
Proof.
  induction l as [|v l IH]; simpl; [reflexivity|].
  destruct (R v); simpl; [|exact IH].
  destruct (P v); [|exact IH]. destruct (av_value v); [reflexivity|exact IH].
Qed.

(** A parseable row of the tag in the currency itself answers the lookup. *)
Lemma get_account_value_own_row acc tag cur x :
  first_parseable (fun v => String.eqb (av_tag v) tag && String.eqb (av_currency v) cur)
                  acc = Some x ->
  get_account_value acc tag (Some cur) = Some x.
Proof.
  intros H. unfold get_account_value.
  rewrite <- first_parseable_filter in H.
  destruct (List.filter (fun v => String.eqb (av_tag v) tag) acc) as [|m ms];
    [discriminate|].
  rewrite H. reflexivity.
Qed.

(** ** The contracts of the orders placed *)

(** Every order a bracket entry hands to [placeOrder] is for the contract
    it was called with. *)
Lemma execute_buy_order_contracts ib c q sl tp :
  exists new,
    placed (fst (execute_buy_order ib c q (Some sl) (Some tp))) = placed ib ++ new /\
    Forall (fun t => contract t = c) new.
Proof.
  unfold execute_buy_order.
  destruct (q <=? 0).
  { exists []. simpl. rewrite app_nil_r. split; [reflexivity|constructor]. }
  cbn [getReqId].
  match goal with
  | |- context [placeOrder ?i ?cc ?o] =>
      pose proof (placeOrder_placed i cc o) as Hp;
      pose proof (placeOrder_trade i cc o) as Ht;
      destruct (placeOrder i cc o) as [ib4 trade] eqn:E
  end.
  cbn [fst snd fold_left app] in *.
  rewrite !placeOrder_placed, !placeOrder_trade, Hp, Ht. cbn [placed].
  rewrite <- !app_assoc. eexists. split; [reflexivity|].
  repeat constructor.
Qed.

(** One pass of the buy loop places orders only for the contract of the
    candidate it appends to [selected]. *)
Lemma buy_one_contracts k nl by_symbol sym st :
  exists sel_new new,
    selected (fst (buy_one k nl by_symbol sym st)) = selected st ++ sel_new /\
    placed (c_ib (fst (buy_one k nl by_symbol sym st))) = placed (c_ib st) ++ new /\
    Forall (fun t => exists cq, In cq sel_new /\ contract t = e_contract (fst cq)) new.
Proof.
  assert (exists (sel_new : list (Eligible * Z)) new,
             selected st = selected st ++ sel_new /\
             placed (c_ib st) = placed (c_ib st) ++ new /\
             Forall (fun t => exists cq, In cq sel_new /\ contract t = e_contract (fst cq))
                    new)
    as Hsame by (exists [], []; rewrite !app_nil_r; repeat split; constructor).
  unfold buy_one.
  destruct (by_symbol !! upper sym) as [cand|]; [|exact Hsame].
  destruct (ATRr_14 (e_latest cand)) as [atr|]; [|exact Hsame].
  destruct (Qleb _ 0); [exact Hsame|].
  destruct nl as [equity|]; [|exact Hsame].
  destruct (Qeqb (e_price cand) 0); [exact Hsame|].
  set (q := Z.min _ _).
  destruct (q <=? 0) eqn:Hq; [exact Hsame|].
  apply Z.leb_gt in Hq.
  destruct (execute_buy_order_contracts (c_ib st) (e_contract cand) q
              (e_price cand - stop_atr_multiplier k * atr)%Q
              (e_price cand + take_profit_r k *
                 (e_price cand - (e_price cand - stop_atr_multiplier k * atr)))%Q)
    as (new & Hp & Hall).
  destruct (execute_buy_order_bracket (c_ib st) (e_contract cand) q
              (e_price cand - stop_atr_multiplier k * atr)%Q
              (e_price cand + take_profit_r k *
                 (e_price cand - (e_price cand - stop_atr_multiplier k * atr)))%Q Hq)
    as (ib' & trade & E & _).
  rewrite E in Hp |- *. simpl in Hp |- *.
  exists [(cand, q)], new. repeat split; [exact Hp|].
  eapply Forall_impl; [exact Hall|].
  intros t Ht. exists (cand, q). split; [left; reflexivity|exact Ht].
Qed.

Lemma buy_loop_contracts k nl max_new by_symbol desired :
  forall st,
    exists sel_new new,
      selected (fst (buy_loop k nl max_new by_symbol desired st)) = selected st ++ sel_new /\
      placed (c_ib (fst (buy_loop k nl max_new by_symbol desired st)))
      = placed (c_ib st) ++ new /\
      Forall (fun t => exists cq, In cq sel_new /\ contract t = e_contract (fst cq)) new.
Proof.
  induction desired as [|sym rest IH]; intros st; simpl.
  - exists [], []. rewrite !app_nil_r. repeat split; constructor.
  - destruct (max_new <=? Z.of_nat (length (selected st))).
    { exists [], []. simpl. rewrite !app_nil_r. repeat split; constructor. }
    destruct (buy_one_contracts k nl by_symbol sym st) as (s1 & n1 & Hs1 & Hp1 & H1).
    destruct (buy_one k nl by_symbol sym st) as [st1 [e|]]; simpl in Hs1, Hp1 |- *.
    + exists s1, n1. repeat split; assumption.
    + destruct (IH st1) as (s2 & n2 & Hs2 & Hp2 & H2).
      exists (s1 ++ s2), (n1 ++ n2). rewrite Hs2, Hp2, Hs1, Hp1, !app_assoc.
      repeat split. apply Forall_app. split.
      * eapply Forall_impl; [exact H1|]. intros t (cq & Hin & Hc).
        exists cq. split; [apply in_or_app; left; exact Hin|exact Hc].
      * eapply Forall_impl; [exact H2|]. intros t (cq & Hin & Hc).
        exists cq. split; [apply in_or_app; right; exact Hin|exact Hc].
Qed.

(** Every order a cycle hands to [placeOrder] is for the contract of a
    candidate in its [selected] list. *)
Lemma trading_cycle_contracts k ib0 acc watch select :
  exists new,
    placed (c_ib (fst (trading_cycle k ib0 acc watch select))) = placed ib0 ++ new /\
    Forall (fun t => exists cq,
                In cq (selected (fst (trading_cycle k ib0 acc watch select))) /\
                contract t = e_contract (fst cq)) new.
Proof.
  assert (forall s : Cycle,
             c_ib s = ib0 ->
             exists new,
               placed (c_ib s) = placed ib0 ++ new /\
               Forall (fun t => exists cq, In cq (selected s) /\
                                           contract t = e_contract (fst cq)) new)
    as Hstart.
  { intros s ->. exists []. rewrite app_nil_r. split; [reflexivity|constructor]. }
  unfold trading_cycle.
  destruct (Z.max 0 _ =? 0); [apply Hstart; reflexivity|].
  set (st0 := mkCycle ib0 _ [] [] [] 0).
  pose proof (research_loop_frame k
                (list_to_set (List.map (fun p => symbol (p_contract p)) (positions ib0)))
                watch st0) as (Hib & _ & Hsel & _).
  destruct (research_loop _ _ st0 watch) as [st1 eligible]. simpl in Hib, Hsel.
  destruct eligible as [|e0 el]; [apply Hstart; assumption|].
  destruct (assign_ranks 1 _ _) as [ranked log].
  destruct (Z.max 0 _ <=? 0); [apply Hstart; assumption|].
  destruct (select _ _ _) as [desired|e]; [|apply Hstart; assumption].
  set (st3 := with_research_log _ _).
  assert (selected st3 = []) as Hs3 by exact Hsel.
  assert (c_ib st3 = ib0) as Hi3 by exact Hib.
  destruct (buy_loop_contracts k (get_account_value acc "NetLiquidation" None)
              (Z.max 0 (Z.min (max_positions k - Z.of_nat (size
                 (list_to_set (List.map (fun p => symbol (p_contract p))
                                        (positions ib0)) : gset string)))
                              (max_new_positions_per_cycle k)))
              (cand_by_symbol ranked) desired st3) as (s1 & new & Hs & Hp & Hall).
  rewrite Hs3 in Hs. rewrite Hi3 in Hp. simpl in Hs.
  destruct (buy_loop _ _ _ _ desired st3) as [st4 [e|]]; simpl in *;
    exists new; rewrite Hs; split; assumption.
Qed.

(** C7 (amended). The budget of a currency of the candidate set is
    [max(0, min(available * maxUtilisation, available - minReserve))], with
    [available] the value of the first parseable row of the configured cash
    tag in that currency, and exactly zero when the lookup of the tag for
    the currency returns nothing.  With a budget of zero no candidate of
    that currency becomes eligible: each one is recorded as REJECTED, with
    the reason "No available cash budget for {currency}" when it was
    shortlisted and passed the market-hours, near-close and already-holding
    gates (otherwise with the reason of the earlier rejection); and the
    cycle places no order for a candidate of that currency: every order it
    hands to [placeOrder] is for the contract of a candidate of another
    currency.  A currency whose tag has no row of its own but a "BASE" row
    is left out of this statement. *)
Theorem C7_budget_by_currency :
  (forall k acc (currencies : list string) cur,
      cur ∈ currencies ->
      compute_budgets k acc currencies !! cur = Some (budget_for k acc cur)) /\
  (forall k acc cur available,
      first_parseable (fun v => String.eqb (av_tag v) (cash_budget_tag k)
                                && String.eqb (av_currency v) cur) acc = Some available ->
      budget_for k acc cur =
      Qmax 0 (Qmin (available * max_cash_utilisation k)
                   (available - default 0%Q (min_cash_reserve k !! cur)))) /\
  (forall k acc currencies cur,
      get_account_value acc (cash_budget_tag k) (Some cur) = None ->
      default 0%Q (compute_budgets k acc currencies !! cur) = 0%Q) /\
  (forall k os st item obs,
      (rem st (w_currency item) <= 0)%Q ->
      snd (process_candidate k os st item obs) = None /\
      exists row,
        research_log (fst (process_candidate k os st item obs)) = research_log st ++ [row] /\
        rr_decision row = REJECTED /\
        (forall latest c ai,
            o_bars obs = Ok (Some latest) -> o_contract obs = Ok c -> o_ai obs = Ok ai ->
            ai_decision ai = SHORTLIST -> o_market_open obs = true ->
            intraday_enabled k && o_near_close obs = false ->
            w_symbol item ∉ os ->
            rr_reason row = NoCashBudget (w_currency item))) /\
  (forall k ib0 acc watch select cur,
      (default 0%Q (compute_budgets k acc (List.map (fun w => w_currency (fst w)) watch)
                    !! cur) == 0)%Q ->
      Forall (fun cq => e_currency (fst cq) <> cur)
             (selected (fst (trading_cycle k ib0 acc watch select))) /\
      buy_notional cur (selected (fst (trading_cycle k ib0 acc watch select))) = 0%Q /\
      exists new,
        placed (c_ib (fst (trading_cycle k ib0 acc watch select))) = placed ib0 ++ new /\
        Forall (fun t => exists cq,
                    In cq (selected (fst (trading_cycle k ib0 acc watch select))) /\
                    e_currency (fst cq) <> cur /\
                    contract t = e_contract (fst cq)) new).
Proof.
  split; [|split; [|split; [|split]]].
  - intros k acc currencies cur Hin. rewrite compute_budgets_lookup.
    destruct (decide (cur ∈ currencies)); [reflexivity|contradiction].
  - intros k acc cur available Ha. unfold budget_for.
    rewrite (get_account_value_own_row _ _ _ _ Ha). reflexivity.
  - intros k acc currencies cur Hnone. rewrite compute_budgets_lookup.
    destruct (decide (cur ∈ currencies)); [|reflexivity].
    simpl. unfold budget_for. rewrite Hnone. reflexivity.
  - intros k os st item obs. apply process_candidate_no_budget.
  - intros k ib0 acc watch select cur Hzero.
    match goal with |- ?A /\ _ => assert A as HF end.
    2: { split; [exact HF|]. split; [apply buy_notional_other; exact HF|].
         destruct (trading_cycle_contracts k ib0 acc watch select) as (new & Hp & Hall).
         exists new. split; [exact Hp|].
         eapply Forall_impl; [exact Hall|]. intros t (cq & Hin & Hc).
         exists cq. repeat split; try assumption.
         rewrite Forall_forall in HF. apply HF. apply list_elem_of_In. exact Hin. }
    unfold trading_cycle.
    destruct (Z.max 0 _ =? 0); [constructor|].
    set (budgets := compute_budgets k acc (List.map (fun w => w_currency (fst w)) watch))
      in *.
    set (st0 := mkCycle ib0 budgets [] [] [] 0).
    set (os := list_to_set _).
    pose proof (research_loop_frame k os watch st0) as (_ & Hbr & Hsel & _).
    pose proof (research_loop_eligible k os watch st0) as Hel.
    destruct (research_loop k os st0 watch) as [st1 eligible]. simpl in Hbr, Hsel, Hel.
    destruct eligible as [|e0 el]; [simpl; rewrite Hsel; constructor|].
    pose proof (assign_ranks_currency (fun c => 0 < default 0%Q (budgets !! c))%Q
                  (sort_by_score (e0 :: el)) 1%nat (research_log st1)
                  (sort_by_score_Forall _ _ Hel)) as Hranked.
    destruct (assign_ranks 1 _ _) as [ranked log]. simpl in Hranked.
    destruct (Z.max 0 _ <=? 0); [simpl; rewrite Hsel; constructor|].
    destruct (select _ _ _) as [desired|e]; [|simpl; rewrite Hsel; constructor].
    set (st3 := with_research_log _ _).
    assert (forall c, 0 <= rem st3 c)%Q as Hnn.
    { intros c. simpl. rewrite Hbr. apply compute_budgets_nonneg. }
    match goal with
    | |- context [buy_loop ?a ?b ?c ?d ?e ?f] =>
        destruct (buy_loop_order a b c d e f Hnn) as (ds & pairs & _ & Hs4 & Hall);
        destruct (buy_loop a b c d e f) as [st4 [x|]]
    end; simpl in Hs4 |- *; rewrite Hs4; simpl; rewrite Hsel; simpl.
    all: clear - Hall Hranked Hzero;
      induction Hall as [|sym cq ds pairs [Hc _] _ IH]; constructor; [|exact IH];
      apply cand_by_symbol_values in Hc;
      rewrite Forall_forall in Hranked; specialize (Hranked _ (proj2 (list_elem_of_In _ _) Hc));
      intros Heq; rewrite Heq in Hranked; lra.
Qed.

End NoBudget.

Section NoBudgetExamples.
Import Runner IbkrAccount.

(** C7, as the specification words it, fails twice.  On the reason: with
    the GBP cash tag missing, a GBP candidate that the decision service
    skips is rejected with the decision service's reason, which does not
    cite the missing cash budget.  On "no fallback": with an account summary
    whose only row of the cash tag is the "BASE" row, no row of the tag is
    in GBP, and the GBP budget is 10000, computed from the "BASE" row,
    where the comment on the budget loop says "no fallback: if we can't
    read a currency's AvailableFunds, we won't trade it". *)
Lemma C7_counterexample :
  (get_account_value usd_only_summary (cash_budget_tag demo_knobs) (Some "GBP") = None /\
   exists row,
     research_log (fst (process_candidate demo_knobs ∅ gbp_cycle gbp_item gbp_skipped))
     = [row] /\
     rr_decision row = REJECTED /\
     rr_reason row <> NoCashBudget "GBP") /\
  (Forall (fun v => av_currency v <> "GBP") base_only_summary /\
   (budget_for demo_knobs base_only_summary "GBP" == 10000)%Q /\
   ~ (default 0%Q (compute_budgets demo_knobs base_only_summary ["GBP"] !! "GBP") == 0)%Q).
Proof.
  split.
  - split; [reflexivity|].
    eexists. split; [vm_compute; reflexivity|]. split; [reflexivity|discriminate].
  - split; [repeat constructor; discriminate|].
    split; [vm_compute; reflexivity|].
    vm_compute. discriminate.
Qed.

(** The shortlisted GBP candidate is rejected for the missing budget. *)
Lemma C7_budget_by_currency_witness :
  snd (process_candidate demo_knobs ∅ gbp_cycle gbp_item gbp_shortlisted) = None /\
  exists row,
    research_log (fst (process_candidate demo_knobs ∅ gbp_cycle gbp_item gbp_shortlisted))
    = research_log gbp_cycle ++ [row] /\
    rr_decision row = REJECTED /\
    (forall latest c ai,
        o_bars gbp_shortlisted = Ok (Some latest) -> o_contract gbp_shortlisted = Ok c ->
        o_ai gbp_shortlisted = Ok ai ->
        ai_decision ai = SHORTLIST -> o_market_open gbp_shortlisted = true ->
        intraday_enabled demo_knobs && o_near_close gbp_shortlisted = false ->
        w_symbol gbp_item ∉ (∅ : gset string) ->
        rr_reason row = NoCashBudget (w_currency gbp_item)).
Proof.
  apply (proj1 (proj2 (proj2 (proj2 C7_budget_by_currency)))
               demo_knobs ∅ gbp_cycle gbp_item gbp_shortlisted).
  vm_compute. discriminate.
Defined.

End NoBudgetExamples.

(** ** Runtime configuration *)
Section Overlay.
Import RuntimeConfig Runner.

Lemma validate_pairs_cons path value rest :
  validate_pairs ((path, value) :: rest) =
  match lookup_validator _ALLOWED_OVERRIDE_VALIDATORS path with
  | None => Raise (ValueError (msg2 "Unsupported override key: " path))
  | Some validator => rbind (validator value) (fun _ => validate_pairs rest)
  end.
Proof. reflexivity. Qed.

(** A list of override pairs with an unknown path never validates. *)
Lemma validate_pairs_unknown p pairs :
  In p (List.map fst pairs) -> allowed_path p = false ->
  exists e, validate_pairs pairs = Raise e.
Proof.
  intros Hin Hp. induction pairs as [|[path value] rest IH]; [destruct Hin|].
  rewrite validate_pairs_cons. unfold allowed_path in Hp.
  destruct (lookup_validator _ALLOWED_OVERRIDE_VALIDATORS path) as [f|] eqn:E; [|eauto].
  destruct (f value) as [[]|e]; simpl; [|eauto].
  destruct Hin as [Heq|Hin]; [|exact (IH Hin)].
  simpl in Heq. subst path. rewrite E in Hp. discriminate.
Qed.

(** The first offence is the one reported: an unknown path met after pairs
    that all validate is named in the error. *)
Lemma validate_pairs_first_unknown pre p v post :
  validate_pairs pre = Ok tt -> allowed_path p = false ->
  validate_pairs (pre ++ (p, v) :: post)
  = Raise (ValueError (msg2 "Unsupported override key: " p)).
Proof.
  intros Hpre Hp. induction pre as [|[path value] rest IH].
  - simpl app. rewrite validate_pairs_cons. unfold allowed_path in Hp.
    destruct (lookup_validator _ALLOWED_OVERRIDE_VALIDATORS p); [discriminate|reflexivity].
  - simpl app. rewrite validate_pairs_cons in *.
    destruct (lookup_validator _ALLOWED_OVERRIDE_VALIDATORS path) as [f|]; [|discriminate].
    destruct (f value) as [[]|e]; simpl in *; [|discriminate].
    apply IH. exact Hpre.
Qed.

Lemma validate_strategies_unknown p l :
  forall seen,
    In p (List.concat (List.map strategy_paths l)) -> allowed_path p = false ->
    exists e, validate_strategies l seen = Raise e.
Proof.
  induction l as [|s l IH]; intros seen Hin Hp; [destruct Hin|].
  simpl in Hin. apply in_app_iff in Hin.
  destruct s as [| | | | | |sd]; try (simpl; eauto; fail).
  cbn [validate_strategies].
  destruct (dict_get sd "name") as [[| | | |name| |]|]; eauto.
  destruct (negb (nonblank name)); eauto.
  destruct (existsb _ seen); eauto.
  unfold strategy_paths, override_paths_of in Hin.
  destruct (default (JDict []) (dict_get sd "overrides")) as [| | | | | |ov]; eauto;
    try (destruct Hin as [[]|Hin]; apply (IH _ Hin Hp); fail).
  unfold _validate_override_dict.
  destruct (validate_pairs (_flatten_overrides ov "")) as [[]|e] eqn:E; simpl; eauto.
  destruct Hin as [Hin|Hin]; [|exact (IH _ Hin Hp)].
  destruct (validate_pairs_unknown p _ Hin Hp) as [e He]. congruence.
Qed.

Lemma dict_get_set_eq d k v : dict_get (dict_set d k v) k = Some v.
Proof.
  induction d as [|[k' v'] rest IH]; simpl.
  - rewrite String.eqb_refl. reflexivity.
  - destruct (String.eqb k' k) eqn:E; simpl.
    + rewrite String.eqb_refl. reflexivity.
    + rewrite E. exact IH.
Qed.

Lemma dict_get_set_ne d k v k' : k <> k' -> dict_get (dict_set d k v) k' = dict_get d k'.
Proof.
  intros Hne. induction d as [|[k0 v0] rest IH]; simpl.
  - apply String.eqb_neq in Hne. rewrite Hne. reflexivity.
  - destruct (String.eqb k0 k) eqn:E; simpl.
    + apply String.eqb_eq in E. subst k0.
      apply String.eqb_neq in Hne. rewrite Hne. reflexivity.
    + destruct (String.eqb k0 k'); [reflexivity|exact IH].
Qed.

Lemma rbind_assoc {A B C} (x : result A) (f : A -> result B) (g : B -> result C) :
  rbind (rbind x f) g = rbind x (fun a => rbind (f a) g).
Proof. destruct x; reflexivity. Qed.

(** The loop over the strategies goes through a list part by part. *)
Lemma validate_strategies_app l1 l2 :
  forall seen,
    validate_strategies (l1 ++ l2) seen =
    rbind (validate_strategies l1 seen) (fun seen1 => validate_strategies l2 seen1).
Proof.
  induction l1 as [|s l1 IH]; intros seen; [reflexivity|].
  simpl app. destruct s as [| | | | | |sd]; try reflexivity.
  cbn [validate_strategies].
  destruct (dict_get sd "name") as [[| | | |name| |]|]; try reflexivity.
  destruct (negb (nonblank name)); [reflexivity|].
  destruct (existsb _ seen); [reflexivity|].
  destruct (default (JDict []) (dict_get sd "overrides")) as [| | | | | |ov];
    try reflexivity.
  rewrite rbind_assoc. destruct (_validate_override_dict ov) as [[]|e]; [|reflexivity].
  simpl. apply IH.
Qed.

(** C9 (amended). A runtime-config document that contains an override path
    outside the allow-list never validates; the paths are those of the
    values of the global overrides and of every strategy's overrides (a key
    whose value is an empty object carries no path and is left out).  The
    error raised is the one of the first offence in validation order:
    when the unknown path is the first pair that fails in the global
    overrides of a document that is valid apart from them, or in the
    overrides of a strategy before which every check passed, the error is
    "Unsupported override key: {path}".  When validation fails at the top
    of a cycle the scheduler restarts the iteration: [config] and
    [base_config] are unchanged, the live status says "Runtime config
    error; trading paused", the error is logged and one sleep of the current
    cycle interval is added.  Whatever the document, the step either ends
    like that or installs as [config] the whole result of
    [apply_runtime_config] on a document that validated, and then touches
    neither the status, the log nor the sleeps. *)
Theorem C9_unknown_override_rejected :
  (forall doc p,
      In p (doc_override_paths doc) -> allowed_path p = false ->
      exists e, validate_runtime_config doc = Raise e) /\
  (forall d overrides pre p v post,
      dict_get d "overrides" = Some (JDict overrides) ->
      _flatten_overrides overrides "" = pre ++ (p, v) :: post ->
      validate_pairs pre = Ok tt ->
      allowed_path p = false ->
      validate_runtime_config (JDict (dict_set d "overrides" (JDict []))) = Ok tt ->
      exists e, validate_runtime_config (JDict d) = Raise e /\ names_path e p) /\
  (forall d overrides before sd name ov after seen pre p v post,
      py_eq_one (default (JInt 1) (dict_get d "schema_version")) = true ->
      default (JDict []) (dict_get d "overrides") = JDict overrides ->
      dict_get d "strategies" = Some (JList (before ++ JDict sd :: after)) ->
      validate_strategies before [] = Ok seen ->
      dict_get sd "name" = Some (JStr name) ->
      nonblank name = true ->
      existsb (String.eqb (strip name)) seen = false ->
      dict_get sd "overrides" = Some (JDict ov) ->
      _flatten_overrides ov "" = pre ++ (p, v) :: post ->
      validate_pairs pre = Ok tt ->
      allowed_path p = false ->
      exists e, validate_runtime_config (JDict d) = Raise e /\ names_path e p) /\
  (forall s doc n e,
      normalise_runtime_config doc = Ok n ->
      validate_runtime_config n = Raise e ->
      let s' := fst (config_step s (Ok doc)) in
      config_step s (Ok doc) = (paused s e, Restart) /\
      snd (config_step s (Ok doc)) = Restart /\
      config s' = config s /\
      base_config s' = base_config s /\
      cycle_interval_seconds s' = cycle_interval_seconds s /\
      live_status s' = Some ("Config", "Runtime config error; trading paused") /\
      events s' = events s ++ [ConfigError e] /\
      slept s' = slept s ++ [cycle_interval_seconds s]) /\
  (forall s runtime_doc,
      let s' := fst (config_step s runtime_doc) in
      (exists e,
          config_step s runtime_doc = (paused s e, Restart) /\
          snd (config_step s runtime_doc) = Restart /\
          config s' = config s /\
          base_config s' = base_config s /\
          cycle_interval_seconds s' = cycle_interval_seconds s /\
          live_status s' = Some ("Config", "Runtime config error; trading paused") /\
          events s' = events s ++ [ConfigError e] /\
          slept s' = slept s ++ [cycle_interval_seconds s]) \/
      (exists doc n cfg,
          runtime_doc = Ok doc /\ normalise_runtime_config doc = Ok n /\
          validate_runtime_config n = Ok tt /\
          apply_runtime_config (base_config s) n = Ok cfg /\
          config s' = cfg /\
          snd (config_step s runtime_doc) = Proceed /\
          base_config s' = base_config s /\
          cycle_interval_seconds s' = cycle_interval_seconds s /\
          live_status s' = live_status s /\
          events s' = events s /\
          slept s' = slept s)).
Proof.
  assert (forall s runtime_doc e,
             config_step s runtime_doc = (paused s e, Restart) ->
             let s' := fst (config_step s runtime_doc) in
             config_step s runtime_doc = (paused s e, Restart) /\
             snd (config_step s runtime_doc) = Restart /\
             config s' = config s /\
             base_config s' = base_config s /\
             cycle_interval_seconds s' = cycle_interval_seconds s /\
             live_status s' = Some ("Config", "Runtime config error; trading paused") /\
             events s' = events s ++ [ConfigError e] /\
             slept s' = slept s ++ [cycle_interval_seconds s]) as Hpaused.
  { intros s runtime_doc e H s'. subst s'. rewrite H. repeat split. }
  split; [|split; [|split; [|split]]].
  - intros doc p Hin Hp.
    destruct doc as [| | | | | |d]; try (simpl; eauto; fail).
    unfold validate_runtime_config. unfold doc_override_paths in Hin.
    destruct (negb (py_eq_one _)); [eauto|].
    destruct (default (JDict []) (dict_get d "overrides")) as [| | | | | |ov]; eauto.
    destruct (default (JList []) (dict_get d "strategies")) as [| | | | |l|]; eauto.
    destruct l as [|s0 sl]; eauto.
    apply in_app_iff in Hin.
    destruct (validate_strategies (s0 :: sl) []) as [seen|e] eqn:Es;
      [|unfold rbind; eauto].
    destruct Hin as [Hin|Hin].
    2: { destruct (validate_strategies_unknown p (s0 :: sl) [] Hin Hp) as [e He].
         congruence. }
    unfold rbind at 1.
    match goal with |- context [rbind ?x _] => destruct x as [[]|e] end;
      [|unfold rbind; eauto].
    unfold rbind, _validate_override_dict.
    apply (validate_pairs_unknown p _ Hin Hp).
  - intros d overrides pre p v post Hov Hflat Hpre Hp Hrest.
    exists (ValueError (msg2 "Unsupported override key: " p)). split; [|reflexivity].
    unfold validate_runtime_config in *.
    rewrite dict_get_set_eq in Hrest.
    rewrite !dict_get_set_ne in Hrest by discriminate.
    rewrite Hov. cbn [default from_option id] in Hrest |- *.
    destruct (negb (py_eq_one _)); [discriminate|].
    destruct (default (JList []) (dict_get d "strategies")) as [| | | | |l|];
      try discriminate.
    destruct l as [|s0 sl]; [discriminate|].
    destruct (validate_strategies (s0 :: sl) []) as [seen|e]; [|discriminate].
    unfold rbind at 1 in Hrest. unfold rbind at 1.
    match goal with |- context [rbind ?x _] => destruct x as [[]|e] end;
      [|discriminate].
    unfold rbind, _validate_override_dict. rewrite Hflat.
    apply validate_pairs_first_unknown; assumption.
  - intros d overrides before sd name ov after seen pre p v post
           Hver Hov Hstr Hbefore Hname Hnb Hdup Hsov Hflat Hpre Hp.
    exists (ValueError (msg2 "Unsupported override key: " p)). split; [|reflexivity].
    assert (validate_strategies (before ++ JDict sd :: after) []
            = Raise (ValueError (msg2 "Unsupported override key: " p))) as Hs.
    { rewrite validate_strategies_app, Hbefore. cbn [rbind validate_strategies].
      rewrite Hname, Hnb. cbn [negb]. rewrite Hdup, Hsov. cbn [default from_option id].
      unfold _validate_override_dict. rewrite Hflat.
      rewrite (validate_pairs_first_unknown pre p v post Hpre Hp). reflexivity. }
    unfold validate_runtime_config. rewrite Hver, Hov, Hstr.
    cbn [negb default from_option id].
    destruct (before ++ JDict sd :: after) as [|s0 sl] eqn:El.
    { destruct before; discriminate. }
    rewrite Hs. reflexivity.
  - intros s doc n e Hn Hv. apply Hpaused.
    unfold config_step, rbind. rewrite Hn, Hv. reflexivity.
  - intros s runtime_doc.
    assert (forall e, config_step s runtime_doc = (paused s e, Restart) ->
                      let s' := fst (config_step s runtime_doc) in
                      exists e,
                        config_step s runtime_doc = (paused s e, Restart) /\
                        snd (config_step s runtime_doc) = Restart /\
                        config s' = config s /\
                        base_config s' = base_config s /\
                        cycle_interval_seconds s' = cycle_interval_seconds s /\
                        live_status s'
                        = Some ("Config", "Runtime config error; trading paused") /\
                        events s' = events s ++ [ConfigError e] /\
                        slept s' = slept s ++ [cycle_interval_seconds s]) as Hl.
    { intros e H. exists e. apply Hpaused. exact H. }
    destruct runtime_doc as [doc|e]; [|left; apply (Hl e); reflexivity].
    destruct (normalise_runtime_config doc) as [n|e] eqn:En;
      [|left; apply (Hl e); unfold config_step, rbind; rewrite En; reflexivity].
    destruct (validate_runtime_config n) as [[]|e] eqn:Ev;
      [|left; apply (Hl e); unfold config_step, rbind; rewrite En, Ev; reflexivity].
    destruct (apply_runtime_config (base_config s) n) as [cfg|e] eqn:Ea;
      [|left; apply (Hl e); unfold config_step, rbind; rewrite En, Ev, Ea; reflexivity].
    right. exists doc, n, cfg. unfold config_step, rbind. rewrite En, Ev, Ea.
    repeat split; assumption.
Qed.

End Overlay.

Section OverlayExamples.
Import RuntimeConfig Runner.

(** C9, as the specification words it, fails twice.  When another offence
    comes first: the document contains the unknown path "bogus", and
    validation raises for the out-of-range [trading.risk_per_trade] met
    before it; the error does not name "bogus".  And for a key without a
    value: the global overrides of the document hold the key "bogus", which
    is not in the allow-list, with an empty object as its value;
    [_flatten_overrides] lists no path for it, the document validates, and
    the step installs a configuration that has the key "bogus", where the
    comment of [_validate_override_dict] says "Disallow unknown keys". *)
Lemma C9_counterexample :
  (In "bogus" (doc_override_paths doc_two_defects) /\
   allowed_path "bogus" = false /\
   validate_runtime_config doc_two_defects
   = Raise (ValueError "trading.risk_per_trade must be between 0 and 1") /\
   ~ (exists e, validate_runtime_config doc_two_defects = Raise e /\ names_path e "bogus")) /\
  (exists d ov,
      doc_empty_object = JDict d /\ dict_get d "overrides" = Some (JDict ov) /\
      dict_get ov "bogus" = Some (JDict []) /\
      allowed_path "bogus" = false /\
      doc_override_paths doc_empty_object = [] /\
      validate_runtime_config doc_empty_object = Ok tt /\
      snd (config_step demo_sched (Ok (Some doc_empty_object))) = Proceed /\
      dict_get (config demo_sched) "bogus" = None /\
      dict_get (config (fst (config_step demo_sched (Ok (Some doc_empty_object))))) "bogus"
      = Some (JDict [])).
Proof.
  split.
  - split; [vm_compute; auto|]. split; [reflexivity|].
    assert (validate_runtime_config doc_two_defects
            = Raise (ValueError "trading.risk_per_trade must be between 0 and 1")) as H
        by (vm_compute; reflexivity).
    split; [exact H|].
    intros (e & He & Hn). rewrite H in He. injection He as <-.
    unfold names_path in Hn. discriminate.
  - eexists _, _. split; [reflexivity|]. split; [reflexivity|].
    split; [reflexivity|]. split; [reflexivity|].
    split; [reflexivity|]. split; [vm_compute; reflexivity|].
    split; [vm_compute; reflexivity|]. split; [reflexivity|].
    vm_compute. reflexivity.
Qed.

(** The document whose only defect is the key "bogus" in the global
    overrides, and the one whose only defect is the key "bogus" in the
    overrides of its strategy: the error names the key, and the cycle pauses
    with the configuration unchanged, the status paused and one sleep of
    3600 seconds. *)
Lemma C9_unknown_override_witness :
  (exists e, validate_runtime_config doc_unknown_key = Raise e /\ names_path e "bogus") /\
  (exists e, validate_runtime_config doc_strategy_unknown_key = Raise e /\
             names_path e "bogus") /\
  (config_step demo_sched (Ok (Some doc_unknown_key))
   = (paused demo_sched (ValueError "Unsupported override key: bogus"), Restart) /\
   snd (config_step demo_sched (Ok (Some doc_unknown_key))) = Restart /\
   config (fst (config_step demo_sched (Ok (Some doc_unknown_key)))) = config demo_sched /\
   base_config (fst (config_step demo_sched (Ok (Some doc_unknown_key))))
   = base_config demo_sched /\
   cycle_interval_seconds (fst (config_step demo_sched (Ok (Some doc_unknown_key))))
   = cycle_interval_seconds demo_sched /\
   live_status (fst (config_step demo_sched (Ok (Some doc_unknown_key))))
   = Some ("Config", "Runtime config error; trading paused") /\
   events (fst (config_step demo_sched (Ok (Some doc_unknown_key))))
   = events demo_sched ++ [ConfigError (ValueError "Unsupported override key: bogus")] /\
   slept (fst (config_step demo_sched (Ok (Some doc_unknown_key))))
   = slept demo_sched ++ [cycle_interval_seconds demo_sched]).
Proof.
  split; [|split].
  - refine (proj1 (proj2 C9_unknown_override_rejected)
                  [("schema_version", JInt 1);
                   ("overrides",
                    JDict [("trading", JDict [("risk_per_trade", JFloat (1#100))]);
                           ("bogus", JBool true)]);
                   ("strategies", default_strategies);
                   ("active_strategy", JStr "Default")]
                  [("trading", JDict [("risk_per_trade", JFloat (1#100))]);
                   ("bogus", JBool true)]
                  [("trading.risk_per_trade", JFloat (1#100))] "bogus" (JBool true) []
                  _ _ _ _ _).
    + reflexivity.
    + reflexivity.
    + vm_compute. reflexivity.
    + reflexivity.
    + vm_compute. reflexivity.
  - refine (proj1 (proj2 (proj2 C9_unknown_override_rejected))
                  [("schema_version", JInt 1);
                   ("overrides", JDict []);
                   ("strategies",
                    JList [JDict [("name", JStr "Default");
                                  ("overrides",
                                   JDict [("trading",
                                           JDict [("risk_per_trade", JFloat (1#100))]);
                                          ("bogus", JBool true)])]]);
                   ("active_strategy", JStr "Default")]
                  [] []
                  [("name", JStr "Default");
                   ("overrides",
                    JDict [("trading", JDict [("risk_per_trade", JFloat (1#100))]);
                           ("bogus", JBool true)])]
                  "Default"
                  [("trading", JDict [("risk_per_trade", JFloat (1#100))]);
                   ("bogus", JBool true)]
                  [] []
                  [("trading.risk_per_trade", JFloat (1#100))] "bogus" (JBool true) []
                  _ _ _ _ _ _ _ _ _ _ _).
    + reflexivity.
    + reflexivity.
    + reflexivity.
    + reflexivity.
    + reflexivity.
    + vm_compute. reflexivity.
    + reflexivity.
    + reflexivity.
    + reflexivity.
    + vm_compute. reflexivity.
    + reflexivity.
  - refine (proj1 (proj2 (proj2 (proj2 C9_unknown_override_rejected))) demo_sched
                  (Some doc_unknown_key) doc_unknown_key
                  (ValueError "Unsupported override key: bogus") _ _).
    + vm_compute. reflexivity.
    + vm_compute. reflexivity.
Defined.

End OverlayExamples.

(** ** Protective exit orders *)
Section Exits.
Import ExitOrders.

Lemma upsert_stop_loss_shape ib c stop_price quantity :
  upsert_stop_loss ib c stop_price quantity =
  if String.eqb (symbol c) "" then (ib, false)
  else upsert_shape is_sell_stop is_sell_limit
                    (fun o => set_auxPrice o (rounded_stop ib c stop_price))
                    (fun qty => StopOrder SELL qty (rounded_stop ib c stop_price))
                    ib c quantity.
Proof. reflexivity. Qed.

Lemma upsert_take_profit_shape ib c take_profit_price quantity :
  upsert_take_profit ib c take_profit_price quantity =
  if String.eqb (symbol c) "" then (ib, false)
  else upsert_shape is_sell_limit is_sell_stop
                    (fun o => set_lmtPrice o (rounded_take_profit ib c take_profit_price))
                    (fun qty => LimitOrder SELL qty (rounded_take_profit ib c take_profit_price))
                    ib c quantity.
Proof. reflexivity. Qed.

Lemma NoDup_map_inv {A B} (f : A -> B) (l : list A) : NoDup (List.map f l) -> NoDup l.
Proof.
  induction l as [|a l IH]; simpl; intros H; [constructor|].
  apply NoDup_cons in H as [Hn Hd]. apply NoDup_cons. split; [|apply IH; exact Hd].
  intros Hin. apply Hn. apply list_elem_of_In, in_map, list_elem_of_In. exact Hin.
Qed.

Lemma NoDup_list_filter {A} (P : A -> bool) (l : list A) :
  NoDup l -> NoDup (List.filter P l).
Proof.
  induction l as [|a l IH]; simpl; intros H; [constructor|].
  apply NoDup_cons in H as [Hn Hd]. destruct (P a); [|apply IH; exact Hd].
  apply NoDup_cons. split; [|apply IH; exact Hd].
  intros Hin. apply Hn. apply list_elem_of_In in Hin. apply filter_In in Hin as [Hin _].
  apply list_elem_of_In. exact Hin.
Qed.

Lemma same_id_same_trade (l : list Trade) x y :
  NoDup (List.map oid l) -> In x l -> In y l -> oid x = oid y -> x = y.
Proof.
  induction l as [|a l IH]; simpl; intros Hnd Hx Hy E; [contradiction|].
  apply NoDup_cons in Hnd as [Hn Hd].
  destruct Hx as [->|Hx], Hy as [->|Hy]; auto.
  - exfalso. apply Hn. rewrite E. apply list_elem_of_In, in_map. exact Hy.
  - exfalso. apply Hn. rewrite <- E. apply list_elem_of_In, in_map. exact Hx.
Qed.

Lemma at_most_one (P : Trade -> bool) (l : list Trade) (a : Trade) :
  NoDup l -> (forall x, In x l -> P x = true -> x = a) ->
  (length (List.filter P l) <= 1)%nat.
Proof.
  intros Hnd Hall.
  assert (NoDup (List.filter P l)) as Hf by (apply NoDup_list_filter; exact Hnd).
  assert (forall x, In x (List.filter P l) -> x = a) as Ha.
  { intros x Hx. apply filter_In in Hx as [Hx Hp]. auto. }
  destruct (List.filter P l) as [|x [|y r]]; simpl; try lia.
  exfalso. apply NoDup_cons in Hf as [Hn _]. apply Hn.
  rewrite (Ha x) by (left; reflexivity). rewrite <- (Ha y) by (right; left; reflexivity).
  apply elem_of_cons. left. reflexivity.
Qed.

Lemma in_symbol_trades ib sym (P : Trade -> bool) x :
  In x (List.filter P (get_open_trades_for_symbol ib sym)) <->
  In x (openTrades ib) /\ symbol (contract x) = sym /\ P x = true.
Proof.
  unfold get_open_trades_for_symbol. rewrite !filter_In, String.eqb_eq. tauto.
Qed.

(** From a cover of the open trades to the invariant. *)
Lemma pair_from_cover mine other ib sym S T (hasT : Prop) book0 :
  NoDup (List.map oid (openTrades ib)) ->
  covered mine other sym S T hasT book0 (openTrades ib) ->
  other S = false -> (hasT -> mine T = false) ->
  (hasT -> ocaGroup (order S) = ocaGroup (order T) /\ ocaGroup (order S) <> "") ->
  pair_invariant mine other ib sym.
Proof.
  intros Hnd Hcov HS HT Hoca.
  assert (NoDup (get_open_trades_for_symbol ib sym)) as Hnd'.
  { apply NoDup_list_filter. eapply NoDup_map_inv. exact Hnd. }
  assert (forall x, In x (get_open_trades_for_symbol ib sym) -> mine x = true -> x = S) as Hm.
  { intros x Hx Hp. apply filter_In in Hx as [Hx Hs]. apply String.eqb_eq in Hs.
    destruct (Hcov x Hx) as [E|[[Hh E]|(_ & N & _)]]; [exact E| |tauto].
    specialize (HT Hh). congruence. }
  assert (forall x, In x (get_open_trades_for_symbol ib sym) -> other x = true ->
                    hasT /\ x = T) as Ho.
  { intros x Hx Hp. apply filter_In in Hx as [Hx Hs]. apply String.eqb_eq in Hs.
    destruct (Hcov x Hx) as [E|[E|(_ & _ & N)]]; [congruence|exact E|tauto]. }
  split; [|split].
  - apply at_most_one with S; assumption.
  - apply at_most_one with T; [exact Hnd'|]. intros x Hx Hp. apply (Ho x Hx Hp).
  - intros s t Hs Ht. apply filter_In in Hs as [Hs Hs'], Ht as [Ht Ht'].
    rewrite (Hm s Hs Hs'). destruct (Ho t Ht Ht') as [Hh ->]. exact (Hoca Hh).
Qed.

Lemma cover_invariant mine other sym book0 ib' S T hasT :
  exit_cover mine other sym book0 ib' S T hasT -> pair_invariant mine other ib' sym.
Proof.
  intros (Hnd & Hcov & HS & HT & Hoca & _). eapply pair_from_cover; eauto.
Qed.

(** The trades of the other symbols are trades that were there before. *)
Lemma cover_frame mine other sym book0 ib' S T hasT x :
  exit_cover mine other sym book0 ib' S T hasT ->
  In x (openTrades ib') -> symbol (contract x) <> sym -> In x book0.
Proof.
  intros (_ & Hcov & _ & _ & _ & HsS & HsT & _) Hx Hne.
  destruct (Hcov x Hx) as [->|[[Hh ->]|(Hin & _)]]; [congruence| |exact Hin].
  specialize (HsT Hh). congruence.
Qed.

Lemma cover_well_formed mine other sym book0 ib' S T hasT :
  exit_cover mine other sym book0 ib' S T hasT ->
  0 < nextReqId ib' ->
  (forall x, In x book0 -> 0 < oid x < nextReqId ib') ->
  well_formed ib'.
Proof.
  intros (Hnd & Hcov & _ & _ & _ & _ & _ & HbS & HbT) Hpos Hb0.
  split; [exact Hpos|]. split; [exact Hnd|].
  apply Forall_forall. intros x Hx. apply list_elem_of_In in Hx.
  destruct (Hcov x Hx) as [->|[[Hh ->]|(Hin & _)]]; auto.
Qed.

(** An operation that only leaves, for a symbol, trades that were there
    before keeps the invariant of that symbol. *)
Lemma pair_invariant_frame mine other ib ib' sym :
  NoDup (List.map oid (openTrades ib')) ->
  (forall x, In x (openTrades ib') -> symbol (contract x) = sym -> In x (openTrades ib)) ->
  pair_invariant mine other ib sym -> pair_invariant mine other ib' sym.
Proof.
  intros Hnd Hsub (A & B & C).
  assert (forall P x, In x (List.filter P (get_open_trades_for_symbol ib' sym)) ->
                      In x (List.filter P (get_open_trades_for_symbol ib sym))) as Hin.
  { intros P x Hx. apply in_symbol_trades in Hx as (Hx & Hs & Hp).
    apply in_symbol_trades. auto. }
  assert (forall P, (length (List.filter P (get_open_trades_for_symbol ib' sym))
                     <= length (List.filter P (get_open_trades_for_symbol ib sym)))%nat)
    as Hlen.
  { intros P. apply submseteq_length, NoDup_submseteq.
    - apply NoDup_list_filter, NoDup_list_filter. eapply NoDup_map_inv. exact Hnd.
    - intros x Hx. apply list_elem_of_In. apply Hin. apply list_elem_of_In. exact Hx. }
  split; [|split].
  - specialize (Hlen mine). lia.
  - specialize (Hlen other). lia.
  - intros s t Hs Ht. apply C; apply Hin; assumption.
Qed.

Lemma descends_refl ib : descends (openTrades ib) ib.
Proof. intros y Hy. exists y. auto. Qed.

Lemma cancel_extras_descends book0 ib' extras :
  descends book0 ib' -> descends book0 (cancel_extras ib' extras).
Proof.
  intros H y Hy. apply cancel_extras_in in Hy as [Hy _]. exact (H y Hy).
Qed.

(** Filing an order under the id of an original trade [t], with [t]'s
    contract: the trade with that id is replaced, nothing else changes. *)
Lemma place_existing_in book0 ib' t o x :
  NoDup (List.map oid book0) -> In t book0 -> oid t <> 0 ->
  descends book0 ib' -> orderId o = oid t ->
  In x (openTrades (fst (placeOrder ib' (contract t) o))) ->
  x = mkTrade (contract t) o \/ (In x (openTrades ib') /\ oid x <> oid t).
Proof.
  intros Hnd Ht Hid Hdesc Ho Hx.
  apply placeOrder_in in Hx. unfold placed_id in Hx.
  assert ((orderId o =? 0) = false) as Hz by (apply Z.eqb_neq; congruence).
  rewrite Hz, set_orderId_same in Hx.
  destruct Hx as [Hx|[(t0 & Ht0 & Hi & ->)|[Hx Hne]]].
  - left. exact Hx.
  - left. destruct (Hdesc t0 Ht0) as (y0 & Hy0 & Hyi & Hyc).
    assert (y0 = t) as -> by (eapply same_id_same_trade; eauto; congruence).
    rewrite Hyc. reflexivity.
  - right. split; [exact Hx|congruence].
Qed.

Lemma place_existing_descends book0 ib' t o :
  NoDup (List.map oid book0) -> In t book0 -> oid t <> 0 ->
  descends book0 ib' -> orderId o = oid t ->
  descends book0 (fst (placeOrder ib' (contract t) o)).
Proof.
  intros Hnd Ht Hid Hdesc Ho x Hx.
  destruct (place_existing_in book0 ib' t o x Hnd Ht Hid Hdesc Ho Hx) as [->|[Hx' _]].
  - exists t. unfold oid. simpl. auto.
  - exact (Hdesc x Hx').
Qed.

(** Filing a new order: it is added under the next request id. *)
Lemma place_new_in ib' c o x :
  (forall y, In y (openTrades ib') -> oid y < nextReqId ib') ->
  orderId o = 0 ->
  In x (openTrades (fst (placeOrder ib' c o))) ->
  x = mkTrade c (set_orderId o (nextReqId ib')) \/ In x (openTrades ib').
Proof.
  intros Hb Ho Hx. apply placeOrder_in in Hx. unfold placed_id in Hx.
  rewrite Ho in Hx. simpl in Hx.
  destruct Hx as [Hx|[(t0 & Ht0 & Hi & _)|[Hx _]]]; auto.
  specialize (Hb t0 Ht0). lia.
Qed.

Lemma placeOrder_nextReqId_new ib c o :
  orderId o = 0 -> nextReqId (fst (placeOrder ib c o)) = nextReqId ib + 1.
Proof.
  intros H. unfold placeOrder. rewrite H. simpl.
  destruct (has_order_id _ _); reflexivity.
Qed.

Section UpsertShape.
Variables (mine other : Trade -> bool) (reprice : Order -> Order) (fresh : Z -> Order).
Hypothesis mine_kind :
  forall t t', orderType (order t) = orderType (order t') ->
               action (order t) = action (order t') -> mine t = mine t'.
Hypothesis other_kind :
  forall t t', orderType (order t) = orderType (order t') ->
               action (order t) = action (order t') -> other t = other t'.
Hypothesis kinds_disjoint : forall t, mine t = true -> other t = true -> False.
Hypothesis reprice_id : forall o, orderId (reprice o) = orderId o.
Hypothesis reprice_type : forall o, orderType (reprice o) = orderType o.
Hypothesis reprice_action : forall o, action (reprice o) = action o.
Hypothesis fresh_id : forall q, orderId (fresh q) = 0.
Hypothesis fresh_kind : forall q c, other (mkTrade c (fresh q)) = false.

Lemma upsert_shape_unfold ib c quantity :
  upsert_shape mine other reprice fresh ib c quantity =
  match List.filter mine (get_open_trades_for_symbol ib (symbol c)) with
  | trade :: extras =>
      (cancel_extras
         (fst (placeOrder (link_other other ib (symbol c)) (contract trade)
                          (link_order other ib (symbol c) (reprice (order trade)))))
         extras, true)
  | [] =>
      let qty := match quantity with
                 | Some q => q
                 | None => get_position_quantity ib (symbol c)
                 end in
      if qty <=? 0 then (ib, false)
      else (fst (placeOrder (link_other other ib (symbol c)) c
                            (link_order other ib (symbol c) (fresh qty))), true)
  end.
Proof.
  unfold upsert_shape, link_other, link_order.
  destruct (List.filter mine _) as [|m0 ms];
    destruct (List.filter other _) as [|o0 os]; reflexivity.
Qed.

Lemma oca_exit_group_nonempty sym : oca_exit_group sym <> "".
Proof. unfold oca_exit_group. simpl. discriminate. Qed.

(** The linking step re-files at most one order, the first of the opposite
    kind; every other order of that kind for the symbol is gone. *)
Lemma link_other_facts ib sym :
  well_formed ib ->
  descends (openTrades ib) (link_other other ib sym) /\
  nextReqId (link_other other ib sym) = nextReqId ib /\
  NoDup (List.map oid (openTrades (link_other other ib sym))) /\
  (forall x, In x (openTrades (link_other other ib sym)) ->
             (has_other other ib sym /\ x = linked_other other ib sym) \/
             (In x (openTrades ib) /\ ~ (symbol (contract x) = sym /\ other x = true))) /\
  (has_other other ib sym ->
   mine (linked_other other ib sym) = false /\
   ocaGroup (order (linked_other other ib sym)) = oca_exit_group sym /\
   symbol (contract (linked_other other ib sym)) = sym /\
   0 < oid (linked_other other ib sym) < nextReqId ib).
Proof.
  intros (_ & Hnd & Hbd). unfold link_other, linked_other, has_other.
  destruct (List.filter other (get_open_trades_for_symbol ib sym)) as [|o0 os] eqn:EO.
  - split; [apply descends_refl|]. split; [reflexivity|]. split; [exact Hnd|].
    split; [|congruence].
    intros x Hx. right. split; [exact Hx|]. intros [Hs Ho].
    assert (In x (List.filter other (get_open_trades_for_symbol ib sym))) as Hin
        by (apply in_symbol_trades; auto).
    rewrite EO in Hin. destruct Hin.
  - assert (In o0 (openTrades ib) /\ symbol (contract o0) = sym /\ other o0 = true)
      as (Ho0 & Hs0 & Hk0).
    { apply in_symbol_trades. rewrite EO. left. reflexivity. }
    assert (0 < oid o0 < nextReqId ib) as Hb0.
    { rewrite Forall_forall in Hbd. exact (Hbd o0 (proj2 (list_elem_of_In _ _) Ho0)). }
    assert (oid o0 <> 0) as Hid0 by lia.
    assert (descends (openTrades ib) (cancel_extras ib os)) as Hd1
        by (apply cancel_extras_descends, descends_refl).
    set (o' := set_oca (order o0) (oca_exit_group sym)).
    assert (orderId o' = oid o0) as Hoid by reflexivity.
    split; [apply place_existing_descends; assumption|].
    split; [rewrite placeOrder_nextReqId by (rewrite Hoid; exact Hid0);
            apply cancel_extras_nextReqId|].
    split; [apply placeOrder_NoDup, cancel_extras_NoDup; exact Hnd|].
    split.
    + intros x Hx.
      destruct (place_existing_in (openTrades ib) _ o0 o' x Hnd Ho0 Hid0 Hd1 Hoid Hx)
        as [->|[Hx' Hne]].
      * left. split; [discriminate|reflexivity].
      * right. apply cancel_extras_in in Hx' as [Hx' Hnot]. split; [exact Hx'|].
        intros [Hs Ho].
        assert (In x (List.filter other (get_open_trades_for_symbol ib sym))) as Hin
            by (apply in_symbol_trades; auto).
        rewrite EO in Hin. destruct Hin as [<-|Hin]; [congruence|].
        exact (Hnot x Hin eq_refl).
    + intros _. split; [|split; [reflexivity|split; [exact Hs0|exact Hb0]]].
      rewrite (mine_kind _ o0) by reflexivity.
      destruct (mine o0) eqn:Em; [|reflexivity].
      exfalso. exact (kinds_disjoint o0 Em Hk0).
Qed.

Lemma link_order_facts ib sym o :
  orderId (link_order other ib sym o) = orderId o /\
  orderType (link_order other ib sym o) = orderType o /\
  action (link_order other ib sym o) = action o /\
  (has_other other ib sym -> ocaGroup (link_order other ib sym o) = oca_exit_group sym).
Proof.
  unfold link_order, has_other.
  destruct (List.filter other (get_open_trades_for_symbol ib sym));
    repeat split; congruence.
Qed.

(** What a successful upsert leaves behind. *)
Lemma upsert_shape_cover ib c quantity :
  well_formed ib ->
  snd (upsert_shape mine other reprice fresh ib c quantity) = true ->
  exists S T hasT,
    exit_cover mine other (symbol c) (openTrades ib)
               (fst (upsert_shape mine other reprice fresh ib c quantity)) S T hasT /\
    nextReqId ib <= nextReqId (fst (upsert_shape mine other reprice fresh ib c quantity)).
Proof.
  intros Hwf Hres. rewrite upsert_shape_unfold in *.
  set (sym := symbol c) in *.
  destruct (link_other_facts ib sym Hwf) as (Hdesc & Hnext & Hnd1 & Hcov1 & HT).
  destruct Hwf as (Hpos & Hnd & Hbd). rewrite Forall_forall in Hbd.
  destruct (List.filter mine (get_open_trades_for_symbol ib sym)) as [|m0 ms] eqn:EM.
  - (* a new order *)
    cbv zeta in *. destruct (_ <=? 0); [discriminate|]. cbn [fst].
    match goal with |- context [fresh ?q] => set (qty := q) end.
    destruct (link_order_facts ib sym (fresh qty)) as (Li & Lt & La & Lo).
    set (o := link_order other ib sym (fresh qty)) in *.
    assert (orderId o = 0) as Ho0 by (rewrite Li; apply fresh_id).
    exists (mkTrade c (set_orderId o (nextReqId ib))),
           (linked_other other ib sym), (has_other other ib sym).
    unfold exit_cover. rewrite (placeOrder_nextReqId_new _ c o Ho0), Hnext.
    split; [|lia].
    split; [apply placeOrder_NoDup; exact Hnd1|]. split.
    { intros x Hx. apply place_new_in in Hx;
        [|intros y Hy; destruct (Hdesc y Hy) as (y0 & Hy0 & Hyi & _);
          specialize (Hbd y0 (proj2 (list_elem_of_In _ _) Hy0)); rewrite Hnext; lia
         |exact Ho0].
      rewrite Hnext in Hx.
      destruct Hx as [->|Hx]; [left; reflexivity|right].
      destruct (Hcov1 x Hx) as [H|[Hb Hno]]; [left; exact H|right].
      split; [exact Hb|]. split; [|exact Hno]. intros [Hs Hm].
      assert (In x (List.filter mine (get_open_trades_for_symbol ib sym))) as Hin
          by (apply in_symbol_trades; auto).
      rewrite EM in Hin. destruct Hin. }
    split.
    { rewrite (other_kind _ (mkTrade c (fresh qty))) by (simpl; congruence).
      apply fresh_kind. }
    split; [intros Hh; apply (HT Hh)|].
    split.
    { intros Hh. destruct (HT Hh) as (_ & Hg & _). simpl. rewrite Hg, (Lo Hh).
      split; [reflexivity|apply oca_exit_group_nonempty]. }
    split; [reflexivity|]. split; [intros Hh; apply (HT Hh)|].
    split; [unfold oid; simpl; lia|].
    intros Hh. destruct (HT Hh) as (_ & _ & _ & Hb). lia.
  - (* an existing order is modified *)
    cbn [fst].
    assert (In m0 (openTrades ib) /\ symbol (contract m0) = sym /\ mine m0 = true)
      as (Hm0 & Hs0 & Hk0).
    { apply in_symbol_trades. rewrite EM. left. reflexivity. }
    assert (0 < oid m0 < nextReqId ib) as Hbm
        by exact (Hbd m0 (proj2 (list_elem_of_In _ _) Hm0)).
    assert (oid m0 <> 0) as Hid0 by lia.
    destruct (link_order_facts ib sym (reprice (order m0))) as (Li & Lt & La & Lo).
    set (o := link_order other ib sym (reprice (order m0))) in *.
    assert (orderId o = oid m0) as Hoid by (rewrite Li; apply reprice_id).
    exists (mkTrade (contract m0) o), (linked_other other ib sym), (has_other other ib sym).
    unfold exit_cover.
    rewrite cancel_extras_nextReqId, placeOrder_nextReqId, Hnext by congruence.
    split; [|lia].
    split; [apply cancel_extras_NoDup, placeOrder_NoDup; exact Hnd1|]. split.
    { intros x Hx. apply cancel_extras_in in Hx as [Hx Hnot].
      destruct (place_existing_in (openTrades ib) _ m0 o x Hnd Hm0 Hid0 Hdesc Hoid Hx)
        as [->|[Hx' Hne]]; [left; reflexivity|right].
      destruct (Hcov1 x Hx') as [H|[Hb Hno]]; [left; exact H|right].
      split; [exact Hb|]. split; [|exact Hno]. intros [Hs Hm].
      assert (In x (List.filter mine (get_open_trades_for_symbol ib sym))) as Hin
          by (apply in_symbol_trades; auto).
      rewrite EM in Hin. destruct Hin as [<-|Hin]; [congruence|].
      exact (Hnot x Hin eq_refl). }
    split.
    { rewrite (other_kind _ m0)
        by (simpl; rewrite ?Lt, ?La, ?reprice_type, ?reprice_action; reflexivity).
      destruct (other m0) eqn:Eo; [|reflexivity].
      exfalso. exact (kinds_disjoint m0 Hk0 Eo). }
    split; [intros Hh; apply (HT Hh)|].
    split.
    { intros Hh. destruct (HT Hh) as (_ & Hg & _). simpl. rewrite Hg, (Lo Hh).
      split; [reflexivity|apply oca_exit_group_nonempty]. }
    split; [exact Hs0|]. split; [intros Hh; apply (HT Hh)|].
    split; [unfold oid; simpl; lia|].
    intros Hh. destruct (HT Hh) as (_ & _ & _ & Hb). exact Hb.
Qed.

(** A refused upsert changes nothing. *)
Lemma upsert_shape_refused ib c quantity :
  snd (upsert_shape mine other reprice fresh ib c quantity) = false ->
  fst (upsert_shape mine other reprice fresh ib c quantity) = ib.
Proof.
  rewrite upsert_shape_unfold.
  destruct (List.filter mine _); [|discriminate].
  cbv zeta. destruct (_ <=? 0); [reflexivity|discriminate].
Qed.

(** An upsert on a well-formed session: the session stays well-formed, a
    success establishes the invariant of the symbol, and the invariant of
    every other symbol is kept. *)
Lemma upsert_shape_sound ib c quantity :
  well_formed ib ->
  well_formed (fst (upsert_shape mine other reprice fresh ib c quantity)) /\
  (snd (upsert_shape mine other reprice fresh ib c quantity) = true ->
   pair_invariant mine other (fst (upsert_shape mine other reprice fresh ib c quantity))
                  (symbol c)) /\
  (forall sym', sym' <> symbol c ->
                pair_invariant mine other ib sym' ->
                pair_invariant mine other
                  (fst (upsert_shape mine other reprice fresh ib c quantity)) sym').
Proof.
  intros Hwf.
  destruct (snd (upsert_shape mine other reprice fresh ib c quantity)) eqn:Hres.
  - destruct (upsert_shape_cover ib c quantity Hwf Hres) as (S & T & hasT & Hcov & Hn).
    destruct Hwf as (Hpos & Hnd & Hbd). rewrite Forall_forall in Hbd.
    split; [|split].
    + eapply cover_well_formed; [exact Hcov|lia|].
      intros x Hx. specialize (Hbd x (proj2 (list_elem_of_In _ _) Hx)). lia.
    + intros _. eapply cover_invariant. exact Hcov.
    + intros sym' Hne. apply pair_invariant_frame; [apply Hcov|].
      intros x Hx Hs. eapply cover_frame; eauto. congruence.
  - rewrite (upsert_shape_refused ib c quantity Hres).
    split; [exact Hwf|]. split; [discriminate|auto].
Qed.

End UpsertShape.

(** Filing an order under an id that no open trade uses adds it. *)
Lemma place_fresh_in ib' c o x :
  orderId o <> 0 ->
  (forall y, In y (openTrades ib') -> oid y <> orderId o) ->
  In x (openTrades (fst (placeOrder ib' c o))) ->
  x = mkTrade c o \/ In x (openTrades ib').
Proof.
  intros Hid Hfresh Hx. apply placeOrder_in in Hx. unfold placed_id in Hx.
  assert ((orderId o =? 0) = false) as Hz by (apply Z.eqb_neq; exact Hid).
  rewrite Hz, set_orderId_same in Hx.
  destruct Hx as [Hx|[(t0 & Ht0 & Hi & _)|[Hx _]]]; auto.
  exfalso. exact (Hfresh t0 Ht0 Hi).
Qed.

(** A bracket entry files three new orders (the parent BUY, the take-profit
    and the stop, the two children in the parent's OCA group) and touches
    nothing else. *)
Lemma execute_buy_order_members ib c q sl tp :
  well_formed ib -> 0 < q ->
  let ib' := fst (execute_buy_order ib c q (Some sl) (Some tp)) in
  let n := nextReqId ib in
  let parent := mkTrade c (set_orderId (MarketOrder BUY q) n) in
  let tpt := mkTrade c (set_oca (set_parentId (set_orderId (LimitOrder SELL q tp) (n + 1)) n)
                                (oca_parent_group n)) in
  let slt := mkTrade c (set_oca (set_parentId (set_orderId (StopOrder SELL q sl) (n + 1 + 1)) n)
                                (oca_parent_group n)) in
  NoDup (List.map oid (openTrades ib')) /\
  nextReqId ib' = n + 1 + 1 + 1 /\
  (forall x, In x (openTrades ib') ->
             x = slt \/ x = tpt \/ x = parent \/ In x (openTrades ib)).
Proof.
  intros (Hpos & Hnd & Hbd) Hq. rewrite Forall_forall in Hbd.
  unfold execute_buy_order.
  replace (q <=? 0) with false by (symmetry; apply Z.leb_gt; lia).
  cbn [getReqId nextReqId openTrades positions minTicks placed app fold_left].
  set (n := nextReqId ib).
  set (ib3 := mkIB (openTrades ib) (positions ib) (n + 1 + 1 + 1) (minTicks ib) (placed ib)).
  set (parent := set_orderId (MarketOrder BUY q) n).
  set (tpo := set_oca (set_parentId (set_orderId (LimitOrder SELL q tp) (n + 1)) n)
                      (oca_parent_group n)).
  set (slo := set_oca (set_parentId (set_orderId (StopOrder SELL q sl) (n + 1 + 1)) n)
                      (oca_parent_group n)).
  assert (forall y, In y (openTrades ib) -> 0 < oid y < n) as Hb
      by (intros y Hy; apply Hbd, list_elem_of_In; exact Hy).
  destruct (placeOrder ib3 c parent) as [ib4 trade] eqn:E4. cbn [fst].
  assert (ib4 = fst (placeOrder ib3 c parent)) as -> by (rewrite E4; reflexivity).
  clear E4 trade.
  set (ib4 := fst (placeOrder ib3 c parent)).
  set (ib5 := fst (placeOrder ib4 c tpo)).
  assert (forall x, In x (openTrades ib4) -> x = mkTrade c parent \/ In x (openTrades ib)) as H4.
  { intros x Hx. apply place_fresh_in in Hx; [exact Hx|simpl; lia|].
    intros y Hy. specialize (Hb y Hy). simpl. lia. }
  assert (forall x, In x (openTrades ib5) ->
                    x = mkTrade c tpo \/ x = mkTrade c parent \/ In x (openTrades ib)) as H5.
  { intros x Hx. apply place_fresh_in in Hx; [destruct Hx as [Hx|Hx]; auto|simpl; lia|].
    intros y Hy. destruct (H4 y Hy) as [->|Hy']; [unfold oid; simpl; lia|].
    specialize (Hb y Hy'). simpl. lia. }
  split; [apply placeOrder_NoDup, placeOrder_NoDup, placeOrder_NoDup; exact Hnd|].
  split.
  - unfold ib5, ib4. rewrite !placeOrder_nextReqId by (simpl; lia). reflexivity.
  - intros x Hx. apply place_fresh_in in Hx; [|simpl; lia|].
    + destruct Hx as [->|Hx]; [left; reflexivity|right]. exact (H5 x Hx).
    + intros y Hy. destruct (H5 y Hy) as [->|[->|Hy']]; try (unfold oid; simpl; lia).
      specialize (Hb y Hy'). simpl. lia.
Qed.

(** A bracket entry on a well-formed session: the session stays well-formed,
    the invariant of every other symbol is kept, and the symbol gets one stop
    and one take-profit in one OCA group; its invariant holds afterwards when
    it had no exit order before. *)
Lemma execute_buy_order_sound ib c q sl tp :
  well_formed ib -> 0 < q ->
  well_formed (fst (execute_buy_order ib c q (Some sl) (Some tp))) /\
  (stops_of ib (symbol c) = [] -> tps_of ib (symbol c) = [] ->
   exit_invariant (fst (execute_buy_order ib c q (Some sl) (Some tp))) (symbol c)) /\
  (forall sym', sym' <> symbol c ->
                exit_invariant ib sym' ->
                exit_invariant (fst (execute_buy_order ib c q (Some sl) (Some tp))) sym').
Proof.
  intros Hwf Hq.
  destruct (execute_buy_order_members ib c q sl tp Hwf Hq) as (Hnd' & Hn' & Hmem).
  destruct Hwf as (Hpos & Hnd & Hbd). rewrite Forall_forall in Hbd.
  split; [|split].
  - split; [lia|]. split; [exact Hnd'|].
    apply Forall_forall. intros x Hx. apply list_elem_of_In in Hx. rewrite Hn'.
    destruct (Hmem x Hx) as [->|[->|[->|Hx']]]; try (unfold oid; simpl; lia).
    specialize (Hbd x (proj2 (list_elem_of_In _ _) Hx')). lia.
  - intros Hs Ht.
    set (n := nextReqId ib) in *.
    apply pair_from_cover with
        (S := mkTrade c (set_oca (set_parentId (set_orderId (StopOrder SELL q sl) (n + 1 + 1)) n)
                                 (oca_parent_group n)))
        (T := mkTrade c (set_oca (set_parentId (set_orderId (LimitOrder SELL q tp) (n + 1)) n)
                                 (oca_parent_group n)))
        (hasT := True)
        (book0 := mkTrade c (set_orderId (MarketOrder BUY q) n) :: openTrades ib).
    + exact Hnd'.
    + intros x Hx. destruct (Hmem x Hx) as [->|[->|[->|Hx']]].
      * left. reflexivity.
      * right. left. split; [exact I|reflexivity].
      * right. right. split; [left; reflexivity|]. split; intros [_ F]; discriminate.
      * right. right. split; [right; exact Hx'|]. split; intros [Hsym Hk].
        -- assert (In x (stops_of ib (symbol c))) as Hin
               by (apply in_symbol_trades; auto).
           rewrite Hs in Hin. destruct Hin.
        -- assert (In x (tps_of ib (symbol c))) as Hin
               by (apply in_symbol_trades; auto).
           rewrite Ht in Hin. destruct Hin.
    + reflexivity.
    + intros _. reflexivity.
    + intros _. split; [reflexivity|]. simpl. unfold oca_parent_group. simpl. discriminate.
  - intros sym' Hne. apply pair_invariant_frame; [exact Hnd'|].
    intros x Hx Hsym.
    destruct (Hmem x Hx) as [->|[->|[->|Hx']]]; [simpl in Hsym; congruence..|exact Hx'].
Qed.

Lemma pair_invariant_swap mine other ib sym :
  pair_invariant mine other ib sym -> pair_invariant other mine ib sym.
Proof.
  intros (A & B & C). split; [exact B|split; [exact A|]].
  intros s t Hs Ht. destruct (C t s Ht Hs) as [E N]. split; congruence.
Qed.

(** C2 (amended). On a session whose open orders were all filed by this
    client through [placeOrder] (distinct positive order ids below the next
    request id), and which stays such a session under every one of these
    operations: after a successful [upsert_stop_loss] or
    [upsert_take_profit] the symbol has at most one live stop and at most
    one live take-profit, whatever it had before, and when both exist they
    carry the same non-empty OCA group; a refused upsert changes nothing;
    the invariant of every other symbol is kept.  A bracket entry keeps the
    invariant of every other symbol; it cancels and re-links nothing, so
    the invariant of its own symbol holds afterwards when the symbol had no
    live stop and no live take-profit before.  Sessions that show orders of
    other clients are left out of this statement. *)
Theorem C2_exit_pair_invariant :
  (forall ib c stop_price quantity,
      well_formed ib ->
      well_formed (fst (upsert_stop_loss ib c stop_price quantity)) /\
      (snd (upsert_stop_loss ib c stop_price quantity) = true ->
       exit_invariant (fst (upsert_stop_loss ib c stop_price quantity)) (symbol c)) /\
      (snd (upsert_stop_loss ib c stop_price quantity) = false ->
       fst (upsert_stop_loss ib c stop_price quantity) = ib) /\
      (forall sym', sym' <> symbol c -> exit_invariant ib sym' ->
                    exit_invariant (fst (upsert_stop_loss ib c stop_price quantity)) sym')) /\
  (forall ib c take_profit_price quantity,
      well_formed ib ->
      well_formed (fst (upsert_take_profit ib c take_profit_price quantity)) /\
      (snd (upsert_take_profit ib c take_profit_price quantity) = true ->
       exit_invariant (fst (upsert_take_profit ib c take_profit_price quantity)) (symbol c)) /\
      (snd (upsert_take_profit ib c take_profit_price quantity) = false ->
       fst (upsert_take_profit ib c take_profit_price quantity) = ib) /\
      (forall sym', sym' <> symbol c -> exit_invariant ib sym' ->
                    exit_invariant (fst (upsert_take_profit ib c take_profit_price quantity))
                                   sym')) /\
  (forall ib c q sl tp,
      well_formed ib -> 0 < q ->
      well_formed (fst (execute_buy_order ib c q (Some sl) (Some tp))) /\
      (stops_of ib (symbol c) = [] -> tps_of ib (symbol c) = [] ->
       exit_invariant (fst (execute_buy_order ib c q (Some sl) (Some tp))) (symbol c)) /\
      (forall sym', sym' <> symbol c -> exit_invariant ib sym' ->
                    exit_invariant (fst (execute_buy_order ib c q (Some sl) (Some tp))) sym')).
Proof.
  assert (forall t t', orderType (order t) = orderType (order t') ->
                       action (order t) = action (order t') ->
                       is_sell_stop t = is_sell_stop t') as Ks
      by (intros t t' H1 H2; unfold is_sell_stop; rewrite H1, H2; reflexivity).
  assert (forall t t', orderType (order t) = orderType (order t') ->
                       action (order t) = action (order t') ->
                       is_sell_limit t = is_sell_limit t') as Kl
      by (intros t t' H1 H2; unfold is_sell_limit; rewrite H1, H2; reflexivity).
  assert (forall t, is_sell_stop t = true -> is_sell_limit t = true -> False) as Kd.
  { intros t. unfold is_sell_stop, is_sell_limit.
    destruct (orderType (order t)); simpl; discriminate. }
  split; [|split].
  - intros ib c stop_price quantity Hwf. rewrite upsert_stop_loss_shape.
    destruct (String.eqb (symbol c) "").
    { split; [exact Hwf|]. split; [discriminate|]. split; [reflexivity|auto]. }
    destruct (upsert_shape_sound is_sell_stop is_sell_limit
                (fun o => set_auxPrice o (rounded_stop ib c stop_price))
                (fun qty => StopOrder SELL qty (rounded_stop ib c stop_price))
                Ks Kl Kd
                ltac:(intros o; destruct o; reflexivity)
                ltac:(intros o; destruct o; reflexivity)
                ltac:(intros o; destruct o; reflexivity)
                ltac:(reflexivity) ltac:(reflexivity)
                ib c quantity Hwf) as (A & B & C).
    split; [exact A|]. split; [exact B|]. split; [apply upsert_shape_refused|exact C].
  - intros ib c take_profit_price quantity Hwf. rewrite upsert_take_profit_shape.
    destruct (String.eqb (symbol c) "").
    { split; [exact Hwf|]. split; [discriminate|]. split; [reflexivity|auto]. }
    destruct (upsert_shape_sound is_sell_limit is_sell_stop
                (fun o => set_lmtPrice o (rounded_take_profit ib c take_profit_price))
                (fun qty => LimitOrder SELL qty (rounded_take_profit ib c take_profit_price))
                Kl Ks (fun t H1 H2 => Kd t H2 H1)
                ltac:(intros o; destruct o; reflexivity)
                ltac:(intros o; destruct o; reflexivity)
                ltac:(intros o; destruct o; reflexivity)
                ltac:(reflexivity) ltac:(reflexivity)
                ib c quantity Hwf) as (A & B & C).
    split; [exact A|]. split; [intros H; apply pair_invariant_swap, B, H|].
    split; [apply upsert_shape_refused|].
    intros sym' Hne Hinv. apply pair_invariant_swap, C; [exact Hne|].
    apply pair_invariant_swap. exact Hinv.
  - intros ib c q sl tp Hwf Hq. apply execute_buy_order_sound; assumption.
Qed.

End Exits.

Section ExitExamples.
Import ExitOrders.

Lemma ib_one_stop_well_formed : well_formed ib_one_stop.
Proof.
  split; [reflexivity|]. split.
  - apply (bool_decide_unpack _). vm_compute. exact I.
  - repeat constructor.
Qed.

(** C2, as the specification words it, fails twice.  For the bracket
    entry: on a session where AAPL has one live stop (the invariant holds),
    a bracket entry for AAPL adds a second stop without cancelling or
    re-linking anything, and the invariant is lost.  And for an order of
    another client: [_req_all_open_trades] is written to see the orders of
    every client, and an order entered in TWS itself has [orderId = 0];
    with one such stop
    live for AAPL (the invariant holds), [upsert_stop_loss] takes it for the
    stop to update, [placeOrder] files the changed order under a new id,
    the upsert reports success and AAPL has two live stops, where the
    docstring says "If a stop-loss already exists: update its price". *)
Lemma C2_counterexample :
  (well_formed ib_one_stop /\
   exit_invariant ib_one_stop "AAPL" /\
   ~ exit_invariant
       (fst (execute_buy_order ib_one_stop demo_contract 10 (Some (140#1)) (Some (170#1))))
       "AAPL") /\
  (exit_invariant ib_foreign_stop "AAPL" /\
   snd (upsert_stop_loss ib_foreign_stop demo_contract (145#1) (Some 30)) = true /\
   length (stops_of (fst (upsert_stop_loss ib_foreign_stop demo_contract (145#1) (Some 30)))
                    "AAPL") = 2%nat /\
   ~ exit_invariant
       (fst (upsert_stop_loss ib_foreign_stop demo_contract (145#1) (Some 30))) "AAPL").
Proof.
  split.
  - split; [exact ib_one_stop_well_formed|]. split.
    + unfold exit_invariant, pair_invariant. split; [vm_compute; lia|].
      split; [vm_compute; lia|]. intros s t _ Ht. vm_compute in Ht. destruct Ht.
    + intros [H _]. vm_compute in H. lia.
  - split; [|split; [reflexivity|split; [reflexivity|]]].
    + unfold exit_invariant, pair_invariant. split; [vm_compute; lia|].
      split; [vm_compute; lia|]. intros s t _ Ht. vm_compute in Ht. destruct Ht.
    + intros [H _]. vm_compute in H. lia.
Qed.

(** One stop and two take-profits: after the upsert of the stop one of each
    is left, in one OCA group. *)
Lemma C2_exit_pair_witness :
  exit_invariant (fst (upsert_stop_loss ib_stop_two_tps demo_contract (145#1) (Some 30)))
                 (symbol demo_contract).
Proof.
  refine (proj1 (proj2 (proj1 C2_exit_pair_invariant ib_stop_two_tps demo_contract
                                (145#1) (Some 30) _)) _).
  - split; [reflexivity|]. split.
    + apply (bool_decide_unpack _). vm_compute. exact I.
    + repeat constructor.
  - vm_compute. reflexivity.
Defined.

End ExitExamples.

(** * Further properties of the code *)

(** ** Tick rounding ([_round_price_down_to_tick], [_round_price_up_to_tick]) *)
Section TickRounding.

Lemma Qfloor_multiple (n : Z) (t : Q) : (0 < t)%Q -> Qfloor (inject_Z n * t / t) = n.
Proof.
  intros Ht. assert (inject_Z n * t / t == inject_Z n)%Q as -> by (field; lra).
  apply Qfloor_Z.
Qed.

Lemma Qceiling_multiple (n : Z) (t : Q) : (0 < t)%Q -> Qceiling (inject_Z n * t / t) = n.
Proof.
  intros Ht. assert (inject_Z n * t / t == inject_Z n)%Q as -> by (field; lra).
  apply Qceiling_Z.
Qed.

Lemma Qdiv_mult_cancel (p t : Q) : (0 < t)%Q -> (p / t * t == p)%Q.
Proof. intros Ht. field. lra. Qed.

(** X1. [_round_price_down_to_tick(price, min_tick)] with a positive tick
    returns a whole number of ticks that is at most the price and less than
    one tick below it; a price that is already a whole number of ticks is
    returned as it is.  With a tick that is not positive the price is
    returned unchanged. *)
Theorem round_down_to_tick_bounds (price min_tick : Q) :
  ((min_tick <= 0)%Q -> _round_price_down_to_tick price min_tick = price) /\
  ((0 < min_tick)%Q ->
   let r := _round_price_down_to_tick price min_tick in
   (r <= price)%Q /\ (price - r < min_tick)%Q /\
   (exists steps : Z, r = (inject_Z steps * min_tick)%Q) /\
   _round_price_down_to_tick r min_tick = r).
Proof.
  unfold _round_price_down_to_tick. split.
  - intros H. apply Qleb_true in H. rewrite H. reflexivity.
  - intros Ht. assert (Qleb min_tick 0 = false) as -> by (apply Qleb_false; exact Ht).
    cbv zeta. set (s := Qfloor (price / min_tick)).
    pose proof (Qfloor_le (price / min_tick)) as Hlo.
    pose proof (Qlt_floor (price / min_tick)) as Hhi. fold s in Hlo, Hhi.
    pose proof (Qdiv_mult_cancel price min_tick Ht) as Hc.
    assert (inject_Z s * min_tick <= price / min_tick * min_tick)%Q as H1
        by (apply Qmult_le_compat_r; [exact Hlo|lra]).
    assert (price / min_tick * min_tick < inject_Z (s + 1) * min_tick)%Q as H2
        by (apply Qmult_lt_compat_r; [exact Ht|exact Hhi]).
    rewrite inject_Z_plus in H2. change (inject_Z 1) with 1%Q in H2.
    repeat split.
    + lra.
    + lra.
    + exists s. reflexivity.
    + rewrite (Qfloor_multiple s min_tick Ht). reflexivity.
Qed.

(** X2. [_round_price_up_to_tick(price, min_tick)] with a positive tick
    returns a whole number of ticks that is at least the price and less
    than one tick above it; a price that is already a whole number of ticks
    is returned as it is.  With a tick that is not positive the price is
    returned unchanged. *)
Theorem round_up_to_tick_bounds (price min_tick : Q) :
  ((min_tick <= 0)%Q -> _round_price_up_to_tick price min_tick = price) /\
  ((0 < min_tick)%Q ->
   let r := _round_price_up_to_tick price min_tick in
   (price <= r)%Q /\ (r - price < min_tick)%Q /\
   (exists steps : Z, r = (inject_Z steps * min_tick)%Q) /\
   _round_price_up_to_tick r min_tick = r).
Proof.
  unfold _round_price_up_to_tick. split.
  - intros H. apply Qleb_true in H. rewrite H. reflexivity.
  - intros Ht. assert (Qleb min_tick 0 = false) as -> by (apply Qleb_false; exact Ht).
    cbv zeta. set (s := Qceiling (price / min_tick)).
    pose proof (Qle_ceiling (price / min_tick)) as Hhi.
    pose proof (Qceiling_lt (price / min_tick)) as Hlo. fold s in Hlo, Hhi.
    pose proof (Qdiv_mult_cancel price min_tick Ht) as Hc.
    assert (price / min_tick * min_tick <= inject_Z s * min_tick)%Q as H1
        by (apply Qmult_le_compat_r; [exact Hhi|lra]).
    assert (inject_Z (s - 1) * min_tick < price / min_tick * min_tick)%Q as H2
        by (apply Qmult_lt_compat_r; [exact Ht|exact Hlo]).
    unfold Z.sub in H2. rewrite inject_Z_plus in H2.
    change (inject_Z (- (1))) with (- (1))%Q in H2.
    repeat split.
    + lra.
    + lra.
    + exists s. reflexivity.
    + rewrite (Qceiling_multiple s min_tick Ht). reflexivity.
Qed.

End TickRounding.

(** A stop asked at 145.37 with a tick of 0.05 is filed at 145.35. *)
Lemma round_down_to_tick_witness :
  let r := _round_price_down_to_tick (14537#100) (5#100) in
  (r <= 14537#100)%Q /\ ((14537#100) - r < 5#100)%Q /\
  (exists steps : Z, r = (inject_Z steps * (5#100))%Q) /\
  _round_price_down_to_tick r (5#100) = r.
Proof.
  apply (proj2 (round_down_to_tick_bounds (14537#100) (5#100))). reflexivity.
Defined.

(** A take-profit asked at 170.02 with a tick of 0.05 is filed at 170.05. *)
Lemma round_up_to_tick_witness :
  let r := _round_price_up_to_tick (17002#100) (5#100) in
  ((17002#100) <= r)%Q /\ (r - (17002#100) < 5#100)%Q /\
  (exists steps : Z, r = (inject_Z steps * (5#100))%Q) /\
  _round_price_up_to_tick r (5#100) = r.
Proof.
  apply (proj2 (round_up_to_tick_bounds (17002#100) (5#100))). reflexivity.
Defined.

(** ** Account values ([get_account_value]) *)
Section AccountValues.
Import IbkrAccount.

Lemma first_parseable_some P l x :
  first_parseable P l = Some x ->
  exists v, In v l /\ P v = true /\ av_value v = Some x.
Proof.
  induction l as [|v l IH]; simpl; [discriminate|].
  destruct (P v) eqn:EP.
  - destruct (av_value v) as [y|] eqn:Ev.
    + intros [= <-]. exists v. auto.
    + intros H. destruct (IH H) as (w & Hw & Hp & Hx). exists w. auto.
  - intros H. destruct (IH H) as (w & Hw & Hp & Hx). exists w. auto.
Qed.

Lemma or_else_some {A} (a b : option A) x :
  or_else a b = Some x -> a = Some x \/ b = Some x.
Proof. destruct a; simpl; auto. Qed.

(** X3. [get_account_value] never makes a value up, and never takes the
    value of another named currency: what it returns for a currency is the
    parsed value of a row of the account summary that carries the tag in that
    currency, in "BASE" or in no currency, or, for "TotalCashValue", of a
    "CashBalance" row of that currency; without a currency, the value of a
    row that carries the tag. *)
Theorem get_account_value_from_row acc tag currency x :
  get_account_value acc tag currency = Some x ->
  exists v,
    In v acc /\ av_value v = Some x /\
    match currency with
    | Some cur =>
        (av_tag v = tag /\
         (av_currency v = cur \/ av_currency v = "BASE" \/ av_currency v = "")) \/
        (tag = "TotalCashValue" /\ av_tag v = "CashBalance" /\ av_currency v = cur)
    | None => av_tag v = tag
    end.
Proof.
  unfold get_account_value.
  destruct (List.filter (fun v => String.eqb (av_tag v) tag) acc) as [|m ms] eqn:EM;
    [discriminate|].
  rewrite <- EM. clear EM m ms.
  assert (forall P y,
             first_parseable P (List.filter (fun v => String.eqb (av_tag v) tag) acc) = Some y ->
             exists v, In v acc /\ av_tag v = tag /\ P v = true /\ av_value v = Some y) as Hm.
  { intros P y H. apply first_parseable_some in H as (v & Hin & HP & Hv).
    apply filter_In in Hin as [Hin Ht]. apply String.eqb_eq in Ht. exists v. auto. }
  destruct currency as [cur|]; intros H.
  - apply or_else_some in H as [H|H]; [|apply or_else_some in H as [H|H]].
    + apply Hm in H as (v & Hin & Ht & HP & Hv). apply String.eqb_eq in HP.
      exists v. auto 6.
    + apply Hm in H as (v & Hin & Ht & HP & Hv).
      apply orb_true_iff in HP as [HP|HP]; apply String.eqb_eq in HP; exists v; auto 7.
    + destruct (String.eqb_spec tag "TotalCashValue") as [->|_]; [|discriminate].
      apply first_parseable_some in H as (v & Hin & HP & Hv).
      apply andb_true_iff in HP as [H1 H2].
      apply String.eqb_eq in H1, H2. exists v. auto 7.
  - repeat (apply or_else_some in H as [H|H]);
      apply Hm in H as (v & Hin & Ht & _ & Hv); exists v; auto.
Qed.

(** X4. A parseable row of the requested tag and currency wins: the value
    of the first such row is returned, whatever "BASE" rows come before
    it.  When no row carries the tag the answer is [None], also for
    "TotalCashValue" with a "CashBalance" row at hand. *)
Theorem get_account_value_prefers_currency acc tag cur :
  (forall x,
      first_parseable (fun v => String.eqb (av_tag v) tag && String.eqb (av_currency v) cur)
                      acc = Some x ->
      get_account_value acc tag (Some cur) = Some x) /\
  (Forall (fun v => av_tag v <> tag) acc ->
   forall currency, get_account_value acc tag currency = None).
Proof.
  split.
  - intros x H. unfold get_account_value.
    rewrite <- first_parseable_filter in H.
    destruct (List.filter (fun v => String.eqb (av_tag v) tag) acc) as [|m ms];
      [discriminate|].
    rewrite H. reflexivity.
  - intros H currency. unfold get_account_value.
    replace (List.filter (fun v => String.eqb (av_tag v) tag) acc) with (@nil AccountValue);
      [reflexivity|].
    symmetry. induction H as [|v l Hv Hl IH]; simpl; [reflexivity|].
    destruct (String.eqb_spec (av_tag v) tag); [contradiction|exact IH].
Qed.

End AccountValues.

(** The budget of GBP read from a summary that only has USD rows and a BASE
    row: the value is that of a row in "BASE". *)
Lemma get_account_value_from_row_witness :
  exists v,
    In v (base_only_summary ++ usd_only_summary) /\
    IbkrAccount.av_value v = Some 20000%Q /\
    ((IbkrAccount.av_tag v = "TotalCashValue" /\
      (IbkrAccount.av_currency v = "GBP" \/ IbkrAccount.av_currency v = "BASE" \/
       IbkrAccount.av_currency v = "")) \/
     ("TotalCashValue" = "TotalCashValue" /\ IbkrAccount.av_tag v = "CashBalance" /\
      IbkrAccount.av_currency v = "GBP")).
Proof.
  apply (get_account_value_from_row (base_only_summary ++ usd_only_summary)
                                    "TotalCashValue" (Some "GBP") 20000%Q).
  reflexivity.
Defined.

(** The USD row is found behind the BASE row. *)
Lemma get_account_value_prefers_currency_witness :
  IbkrAccount.get_account_value (base_only_summary ++ usd_only_summary)
                                "TotalCashValue" (Some "USD") = Some 20000%Q.
Proof.
  apply (proj1 (get_account_value_prefers_currency (base_only_summary ++ usd_only_summary)
                                                   "TotalCashValue" "USD")).
  reflexivity.
Defined.

(** ** Market hours ([is_market_open], [is_near_market_close]) *)
Section Hours.
Import MarketHours.

Lemma minutes_bounds (d m : Q) :
  (0 <= d / 60)%Q -> (d / 60 <= m)%Q -> (0 <= d)%Q /\ (d <= 60 * m)%Q.
Proof.
  intros H1 H2. assert (d == d / 60 * 60)%Q as E by field.
  set (x := (d / 60)%Q) in *. clearbody x. split; lra.
Qed.

(** X5. With a window of at most 390 minutes (the length of the New York
    session; the London session is longer), "near the close" implies "open":
    [is_near_market_close] only holds on a weekday between the open and the
    close of the market of the instrument.  With a window of zero or less it
    never holds. *)
Theorem near_close_implies_open exchange currency (minutes_before_close : Z)
        (now_utc : Clock) :
  (minutes_before_close <= 0 ->
   is_near_market_close exchange currency minutes_before_close now_utc = false) /\
  (minutes_before_close <= 390 ->
   is_near_market_close exchange currency minutes_before_close now_utc = true ->
   is_market_open exchange currency now_utc = true).
Proof.
  unfold is_near_market_close, is_market_open. split.
  - intros H. apply Z.leb_le in H. rewrite H. reflexivity.
  - intros Hm. destruct (minutes_before_close <=? 0); [discriminate|].
    assert (inject_Z minutes_before_close <= 390)%Q as Hq
        by (change 390%Q with (inject_Z 390); rewrite <- Zle_Qle; exact Hm).
    assert (inject_Z 28800 == 28800)%Q as E1 by reflexivity.
    assert (inject_Z 59400 == 59400)%Q as E2 by reflexivity.
    assert (inject_Z 34200 == 34200)%Q as E3 by reflexivity.
    assert (inject_Z 57600 == 57600)%Q as E4 by reflexivity.
    destruct (String.eqb currency "GBP" || String.eqb exchange "LSE").
    + destruct (5 <=? weekday (london now_utc)); [discriminate|].
      cbv zeta. intros H. apply andb_true_iff in H as [H1 H2].
      apply Qleb_true in H1, H2. unfold dt_time in *. simpl inject_Z in *.
      destruct (minutes_bounds _ _ H1 H2) as [A B].
      apply andb_true_iff. split; apply Qleb_true; rewrite ?E1, ?E2 in *; lra.
    + destruct (5 <=? weekday (new_york now_utc)); [discriminate|].
      cbv zeta. intros H. apply andb_true_iff in H as [H1 H2].
      apply Qleb_true in H1, H2. unfold dt_time in *. simpl inject_Z in *.
      destruct (minutes_bounds _ _ H1 H2) as [A B].
      apply andb_true_iff. split; apply Qleb_true; rewrite ?E3, ?E4 in *; lra.
Qed.

End Hours.

(** Five minutes before the New York close, with a window of ten. *)
Lemma near_close_implies_open_witness :
  MarketHours.is_market_open "SMART" "USD" Scenarios.tuesday_1555_ny = true.
Proof.
  apply (proj2 (near_close_implies_open "SMART" "USD" 10 Scenarios.tuesday_1555_ny)).
  - lia.
  - reflexivity.
Defined.

(** ** The candidate universe ([_dedupe_candidates]) *)
Section Candidates.
Import Runner Universe.

Local Abbreviation key c := (norm_symbol (w_symbol c)).

Lemma dedupe_from_spec l :
  forall seen,
    NoDup (List.map (fun c => key c) (dedupe_from seen l)) /\
    Forall (fun c => key c <> "" /\ key c ∉ seen) (dedupe_from seen l) /\
    sublist (dedupe_from seen l) l /\
    (forall c, In c l -> key c <> "" ->
               key c ∈ seen \/ In (key c) (List.map (fun c => key c) (dedupe_from seen l))).
Proof.
  induction l as [|c l IH]; intros seen; simpl.
  - repeat split; [constructor|constructor|constructor|intros c []].
  - destruct (String.eqb_spec (key c) "") as [E|E]; simpl.
    + destruct (IH seen) as (A & B & C & D).
      repeat split; [exact A|exact B|apply sublist_cons; exact C|].
      intros c' [<-|Hin] Hne; [contradiction|exact (D c' Hin Hne)].
    + destruct (bool_decide (key c ∈ seen)) eqn:Es.
      * apply bool_decide_eq_true in Es. destruct (IH seen) as (A & B & C & D).
        repeat split; [exact A|exact B|apply sublist_cons; exact C|].
        intros c' [<-|Hin] Hne; [left; exact Es|exact (D c' Hin Hne)].
      * apply bool_decide_eq_false in Es.
        destruct (IH ({[key c]} ∪ seen)) as (A & B & C & D).
        rewrite Forall_forall in B. simpl. repeat split.
        -- apply NoDup_cons. split; [|exact A].
           rewrite list_elem_of_In, in_map_iff. intros (y & Hy & Hin).
           apply list_elem_of_In in Hin. destruct (B y Hin) as [_ Hn].
           apply Hn. rewrite Hy. apply elem_of_union_l, elem_of_singleton. reflexivity.
        -- constructor; [split; assumption|]. apply Forall_forall. intros y Hy.
           destruct (B y Hy) as [H1 H2]. split; [exact H1|].
           intros Hs. apply H2, elem_of_union_r. exact Hs.
        -- apply sublist_skip. exact C.
        -- intros c' [<-|Hin] Hne; [right; left; reflexivity|].
           destruct (D c' Hin Hne) as [H|H]; [|right; right; exact H].
           apply elem_of_union in H as [H|H]; [|left; exact H].
           apply elem_of_singleton in H. right. left. symmetry. exact H.
Qed.

Lemma dedupe_from_fixed l :
  forall seen,
    NoDup (List.map (fun c => key c) l) ->
    Forall (fun c => key c <> "" /\ key c ∉ seen) l ->
    dedupe_from seen l = l.
Proof.
  induction l as [|c l IH]; intros seen Hnd Hall; simpl; [reflexivity|].
  simpl in Hnd. apply NoDup_cons in Hnd as [Hc Hnd].
  apply Forall_cons in Hall as [[Hne Hns] Hall].
  destruct (String.eqb_spec (key c) "") as [E|_]; [contradiction|]. simpl.
  rewrite bool_decide_eq_false_2 by exact Hns.
  f_equal. apply IH; [exact Hnd|].
  rewrite Forall_forall in Hall |- *. intros y Hy. destruct (Hall y Hy) as [H1 H2].
  split; [exact H1|]. intros H. apply elem_of_union in H as [H|H]; [|contradiction].
  apply elem_of_singleton in H. apply Hc.
  rewrite list_elem_of_In, in_map_iff. exists y. split; [exact H|].
  apply list_elem_of_In. exact Hy.
Qed.

Lemma dedupe_from_app_clean r l :
  forall seen,
    NoDup (List.map (fun c => key c) r) ->
    Forall (fun c => key c <> "" /\ key c ∉ seen) r ->
    exists rest, dedupe_from seen (r ++ l) = r ++ rest.
Proof.
  induction r as [|c r IH]; intros seen Hnd Hall; simpl; [eexists; reflexivity|].
  simpl in Hnd. apply NoDup_cons in Hnd as [Hc Hnd].
  apply Forall_cons in Hall as [[Hne Hns] Hall].
  destruct (String.eqb_spec (key c) "") as [E|_]; [contradiction|]. simpl.
  rewrite bool_decide_eq_false_2 by exact Hns.
  destruct (IH ({[key c]} ∪ seen) Hnd) as [rest Hrest].
  { rewrite Forall_forall in Hall |- *. intros y Hy. destruct (Hall y Hy) as [H1 H2].
    split; [exact H1|]. intros H. apply elem_of_union in H as [H|H]; [|contradiction].
    apply elem_of_singleton in H. apply Hc.
    rewrite list_elem_of_In, in_map_iff. exists y. split; [exact H|].
    apply list_elem_of_In. exact Hy. }
  exists rest. rewrite Hrest. reflexivity.
Qed.

(** X6. [_dedupe_candidates] keeps the first candidate of every symbol: the
    result is a sub-sequence of the input in which the normalised symbols
    (stripped, upper case) are distinct and never empty, every non-empty
    normalised symbol of the input is still there, and deduplicating again
    changes nothing. *)
Theorem dedupe_candidates_spec (candidates : list WatchItem) :
  let out := _dedupe_candidates candidates in
  NoDup (List.map (fun c => norm_symbol (w_symbol c)) out) /\
  Forall (fun c => norm_symbol (w_symbol c) <> "") out /\
  sublist out candidates /\
  (forall c, In c candidates -> norm_symbol (w_symbol c) <> "" ->
             In (norm_symbol (w_symbol c))
                (List.map (fun c => norm_symbol (w_symbol c)) out)) /\
  _dedupe_candidates out = out.
Proof.
  unfold _dedupe_candidates. cbv zeta.
  destruct (dedupe_from_spec candidates ∅) as (A & B & C & D).
  split; [exact A|]. split; [|split; [exact C|split]].
  - eapply Forall_impl; [exact B|]. intros c [H _]. exact H.
  - intros c Hin Hne. destruct (D c Hin Hne) as [H|H]; [|exact H].
    apply elem_of_empty in H. destruct H.
  - apply dedupe_from_fixed; assumption.
Qed.

(** X7. The Reddit augmentation puts the Reddit candidates first: when
    they have distinct, non-empty normalised symbols and are not more than
    the cap, all of them stand at the head of the new watch list, which is
    free of duplicates and within the cap. *)
Theorem merge_reddit_candidates_first (reddit_candidates current_watch_list : list WatchItem)
        (max_candidates : nat) :
  reddit_candidates <> [] ->
  NoDup (List.map (fun c => norm_symbol (w_symbol c)) reddit_candidates) ->
  Forall (fun c => norm_symbol (w_symbol c) <> "") reddit_candidates ->
  (length reddit_candidates <= max_candidates)%nat ->
  let merged := merge_reddit_candidates reddit_candidates current_watch_list max_candidates in
  firstn (length reddit_candidates) merged = reddit_candidates /\
  (length merged <= max_candidates)%nat /\
  NoDup (List.map (fun c => norm_symbol (w_symbol c)) merged).
Proof.
  intros Hne Hnd Hall Hlen. unfold merge_reddit_candidates.
  destruct reddit_candidates as [|r0 rs] eqn:Er; [contradiction|]. rewrite <- Er in *.
  cbv zeta. clear Hne.
  destruct (dedupe_from_app_clean reddit_candidates current_watch_list ∅ Hnd) as [rest Hrest].
  { eapply Forall_impl; [exact Hall|]. intros c H. split; [exact H|].
    apply not_elem_of_empty. }
  unfold _dedupe_candidates at 1 2. rewrite Hrest. split; [|split].
  - rewrite firstn_firstn, Nat.min_l by exact Hlen. apply take_app_length.
  - apply firstn_le_length.
  - rewrite <- firstn_map. eapply sublist_NoDup; [|apply sublist_take].
    apply (dedupe_from_spec (reddit_candidates ++ current_watch_list) ∅).
Qed.

End Candidates.

(** GME from Reddit comes first, the scanner's " gme " is dropped, and the
    cap of two cuts MSFT off. *)
Lemma merge_reddit_candidates_first_witness :
  let merged := Universe.merge_reddit_candidates Scenarios.reddit_gme
                                                 Scenarios.scanner_list 2 in
  firstn (length Scenarios.reddit_gme) merged = Scenarios.reddit_gme /\
  (length merged <= 2)%nat /\
  NoDup (List.map (fun c => Universe.norm_symbol (Runner.w_symbol c)) merged).
Proof.
  apply (merge_reddit_candidates_first Scenarios.reddit_gme Scenarios.scanner_list 2).
  - discriminate.
  - simpl. apply NoDup_singleton.
  - constructor; [vm_compute; discriminate|constructor].
  - simpl. lia.
Defined.

(** ** The buy selection ([select_buys_from_shortlist]) *)
Section BuySelection.
Import Runner RuntimeConfig Selection.

Lemma select_from_ok allowed max_new l :
  forall seen acc sel,
    select_from allowed max_new l seen acc = Ok sel ->
    NoDup acc -> (forall x, In x acc -> x ∈ seen) ->
    Forall (fun s => s <> "" /\ s ∈ allowed) acc ->
    Z.of_nat (length acc) < max_new ->
    NoDup sel /\ Forall (fun s => s <> "" /\ s ∈ allowed) sel /\
    Z.of_nat (length sel) <= max_new.
Proof.
  induction l as [|s l IH]; intros seen acc sel; simpl.
  - intros [= <-] Hnd _ Hall Hlen. repeat split; [exact Hnd|exact Hall|lia].
  - destruct (String.eqb_spec (norm_symbol s) "") as [E|E]; simpl; [apply IH|].
    destruct (bool_decide (norm_symbol s ∈ seen)) eqn:Es; [apply IH|].
    apply bool_decide_eq_false in Es.
    destruct (bool_decide (norm_symbol s ∈ allowed)) eqn:Ea; simpl; [|discriminate].
    apply bool_decide_eq_true in Ea.
    intros H Hnd Hseen Hall Hlen.
    assert (NoDup (acc ++ [norm_symbol s])) as Hnd'.
    { apply NoDup_app. split; [exact Hnd|]. split; [|apply NoDup_singleton].
      intros x Hx Hx'. apply list_elem_of_In in Hx, Hx'. destruct Hx' as [<-|[]].
      apply Es, Hseen, Hx. }
    assert (Forall (fun s => s <> "" /\ s ∈ allowed) (acc ++ [norm_symbol s])) as Hall'.
    { apply Forall_app. split; [exact Hall|]. constructor; [split; assumption|constructor]. }
    assert (Z.of_nat (length (acc ++ [norm_symbol s])) = Z.of_nat (length acc) + 1) as Hl
        by (rewrite length_app; simpl; lia).
    destruct (max_new <=? Z.of_nat (length (acc ++ [norm_symbol s]))) eqn:Ecap.
    + injection H as <-. repeat split; [exact Hnd'|exact Hall'|lia].
    + apply Z.leb_gt in Ecap. apply (IH _ _ _ H Hnd'); [|exact Hall'|exact Ecap].
      intros x Hx. apply in_app_iff in Hx as [Hx|[<-|[]]].
      * apply elem_of_union_r, Hseen, Hx.
      * apply elem_of_union_l, elem_of_singleton. reflexivity.
Qed.

(** The selection is made of distinct symbols of the shortlist, within the
    limit. *)
Lemma select_buys_from_shortlist_ok has_client candidates max_new reply sel :
  select_buys_from_shortlist has_client candidates max_new reply = Ok sel ->
  NoDup sel /\
  Z.of_nat (length sel) <= max_new /\
  Forall (fun s => s <> "" /\
                   exists c, In c candidates /\ s = norm_symbol (e_symbol c)) sel.
Proof.
  unfold select_buys_from_shortlist.
  destruct has_client; simpl; [|discriminate].
  destruct (max_new <? 0) eqn:Eneg; [discriminate|]. apply Z.ltb_ge in Eneg.
  assert (forall cands : list Eligible,
             NoDup (@nil string) /\ Z.of_nat (length (@nil string)) <= max_new /\
             Forall (fun s => s <> "" /\
                              exists c, In c cands /\ s = norm_symbol (e_symbol c)) [])
    as Hnil by (intros cands; repeat split; [constructor|simpl; lia|constructor]).
  destruct (max_new =? 0) eqn:E0; simpl; [intros [= <-]; apply Hnil|].
  apply Z.eqb_neq in E0.
  destruct candidates as [|c0 cs] eqn:Ec; [intros [= <-]; apply Hnil|]. rewrite <- Ec.
  set (cand_symbols := List.filter _ _).
  destruct cand_symbols as [|y ys] eqn:Ecs; [intros [= <-]; apply Hnil|].
  rewrite <- Ecs. clear y ys Ecs.
  destruct reply as [parsed|e]; simpl; [|discriminate].
  destruct parsed as [| | | | |?|d]; try discriminate.
  destruct (dict_get d "selected_symbols") as [[| | | | |l|?]|]; try discriminate.
  destruct (string_items l) as [syms|]; [|discriminate].
  intros H.
  destruct (select_from_ok _ _ _ _ _ _ H) as (A & B & C);
    [constructor|intros x []|constructor|simpl; lia|].
  split; [exact A|]. split; [exact C|].
  eapply Forall_impl; [exact B|]. intros s [Hne Hin]. split; [exact Hne|].
  apply elem_of_list_to_set, list_elem_of_In in Hin. subst cand_symbols.
  apply filter_In in Hin as [Hin _]. apply in_map_iff in Hin as (c & Hc & Hin).
  exists c. auto.
Qed.

(** X8. What [select_buys_from_shortlist] returns is a selection from the
    shortlist: the symbols are distinct, not more than [max_new], never
    empty, and each is the normalised symbol (stripped, upper case) of a
    candidate that was passed in. *)
Theorem select_buys_from_shortlist_spec has_client candidates max_new reply sel :
  select_buys_from_shortlist has_client candidates max_new reply = Ok sel ->
  NoDup sel /\
  Z.of_nat (length sel) <= max_new /\
  Forall (fun s => s <> "" /\
                   exists c, In c candidates /\ s = norm_symbol (e_symbol c)) sel.
Proof. exact (select_buys_from_shortlist_ok has_client candidates max_new reply sel). Qed.

End BuySelection.

(** ** What a cycle buys ([main], selection and execution stage) *)
Section CycleBuys.
Import Runner IbkrAccount Selection.

Lemma upper_ascii_idem c : upper_ascii (upper_ascii c) = upper_ascii c.
Proof. destruct c as [[] [] [] [] [] [] [] []]; reflexivity. Qed.

Lemma upper_idem s : upper (upper s) = upper s.
Proof.
  induction s as [|c s IH]; simpl; [reflexivity|].
  rewrite upper_ascii_idem, IH. reflexivity.
Qed.

Lemma cand_by_symbol_key l key c :
  cand_by_symbol l !! key = Some c -> upper (e_symbol c) = key.
Proof.
  unfold cand_by_symbol.
  assert (forall m : gmap string Eligible,
             (forall k' c', m !! k' = Some c' -> upper (e_symbol c') = k') ->
             fold_left (fun m c => <[upper (e_symbol c) := c]> m) l m !! key = Some c ->
             upper (e_symbol c) = key) as H.
  { induction l as [|x l IH]; intros m Hm; simpl; [apply Hm|].
    apply IH. intros k' c' Hl.
    destruct (decide (upper (e_symbol x) = k')) as [<-|Hne].
    - rewrite lookup_insert_eq in Hl. injection Hl as <-. reflexivity.
    - rewrite lookup_insert_ne in Hl by exact Hne. apply Hm. exact Hl. }
  apply H. intros k' c' Hl. rewrite lookup_empty in Hl. discriminate.
Qed.

Lemma sublist_map {A B} (f : A -> B) (l1 l2 : list A) :
  sublist l1 l2 -> sublist (List.map f l1) (List.map f l2).
Proof.
  induction 1; simpl; [constructor|apply sublist_skip|apply sublist_cons]; assumption.
Qed.

(** One pass of the buy loop appends at most one buy. *)
Lemma buy_one_selected k nl by_symbol sym st :
  selected (fst (buy_one k nl by_symbol sym st)) = selected st \/
  exists cand q, selected (fst (buy_one k nl by_symbol sym st)) = selected st ++ [(cand, q)].
Proof.
  unfold buy_one.
  destruct (by_symbol !! upper sym) as [cand|]; [|left; reflexivity].
  destruct (ATRr_14 (e_latest cand)) as [atr|]; [|left; reflexivity].
  destruct (Qleb _ 0); [left; reflexivity|].
  destruct nl as [equity|]; [|left; reflexivity].
  destruct (Qeqb (e_price cand) 0); [left; reflexivity|].
  destruct (_ <=? 0); [left; reflexivity|].
  destruct (execute_buy_order _ _ _ _ _) as [ib1 [t|]]; [|left; reflexivity].
  right. eexists _, _. reflexivity.
Qed.

Lemma buy_loop_cap k nl max_new by_symbol desired :
  forall st,
    Z.of_nat (length (selected st)) <= max_new ->
    Z.of_nat (length (selected (fst (buy_loop k nl max_new by_symbol desired st)))) <= max_new.
Proof.
  induction desired as [|sym rest IH]; intros st Hlen; simpl; [exact Hlen|].
  destruct (max_new <=? Z.of_nat (length (selected st))) eqn:E; [exact Hlen|].
  apply Z.leb_gt in E.
  pose proof (buy_one_selected k nl by_symbol sym st) as Hone.
  assert (Z.of_nat (length (selected (fst (buy_one k nl by_symbol sym st)))) <= max_new)
    as Hlen1.
  { destruct Hone as [->|(cand & q & ->)]; [exact Hlen|].
    rewrite length_app. simpl. lia. }
  destruct (buy_one k nl by_symbol sym st) as [st1 [e|]]; simpl in *; [exact Hlen1|].
  apply IH. exact Hlen1.
Qed.

Lemma process_candidate_gates k os st item obs c :
  snd (process_candidate k os st item obs) = Some c ->
  Notions.passed_gates k os [(item, obs)] c.
Proof.
  unfold process_candidate, Notions.passed_gates.
  destruct (research_body k os (budget_remaining st) item obs) as [v r] eqn:E.
  simpl. unfold research_body in E.
  destruct (o_bars obs) as [[latest|]|e]; try (injection E as <- <-; simpl;
    try (destruct e); discriminate).
  destruct (o_contract obs) as [ct|e]; try (injection E as <- <-; simpl;
    try (destruct e); discriminate).
  destruct (o_ai obs) as [ai|e] eqn:Eai; try (injection E as <- <-; simpl;
    try (destruct e); discriminate).
  destruct (ai_decision ai) eqn:Ed; try (injection E as <- <-; simpl; discriminate).
  destruct (o_market_open obs) eqn:Eo; simpl in E;
    try (injection E as <- <-; simpl; discriminate).
  destruct (intraday_enabled k && o_near_close obs) eqn:En;
    try (injection E as <- <-; simpl; discriminate).
  destruct (bool_decide (w_symbol item ∈ os)) eqn:Eh;
    try (injection E as <- <-; simpl; discriminate).
  destruct (Qleb _ 0); try (injection E as <- <-; simpl; discriminate).
  injection E as <- <-. simpl. intros [= <-]. simpl.
  apply bool_decide_eq_false in Eh.
  exists item, obs, ai. repeat split; auto using in_eq.
Qed.

Lemma passed_gates_mono k os w1 w2 c :
  (forall x, In x w1 -> In x w2) ->
  Notions.passed_gates k os w1 c -> Notions.passed_gates k os w2 c.
Proof.
  intros Hsub (item & obs & ai & Hin & H). exists item, obs, ai. split; [auto|exact H].
Qed.

Lemma research_loop_gates k os watch :
  forall st, Forall (Notions.passed_gates k os watch) (snd (research_loop k os st watch)).
Proof.
  induction watch as [|[item obs] rest IH]; intros st; simpl; [constructor|].
  pose proof (process_candidate_gates k os st item obs) as Hc.
  destruct (process_candidate k os st item obs) as [st1 cand]. simpl in *.
  specialize (IH st1).
  destruct (research_loop k os st1 rest) as [st2 el]. simpl in *.
  assert (Forall (Notions.passed_gates k os ((item, obs) :: rest)) el) as Hel.
  { eapply Forall_impl; [exact IH|]. intros c. apply passed_gates_mono.
    intros x Hx. right. exact Hx. }
  destruct cand as [c|]; [|exact Hel].
  constructor; [|exact Hel].
  eapply passed_gates_mono; [|apply Hc; reflexivity].
  intros x [<-|[]]. left. reflexivity.
Qed.

Lemma assign_ranks_Forall (P : Eligible -> Prop) l :
  (forall c r, P c -> P (set_rank c r)) ->
  forall rank log, Forall P l -> Forall P (fst (assign_ranks rank l log)).
Proof.
  intros Hr. induction l as [|c l IH]; intros rank log H; simpl; [constructor|].
  apply Forall_cons in H as [Hc Hl].
  specialize (IH (S rank) (update_research_decision log (e_research_id c) SHORTLISTED
                                                    (e_decision_reason c) rank) Hl).
  destruct (assign_ranks (S rank) l _) as [rest' log2]. simpl in *.
  constructor; [apply Hr; exact Hc|exact IH].
Qed.

(** The shape of every cycle: nothing is bought, or the buys are the
    candidates found for a sub-sequence of the selection among the ranked
    candidates, which all passed the gates. *)
Lemma trading_cycle_buys k ib0 acc watch select :
  let st := fst (trading_cycle k ib0 acc watch select) in
  Z.of_nat (length (selected st)) <= Notions.max_new_of k ib0 /\
  (selected st = [] \/
   exists ranked budgets desired ds,
     Forall (Notions.passed_gates k (Notions.open_symbols_of ib0) watch) ranked /\
     select ranked (Notions.max_new_of k ib0) budgets = Ok desired /\
     sublist ds desired /\
     Forall2 (fun sym cq => cand_by_symbol ranked !! upper sym = Some (fst cq) /\ 0 < snd cq)
             ds (selected st)).
Proof.
  cbv zeta. unfold trading_cycle.
  fold (Notions.open_symbols_of ib0). fold (Notions.max_new_of k ib0).
  set (max_new := Notions.max_new_of k ib0).
  assert (0 <= max_new) as Hmax by (unfold max_new, Notions.max_new_of; lia).
  destruct (max_new =? 0); [simpl; split; [lia|left; reflexivity]|].
  set (st0 := mkCycle ib0 _ [] [] [] 0).
  pose proof (research_loop_frame k (Notions.open_symbols_of ib0) watch st0)
    as (_ & Hbr & Hsel & _).
  pose proof (research_loop_gates k (Notions.open_symbols_of ib0) watch st0) as Hg.
  destruct (research_loop _ _ st0 watch) as [st1 eligible]. simpl in Hbr, Hsel, Hg.
  assert (forall s : Cycle, selected s = [] ->
            Z.of_nat (length (selected s)) <= max_new /\
            (selected s = [] \/
             exists ranked budgets desired ds,
               Forall (Notions.passed_gates k (Notions.open_symbols_of ib0) watch) ranked /\
               select ranked max_new budgets = Ok desired /\
               sublist ds desired /\
               Forall2 (fun sym cq => cand_by_symbol ranked !! upper sym = Some (fst cq) /\
                                      0 < snd cq) ds (selected s))) as Hnone.
  { intros s Hs. rewrite Hs. simpl. split; [lia|left; reflexivity]. }
  destruct eligible as [|e0 el] eqn:Eel; [apply Hnone; exact Hsel|]. rewrite <- Eel in *.
  pose proof (assign_ranks_Forall (Notions.passed_gates k (Notions.open_symbols_of ib0) watch)
                (sort_by_score eligible) (fun c r H => H) 1 (research_log st1)
                (sort_by_score_Forall _ _ Hg)) as Hr.
  destruct (assign_ranks 1 _ _) as [ranked log]. simpl in Hr.
  destruct (max_new <=? 0); [apply Hnone; exact Hsel|].
  destruct (select _ _ _) as [desired|e] eqn:Esel; [|apply Hnone; exact Hsel].
  set (st3 := with_research_log _ _).
  assert (selected st3 = []) as Hs3 by exact Hsel.
  assert (forall c, 0 <= default 0%Q (budget_remaining st3 !! c))%Q as Hnn.
  { intros c. change (budget_remaining st3) with (budget_remaining st1).
    rewrite Hbr. apply compute_budgets_nonneg. }
  pose proof (buy_loop_order k (get_account_value acc "NetLiquidation" None) max_new
                (cand_by_symbol ranked) desired st3 Hnn) as (ds & pairs & Hsub & Hp & Hall).
  pose proof (buy_loop_cap k (get_account_value acc "NetLiquidation" None) max_new
                (cand_by_symbol ranked) desired st3) as Hcap.
  rewrite Hs3 in Hp, Hcap. simpl in Hp, Hcap. specialize (Hcap Hmax).
  assert (fst (let (st4, o) := buy_loop k (get_account_value acc "NetLiquidation" None)
                                        max_new (cand_by_symbol ranked) desired st3 in
               match o with
               | Some e => (st4, Crashed e)
               | None => (st4, Completed)
               end) =
          fst (buy_loop k (get_account_value acc "NetLiquidation" None) max_new
                        (cand_by_symbol ranked) desired st3)) as ->
      by (destruct (buy_loop _ _ _ _ _ _) as [st4 [e|]]; reflexivity).
  split; [exact Hcap|]. right.
  exists ranked, (budget_remaining (with_research_log st1 log)), desired, ds.
  rewrite Hp. auto.
Qed.

(** X9. A cycle opens at most
    [max(0, min(max_positions - open, max_new_positions_per_cycle))] new
    positions, [open] being the number of distinct symbols held when the
    cycle starts: never more than the per-cycle limit, and never more than
    the free slots. *)
Theorem cycle_position_cap k ib0 acc watch select :
  let st := fst (trading_cycle k ib0 acc watch select) in
  let open_count := Z.of_nat (size (Notions.open_symbols_of ib0)) in
  let bought := Z.of_nat (length (selected st)) in
  bought <= Z.max 0 (max_new_positions_per_cycle k) /\
  bought <= Z.max 0 (max_positions k - open_count).
Proof.
  cbv zeta.
  pose proof (trading_cycle_buys k ib0 acc watch select) as [H _]. cbv zeta in H.
  unfold Notions.max_new_of in H. split; lia.
Qed.

(** X10. Every buy of a cycle is for a candidate that passed the gates of
    the research loop: an item of the watch list that the decision service
    shortlisted, with its market open and not near the close, and with a
    symbol that was not held when the cycle started; and it is for a
    positive quantity. *)
Theorem cycle_buys_passed_gates k ib0 acc watch select :
  let st := fst (trading_cycle k ib0 acc watch select) in
  Forall (fun cq => Notions.passed_gates k (Notions.open_symbols_of ib0) watch (fst cq) /\
                    0 < snd cq)
         (selected st).
Proof.
  cbv zeta.
  pose proof (trading_cycle_buys k ib0 acc watch select) as [_ H]. cbv zeta in H.
  destruct H as [->|(ranked & budgets & desired & ds & Hr & _ & _ & Hall)]; [constructor|].
  rewrite Forall_forall in Hr.
  induction Hall as [|sym cq ds' pairs [Hc Hq] _ IH]; constructor; [|exact IH].
  split; [|exact Hq]. apply Hr, list_elem_of_In.
  eapply cand_by_symbol_values. exact Hc.
Qed.

(** X11. With the selection made by [select_buys_from_shortlist], a cycle
    buys no symbol twice: the symbols of the buys, in upper case, are
    distinct. *)
Theorem cycle_buys_each_symbol_once k ib0 acc watch reply :
  let st := fst (trading_cycle k ib0 acc watch (select_with reply)) in
  NoDup (List.map (fun cq => upper (e_symbol (fst cq))) (selected st)).
Proof.
  cbv zeta.
  pose proof (trading_cycle_buys k ib0 acc watch (select_with reply)) as [_ H].
  cbv zeta in H.
  destruct H as [->|(ranked & budgets & desired & ds & _ & Hsel & Hsub & Hall)];
    [constructor|].
  unfold select_with in Hsel.
  apply select_buys_from_shortlist_ok in Hsel as (Hnd & _ & Hnorm).
  assert (List.map upper desired = desired) as Hup.
  { clear -Hnorm. induction Hnorm as [|d l [_ (c & _ & ->)] _ IH]; simpl; [reflexivity|].
    rewrite IH. unfold norm_symbol. rewrite upper_idem. reflexivity. }
  assert (List.map (fun cq : Eligible * Z => upper (e_symbol (fst cq))) (selected
            (fst (trading_cycle k ib0 acc watch (select_with reply)))) =
          List.map upper ds) as ->.
  { clear -Hall. induction Hall as [|sym cq ds' pairs [Hc _] _ IH]; simpl; [reflexivity|].
    rewrite IH. f_equal. eapply cand_by_symbol_key. exact Hc. }
  eapply sublist_NoDup; [|apply sublist_map; exact Hsub].
  rewrite Hup. exact Hnd.
Qed.

End CycleBuys.

(** AAPL is selected once from a reply that names it twice. *)
Lemma select_buys_from_shortlist_witness :
  NoDup ["AAPL"] /\
  Z.of_nat (length ["AAPL"]) <= 2 /\
  Forall (fun s => s <> "" /\
                   exists c, In c [demo_cand] /\
                             s = Selection.norm_symbol (Runner.e_symbol c)) ["AAPL"].
Proof.
  apply (select_buys_from_shortlist_spec true [demo_cand] 2 Scenarios.reply_aapl ["AAPL"]).
  vm_compute. reflexivity.
Defined.

(** ** Safety nets of the executor ([cancel_orphaned_sell_orders],
    [close_short_position], [close_all_shorts]) *)
Section SafetyNets.
Import OrderManagement.

Lemma cancel_extras_positions extras ib : positions (cancel_extras ib extras) = positions ib.
Proof.
  unfold cancel_extras. revert ib.
  induction extras as [|t l IH]; intros ib; simpl; [reflexivity|].
  rewrite IH. reflexivity.
Qed.

Lemma placeOrder_positions ib c o : positions (fst (placeOrder ib c o)) = positions ib.
Proof.
  unfold placeOrder. destruct (orderId o =? 0); simpl;
    match goal with |- context [if ?b then _ else _] => destruct b end; reflexivity.
Qed.

(** Cancelling a list of orders keeps the open trades whose id is not in
    the list. *)
Lemma cancel_extras_filter extras ib :
  openTrades (cancel_extras ib extras) =
  List.filter (fun t => negb (existsb (fun e => oid t =? oid e) extras)) (openTrades ib).
Proof.
  unfold cancel_extras. revert ib.
  induction extras as [|e l IH]; intros ib; simpl.
  - induction (openTrades ib) as [|t b IHb]; simpl; [reflexivity|]. rewrite <- IHb.
    reflexivity.
  - rewrite IH. unfold cancelOrder. simpl.
    induction (openTrades ib) as [|t b IHb]; simpl; [reflexivity|].
    unfold oid at 1. destruct (orderId (order t) =? orderId (order e)) eqn:E; simpl.
    + unfold oid in IHb |- *. rewrite E. simpl. exact IHb.
    + unfold oid in IHb |- *. rewrite E. simpl.
      destruct (negb (existsb _ l)); [f_equal|]; exact IHb.
Qed.

(** Among trades with distinct ids, cancelling those picked by a test
    removes exactly them. *)
Lemma cancel_picked (P : Trade -> bool) ib :
  NoDup (List.map oid (openTrades ib)) ->
  openTrades (cancel_extras ib (List.filter P (openTrades ib))) =
  List.filter (fun t => negb (P t)) (openTrades ib).
Proof.
  intros Hnd. rewrite cancel_extras_filter. apply filter_ext_in. intros t Ht.
  f_equal. destruct (P t) eqn:EP.
  - apply existsb_exists. exists t. split; [|apply Z.eqb_refl].
    apply filter_In. auto.
  - destruct (existsb _ _) eqn:Ex; [|reflexivity]. exfalso.
    apply existsb_exists in Ex as (e & He & Hid). apply filter_In in He as [He HPe].
    apply Z.eqb_eq in Hid.
    rewrite (same_id_same_trade _ t e Hnd Ht He Hid) in EP. congruence.
Qed.

Lemma cancel_orphaned_sell_orders_eq ib :
  cancel_orphaned_sell_orders ib =
  (cancel_extras ib (List.filter (is_orphaned_sell (long_symbols ib)) (openTrades ib)),
   Z.of_nat (length (List.filter (is_orphaned_sell (long_symbols ib)) (openTrades ib)))).
Proof.
  unfold cancel_orphaned_sell_orders, cancel_extras.
  set (P := is_orphaned_sell (long_symbols ib)).
  assert (forall l ib' n,
             fold_left (fun '(ib', cancelled) trade =>
                          if P trade then (cancelOrder ib' (order trade), cancelled + 1)
                          else (ib', cancelled)) l (ib', n) =
             (fold_left (fun ib t => cancelOrder ib (order t)) (List.filter P l) ib',
              n + Z.of_nat (length (List.filter P l)))) as H.
  { induction l as [|t l IH]; intros ib' n; simpl; [f_equal; lia|].
    destruct (P t); simpl; rewrite IH; f_equal; lia. }
  rewrite H. reflexivity.
Qed.

(** X12. After [cancel_orphaned_sell_orders] every open SELL order with a
    symbol belongs to a symbol of which a long position is held; the
    positions and the log of placed orders are untouched.  When the order
    ids are distinct, the orders that are cancelled are exactly the orphaned
    ones, every other order stays as it was, the count returned is their
    number, and a second call cancels nothing. *)
Theorem cancel_orphaned_sell_orders_spec ib :
  let ib' := fst (cancel_orphaned_sell_orders ib) in
  (positions ib' = positions ib /\ placed ib' = placed ib /\
   forall t, In t (openTrades ib') ->
             action (order t) = SELL -> symbol (contract t) <> "" ->
             exists p, In p (positions ib) /\ symbol (p_contract p) = symbol (contract t) /\
                       0 < position p) /\
  (NoDup (List.map oid (openTrades ib)) ->
   openTrades ib' =
   List.filter (fun t => negb (is_orphaned_sell (long_symbols ib) t)) (openTrades ib) /\
   snd (cancel_orphaned_sell_orders ib) =
   Z.of_nat (length (openTrades ib)) - Z.of_nat (length (openTrades ib')) /\
   cancel_orphaned_sell_orders ib' = (ib', 0)).
Proof.
  cbv zeta. rewrite cancel_orphaned_sell_orders_eq. cbn [fst snd].
  set (P := is_orphaned_sell (long_symbols ib)).
  split; [split; [apply cancel_extras_positions|split; [apply cancel_extras_placed|]]|].
  - intros t Ht Ha Hs. apply cancel_extras_in in Ht as [Ht Hno].
    destruct (P t) eqn:EP.
    { exfalso. apply (Hno t); [apply filter_In; auto|reflexivity]. }
    unfold P, is_orphaned_sell in EP. rewrite Ha in EP. simpl in EP.
    destruct (String.eqb_spec (symbol (contract t)) "") as [E|_]; [contradiction|].
    simpl in EP. apply negb_false_iff, bool_decide_eq_true in EP.
    unfold long_symbols in EP. apply elem_of_list_to_set, list_elem_of_In in EP.
    apply in_map_iff in EP as (p & Hp & Hin). apply filter_In in Hin as [Hin Hpos].
    apply Z.ltb_lt in Hpos. exists p. auto.
  - intros Hnd. pose proof (cancel_picked P ib Hnd) as Heq. split; [exact Heq|]. split.
    + rewrite Heq. clear. induction (openTrades ib) as [|t l IH]; simpl; [reflexivity|].
      destruct (P t); simpl; lia.
    + rewrite cancel_orphaned_sell_orders_eq.
      assert (long_symbols (cancel_extras ib (List.filter P (openTrades ib))) =
              long_symbols ib) as ->
          by (unfold long_symbols; rewrite cancel_extras_positions; reflexivity).
      fold P. rewrite Heq.
      assert (List.filter P (List.filter (fun t => negb (P t)) (openTrades ib)) = []) as ->.
      { clear. induction (openTrades ib) as [|t l IH]; simpl; [reflexivity|].
        destruct (P t) eqn:E; simpl; [exact IH|]. rewrite E. exact IH. }
      reflexivity.
Qed.

(** The effect of [close_short_position] on the session. *)
Lemma close_short_position_effect qualify ib sym exch cur :
  let held := get_position_quantity ib sym in
  (0 <= held -> close_short_position qualify ib sym exch cur = (ib, None)) /\
  (held < 0 ->
   exists ib' trade,
     close_short_position qualify ib sym exch cur = (ib', Some trade) /\
     placed ib' = placed ib ++ [trade] /\
     positions ib' = positions ib /\
     contract trade = qualify (Stock sym exch cur) /\
     action (order trade) = BUY /\ orderType (order trade) = MKT /\
     totalQuantity (order trade) + held = 0 /\
     (forall x, In x (openTrades ib') -> symbol (contract x) = sym -> x = trade)).
Proof.
  intros held. unfold close_short_position. fold held. split.
  - intros H. apply Z.leb_le in H. rewrite H. reflexivity.
  - intros H. replace (0 <=? held) with false by (symmetry; apply Z.leb_gt; lia).
    set (ib1 := fst (cancel_orders_for_symbol ib sym)).
    set (c := qualify (Stock sym exch cur)).
    set (o := MarketOrder BUY (Z.abs held)).
    pose proof (placeOrder_placed ib1 c o) as Hp.
    pose proof (placeOrder_trade ib1 c o) as Ht.
    pose proof (placeOrder_in ib1 c o) as Hin.
    pose proof (placeOrder_positions ib1 c o) as Hpos.
    destruct (placeOrder ib1 c o) as [ib2 trade] eqn:E. simpl in Hp, Ht, Hin, Hpos.
    exists ib2, trade. split; [reflexivity|]. split.
    { rewrite Hp. subst ib1. rewrite cancel_orders_for_symbol_eq, cancel_extras_placed.
      reflexivity. }
    split.
    { rewrite Hpos. subst ib1. rewrite cancel_orders_for_symbol_eq.
      apply cancel_extras_positions. }
    rewrite Ht. simpl. repeat split; [lia|].
    intros x Hx Hs. destruct (Hin x Hx) as [->|[(t0 & Ht0 & _ & ->)|[Hx1 _]]].
    + reflexivity.
    + exfalso. eapply cancel_orders_for_symbol_clears; eauto.
    + exfalso. eapply cancel_orders_for_symbol_clears; eauto.
Qed.

(** X13. [close_short_position] buys back exactly the short quantity: when
    the first position of the symbol is not short nothing happens and
    [None] is returned; otherwise the orders of the symbol are cancelled and
    one market BUY is placed whose quantity brings the position to zero. *)
Theorem close_short_position_covers qualify ib sym exch cur :
  let held := get_position_quantity ib sym in
  (0 <= held -> close_short_position qualify ib sym exch cur = (ib, None)) /\
  (held < 0 ->
   exists ib' trade,
     close_short_position qualify ib sym exch cur = (ib', Some trade) /\
     placed ib' = placed ib ++ [trade] /\
     positions ib' = positions ib /\
     contract trade = qualify (Stock sym exch cur) /\
     action (order trade) = BUY /\ orderType (order trade) = MKT /\
     totalQuantity (order trade) + held = 0 /\
     (forall x, In x (openTrades ib') -> symbol (contract x) = sym -> x = trade)).
Proof. exact (close_short_position_effect qualify ib sym exch cur). Qed.

End SafetyNets.

(** The short position of the session is bought back. *)
Lemma close_short_position_covers_witness :
  exists ib' trade,
    OrderManagement.close_short_position (fun c => c) Scenarios.ib_short "TSLA" "SMART" "USD"
    = (ib', Some trade) /\
    placed ib' = placed Scenarios.ib_short ++ [trade] /\
    positions ib' = positions Scenarios.ib_short /\
    contract trade = OrderManagement.Stock "TSLA" "SMART" "USD" /\
    action (order trade) = BUY /\ orderType (order trade) = MKT /\
    totalQuantity (order trade) + (-5) = 0 /\
    (forall x, In x (openTrades ib') -> symbol (contract x) = "TSLA" -> x = trade).
Proof.
  apply (proj2 (close_short_position_covers (fun c => c) Scenarios.ib_short
                                            "TSLA" "SMART" "USD")).
  vm_compute. reflexivity.
Defined.

(** The orphaned stop of the session is cancelled, the stop of the held
    symbol stays. *)
Lemma cancel_orphaned_sell_orders_witness :
  openTrades (fst (OrderManagement.cancel_orphaned_sell_orders Scenarios.ib_short)) =
  List.filter (fun t => negb (OrderManagement.is_orphaned_sell
                                (OrderManagement.long_symbols Scenarios.ib_short) t))
              (openTrades Scenarios.ib_short) /\
  snd (OrderManagement.cancel_orphaned_sell_orders Scenarios.ib_short) =
  Z.of_nat (length (openTrades Scenarios.ib_short)) -
  Z.of_nat (length (openTrades
                      (fst (OrderManagement.cancel_orphaned_sell_orders Scenarios.ib_short)))) /\
  OrderManagement.cancel_orphaned_sell_orders
    (fst (OrderManagement.cancel_orphaned_sell_orders Scenarios.ib_short)) =
  (fst (OrderManagement.cancel_orphaned_sell_orders Scenarios.ib_short), 0).
Proof.
  apply (proj2 (cancel_orphaned_sell_orders_spec Scenarios.ib_short)).
  apply (bool_decide_unpack _). vm_compute. exact I.
Defined.

Section AllShorts.
Import OrderManagement.

(** The positions that [close_all_shorts] acts on: short, and with a short
    first position of the same symbol. *)
Local Abbreviation acted_on ib :=
  (List.filter (fun p => (position p <? 0) &&
                         (get_position_quantity ib (symbol (p_contract p)) <? 0))
               (positions ib)).

Lemma position_quantity_in_first (l : list Position) p :
  NoDup (List.map (fun p => symbol (p_contract p)) l) -> In p l ->
  position_quantity_in l (symbol (p_contract p)) = position p.
Proof.
  induction l as [|a l IH]; simpl; intros Hnd Hin; [contradiction|].
  apply NoDup_cons in Hnd as [Hn Hd].
  destruct Hin as [->|Hin]; [rewrite String.eqb_refl; reflexivity|].
  destruct (String.eqb_spec (symbol (p_contract a)) (symbol (p_contract p))) as [E|_].
  - exfalso. apply Hn. rewrite E.
    apply list_elem_of_In, (in_map (fun p => symbol (p_contract p))). exact Hin.
  - apply IH; assumption.
Qed.

Lemma close_all_shorts_fold qualify ib0 (l : list Position) :
  forall cur closed0,
    positions cur = positions ib0 ->
    let r := fold_left
               (fun '(ib, closed) pos =>
                  let qty := position pos in
                  if qty <? 0 then
                    let sym := symbol (p_contract pos) in
                    match close_short_position qualify ib sym
                            (str_or (exchange (p_contract pos)) "SMART")
                            (str_or (currency (p_contract pos)) "USD") with
                    | (ib', Some _) => (ib', closed ++ [(sym, Z.abs qty)])
                    | (ib', None) => (ib', closed)
                    end
                  else (ib, closed)) l (cur, closed0) in
    let acted :=
      List.filter (fun p => (position p <? 0) &&
                            (get_position_quantity ib0 (symbol (p_contract p)) <? 0)) l in
    positions (fst r) = positions ib0 /\
    snd r = closed0 ++ List.map (fun p => (symbol (p_contract p), Z.abs (position p))) acted /\
    exists news,
      placed (fst r) = placed cur ++ news /\
      Forall2 (fun p t =>
                 contract t = qualify (Stock (symbol (p_contract p))
                                             (str_or (exchange (p_contract p)) "SMART")
                                             (str_or (currency (p_contract p)) "USD")) /\
                 action (order t) = BUY /\ orderType (order t) = MKT /\
                 totalQuantity (order t) =
                 - get_position_quantity ib0 (symbol (p_contract p)))
              acted news.
Proof.
  induction l as [|pos l IH]; intros cur closed0 Hpos; simpl.
  - split; [exact Hpos|]. split; [rewrite app_nil_r; reflexivity|].
    exists []. rewrite app_nil_r. split; [reflexivity|constructor].
  - assert (get_position_quantity cur (symbol (p_contract pos)) =
            get_position_quantity ib0 (symbol (p_contract pos))) as Hq
        by (unfold get_position_quantity; rewrite Hpos; reflexivity).
    destruct (position pos <? 0) eqn:Eneg; simpl; [|apply IH; exact Hpos].
    pose proof (close_short_position_effect qualify cur (symbol (p_contract pos))
                  (str_or (exchange (p_contract pos)) "SMART")
                  (str_or (currency (p_contract pos)) "USD")) as [Hnone Hsome].
    cbv zeta in Hnone, Hsome. rewrite Hq in Hnone, Hsome.
    destruct (get_position_quantity ib0 (symbol (p_contract pos)) <? 0) eqn:Eh; simpl.
    + apply Z.ltb_lt in Eh.
      destruct (Hsome Eh) as (ib' & trade & -> & Hp & Hps & Hc & Ha & Ht & Hqty & _).
      destruct (IH ib' (closed0 ++ [(symbol (p_contract pos), Z.abs (position pos))]))
        as (A & B & news & C & D); [congruence|].
      cbv zeta in A, B, C, D. split; [exact A|]. split.
      { rewrite B, <- app_assoc. reflexivity. }
      exists (trade :: news). split; [rewrite C, Hp, <- app_assoc; reflexivity|].
      constructor; [|exact D]. repeat split; try assumption. lia.
    + apply Z.ltb_ge in Eh. rewrite (Hnone Eh). apply IH. exact Hpos.
Qed.

Lemma close_all_shorts_idle qualify (l : list Position) :
  Forall (fun p => 0 <= position p) l ->
  forall cur closed0,
    fold_left
      (fun '(ib, closed) pos =>
         let qty := position pos in
         if qty <? 0 then
           let sym := symbol (p_contract pos) in
           match close_short_position qualify ib sym
                   (str_or (exchange (p_contract pos)) "SMART")
                   (str_or (currency (p_contract pos)) "USD") with
           | (ib', Some _) => (ib', closed ++ [(sym, Z.abs qty)])
           | (ib', None) => (ib', closed)
           end
         else (ib, closed)) l (cur, closed0) = (cur, closed0).
Proof.
  induction 1 as [|p l Hp _ IH]; intros cur closed0; simpl; [reflexivity|].
  replace (position p <? 0) with false by (symmetry; apply Z.ltb_ge; exact Hp).
  apply IH.
Qed.

(** X14. [close_all_shorts] only buys, and only to cover: it acts on the
    short positions whose symbol's first position is short, and for each of
    them, in order, it places one market BUY for the absolute quantity of
    that first position and reports the pair (symbol, absolute quantity of
    the position); the positions are untouched.  When every symbol has one
    position, each short position is bought back for exactly its size; when
    no position is short nothing is done. *)
Theorem close_all_shorts_spec qualify ib :
  let ib' := fst (close_all_shorts qualify ib) in
  let closed := snd (close_all_shorts qualify ib) in
  (positions ib' = positions ib /\
   closed = List.map (fun p => (symbol (p_contract p), Z.abs (position p))) (acted_on ib) /\
   exists news,
     placed ib' = placed ib ++ news /\
     Forall2 (fun p t =>
                action (order t) = BUY /\ orderType (order t) = MKT /\
                totalQuantity (order t) =
                - get_position_quantity ib (symbol (p_contract p)) /\
                0 < totalQuantity (order t))
             (acted_on ib) news) /\
  (NoDup (List.map (fun p => symbol (p_contract p)) (positions ib)) ->
   acted_on ib = List.filter (fun p => position p <? 0) (positions ib) /\
   exists news,
     placed ib' = placed ib ++ news /\
     Forall2 (fun p t => action (order t) = BUY /\ orderType (order t) = MKT /\
                         totalQuantity (order t) + position p = 0)
             (List.filter (fun p => position p <? 0) (positions ib)) news) /\
  (Forall (fun p => 0 <= position p) (positions ib) ->
   close_all_shorts qualify ib = (ib, [])).
Proof.
  cbv zeta. unfold close_all_shorts.
  pose proof (close_all_shorts_fold qualify ib (positions ib) ib [] eq_refl)
    as (A & B & news & C & D).
  cbv zeta in A, B, C, D.
  assert (Forall2 (fun p t =>
                     action (order t) = BUY /\ orderType (order t) = MKT /\
                     totalQuantity (order t) =
                     - get_position_quantity ib (symbol (p_contract p)) /\
                     0 < totalQuantity (order t))
                  (acted_on ib) news) as D'.
  { clear -D. remember (acted_on ib) as acted eqn:Ea.
    assert (Forall (fun p => get_position_quantity ib (symbol (p_contract p)) < 0) acted) as Hf.
    { subst acted. apply Forall_forall. intros p Hp. apply list_elem_of_In, filter_In in Hp as [_ Hp].
      apply andb_true_iff in Hp as [_ Hp]. apply Z.ltb_lt in Hp. exact Hp. }
    clear Ea. induction D as [|p t ps ts (H1 & H2 & H3 & H4) _ IH]; [constructor|].
    apply Forall_cons in Hf as [Hp Hf]. constructor; [|apply IH; exact Hf].
    repeat split; try assumption. lia. }
  split; [|split].
  - split; [exact A|]. split; [exact B|]. exists news. split; [exact C|exact D'].
  - intros Hnd.
    assert (acted_on ib = List.filter (fun p => position p <? 0) (positions ib)) as Heq.
    { apply filter_ext_in. intros p Hp. unfold get_position_quantity.
      rewrite (position_quantity_in_first _ p Hnd Hp). apply andb_diag. }
    split; [exact Heq|]. exists news. split; [exact C|].
    rewrite <- Heq. clear -D' Hnd.
    assert (Forall (fun p => In p (positions ib)) (acted_on ib)) as Hin.
    { apply Forall_forall. intros p Hp. apply list_elem_of_In, filter_In in Hp as [Hp _].
      exact Hp. }
    induction D' as [|p t ps ts (H1 & H2 & H3 & H4) _ IH]; [constructor|].
    apply Forall_cons in Hin as [Hp Hin]. constructor; [|apply IH; exact Hin].
    repeat split; try assumption. rewrite H3. unfold get_position_quantity.
    rewrite (position_quantity_in_first _ p Hnd Hp). lia.
  - intros Hall. apply (close_all_shorts_idle qualify _ Hall).
Qed.

End AllShorts.

(** The session with one short position: TSLA is bought back for its five
    shares. *)
Lemma close_all_shorts_witness :
  (fun ib =>
     List.filter (fun p => (position p <? 0) &&
                           (get_position_quantity ib (symbol (p_contract p)) <? 0))
                 (positions ib) =
     List.filter (fun p => position p <? 0) (positions ib) /\
     exists news,
       placed (fst (OrderManagement.close_all_shorts (fun c => c) ib)) = placed ib ++ news /\
       Forall2 (fun p t => action (order t) = BUY /\ orderType (order t) = MKT /\
                           totalQuantity (order t) + position p = 0)
               (List.filter (fun p => position p <? 0) (positions ib)) news)
    Scenarios.ib_short.
Proof.
  apply (proj1 (proj2 (close_all_shorts_spec (fun c => c) Scenarios.ib_short))).
  apply (bool_decide_unpack _). vm_compute. exact I.
Defined.

(** ** Edits of single orders ([modify_stop_loss], [modify_take_profit],
    [get_orders_summary_for_symbol]) *)
Section OrderEdits.
Import ExitOrders OrderManagement.

(** Filing an open order again under its own id changes that order and
    nothing else. *)
Lemma placeOrder_refile ib trade (o : Order) :
  well_formed ib -> In trade (openTrades ib) -> orderId o = oid trade ->
  openTrades (fst (placeOrder ib (contract trade) o)) =
  List.map (fun t => if oid t =? oid trade then mkTrade (contract t) o else t)
           (openTrades ib) /\
  nextReqId (fst (placeOrder ib (contract trade) o)) = nextReqId ib /\
  positions (fst (placeOrder ib (contract trade) o)) = positions ib.
Proof.
  intros (Hpos & Hnd & Hbd) Hin Hid. rewrite Forall_forall in Hbd.
  assert (0 < oid trade) as Hp by (apply Hbd, list_elem_of_In, Hin).
  split; [|split; [apply placeOrder_nextReqId; lia|apply placeOrder_positions]].
  unfold placeOrder.
  replace (orderId o =? 0) with false by (symmetry; apply Z.eqb_neq; lia).
  assert (has_order_id (orderId o) (openTrades ib) = true) as ->.
  { apply existsb_exists. exists trade. split; [exact Hin|].
    apply Z.eqb_eq. symmetry. exact Hid. }
  cbn [fst openTrades]. rewrite set_orderId_same, Hid. reflexivity.
Qed.

Lemma find_some_in {A} (P : A -> bool) l x :
  List.find P l = Some x -> In x l /\ P x = true.
Proof. apply find_some. Qed.

(** X15. [modify_stop_loss] and [modify_take_profit] reprice one order and
    touch nothing else: without a SELL STP (SELL LMT) order of the symbol
    they return [False] and leave the session as it is; otherwise the first
    such order gets the new price, as given and unrounded, and every other
    field of it, every other order, the request-id counter and the
    positions stay the same. *)
Theorem modify_orders_spec ib sym (new_price : Q) :
  well_formed ib ->
  match List.find is_sell_stop (get_open_trades_for_symbol ib sym) with
  | None => modify_stop_loss ib sym new_price = (ib, false)
  | Some trade =>
      snd (modify_stop_loss ib sym new_price) = true /\
      openTrades (fst (modify_stop_loss ib sym new_price)) =
      List.map (fun t => if oid t =? oid trade
                         then mkTrade (contract t) (set_auxPrice (order trade) new_price)
                         else t)
               (openTrades ib) /\
      nextReqId (fst (modify_stop_loss ib sym new_price)) = nextReqId ib /\
      positions (fst (modify_stop_loss ib sym new_price)) = positions ib
  end /\
  match List.find is_sell_limit (get_open_trades_for_symbol ib sym) with
  | None => modify_take_profit ib sym new_price = (ib, false)
  | Some trade =>
      snd (modify_take_profit ib sym new_price) = true /\
      openTrades (fst (modify_take_profit ib sym new_price)) =
      List.map (fun t => if oid t =? oid trade
                         then mkTrade (contract t) (set_lmtPrice (order trade) new_price)
                         else t)
               (openTrades ib) /\
      nextReqId (fst (modify_take_profit ib sym new_price)) = nextReqId ib /\
      positions (fst (modify_take_profit ib sym new_price)) = positions ib
  end.
Proof.
  intros Hwf. unfold modify_stop_loss, modify_take_profit. split.
  - destruct (List.find is_sell_stop _) as [trade|] eqn:E; [|reflexivity].
    apply find_some_in in E as [Hin _].
    apply filter_In in Hin as [Hin _].
    split; [reflexivity|]. cbn [fst].
    apply placeOrder_refile; [exact Hwf|exact Hin|destruct trade as [c []]; reflexivity].
  - destruct (List.find is_sell_limit _) as [trade|] eqn:E; [|reflexivity].
    apply find_some_in in E as [Hin _].
    apply filter_In in Hin as [Hin _].
    split; [reflexivity|]. cbn [fst].
    apply placeOrder_refile; [exact Hwf|exact Hin|destruct trade as [c []]; reflexivity].
Qed.

End OrderEdits.

(** The stop of AAPL (order 5) moves from 140 to 142; the take-profits
    stay. *)
Lemma modify_orders_witness :
  snd (OrderManagement.modify_stop_loss ib_stop_two_tps "AAPL" (142#1)) = true /\
  openTrades (fst (OrderManagement.modify_stop_loss ib_stop_two_tps "AAPL" (142#1))) =
  List.map (fun t => if oid t =? oid stop_5
                     then mkTrade (contract t) (set_auxPrice (order stop_5) (142#1))
                     else t)
           (openTrades ib_stop_two_tps) /\
  nextReqId (fst (OrderManagement.modify_stop_loss ib_stop_two_tps "AAPL" (142#1))) =
  nextReqId ib_stop_two_tps /\
  positions (fst (OrderManagement.modify_stop_loss ib_stop_two_tps "AAPL" (142#1))) =
  positions ib_stop_two_tps.
Proof.
  refine (proj1 (modify_orders_spec ib_stop_two_tps "AAPL" (142#1) _)).
  split; [reflexivity|]. split.
  - apply (bool_decide_unpack _). vm_compute. exact I.
  - repeat constructor.
Defined.

(** ** The order summary after an upsert *)
Section SummaryAfterUpsert.
Import ExitOrders OrderManagement.

Lemma placeOrder_new_filed ib c o :
  (forall y, In y (openTrades ib) -> oid y <> nextReqId ib) -> orderId o = 0 ->
  In (mkTrade c (set_orderId o (nextReqId ib))) (openTrades (fst (placeOrder ib c o))).
Proof.
  intros Hnew Ho. unfold placeOrder. rewrite Ho. cbn [Z.eqb getReqId].
  assert (has_order_id (nextReqId ib) (openTrades ib) = false) as Hh.
  { destruct (has_order_id _ _) eqn:E; [|reflexivity]. exfalso.
    apply existsb_exists in E as (y & Hy & Hid). apply Z.eqb_eq in Hid.
    exact (Hnew y Hy Hid). }
  cbn [openTrades]. rewrite Hh. cbn [fst openTrades]. apply in_app_iff. right. left.
  reflexivity.
Qed.

Lemma placeOrder_filed ib c o :
  orderId o <> 0 ->
  (forall t, In t (openTrades ib) -> oid t = orderId o -> contract t = c) ->
  In (mkTrade c o) (openTrades (fst (placeOrder ib c o))).
Proof.
  intros Ho Hc. unfold placeOrder.
  replace (orderId o =? 0) with false by (symmetry; apply Z.eqb_neq; exact Ho).
  rewrite set_orderId_same.
  destruct (has_order_id (orderId o) (openTrades ib)) eqn:E; cbn [fst openTrades].
  - apply existsb_exists in E as (t & Ht & Hid). apply Z.eqb_eq in Hid.
    apply in_map_iff. exists t. split; [|exact Ht].
    unfold oid in Hc. rewrite (proj2 (Z.eqb_eq _ _) Hid), (Hc t Ht Hid). reflexivity.
  - apply in_app_iff. right. left. reflexivity.
Qed.

Section Filed.
Variables (mine other : Trade -> bool) (reprice : Order -> Order) (fresh : Z -> Order).
Variables (price : Order -> pyfloat) (p : pyfloat).
Hypothesis mine_kind :
  forall t t', orderType (order t) = orderType (order t') ->
               action (order t) = action (order t') -> mine t = mine t'.
Hypothesis other_kind :
  forall t t', orderType (order t) = orderType (order t') ->
               action (order t) = action (order t') -> other t = other t'.
Hypothesis kinds_disjoint : forall t, mine t = true -> other t = true -> False.
Hypothesis reprice_id : forall o, orderId (reprice o) = orderId o.
Hypothesis reprice_type : forall o, orderType (reprice o) = orderType o.
Hypothesis reprice_action : forall o, action (reprice o) = action o.
Hypothesis fresh_id : forall q, orderId (fresh q) = 0.
Hypothesis fresh_kind : forall q c, other (mkTrade c (fresh q)) = false.
Hypothesis fresh_mine : forall q c, mine (mkTrade c (fresh q)) = true.
Hypothesis price_reprice : forall o, price (reprice o) = p.
Hypothesis price_fresh : forall q, price (fresh q) = p.
Hypothesis price_oca : forall o g, price (set_oca o g) = price o.
Hypothesis price_id : forall o i, price (set_orderId o i) = price o.

Lemma price_link_order ib sym o : price (link_order other ib sym o) = price o.
Proof.
  unfold link_order. destruct (List.filter other _); [reflexivity|apply price_oca].
Qed.

(** A successful upsert leaves exactly one order of the upserted kind for
    the symbol, and it carries the price. *)
Lemma upsert_shape_filed ib c quantity :
  well_formed ib ->
  snd (upsert_shape mine other reprice fresh ib c quantity) = true ->
  exists S,
    In S (openTrades (fst (upsert_shape mine other reprice fresh ib c quantity))) /\
    symbol (contract S) = symbol c /\ mine S = true /\ price (order S) = p /\
    forall x,
      In x (openTrades (fst (upsert_shape mine other reprice fresh ib c quantity))) ->
      symbol (contract x) = symbol c -> mine x = true -> x = S.
Proof.
  intros Hwf Hres.
  destruct (upsert_shape_cover mine other reprice fresh mine_kind other_kind kinds_disjoint
              reprice_id reprice_type reprice_action fresh_id fresh_kind
              ib c quantity Hwf Hres) as (S' & T & hasT & Hcov & _).
  destruct Hcov as (_ & Hcov & _ & HT & _).
  assert (forall x,
             In x (openTrades (fst (upsert_shape mine other reprice fresh ib c quantity))) ->
             symbol (contract x) = symbol c -> mine x = true -> x = S') as Huniq.
  { intros x Hx Hs Hm. destruct (Hcov x Hx) as [E|[[Hh E]|(_ & Hno & _)]].
    - exact E.
    - subst x. rewrite (HT Hh) in Hm. discriminate.
    - exfalso. apply Hno. auto. }
  assert (exists S,
             In S (openTrades (fst (upsert_shape mine other reprice fresh ib c quantity))) /\
             symbol (contract S) = symbol c /\ mine S = true /\ price (order S) = p)
    as (S & Hin & Hs & Hm & Hp).
  { clear Huniq Hcov HT. rewrite upsert_shape_unfold in *.
    set (sym := symbol c) in *.
    destruct (link_other_facts mine other mine_kind kinds_disjoint ib sym Hwf)
      as (Hdesc & Hnext & Hnd1 & _ & _).
    destruct Hwf as (Hpos & Hnd & Hbd). rewrite Forall_forall in Hbd.
    destruct (List.filter mine (get_open_trades_for_symbol ib sym)) as [|m0 ms] eqn:EM.
    - cbv zeta in *. destruct (_ <=? 0); [discriminate|]. cbn [fst].
      match goal with |- context [fresh ?q] => set (qty := q) end.
      destruct (link_order_facts other ib sym (fresh qty)) as (Li & Lt & La & _).
      set (o := link_order other ib sym (fresh qty)) in *.
      assert (orderId o = 0) as Ho0 by (rewrite Li; apply fresh_id).
      exists (mkTrade c (set_orderId o (nextReqId (link_other other ib sym)))).
      split; [|split; [reflexivity|split]].
      + apply placeOrder_new_filed; [|exact Ho0].
        intros y Hy. destruct (Hdesc y Hy) as (y0 & Hy0 & Hyi & _).
        specialize (Hbd y0 (proj2 (list_elem_of_In _ _) Hy0)). rewrite Hnext. lia.
      + rewrite (mine_kind _ (mkTrade c (fresh qty))); [apply fresh_mine| |].
        * simpl. destruct o; simpl in *. exact Lt.
        * simpl. destruct o; simpl in *. exact La.
      + simpl. rewrite price_id. subst o. rewrite price_link_order. apply price_fresh.
    - cbn [fst].
      assert (In m0 (openTrades ib) /\ symbol (contract m0) = sym /\ mine m0 = true)
        as (Hm0 & Hs0 & Hk0).
      { apply in_symbol_trades. rewrite EM. left. reflexivity. }
      assert (0 < oid m0 < nextReqId ib) as Hbm
          by exact (Hbd m0 (proj2 (list_elem_of_In _ _) Hm0)).
      destruct (link_order_facts other ib sym (reprice (order m0))) as (Li & Lt & La & _).
      set (o := link_order other ib sym (reprice (order m0))) in *.
      assert (orderId o = oid m0) as Hoid by (rewrite Li; apply reprice_id).
      exists (mkTrade (contract m0) o). split; [|split; [exact Hs0|split]].
      + apply cancel_extras_in. split.
        * apply placeOrder_filed; [lia|].
          intros t Ht Hid. destruct (Hdesc t Ht) as (y0 & Hy0 & Hyi & Hyc).
          rewrite <- Hyc. f_equal.
          apply (same_id_same_trade (openTrades ib)); [exact Hnd|exact Hy0|exact Hm0|].
          congruence.
        * intros e He. unfold oid at 1. simpl. rewrite Hoid.
          assert (NoDup (List.map oid (m0 :: ms))) as Hndm.
          { rewrite <- EM. unfold get_open_trades_for_symbol.
            apply NoDup_map_filter, NoDup_map_filter. exact Hnd. }
          simpl in Hndm. apply NoDup_cons in Hndm as [Hn _]. intros E. apply Hn.
          rewrite E. apply list_elem_of_In, in_map. exact He.
      + rewrite (mine_kind _ m0); [exact Hk0| |]; simpl.
        * rewrite Lt. apply reprice_type.
        * rewrite La. apply reprice_action.
      + simpl. subst o. rewrite price_link_order. apply price_reprice. }
  assert (S = S') as E by (apply Huniq; assumption). subst S'.
  exists S. repeat split; assumption.
Qed.

End Filed.

Lemma summary_stop_loss (l : list Trade) (p : pyfloat) :
  (forall x, In x l -> is_sell_stop x = true -> auxPrice (order x) = p) ->
  forall init,
    os_stop_loss
      (fold_left
         (fun summary trade =>
            let o := order trade in
            if OrderType_eqb (orderType o) STP && Action_eqb (action o) SELL
            then mkOrdersSummary (Some (auxPrice o)) (os_take_profit summary)
                                 (Some (orderId o)) (os_tp_order_id summary)
            else if OrderType_eqb (orderType o) LMT && Action_eqb (action o) SELL
            then mkOrdersSummary (os_stop_loss summary) (Some (lmtPrice o))
                                 (os_stop_order_id summary) (Some (orderId o))
            else summary) l init) =
    if existsb is_sell_stop l then Some p else os_stop_loss init.
Proof.
  induction l as [|a l IH]; intros Hall init; simpl; [reflexivity|].
  rewrite IH by (intros x Hx; apply Hall; right; exact Hx).
  unfold is_sell_stop at 2.
  destruct (OrderType_eqb (orderType (order a)) STP && Action_eqb (action (order a)) SELL)
    eqn:E; simpl.
  - rewrite (Hall a (or_introl eq_refl) E). destruct (existsb is_sell_stop l); reflexivity.
  - destruct (OrderType_eqb (orderType (order a)) LMT && Action_eqb (action (order a)) SELL);
      reflexivity.
Qed.

Lemma summary_take_profit (l : list Trade) (p : pyfloat) :
  (forall x, In x l -> is_sell_limit x = true -> lmtPrice (order x) = p) ->
  forall init,
    os_take_profit
      (fold_left
         (fun summary trade =>
            let o := order trade in
            if OrderType_eqb (orderType o) STP && Action_eqb (action o) SELL
            then mkOrdersSummary (Some (auxPrice o)) (os_take_profit summary)
                                 (Some (orderId o)) (os_tp_order_id summary)
            else if OrderType_eqb (orderType o) LMT && Action_eqb (action o) SELL
            then mkOrdersSummary (os_stop_loss summary) (Some (lmtPrice o))
                                 (os_stop_order_id summary) (Some (orderId o))
            else summary) l init) =
    if existsb is_sell_limit l then Some p else os_take_profit init.
Proof.
  induction l as [|a l IH]; intros Hall init; simpl; [reflexivity|].
  rewrite IH by (intros x Hx; apply Hall; right; exact Hx).
  unfold is_sell_limit at 2.
  destruct (OrderType_eqb (orderType (order a)) LMT && Action_eqb (action (order a)) SELL)
    eqn:E; simpl.
  - assert (OrderType_eqb (orderType (order a)) STP && Action_eqb (action (order a)) SELL
            = false) as ->
        by (destruct (orderType (order a)); simpl in *; congruence).
    simpl. rewrite (Hall a (or_introl eq_refl) E).
    destruct (existsb is_sell_limit l); reflexivity.
  - destruct (OrderType_eqb (orderType (order a)) STP && Action_eqb (action (order a)) SELL);
      reflexivity.
Qed.

(** X16. What was upserted is what the summary reports: after a successful
    [upsert_stop_loss] on a session with distinct order ids,
    [get_orders_summary_for_symbol] gives the stop price that was asked,
    rounded down to the tick; after a successful [upsert_take_profit] it
    gives the take-profit that was asked, rounded up to the tick. *)
Theorem summary_after_upsert :
  (forall ib c stop_price quantity,
      well_formed ib ->
      snd (upsert_stop_loss ib c stop_price quantity) = true ->
      os_stop_loss (get_orders_summary_for_symbol
                      (fst (upsert_stop_loss ib c stop_price quantity)) (symbol c)) =
      Some (rounded_stop ib c stop_price)) /\
  (forall ib c take_profit_price quantity,
      well_formed ib ->
      snd (upsert_take_profit ib c take_profit_price quantity) = true ->
      os_take_profit (get_orders_summary_for_symbol
                        (fst (upsert_take_profit ib c take_profit_price quantity))
                        (symbol c)) =
      Some (rounded_take_profit ib c take_profit_price)).
Proof.
  assert (forall t t', orderType (order t) = orderType (order t') ->
                       action (order t) = action (order t') ->
                       is_sell_stop t = is_sell_stop t') as Ks
      by (intros t t' H1 H2; unfold is_sell_stop; rewrite H1, H2; reflexivity).
  assert (forall t t', orderType (order t) = orderType (order t') ->
                       action (order t) = action (order t') ->
                       is_sell_limit t = is_sell_limit t') as Kl
      by (intros t t' H1 H2; unfold is_sell_limit; rewrite H1, H2; reflexivity).
  assert (forall t, is_sell_stop t = true -> is_sell_limit t = true -> False) as Kd.
  { intros t. unfold is_sell_stop, is_sell_limit.
    destruct (orderType (order t)); simpl; discriminate. }
  split.
  - intros ib c stop_price quantity Hwf. rewrite upsert_stop_loss_shape.
    destruct (String.eqb (symbol c) ""); [discriminate|]. intros Hres.
    destruct (upsert_shape_filed is_sell_stop is_sell_limit
                (fun o => set_auxPrice o (rounded_stop ib c stop_price))
                (fun qty => StopOrder SELL qty (rounded_stop ib c stop_price))
                auxPrice (rounded_stop ib c stop_price)
                Ks Kl Kd
                ltac:(intros o; destruct o; reflexivity)
                ltac:(intros o; destruct o; reflexivity)
                ltac:(intros o; destruct o; reflexivity)
                ltac:(reflexivity) ltac:(reflexivity) ltac:(reflexivity)
                ltac:(reflexivity) ltac:(reflexivity)
                ltac:(intros o g; destruct o; reflexivity)
                ltac:(intros o i; destruct o; reflexivity)
                ib c quantity Hwf Hres) as (S & Hin & Hs & Hm & Hp & Huniq).
    unfold get_orders_summary_for_symbol.
    rewrite (summary_stop_loss _ (rounded_stop ib c stop_price)).
    + replace (existsb is_sell_stop _) with true; [reflexivity|].
      symmetry. apply existsb_exists. exists S. split; [|exact Hm].
      apply filter_In. split; [exact Hin|apply String.eqb_eq; exact Hs].
    + intros x Hx Hk. apply filter_In in Hx as [Hx Hsx]. apply String.eqb_eq in Hsx.
      rewrite (Huniq x Hx Hsx Hk). exact Hp.
  - intros ib c take_profit_price quantity Hwf. rewrite upsert_take_profit_shape.
    destruct (String.eqb (symbol c) ""); [discriminate|]. intros Hres.
    destruct (upsert_shape_filed is_sell_limit is_sell_stop
                (fun o => set_lmtPrice o (rounded_take_profit ib c take_profit_price))
                (fun qty => LimitOrder SELL qty (rounded_take_profit ib c take_profit_price))
                lmtPrice (rounded_take_profit ib c take_profit_price)
                Kl Ks (fun t H1 H2 => Kd t H2 H1)
                ltac:(intros o; destruct o; reflexivity)
                ltac:(intros o; destruct o; reflexivity)
                ltac:(intros o; destruct o; reflexivity)
                ltac:(reflexivity) ltac:(reflexivity) ltac:(reflexivity)
                ltac:(reflexivity) ltac:(reflexivity)
                ltac:(intros o g; destruct o; reflexivity)
                ltac:(intros o i; destruct o; reflexivity)
                ib c quantity Hwf Hres) as (S & Hin & Hs & Hm & Hp & Huniq).
    unfold get_orders_summary_for_symbol.
    rewrite (summary_take_profit _ (rounded_take_profit ib c take_profit_price)).
    + replace (existsb is_sell_limit _) with true; [reflexivity|].
      symmetry. apply existsb_exists. exists S. split; [|exact Hm].
      apply filter_In. split; [exact Hin|apply String.eqb_eq; exact Hs].
    + intros x Hx Hk. apply filter_In in Hx as [Hx Hsx]. apply String.eqb_eq in Hsx.
      rewrite (Huniq x Hx Hsx Hk). exact Hp.
Qed.

End SummaryAfterUpsert.

(** One stop and two take-profits, a tick of 0.05: a stop asked at 145.37
    is reported at 145.35. *)
Lemma summary_after_upsert_witness :
  OrderManagement.os_stop_loss
    (OrderManagement.get_orders_summary_for_symbol
       (fst (upsert_stop_loss Scenarios.ib_ticked demo_contract (14537#100) (Some 30)))
       (symbol demo_contract)) =
  Some (ExitOrders.rounded_stop Scenarios.ib_ticked demo_contract (14537#100)).
Proof.
  refine (proj1 summary_after_upsert Scenarios.ib_ticked demo_contract (14537#100)
                (Some 30) _ _).
  - split; [reflexivity|]. split.
    + apply (bool_decide_unpack _). vm_compute. exact I.
    + repeat constructor.
  - vm_compute. reflexivity.
Defined.

(** ** The review of open orders ([review_open_orders], [cancel_order],
    [adjust_order_price]) *)
Section OrderReviews.
Import ExitOrders OrderManagement ReviewLoops Notions.

Lemma filter_all {A} (P : A -> bool) (l : list A) :
  (forall x, In x l -> P x = true) -> List.filter P l = l.
Proof.
  induction l as [|a l IH]; simpl; intros H; [reflexivity|].
  rewrite (H a (or_introl eq_refl)). f_equal. apply IH. intros x Hx. apply H. right. exact Hx.
Qed.

Lemma map_same {A} (f : A -> A) (l : list A) :
  (forall x, In x l -> f x = x) -> List.map f l = l.
Proof.
  induction l as [|a l IH]; simpl; intros H; [reflexivity|].
  rewrite (H a (or_introl eq_refl)). f_equal. apply IH. intros x Hx. apply H. right. exact Hx.
Qed.

Lemma cancel_order_spec ib order_id :
  openTrades (fst (cancel_order ib order_id)) =
  List.filter (fun t => negb (oid t =? order_id)) (openTrades ib) /\
  nextReqId (fst (cancel_order ib order_id)) = nextReqId ib /\
  positions (fst (cancel_order ib order_id)) = positions ib /\
  snd (cancel_order ib order_id) = has_order_id order_id (openTrades ib).
Proof.
  unfold cancel_order, has_order_id.
  destruct (List.find _ (openTrades ib)) as [trade|] eqn:E.
  - pose proof (find_some _ _ E) as [Hin Hid]. apply Z.eqb_eq in Hid.
    cbn [fst snd]. unfold cancelOrder. cbn [openTrades nextReqId positions set_openTrades].
    rewrite Hid. repeat split. symmetry. apply existsb_exists. exists trade.
    split; [exact Hin|apply Z.eqb_eq; exact Hid].
  - pose proof (find_none _ _ E) as Hnone. cbn [fst snd]. repeat split.
    + symmetry. apply filter_all. intros x Hx. unfold oid. rewrite (Hnone x Hx). reflexivity.
    + symmetry. destruct (existsb _ _) eqn:Ex; [|reflexivity].
      apply existsb_exists in Ex as (x & Hx & Hid). rewrite (Hnone x Hx) in Hid.
      discriminate.
Qed.

Lemma adjust_order_price_spec ib order_id new_price :
  well_formed ib ->
  openTrades (fst (adjust_order_price ib order_id new_price)) =
  List.map (fun t => if oid t =? order_id
                     then mkTrade (contract t) (repriced new_price (order t)) else t)
           (openTrades ib) /\
  nextReqId (fst (adjust_order_price ib order_id new_price)) = nextReqId ib /\
  positions (fst (adjust_order_price ib order_id new_price)) = positions ib.
Proof.
  intros Hwf. unfold adjust_order_price.
  destruct (List.find _ (openTrades ib)) as [trade|] eqn:E.
  - pose proof (find_some _ _ E) as [Hin Hid]. apply Z.eqb_eq in Hid.
    assert (forall o, orderId o = oid trade ->
                      o = repriced new_price (order trade) ->
                      openTrades (fst (placeOrder ib (contract trade) o)) =
                      List.map (fun t => if oid t =? order_id
                                         then mkTrade (contract t)
                                                      (repriced new_price (order t))
                                         else t) (openTrades ib) /\
                      nextReqId (fst (placeOrder ib (contract trade) o)) = nextReqId ib /\
                      positions (fst (placeOrder ib (contract trade) o)) = positions ib)
      as Hre.
    { intros o Ho ->. destruct (placeOrder_refile ib trade _ Hwf Hin Ho) as (A & B & C).
      split; [|split; assumption]. rewrite A. apply map_ext_in. intros t Ht.
      fold (oid trade) in Hid. rewrite Hid.
      destruct (oid t =? order_id) eqn:Et; [|reflexivity].
      apply Z.eqb_eq in Et. destruct Hwf as (_ & Hnd & _).
      rewrite (same_id_same_trade _ t trade Hnd Ht Hin) by congruence. reflexivity. }
    unfold repriced in Hre. destruct (orderType (order trade)) eqn:Et; cbn [fst].
    + repeat split. symmetry. apply map_same. intros t Ht.
      destruct (oid t =? order_id) eqn:Ei; [|reflexivity].
      apply Z.eqb_eq in Ei. destruct Hwf as (_ & Hnd & _).
      fold (oid trade) in Hid.
      rewrite (same_id_same_trade _ t trade Hnd Ht Hin) by congruence.
      unfold repriced. rewrite Et. destruct trade. reflexivity.
    + apply Hre; [destruct trade as [c []]; reflexivity|reflexivity].
    + apply Hre; [destruct trade as [c []]; reflexivity|reflexivity].
  - pose proof (find_none _ _ E) as Hnone. cbn [fst]. repeat split.
    symmetry. apply map_same. intros t Ht. unfold oid. rewrite (Hnone t Ht). reflexivity.
Qed.

Lemma same_order_refl t : same_order_but_price t t.
Proof. repeat split. Qed.

Lemma same_order_repriced p t :
  same_order_but_price (mkTrade (contract t) (repriced p (order t))) t.
Proof.
  unfold same_order_but_price, repriced, oid. destruct t as [c o].
  destruct o as [i a ty q l x pa g gt tr]. destruct ty; repeat split.
Qed.

Lemma same_order_trans x y z :
  same_order_but_price x y -> same_order_but_price y z -> same_order_but_price x z.
Proof.
  unfold same_order_but_price. intros (A1 & A2 & A3 & A4 & A5 & A6 & A7)
                                      (B1 & B2 & B3 & B4 & B5 & B6 & B7).
  repeat split; congruence.
Qed.

(** What one step of the review may do to the session. *)
Lemma review_single_order_ib om order_info obs om' r :
  _review_single_order om order_info obs = Ok (om', r) ->
  om_ib om' = om_ib om \/
  om_ib om' = fst (cancel_order (om_ib om) (oi_order_id order_info)) \/
  exists new_price,
    om_ib om' = fst (adjust_order_price (om_ib om) (oi_order_id order_info) new_price).
Proof.
  unfold _review_single_order.
  destruct (oo_price obs) as [current_price|e]; [|discriminate].
  destruct (oo_ai obs) as [d|e]; [|intros [= <- _]; left; reflexivity].
  destruct (oa_action d).
  - intros [= <- _]. left. reflexivity.
  - destruct (cancel_order _ _) as [ib' [|]] eqn:E; intros [= <- _]; right; left;
      reflexivity.
  - destruct (oa_new_price d) as [new_price|]; [|intros [= <- _]; left; reflexivity].
    destruct (Qleb new_price 0); [intros [= <- _]; left; reflexivity|].
    destruct (adjust_order_price _ _ _) as [ib' [|]] eqn:E; intros [= <- _]; right; right;
      exists new_price; rewrite E; reflexivity.
Qed.

(** Cancelling or repricing the order [order_id] keeps the session
    well-formed, creates no order, and keeps every other order. *)
Lemma order_edit_keeps book0 cur ib' order_id :
  well_formed cur ->
  (forall x, In x (openTrades cur) -> exists t, In t book0 /\ same_order_but_price x t) ->
  ib' = cur \/ ib' = fst (cancel_order cur order_id) \/
  (exists new_price, ib' = fst (adjust_order_price cur order_id new_price)) ->
  well_formed ib' /\ positions ib' = positions cur /\
  (forall x, In x (openTrades ib') -> exists t, In t book0 /\ same_order_but_price x t) /\
  (forall t, In t (openTrades cur) -> oid t <> order_id -> In t (openTrades ib')).
Proof.
  intros Hwf Hdesc [->|[->|[new_price ->]]].
  - repeat split; auto; apply Hwf.
  - destruct (cancel_order_spec cur order_id) as (A & B & C & _).
    destruct Hwf as (Hpos & Hnd & Hbd). split; [|split; [exact C|split]].
    + split; [rewrite B; exact Hpos|]. rewrite A, B. split.
      * apply NoDup_map_filter. exact Hnd.
      * rewrite Forall_forall in Hbd |- *. intros x Hx. apply Hbd.
        apply list_elem_of_In in Hx. apply list_elem_of_In.
        apply filter_In in Hx as [Hx _]. exact Hx.
    + intros x Hx. rewrite A in Hx. apply filter_In in Hx as [Hx _]. apply Hdesc, Hx.
    + intros t Ht Hne. rewrite A. apply filter_In. split; [exact Ht|].
      apply negb_true_iff, Z.eqb_neq. exact Hne.
  - destruct (adjust_order_price_spec cur order_id new_price Hwf) as (A & B & C).
    assert (forall t, same_order_but_price
                        (if oid t =? order_id
                         then mkTrade (contract t) (repriced new_price (order t)) else t) t)
      as Hsame.
    { intros t. destruct (oid t =? order_id);
        [apply same_order_repriced|apply same_order_refl]. }
    destruct Hwf as (Hpos & Hnd & Hbd). split; [|split; [exact C|split]].
    + split; [rewrite B; exact Hpos|]. rewrite A, B.
      assert (List.map oid
                (List.map (fun t => if oid t =? order_id
                                    then mkTrade (contract t) (repriced new_price (order t))
                                    else t) (openTrades cur)) =
              List.map oid (openTrades cur)) as Hids.
      { rewrite List.map_map. apply map_ext. intros t. apply (Hsame t). }
      split; [rewrite Hids; exact Hnd|].
      rewrite Forall_forall in Hbd |- *. intros x Hx.
      apply list_elem_of_In, in_map_iff in Hx as (t & <- & Ht).
      rewrite (proj1 (Hsame t)). apply Hbd, list_elem_of_In, Ht.
    + intros x Hx. rewrite A in Hx. apply in_map_iff in Hx as (t & <- & Ht).
      destruct (Hdesc t Ht) as (t0 & Ht0 & Hs). exists t0. split; [exact Ht0|].
      eapply same_order_trans; [apply Hsame|exact Hs].
    + intros t Ht Hne. rewrite A. apply in_map_iff. exists t. split; [|exact Ht].
      apply Z.eqb_neq in Hne. rewrite Hne. reflexivity.
Qed.

(** X17. The review of open orders stays within its scope: it creates no
    order and changes neither side, type, quantity, parent nor OCA group of
    one; every order that is the child of another (the exits of a bracket)
    and every order younger than the minimum age is left exactly as it was;
    the positions are untouched and the order ids stay distinct. *)
Theorem review_open_orders_scope om min_age_minutes age_minutes observe :
  well_formed (om_ib om) ->
  let om' := fst (review_open_orders om min_age_minutes age_minutes observe) in
  well_formed (om_ib om') /\
  positions (om_ib om') = positions (om_ib om) /\
  (forall x, In x (openTrades (om_ib om')) ->
             exists t, In t (openTrades (om_ib om)) /\ same_order_but_price x t) /\
  (forall t, In t (openTrades (om_ib om)) ->
             parentId (order t) <> 0 \/ age_minutes t < min_age_minutes ->
             In t (openTrades (om_ib om'))).
Proof.
  intros Hwf. cbv zeta. unfold review_open_orders.
  set (book0 := openTrades (om_ib om)).
  set (L := orders_to_review _ _).
  assert (forall oi, In oi L ->
                     forall t, In t book0 ->
                               parentId (order t) <> 0 \/ age_minutes t < min_age_minutes ->
                               oid t <> oi_order_id oi) as HL.
  { intros oi Hoi t Ht Hprot E. subst L. unfold orders_to_review in Hoi.
    apply filter_In in Hoi as [Hoi Hc]. apply andb_true_iff in Hc as [Hage Hpar].
    apply negb_true_iff, Z.ltb_ge in Hage. apply Z.eqb_eq in Hpar.
    unfold get_all_open_orders_with_details in Hoi.
    apply in_map_iff in Hoi as (t0 & <- & Ht0). simpl in *.
    destruct Hwf as (_ & Hnd & _).
    assert (t = t0) as -> by (apply (same_id_same_trade book0); assumption).
    destruct Hprot; [contradiction|lia]. }
  clearbody L.
  assert (forall cur results,
             well_formed (om_ib cur) -> positions (om_ib cur) = positions (om_ib om) ->
             (forall x, In x (openTrades (om_ib cur)) ->
                        exists t, In t book0 /\ same_order_but_price x t) ->
             (forall t, In t book0 ->
                        parentId (order t) <> 0 \/ age_minutes t < min_age_minutes ->
                        In t (openTrades (om_ib cur))) ->
             let om' := fst (fold_left
                               (fun '(om, results) order_info =>
                                  match _review_single_order om order_info
                                                             (observe order_info) with
                                  | Ok (om', Some r) => (om', results ++ [r])
                                  | Ok (om', None) => (om', results)
                                  | Raise _ => (om, results)
                                  end) L (cur, results)) in
             well_formed (om_ib om') /\
             positions (om_ib om') = positions (om_ib om) /\
             (forall x, In x (openTrades (om_ib om')) ->
                        exists t, In t book0 /\ same_order_but_price x t) /\
             (forall t, In t book0 ->
                        parentId (order t) <> 0 \/ age_minutes t < min_age_minutes ->
                        In t (openTrades (om_ib om')))) as Hfold.
  { induction L as [|oi L IH]; intros cur results H1 H2 H3 H4; simpl; [auto|].
    assert (forall om1 r, _review_single_order cur oi (observe oi) = Ok (om1, r) ->
                          well_formed (om_ib om1) /\
                          positions (om_ib om1) = positions (om_ib om) /\
                          (forall x, In x (openTrades (om_ib om1)) ->
                                     exists t, In t book0 /\ same_order_but_price x t) /\
                          (forall t, In t book0 ->
                                     parentId (order t) <> 0 \/
                                     age_minutes t < min_age_minutes ->
                                     In t (openTrades (om_ib om1)))) as Hstep.
    { intros om1 r E. apply review_single_order_ib in E.
      destruct (order_edit_keeps book0 (om_ib cur) (om_ib om1) (oi_order_id oi) H1 H3 E)
        as (A & B & C & D).
      split; [exact A|]. split; [congruence|]. split; [exact C|].
      intros t Ht Hp. apply D; [apply H4; assumption|].
      apply (HL oi (or_introl eq_refl) t Ht Hp). }
    assert (forall oi', In oi' L ->
                        forall t, In t book0 ->
                                  parentId (order t) <> 0 \/
                                  age_minutes t < min_age_minutes ->
                                  oid t <> oi_order_id oi') as HL'
        by (intros oi' H; apply HL; right; exact H).
    destruct (_review_single_order cur oi (observe oi)) as [[om1 [r|]]|e].
    - destruct (Hstep om1 (Some r) eq_refl) as (A & B & C & D). apply IH; assumption.
    - destruct (Hstep om1 None eq_refl) as (A & B & C & D). apply IH; assumption.
    - apply IH; assumption. }
  apply Hfold; auto.
  intros x Hx. exists x. split; [exact Hx|apply same_order_refl].
Qed.

End OrderReviews.

(** Every order is to be cancelled: the parent goes, its two exits stay. *)
Lemma review_open_orders_scope_witness :
  let om' := fst (ReviewLoops.review_open_orders Scenarios.om_bracket 0 (fun _ => 10)
                                                 Scenarios.cancel_all) in
  ExitOrders.well_formed (ReviewLoops.om_ib om') /\
  positions (ReviewLoops.om_ib om') = positions (ReviewLoops.om_ib Scenarios.om_bracket) /\
  (forall x, In x (openTrades (ReviewLoops.om_ib om')) ->
             exists t, In t (openTrades (ReviewLoops.om_ib Scenarios.om_bracket)) /\
                       Notions.same_order_but_price x t) /\
  (forall t, In t (openTrades (ReviewLoops.om_ib Scenarios.om_bracket)) ->
             parentId (order t) <> 0 \/ 10 < 0 ->
             In t (openTrades (ReviewLoops.om_ib om'))).
Proof.
  apply (review_open_orders_scope Scenarios.om_bracket 0 (fun _ => 10) Scenarios.cancel_all).
  split; [reflexivity|]. split.
  - apply (bool_decide_unpack _). vm_compute. exact I.
  - repeat constructor.
Defined.

(** ** The review of positions ([review_all_positions],
    [_review_single_position]) *)
Section PositionReviews.
Import Database PositionManager ExitOrders ReviewLoops.

Lemma sell_position_none ib c quantity ib1 :
  sell_position ib c quantity = (ib1, None) -> ib1 = ib.
Proof.
  unfold sell_position. destruct (quantity <=? 0); [intros [= <-]; reflexivity|].
  destruct (_ <=? 0); [intros [= <-]; reflexivity|].
  destruct (placeOrder _ _ _); discriminate.
Qed.

Lemma upsert_stop_loss_refused ib c p q ib1 :
  upsert_stop_loss ib c p q = (ib1, false) -> ib1 = ib.
Proof.
  rewrite upsert_stop_loss_shape.
  destruct (String.eqb (symbol c) ""); [intros [= <-]; reflexivity|].
  intros E.
  match type of E with
  | upsert_shape ?m ?o ?r ?f _ _ _ = _ => pose proof (upsert_shape_refused m o r f ib c q) as H
  end.
  rewrite E in H. apply H. reflexivity.
Qed.

Lemma upsert_take_profit_refused ib c p q ib1 :
  upsert_take_profit ib c p q = (ib1, false) -> ib1 = ib.
Proof.
  rewrite upsert_take_profit_shape.
  destruct (String.eqb (symbol c) ""); [intros [= <-]; reflexivity|].
  intros E.
  match type of E with
  | upsert_shape ?m ?o ?r ?f _ _ _ = _ => pose proof (upsert_shape_refused m o r f ib c q) as H
  end.
  rewrite E in H. apply H. reflexivity.
Qed.

Lemma with_ib_same pm : with_ib pm (ib pm) = pm.
Proof. destruct pm; reflexivity. Qed.

(** The dispatch: the review row is marked exactly when the action was
    executed; an action that was not executed changes nothing; HOLD is
    never executed; and only an executed SELL forgets the time of the last
    review. *)
Lemma apply_decision_log pm c q cp d id :
  let pm' := fst (fst (apply_decision pm c q cp d id)) in
  let executed := snd (fst (apply_decision pm c q cp d id)) in
  reviews pm' = (if executed then mark_position_review_executed (reviews pm) id
                 else reviews pm) /\
  review_interval_seconds pm' = review_interval_seconds pm /\
  (executed = false -> pm' = pm) /\
  (ai_action d = HOLD -> executed = false) /\
  (~ (ai_action d = SELL /\ executed = true) -> _last_review pm' = _last_review pm).
Proof.
  cbv zeta. unfold apply_decision.
  destruct (ai_action d) eqn:Ea.
  - simpl. repeat split; auto.
  - destruct (get_pending_sell_orders_for_symbol _ _); [|simpl; repeat split; auto].
    destruct (sell_position (ib pm) c q) as [ib1 [t|]] eqn:Es; simpl.
    + repeat split; try discriminate. intros H. exfalso. apply H. auto.
    + apply sell_position_none in Es. subst ib1. rewrite with_ib_same.
      repeat split; auto.
  - destruct (new_stop_loss d) as [ns|]; [|simpl; repeat split; auto; discriminate].
    destruct (fleb ns 0 || fleb cp ns); [simpl; repeat split; auto; discriminate|].
    destruct (upsert_stop_loss (ib pm) c ns (Some q)) as [ib1 [|]] eqn:Eu; simpl.
    + repeat split; discriminate.
    + apply upsert_stop_loss_refused in Eu. subst ib1. rewrite with_ib_same.
      repeat split; auto; discriminate.
  - destruct (new_take_profit d) as [nt|]; [|simpl; repeat split; auto; discriminate].
    destruct (fleb nt cp); [simpl; repeat split; auto; discriminate|].
    destruct (upsert_take_profit (ib pm) c nt (Some q)) as [ib1 [|]] eqn:Eu; simpl.
    + repeat split; discriminate.
    + apply upsert_take_profit_refused in Eu. subst ib1. rewrite with_ib_same.
      repeat split; auto; discriminate.
Qed.

Lemma update_peaks_frame pm sym pnl cp :
  ib (update_peaks pm sym pnl cp) = ib pm /\
  reviews (update_peaks pm sym pnl cp) = reviews pm /\
  trades (update_peaks pm sym pnl cp) = trades pm /\
  review_interval_seconds (update_peaks pm sym pnl cp) = review_interval_seconds pm /\
  _last_review (update_peaks pm sym pnl cp) = _last_review pm.
Proof. unfold update_peaks. destruct (_position_metadata pm !! sym); repeat split. Qed.

(** A review either ends early, leaving the session, the review table, the
    trade table and the interval as they were, or reaches the dispatch after
    logging one row that is not yet executed. *)
Lemma review_single_cases pm pos inp :
  let sym := symbol (p_contract pos) in
  let r := _review_single_position pm pos inp in
  (snd r = None /\ ib (fst r) = ib pm /\ reviews (fst r) = reviews pm /\
   trades (fst r) = trades pm /\
   review_interval_seconds (fst r) = review_interval_seconds pm /\
   ((position pos <=? 0) = false ->
    Qltb (now inp - default 0%Q (_last_review pm !! sym)) (review_interval_seconds pm)
    = false ->
    _last_review (fst r) !! sym = Some (now inp))) \/
  (exists pm1 d cp,
      ib pm1 = ib pm /\ trades pm1 = trades pm /\
      review_interval_seconds pm1 = review_interval_seconds pm /\
      reviews pm1 =
      reviews pm ++ [mkReviewRecord sym cp (position pos) (ai_action d) (new_stop_loss d)
                                    (new_take_profit d) (ai_rationale d) false] /\
      _last_review pm1 !! sym = Some (now inp) /\
      r = (let '(pm', executed, execution_result) :=
             apply_decision pm1 (p_contract pos) (position pos) cp d (length (reviews pm)) in
           (pm', Some (mkReviewResult sym (ai_action d) executed execution_result
                                      (length (reviews pm)))))).
Proof.
  cbv zeta. unfold _review_single_position.
  destruct (position pos <=? 0) eqn:Eq; [left; repeat split; discriminate|].
  destruct (Qltb _ (review_interval_seconds pm)) eqn:Et;
    [left; repeat split; discriminate|].
  destruct (quote inp) as [cp|].
  2:{ left. simpl. repeat split. intros _ _. apply lookup_insert_eq. }
  set (pm_a := with_last_review pm _).
  set (pm_b := if entry_time_known inp then pm_a else _).
  set (pm_c := match _position_metadata pm_b !! symbol (p_contract pos) with
               | Some _ => pm_b
               | None => _
               end).
  set (pnl := if Qltb 0 (avgCost pos) then _ else _).
  assert (ib pm_c = ib pm /\ reviews pm_c = reviews pm /\ trades pm_c = trades pm /\
          review_interval_seconds pm_c = review_interval_seconds pm /\
          _last_review pm_c !! symbol (p_contract pos) = Some (now inp)) as Hc.
  { subst pm_c pm_b pm_a.
    destruct (entry_time_known inp);
      match goal with
      | |- context [match ?x with Some _ => _ | None => _ end] => destruct x
      end; simpl; repeat split; apply lookup_insert_eq. }
  destruct Hc as (C1 & C2 & C3 & C4 & C5).
  destruct (update_peaks_frame pm_c (symbol (p_contract pos)) pnl cp)
    as (P1 & P2 & P3 & P4 & P5).
  destruct (ai_answer inp) as [d|].
  2:{ left. simpl. repeat split; congruence. }
  right.
  exists (with_reviews (update_peaks pm_c (symbol (p_contract pos)) pnl cp)
            (reviews (update_peaks pm_c (symbol (p_contract pos)) pnl cp) ++
             [mkReviewRecord (symbol (p_contract pos)) cp (position pos) (ai_action d)
                             (new_stop_loss d) (new_take_profit d) (ai_rationale d) false])),
         d, cp.
  simpl. rewrite P2, C2.
  repeat split; try congruence.
Qed.

Lemma mark_last (l : list ReviewRecord) row :
  mark_position_review_executed (l ++ [row]) (length l) = l ++ [set_executed row].
Proof.
  unfold mark_position_review_executed.
  rewrite (alter_app_r_alt set_executed l [row] (length l)) by lia.
  rewrite Nat.sub_diag. reflexivity.
Qed.

(** One review: nothing is logged without a result; with a result exactly
    one row is appended, under the id that the result carries, with the
    symbol, the action and the executed flag of the result. *)
Lemma review_single_audit pm pos inp :
  let r := _review_single_position pm pos inp in
  match snd r with
  | None => reviews (fst r) = reviews pm /\ ib (fst r) = ib pm
  | Some res =>
      res_review_id res = length (reviews pm) /\
      (res_action res = HOLD -> res_executed res = false) /\
      (res_executed res = false -> ib (fst r) = ib pm) /\
      exists row,
        reviews (fst r) = reviews pm ++ [row] /\
        rv_symbol row = res_symbol res /\ rv_action row = res_action res /\
        rv_executed row = res_executed res
  end.
Proof.
  cbv zeta.
  destruct (review_single_cases pm pos inp)
    as [(E & A & B & _)|(pm1 & d & cp & A & _ & _ & B & _ & E)]; cbv zeta in *.
  - rewrite E. auto.
  - rewrite E. clear E.
    pose proof (apply_decision_log pm1 (p_contract pos) (position pos) cp d
                                   (length (reviews pm))) as (L1 & _ & L3 & L4 & _).
    cbv zeta in *.
    destruct (apply_decision pm1 (p_contract pos) (position pos) cp d (length (reviews pm)))
      as [[pm' executed] er]. simpl in *.
    split; [reflexivity|]. split; [exact L4|]. split.
    { intros He. rewrite (L3 He). exact A. }
    rewrite L1, B. destruct executed.
    + rewrite mark_last. eexists. split; [reflexivity|]. repeat split.
    + eexists. split; [reflexivity|]. repeat split.
Qed.

Lemma review_positions_audit l :
  forall i inputs pm,
    let pm' := fst (review_positions_from i inputs pm l) in
    let results := snd (review_positions_from i inputs pm l) in
    (exists rows,
        reviews pm' = reviews pm ++ rows /\
        Forall2 (fun res row => rv_symbol row = res_symbol res /\
                                rv_action row = res_action res /\
                                rv_executed row = res_executed res) results rows) /\
    List.map res_review_id results = seq (length (reviews pm)) (length results) /\
    Forall (fun res => res_action res = HOLD -> res_executed res = false) results /\
    (Forall (fun res => res_executed res = false) results -> ib pm' = ib pm).
Proof.
  induction l as [|pos l IH]; intros i inputs pm; simpl.
  - split; [exists []; rewrite app_nil_r; split; [reflexivity|constructor]|].
    repeat split; constructor.
  - pose proof (review_single_audit pm pos (inputs i)) as H1. cbv zeta in H1.
    destruct (_review_single_position pm pos (inputs i)) as [pm1 res]. simpl in H1.
    specialize (IH (S i) inputs pm1). cbv zeta in IH.
    destruct (review_positions_from (S i) inputs pm1 l) as [pm2 results]. simpl in *.
    destruct IH as ((rows & R1 & R2) & R3 & R4 & R5).
    destruct res as [res|].
    + destruct H1 as (A & B & C & row & D & D1 & D2 & D3). split; [|split; [|split]].
      * exists (row :: rows). rewrite R1, D, <- app_assoc. split; [reflexivity|].
        constructor; [auto|exact R2].
      * simpl. rewrite A. f_equal. rewrite R3, D, length_app. simpl.
        rewrite Nat.add_1_r. reflexivity.
      * constructor; assumption.
      * intros Hf. apply Forall_cons in Hf as [Hf1 Hf2]. rewrite (R5 Hf2). apply C, Hf1.
    + destruct H1 as [A B]. rewrite A in R1, R3. rewrite B in R5.
      split; [exists rows; auto|auto].
Qed.

(** X18. Every result of [review_all_positions] has its row in the review
    table: the rows appended during the call are, in order, one per result,
    each with the symbol, the action and the executed flag of its result,
    and the results carry consecutive review ids that point at them.  A HOLD
    is never executed, and when no result is executed the broker session is
    left exactly as it was. *)
Theorem review_all_positions_audit pm inputs :
  let pm' := fst (review_all_positions pm inputs) in
  let results := snd (review_all_positions pm inputs) in
  (exists rows,
      reviews pm' = reviews pm ++ rows /\
      Forall2 (fun res row => rv_symbol row = res_symbol res /\
                              rv_action row = res_action res /\
                              rv_executed row = res_executed res) results rows) /\
  List.map res_review_id results = seq (length (reviews pm)) (length results) /\
  Forall (fun res => res_action res = HOLD -> res_executed res = false) results /\
  (Forall (fun res => res_executed res = false) results -> ib pm' = ib pm).
Proof. apply review_positions_audit. Qed.

(** X19. A position is reviewed at most once per interval: when a review
    gets past the throttle (a long position, and at least
    [review_interval_seconds] since the last review of the symbol), then,
    unless it ends with an executed SELL, every further review of the
    position less than one interval later returns [None] and changes
    nothing. *)
Theorem review_throttle pm pos inp :
  0 < position pos ->
  (review_interval_seconds pm <=
   now inp - default 0%Q (_last_review pm !! symbol (p_contract pos)))%Q ->
  let pm1 := fst (_review_single_position pm pos inp) in
  (exists res, snd (_review_single_position pm pos inp) = Some res /\
               res_action res = SELL /\ res_executed res = true) \/
  (forall inp2, (now inp2 - now inp < review_interval_seconds pm)%Q ->
                _review_single_position pm1 pos inp2 = (pm1, None)).
Proof.
  intros Hq Ht. cbv zeta.
  assert ((position pos <=? 0) = false) as Eq by (apply Z.leb_gt; exact Hq).
  apply Qltb_false in Ht.
  assert (forall pm1 : PM,
             review_interval_seconds pm1 = review_interval_seconds pm ->
             _last_review pm1 !! symbol (p_contract pos) = Some (now inp) ->
             forall inp2, (now inp2 - now inp < review_interval_seconds pm)%Q ->
                          _review_single_position pm1 pos inp2 = (pm1, None)) as Hnext.
  { intros pm1 Hi Hl inp2 Hlt. unfold _review_single_position. rewrite Eq, Hl, Hi. simpl.
    apply Qltb_true in Hlt. rewrite Hlt. reflexivity. }
  destruct (review_single_cases pm pos inp)
    as [(E & _ & _ & _ & A & B)|(pm1 & d & cp & _ & _ & A & _ & B & E)]; cbv zeta in *.
  - right. apply Hnext; [exact A|apply B; assumption].
  - rewrite E. clear E.
    pose proof (apply_decision_log pm1 (p_contract pos) (position pos) cp d
                                   (length (reviews pm))) as (_ & L2 & _ & _ & L5).
    cbv zeta in *.
    destruct (apply_decision pm1 (p_contract pos) (position pos) cp d (length (reviews pm)))
      as [[pm' executed] er]. simpl in *.
    destruct (ai_action d) eqn:Ea; try (right; apply Hnext;
      [congruence|rewrite L5; [exact B|intros [? _]; discriminate]]).
    destruct executed; [left; eexists; split; [reflexivity|]; simpl; auto|].
    right. apply Hnext; [congruence|]. rewrite L5; [exact B|intros [_ ?]; discriminate].
Qed.

End PositionReviews.

(** A HOLD at second 1000 with an interval of 60: until second 1060 the
    position is not reviewed again. *)
Lemma review_throttle_witness :
  let pm1 := fst (PositionManager._review_single_position
                    demo_pm demo_position (demo_review Scenarios.demo_hold)) in
  (exists res,
      snd (PositionManager._review_single_position
             demo_pm demo_position (demo_review Scenarios.demo_hold)) = Some res /\
      PositionManager.res_action res = Database.SELL /\
      PositionManager.res_executed res = true) \/
  (forall inp2,
      (PositionManager.now inp2 - PositionManager.now (demo_review Scenarios.demo_hold)
       < PositionManager.review_interval_seconds demo_pm)%Q ->
      PositionManager._review_single_position pm1 demo_position inp2 = (pm1, None)).
Proof.
  apply (review_throttle demo_pm demo_position (demo_review Scenarios.demo_hold)).
  - reflexivity.
  - vm_compute. discriminate.
Defined.

(** ** Flattening before the close ([flatten_positions_if_needed]) *)
Section Flattening.
Import Executor MarketHours Flatten Notions.

Lemma py_int_abs_le (x : Q) : (inject_Z (py_int (Qabs x)) <= Qabs x)%Q.
Proof.
  rewrite py_int_floor by apply Qabs_nonneg. apply Qfloor_le.
Qed.

Lemma flatten_item_spec m st p now :
  let st' := flatten_item m st p now in
  positions (fst st') = positions (fst st) /\
  (exists new recs,
      placed (fst st') = placed (fst st) ++ new /\
      snd st' = snd st ++ recs /\
      (length new <= 1)%nat /\
      Forall (reduces_item m p now) new /\
      Forall2 records_order new recs) /\
  (m <= 0 -> st' = st).
Proof.
  cbv zeta. unfold flatten_item.
  assert (positions (fst st) = positions (fst st) /\
          (exists new recs,
              placed (fst st) = placed (fst st) ++ new /\
              snd st = snd st ++ recs /\
              (length new <= 1)%nat /\
              Forall (reduces_item m p now) new /\
              Forall2 records_order new recs) /\
          (m <= 0 -> st = st)) as Hsame.
  { split; [reflexivity|]. split; [|reflexivity].
    exists [], []. rewrite !app_nil_r. repeat split; simpl; auto. }
  destruct (pf_contract p) as [c|] eqn:Ec; [|exact Hsame].
  destruct (Qeqb (pf_position p) 0); [exact Hsame|].
  destruct (is_near_market_close (exchange c) (currency c) m now) eqn:Enear;
    cbn [negb]; [|exact Hsame].
  assert (0 < m) as Hm.
  { unfold is_near_market_close in Enear. cbv zeta in Enear.
    destruct (m <=? 0) eqn:E; [discriminate|]. apply Z.leb_gt. exact E. }
  fold (cancel_extras (fst st)
          (List.filter (fun t => String.eqb (symbol (contract t)) (symbol c))
                       (openTrades (fst st)))).
  set (ib1 := cancel_extras _ _).
  assert (positions ib1 = positions (fst st)) as P1 by apply cancel_extras_positions.
  assert (placed ib1 = placed (fst st)) as L1 by apply cancel_extras_placed.
  destruct (0 <? py_int (Qabs (pf_position p))) eqn:Eq.
  - apply Z.ltb_lt in Eq.
    pose proof (placeOrder_placed ib1 c
                  (MarketOrder (if Qltb 0 (pf_position p) then SELL else BUY)
                               (py_int (Qabs (pf_position p))))) as Hpl.
    pose proof (placeOrder_trade ib1 c
                  (MarketOrder (if Qltb 0 (pf_position p) then SELL else BUY)
                               (py_int (Qabs (pf_position p))))) as Htr.
    pose proof (placeOrder_positions ib1 c
                  (MarketOrder (if Qltb 0 (pf_position p) then SELL else BUY)
                               (py_int (Qabs (pf_position p))))) as Hpo.
    destruct (placeOrder ib1 c _) as [ib2 trade]. cbn [fst snd] in *.
    split; [congruence|]. split; [|lia].
    exists [trade], [mkFlattenRecord (symbol c)
                       (if Qltb 0 (pf_position p) then SELL else BUY)
                       (py_int (Qabs (pf_position p))) (pf_marketPrice p)
                       Runner.order_status].
    rewrite Hpl, L1. subst trade.
    split; [reflexivity|]. split; [reflexivity|]. split; [simpl; lia|].
    split.
    + constructor; [|constructor].
      unfold reduces_item. cbn. repeat split; auto using py_int_abs_le.
    + constructor; [|constructor].
      unfold records_order. cbn. repeat split.
  - cbn [fst snd]. split; [exact P1|]. split; [|lia].
    exists [], []. rewrite L1, !app_nil_r. repeat split; simpl; auto.
Qed.

Lemma flatten_fold m items st :
  let st' := fold_left (fun st pc => flatten_item m st (fst pc) (snd pc)) items st in
  positions (fst st') = positions (fst st) /\
  (exists per_item recs,
      placed (fst st') = placed (fst st) ++ concat per_item /\
      snd st' = snd st ++ recs /\
      Forall2 (fun pc ts => (length ts <= 1)%nat /\
                            Forall (reduces_item m (fst pc) (snd pc)) ts)
              items per_item /\
      Forall2 records_order (concat per_item) recs) /\
  (m <= 0 -> st' = st).
Proof.
  cbv zeta. revert st. induction items as [|[p now] l IH]; intros st.
  - simpl. split; [reflexivity|]. split; [|reflexivity].
    exists [], []. simpl. rewrite !app_nil_r. repeat split; constructor.
  - cbn [fold_left fst snd].
    destruct (flatten_item_spec m st p now) as (P1 & (n1 & r1 & L1 & R1 & Len1 & F1 & G1) & Z1).
    cbv zeta in P1, L1, R1, Z1.
    destruct (IH (flatten_item m st p now)) as (P2 & (n2 & r2 & L2 & R2 & F2 & G2) & Z2).
    split; [congruence|]. split.
    + exists (n1 :: n2), (r1 ++ r2).
      rewrite L2, L1, R2, R1, <- !app_assoc.
      split; [reflexivity|]. split; [reflexivity|].
      split; [constructor; [split; assumption|exact F2]|].
      cbn [concat]. apply Forall2_app; assumption.
    + intros Hm. rewrite Z2, Z1 by exact Hm. reflexivity.
Qed.

(** The orders of a run, item by item: no more of them than items, and each
    one reduces an item of the portfolio. *)
Lemma per_item_orders m (items : list (PortfolioItem * Clock)) per_item :
  Forall2 (fun pc ts => (length ts <= 1)%nat /\
                        Forall (reduces_item m (fst pc) (snd pc)) ts)
          items per_item ->
  (length (concat per_item) <= length items)%nat /\
  Forall (fun t => exists p now, In (p, now) items /\ reduces_item m p now t)
         (concat per_item).
Proof.
  induction 1 as [|[p now] ts items per_item [Hlen Hts] _ [IHlen IHall]]; simpl.
  - split; [lia|constructor].
  - split; [rewrite length_app; lia|].
    apply Forall_app. split.
    + eapply Forall_impl; [exact Hts|]. intros t Ht. exists p, now.
      split; [left; reflexivity|exact Ht].
    + eapply Forall_impl; [exact IHall|]. intros t (p' & now' & Hin & Ht).
      exists p', now'. split; [right; exact Hin|exact Ht].
Qed.

(** X20. Flattening before the close only reduces what is held.  The
    orders that [flatten_positions_if_needed] places go item by item
    through the portfolio: for each item at most one order, a market order
    placed while the item's market is within [minutes_before_close] minutes
    of its close when the item is reached, a SELL for a long item and a BUY
    for a short one, of at least one share and of no more than the item
    holds; so there are no more orders than items and each order reduces an
    item of the portfolio.  Each order has its trade record with the same
    symbol, side and quantity.  Positions are untouched; with
    [minutes_before_close <= 0], or when the portfolio cannot be loaded,
    nothing is done. *)
Theorem flatten_only_reduces ib m items :
  let ib' := fst (flatten_positions_if_needed ib m (Ok items)) in
  let recs := snd (flatten_positions_if_needed ib m (Ok items)) in
  positions ib' = positions ib /\
  (exists per_item,
      placed ib' = placed ib ++ concat per_item /\
      Forall2 (fun pc ts => (length ts <= 1)%nat /\
                            Forall (reduces_item m (fst pc) (snd pc)) ts)
              items per_item /\
      (length (concat per_item) <= length items)%nat /\
      Forall (fun t => exists p now, In (p, now) items /\ reduces_item m p now t)
             (concat per_item) /\
      Forall2 records_order (concat per_item) recs) /\
  (m <= 0 -> ib' = ib /\ recs = []) /\
  (forall e, flatten_positions_if_needed ib m (Raise e) = (ib, [])).
Proof.
  cbv zeta. unfold flatten_positions_if_needed.
  destruct (flatten_fold m items (ib, [])) as (P & (per & recs & L & R & F & G) & Z0).
  cbv zeta in *. cbn [fst snd] in *.
  destruct (per_item_orders m items per F) as [Hlen Hall].
  split; [exact P|]. split; [|split].
  - exists per. rewrite R. simpl. auto.
  - intros Hm. rewrite (Z0 Hm). split; reflexivity.
  - reflexivity.
Qed.

End Flattening.

(** Five minutes before the close in New York a long item of 30.5 AAPL
    shares is flattened with a market SELL of 30. *)
Lemma flatten_aapl_example :
  List.map (fun t => (action (order t), orderType (order t), totalQuantity (order t)))
           (placed (fst (Flatten.flatten_positions_if_needed
                           demo_ib 10 (Ok Scenarios.portfolio_aapl)))) =
  List.map (fun t => (action (order t), orderType (order t), totalQuantity (order t)))
           (placed demo_ib) ++ [(Executor.SELL, Executor.MKT, 30)].
Proof. vm_compute. reflexivity. Qed.

(** ** What a validated runtime configuration looks like
    ([validate_runtime_config]) *)
Section ValidConfig.
Import RuntimeConfig ConfigNotions.

Lemma validate_pairs_accepts pairs :
  validate_pairs pairs = Ok tt <-> Forall accepted_pair pairs.
Proof.
  induction pairs as [|[path value] rest IH].
  - simpl. split; intros; [constructor|reflexivity].
  - cbn [validate_pairs]. split.
    + intros H. destruct (lookup_validator _ path) as [validator|] eqn:El; [|discriminate].
      destruct (validator value) as [[]|e] eqn:Ev; [|discriminate].
      cbn [rbind] in H. constructor; [|apply IH; exact H].
      exists validator. split; [exact El|exact Ev].
    + intros H. inversion H as [|? ? (validator & El & Ev) Hrest]; subst.
      cbn [fst snd] in El, Ev. rewrite El, Ev. cbn [rbind]. apply IH. exact Hrest.
Qed.

Lemma existsb_eqb_false (name : string) (seen : list string) :
  existsb (String.eqb name) seen = false <-> ~ In name seen.
Proof.
  split.
  - intros H Hin. apply Bool.not_true_iff_false in H. apply H.
    apply existsb_exists. exists name. split; [exact Hin|apply String.eqb_refl].
  - intros H. apply Bool.not_true_iff_false. intros He.
    apply existsb_exists in He. destruct He as (x & Hin & Hx).
    apply String.eqb_eq in Hx. subst x. exact (H Hin).
Qed.

Lemma validate_strategies_accepts l : forall seen seen',
  validate_strategies l seen = Ok seen' <->
  exists names,
    seen' = seen ++ names /\
    Forall2 accepted_strategy l names /\
    List.NoDup names /\ (forall n, In n names -> ~ In n seen).
Proof.
  induction l as [|s rest IH]; intros seen seen'.
  - simpl. split.
    + intros [= <-]. exists []. rewrite app_nil_r.
      repeat split; [constructor|constructor|intros n []].
    + intros (names & -> & F & _). inversion F; subst. rewrite app_nil_r. reflexivity.
  - split.
    + intros H. cbn [validate_strategies] in H.
      destruct s as [| | | | |?|sd]; try discriminate.
      destruct (dict_get sd "name") as [[| | | |raw| |]|] eqn:En; try discriminate.
      destruct (nonblank raw) eqn:Enb; cbn [negb] in H; [|discriminate].
      destruct (existsb (String.eqb (strip raw)) seen) eqn:Edup; [discriminate|].
      destruct (default (JDict []) (dict_get sd "overrides")) as [| | | | | |ov] eqn:Eov;
        try discriminate.
      destruct (_validate_override_dict ov) as [[]|e] eqn:Ev; [|discriminate].
      cbn [rbind] in H. apply IH in H. destruct H as (names & -> & F & Hnd & Hdis).
      exists (strip raw :: names). rewrite <- app_assoc. split; [reflexivity|].
      split; [|split].
      * constructor; [|exact F]. exists sd, raw, ov. repeat split; auto.
        apply validate_pairs_accepts. exact Ev.
      * constructor; [|exact Hnd]. intros Hin.
        apply (Hdis _ Hin). apply in_or_app. right. left. reflexivity.
      * intros n [<-|Hin].
        -- apply existsb_eqb_false. exact Edup.
        -- intros Hs. apply (Hdis _ Hin). apply in_or_app. left. exact Hs.
    + intros (names & -> & F & Hnd & Hdis).
      inversion F as [|? name ? names' (sd & raw & ov & -> & En & Enb & -> & Eov & Hacc) F'];
        subst.
      cbn [validate_strategies]. rewrite En, Enb. cbn [negb].
      assert (existsb (String.eqb (strip raw)) seen = false) as ->.
      { apply existsb_eqb_false. apply Hdis. left. reflexivity. }
      rewrite Eov.
      assert (_validate_override_dict ov = Ok tt) as ->
          by (apply validate_pairs_accepts; exact Hacc).
      cbn [rbind]. apply IH. exists names'. rewrite <- app_assoc. split; [reflexivity|].
      split; [exact F'|]. inversion Hnd as [|? ? Hnot Hnd']; subst.
      split; [exact Hnd'|].
      intros n Hin Hs. apply in_app_or in Hs. destruct Hs as [Hs|[<-|[]]].
      * apply (Hdis n); [right; exact Hin|exact Hs].
      * exact (Hnot Hin).
Qed.

(** X21. [validate_runtime_config] accepts exactly the documents of this
    shape: an object whose [schema_version] (1 when absent) equals 1, whose
    [overrides] (when present) is an object of allow-listed paths with
    accepted values, whose [strategies] is a non-empty array of objects with
    non-blank string names, pairwise distinct after stripping, each with
    accepted overrides, and whose [active_strategy] is null, absent, or a
    non-blank string that names one of the strategies after stripping. *)
Theorem validate_runtime_config_accepts doc :
  validate_runtime_config doc = Ok tt <->
  exists d overrides strategies names,
    doc = JDict d /\
    py_eq_one (default (JInt 1) (dict_get d "schema_version")) = true /\
    default (JDict []) (dict_get d "overrides") = JDict overrides /\
    accepted_overrides overrides /\
    default (JList []) (dict_get d "strategies") = JList strategies /\
    strategies <> [] /\
    Forall2 accepted_strategy strategies names /\
    List.NoDup names /\
    accepted_active (default JNull (dict_get d "active_strategy")) names.
Proof.
  split.
  - intros H. destruct doc as [| | | | | |d]; try discriminate.
    cbn [validate_runtime_config] in H.
    destruct (py_eq_one (default (JInt 1) (dict_get d "schema_version"))) eqn:Esv;
      cbn [negb] in H; [|discriminate].
    destruct (default (JDict []) (dict_get d "overrides")) as [| | | | | |overrides] eqn:Eov;
      try discriminate.
    destruct (default (JList []) (dict_get d "strategies")) as [| | | | |[|s0 sl]|] eqn:Est;
      try discriminate.
    destruct (validate_strategies (s0 :: sl) []) as [seen|e] eqn:Evs; [|discriminate].
    cbn [rbind] in H.
    apply validate_strategies_accepts in Evs. destruct Evs as (names & -> & F & Hnd & _).
    cbn [app] in H.
    exists d, overrides, (s0 :: sl), names.
    split; [reflexivity|]. split; [exact Esv|]. split; [exact Eov|].
    assert (accepted_active (default JNull (dict_get d "active_strategy")) names /\
            _validate_override_dict overrides = Ok tt) as [Hact Hov].
    { destruct (default JNull (dict_get d "active_strategy")) as [| | | |a| |];
        try discriminate.
      - cbn [rbind] in H. split; [exact I|exact H].
      - destruct (nonblank a) eqn:Enb; cbn [negb] in H; [|discriminate].
        destruct (existsb (String.eqb (strip a)) names) eqn:Ein; [|discriminate].
        cbn [rbind] in H. split; [|exact H]. split; [exact Enb|].
        apply existsb_exists in Ein. destruct Ein as (x & Hin & Hx).
        apply String.eqb_eq in Hx. subst x. exact Hin. }
    split; [apply validate_pairs_accepts; exact Hov|].
    split; [exact Est|]. split; [discriminate|]. auto.
  - intros (d & overrides & strategies & names & -> & Esv & Eov & Hov & Est & Hne & F & Hnd
            & Hact).
    cbn [validate_runtime_config]. rewrite Esv, Eov, Est. cbn [negb].
    destruct strategies as [|s0 sl]; [congruence|].
    assert (validate_strategies (s0 :: sl) [] = Ok names) as ->.
    { apply validate_strategies_accepts. exists names. repeat split; auto. }
    cbn [rbind].
    assert (_validate_override_dict overrides = Ok tt) as Hv
        by (apply validate_pairs_accepts; exact Hov).
    destruct (default JNull (dict_get d "active_strategy")) as [| | | |a| |];
      try (destruct Hact; fail).
    + cbn [rbind]. exact Hv.
    + destruct Hact as [Enb Hin]. rewrite Enb. cbn [negb].
      assert (existsb (String.eqb (strip a)) names = true) as ->.
      { apply existsb_exists. exists (strip a). split; [exact Hin|apply String.eqb_refl]. }
      cbn [rbind]. exact Hv.
Qed.

End ValidConfig.

(** ** Normalising a stored document ([normalise_runtime_config]) *)
Section Normalise.
Import RuntimeConfig ConfigNotions.

Lemma dict_get_set d k v k' :
  dict_get (dict_set d k v) k' = if String.eqb k k' then Some v else dict_get d k'.
Proof.
  destruct (String.eqb_spec k k') as [<-|Hne].
  - apply dict_get_set_eq.
  - apply dict_get_set_ne. exact Hne.
Qed.

Lemma dict_set_same d k v : dict_get d k = Some v -> dict_set d k v = d.
Proof.
  induction d as [|[k0 v0] d IH]; simpl; [discriminate|].
  destruct (String.eqb_spec k0 k) as [->|Hne].
  - intros [= ->]. reflexivity.
  - intros H. rewrite IH by exact H. reflexivity.
Qed.

Lemma dict_get_pop d k k' :
  dict_get (dict_pop d k) k' = if String.eqb k k' then None else dict_get d k'.
Proof.
  unfold dict_pop. induction d as [|[k0 v0] d IH]; simpl.
  - destruct (String.eqb k k'); reflexivity.
  - destruct (String.eqb_spec k0 k) as [->|Hne]; simpl.
    + rewrite IH. destruct (String.eqb k k'); reflexivity.
    + rewrite IH. destruct (String.eqb_spec k0 k') as [->|Hne'].
      * destruct (String.eqb_spec k k') as [->|_]; [congruence|reflexivity].
      * reflexivity.
Qed.

Lemma dict_pop_absent d k : dict_get d k = None -> dict_pop d k = d.
Proof.
  unfold dict_pop. induction d as [|[k0 v0] d IH]; simpl; [reflexivity|].
  destruct (String.eqb k0 k); simpl; [discriminate|].
  intros H. rewrite IH by exact H. reflexivity.
Qed.

Lemma fold_pop_get keys : forall d k',
  dict_get (fold_left dict_pop keys d) k' =
  if existsb (fun k => String.eqb k k') keys then None else dict_get d k'.
Proof.
  induction keys as [|k keys IH]; intros d k'; simpl; [reflexivity|].
  rewrite IH, dict_get_pop.
  destruct (String.eqb k k'); simpl; [|reflexivity].
  destruct (existsb _ keys); reflexivity.
Qed.

Lemma fold_pop_absent keys : forall d,
  (forall k, In k keys -> dict_get d k = None) -> fold_left dict_pop keys d = d.
Proof.
  induction keys as [|k keys IH]; intros d H; simpl; [reflexivity|].
  rewrite dict_pop_absent by (apply H; left; reflexivity).
  apply IH. intros k0 Hk. apply H. right. exact Hk.
Qed.

Lemma in_existsb_eqb k (keys : list string) :
  In k keys -> existsb (fun k0 => String.eqb k0 k) keys = true.
Proof.
  intros H. apply existsb_exists. exists k. split; [exact H|apply String.eqb_refl].
Qed.

(** The migration leaves a holder without deprecated keys. *)
Lemma migrate_holder_migrated x : migrated (migrate_holder x).
Proof.
  destruct x as [| | | | | |h]; try exact I.
  unfold migrate_holder.
  set (h1 := match dict_get h "ai" with Some (JDict ai) => _ | _ => h end).
  assert (forall ai k, dict_get h1 "ai" = Some (JDict ai) -> In k deprecated_ai_keys ->
                       dict_get ai k = None) as Hai.
  { intros ai k Hget Hk. subst h1.
    destruct (dict_get h "ai") as [[| | | | | |ai0]|] eqn:E; try congruence.
    rewrite dict_get_set_eq in Hget. injection Hget as <-.
    match goal with
    | |- context [dict_pop ?x "trade_decision_enabled"] =>
        change (dict_get (fold_left dict_pop deprecated_ai_keys x) k = None)
    end.
    rewrite fold_pop_get, in_existsb_eqb by exact Hk. reflexivity. }
  clearbody h1.
  destruct (dict_get h1 "position_management") as [[| | | | | |pm]|] eqn:E;
    try (split; [exact Hai|intros pm0 H0; congruence]).
  split.
  - intros ai k Hget Hk. rewrite dict_get_set in Hget. simpl in Hget.
    exact (Hai ai k Hget Hk).
  - intros pm0 Hget. rewrite dict_get_set_eq in Hget. injection Hget as <-.
    rewrite dict_get_pop. reflexivity.
Qed.

(** A holder without deprecated keys is left as it is. *)
Lemma migrate_holder_fixed x : migrated x -> migrate_holder x = x.
Proof.
  destruct x as [| | | | | |h]; try reflexivity.
  intros [Hai Hpm]. unfold migrate_holder.
  assert (match dict_get h "ai" with
          | Some (JDict ai) =>
              dict_set h "ai"
                (JDict (fold_left dict_pop deprecated_ai_keys
                          match dict_get ai "trade_decision_system_prompt" with
                          | Some v => if dict_has ai "shortlist_system_prompt" then ai
                                      else dict_set ai "shortlist_system_prompt" v
                          | None => ai
                          end))
          | _ => h
          end = h) as ->.
  { destruct (dict_get h "ai") as [[| | | | | |ai]|] eqn:E; try reflexivity.
    rewrite (Hai ai "trade_decision_system_prompt" eq_refl)
      by (simpl; tauto).
    rewrite fold_pop_absent by (intros k Hk; exact (Hai ai k eq_refl Hk)).
    rewrite dict_set_same by exact E. reflexivity. }
  destruct (dict_get h "position_management") as [[| | | | | |pm]|] eqn:E; try reflexivity.
  rewrite dict_pop_absent by exact (Hpm pm eq_refl).
  rewrite dict_set_same by exact E. reflexivity.
Qed.

Lemma migrate_holder_not_null x : x <> JNull -> migrate_holder x <> JNull.
Proof.
  destruct x; intros H; simpl; congruence.
Qed.

Lemma migrate_strategy_stable s s' :
  migrate_strategy s = Ok s' -> migrate_strategy s' = Ok s' /\ migrated_strategy s'.
Proof.
  unfold migrate_strategy. destruct (truthy s) eqn:Et; cbn [negb].
  - destruct s as [| | | | | |d]; try discriminate.
    destruct (dict_get d "overrides") as [[| | | | | |h]|] eqn:E;
      try (intros [= <-]; rewrite Et, E; cbn [negb]; split; [reflexivity|];
           intros sd h0 [= <-] H0; congruence).
    pose proof (migrate_holder_migrated (JDict h)) as Hm.
    pose proof (migrate_holder_fixed _ Hm) as Hf.
    destruct (migrate_holder (JDict h)) as [| | | | | |h'] eqn:Eh;
      try (unfold migrate_holder in Eh; discriminate).
    intros Heq.
    assert (s' = JDict (dict_set d "overrides" (JDict h'))) as -> by congruence.
    clear Heq.
    assert (truthy (JDict (dict_set d "overrides" (JDict h'))) = true) as ->.
    { simpl. destruct d as [|[k v] d]; simpl; [reflexivity|].
      destruct (String.eqb k "overrides"); reflexivity. }
    cbn [negb]. rewrite dict_get_set_eq, Hf.
    rewrite dict_set_same by apply dict_get_set_eq.
    split; [reflexivity|].
    intros sd h0 [= <-] H0. rewrite dict_get_set_eq in H0. injection H0 as <-. exact Hm.
  - intros [= <-]. rewrite Et. cbn [negb]. split; [reflexivity|].
    intros sd h -> Hget. simpl in Et. destruct sd; [|discriminate].
    discriminate.
Qed.

Lemma migrate_strategies_stable l : forall l',
  migrate_strategies l = Ok l' ->
  migrate_strategies l' = Ok l' /\ Forall migrated_strategy l'.
Proof.
  induction l as [|s l IH]; intros l'; simpl.
  - intros [= <-]. split; [reflexivity|constructor].
  - destruct (migrate_strategy s) as [s'|e] eqn:Es; [|discriminate]. cbn [rbind].
    destruct (migrate_strategies l) as [l0|e] eqn:El; [|discriminate]. cbn [rbind].
    intros [= <-]. destruct (migrate_strategy_stable _ _ Es) as [Hs Hm].
    destruct (IH l0 eq_refl) as [Hl Hf].
    simpl. rewrite Hs. cbn [rbind]. rewrite Hl. cbn [rbind].
    split; [reflexivity|constructor; assumption].
Qed.

(** What [normalise_runtime_config] does after the four defaults and the
    migration of the top-level overrides: the loop over the strategies. *)
Local Abbreviation strategies_step out v :=
  (match v with
   | JList l =>
       rbind (migrate_strategies l)
             (fun l' => Ok (JDict (dict_set out "strategies" (JList l'))))
   | _ =>
       if negb (truthy v) then Ok (JDict out)
       else match v with
            | JDict keys =>
                if forallb (fun kv => String.eqb (fst kv) "") keys then Ok (JDict out)
                else Raise (AttributeError "'str' object has no attribute 'get'")
            | JStr _ => Raise (AttributeError "'str' object has no attribute 'get'")
            | _ => Raise (TypeError "object is not iterable")
            end
   end).

Lemma normalise_steps d0 :
  exists out h v,
    normalise_runtime_config (Some (JDict d0)) = strategies_step out v /\
    dict_has out "schema_version" = true /\
    dict_has out "active_strategy" = true /\
    dict_get out "overrides" = Some h /\ h <> JNull /\ migrated h /\
    dict_get out "strategies" = Some v /\ v <> JNull /\
    (forall k, k <> "overrides" -> k <> "strategies" -> dict_has d0 k = true ->
               dict_get out k = dict_get d0 k).
Proof.
  unfold normalise_runtime_config.
  set (out1 := if dict_has d0 "schema_version" then d0
               else dict_set d0 "schema_version" (JInt 1)).
  assert (dict_has out1 "schema_version" = true /\
          (forall k, k <> "overrides" -> k <> "strategies" -> dict_has d0 k = true ->
                     dict_get out1 k = dict_get d0 k)) as [S1 F1].
  { subst out1. destruct (dict_has d0 "schema_version") eqn:E; [auto|].
    split; [unfold dict_has; rewrite dict_get_set_eq; reflexivity|].
    intros k _ _ Hk. rewrite dict_get_set.
    destruct (String.eqb_spec "schema_version" k) as [<-|_]; [congruence|reflexivity]. }
  clearbody out1.
  set (out2 := match dict_get out1 "overrides" with
               | None | Some JNull => dict_set out1 "overrides" (JDict [])
               | _ => out1
               end).
  assert (dict_has out2 "schema_version" = true /\
          (exists h, dict_get out2 "overrides" = Some h /\ h <> JNull) /\
          (forall k, k <> "overrides" -> k <> "strategies" -> dict_has d0 k = true ->
                     dict_get out2 k = dict_get d0 k)) as (S2 & O2 & F2).
  { assert (dict_has (dict_set out1 "overrides" (JDict [])) "schema_version" = true /\
            (exists h, dict_get (dict_set out1 "overrides" (JDict [])) "overrides" = Some h /\
                       h <> JNull) /\
            (forall k, k <> "overrides" -> k <> "strategies" -> dict_has d0 k = true ->
                       dict_get (dict_set out1 "overrides" (JDict [])) k = dict_get d0 k))
      as Hset.
    { split; [unfold dict_has in *; rewrite dict_get_set; exact S1|].
      split; [exists (JDict []); rewrite dict_get_set_eq; split; [reflexivity|discriminate]|].
      intros k Hk1 Hk2 Hk. rewrite dict_get_set_ne by congruence. apply F1; assumption. }
    subst out2.
    destruct (dict_get out1 "overrides") as [[| | | | | |]|] eqn:E; try exact Hset;
      (split; [exact S1|]; split; [eexists; split; [exact E|discriminate]|exact F1]). }
  clearbody out2. clear out1 S1 F1.
  set (out3 := match dict_get out2 "strategies" with
               | None | Some JNull =>
                   dict_set out2 "strategies"
                            (JList [JDict [("name", JStr "Default"); ("overrides", JDict [])]])
               | _ => out2
               end).
  assert (dict_has out3 "schema_version" = true /\
          (exists h, dict_get out3 "overrides" = Some h /\ h <> JNull) /\
          (exists v, dict_get out3 "strategies" = Some v /\ v <> JNull) /\
          (forall k, k <> "overrides" -> k <> "strategies" -> dict_has d0 k = true ->
                     dict_get out3 k = dict_get d0 k)) as (S3 & O3 & T3 & F3).
  { set (dflt := JList [JDict [("name", JStr "Default"); ("overrides", JDict [])]]) in *.
    assert (dict_has (dict_set out2 "strategies" dflt) "schema_version" = true /\
            (exists h, dict_get (dict_set out2 "strategies" dflt) "overrides" = Some h /\
                       h <> JNull) /\
            (exists v, dict_get (dict_set out2 "strategies" dflt) "strategies" = Some v /\
                       v <> JNull) /\
            (forall k, k <> "overrides" -> k <> "strategies" -> dict_has d0 k = true ->
                       dict_get (dict_set out2 "strategies" dflt) k = dict_get d0 k))
      as Hset.
    { split; [unfold dict_has in *; rewrite dict_get_set; exact S2|].
      split; [rewrite dict_get_set; exact O2|].
      split; [exists dflt; rewrite dict_get_set_eq; split; [reflexivity|discriminate]|].
      intros k Hk1 Hk2 Hk. rewrite dict_get_set_ne by congruence. apply F2; assumption. }
    subst out3.
    destruct (dict_get out2 "strategies") as [[| | | | | |]|] eqn:E; try exact Hset;
      (split; [exact S2|]; split; [exact O2|];
       split; [eexists; split; [exact E|discriminate]|exact F2]). }
  clearbody out3. clear out2 S2 O2 F2.
  set (out4 := if dict_has out3 "active_strategy" then out3
               else dict_set out3 "active_strategy" (JStr "Default")).
  assert (dict_has out4 "schema_version" = true /\
          dict_has out4 "active_strategy" = true /\
          (exists h, dict_get out4 "overrides" = Some h /\ h <> JNull) /\
          (exists v, dict_get out4 "strategies" = Some v /\ v <> JNull) /\
          (forall k, k <> "overrides" -> k <> "strategies" -> dict_has d0 k = true ->
                     dict_get out4 k = dict_get d0 k)) as (S4 & A4 & O4 & T4 & F4).
  { subst out4. destruct (dict_has out3 "active_strategy") eqn:E; [auto 6|].
    split; [unfold dict_has in *; rewrite dict_get_set; exact S3|].
    split; [unfold dict_has; rewrite dict_get_set_eq; reflexivity|].
    split; [rewrite dict_get_set; exact O3|].
    split; [rewrite dict_get_set; exact T3|].
    intros k Hk1 Hk2 Hk. rewrite dict_get_set.
    destruct (String.eqb_spec "active_strategy" k) as [<-|_]; [|apply F3; assumption].
    exfalso.
    pose proof (F3 "active_strategy" ltac:(discriminate) ltac:(discriminate) Hk) as Hf.
    unfold dict_has in E, Hk. rewrite Hf in E. congruence. }
  clearbody out4. clear out3 S3 O3 T3 F3.
  destruct O4 as (h & O4 & Hh). destruct T4 as (v & T4 & Hv).
  rewrite O4.
  set (out5 := dict_set out4 "overrides" (migrate_holder h)).
  assert (dict_get out5 "strategies" = Some v) as T5
      by (subst out5; rewrite dict_get_set; exact T4).
  rewrite T5.
  exists out5, (migrate_holder h), v.
  split; [destruct v; reflexivity|].
  split; [subst out5; unfold dict_has in *; rewrite dict_get_set; exact S4|].
  split; [subst out5; unfold dict_has in *; rewrite dict_get_set; exact A4|].
  split; [subst out5; apply dict_get_set_eq|].
  split; [apply migrate_holder_not_null; exact Hh|].
  split; [apply migrate_holder_migrated|].
  split; [exact T5|]. split; [exact Hv|].
  intros k Hk1 Hk2 Hk. subst out5. rewrite dict_get_set_ne by congruence.
  apply F4; assumption.
Qed.

(** X22. A document that [normalise_runtime_config] returns is in normal
    form: it has the four top-level keys, [overrides] and [strategies] are
    not null, the top-level overrides and the overrides of every strategy are
    without the deprecated [ai] keys and without [position_management.enabled],
    every other key that the input had keeps its value, and normalising the
    result again returns it unchanged. *)
Theorem normalise_runtime_config_stable doc out :
  normalise_runtime_config (Some doc) = Ok out ->
  normalise_runtime_config (Some out) = Ok out /\
  exists d0 d,
    doc = JDict d0 /\ out = JDict d /\
    dict_has d "schema_version" = true /\
    dict_has d "active_strategy" = true /\
    (exists h, dict_get d "overrides" = Some h /\ h <> JNull /\ migrated h) /\
    (exists v, dict_get d "strategies" = Some v /\ v <> JNull /\
               forall l, v = JList l -> Forall migrated_strategy l) /\
    (forall k, k <> "overrides" -> k <> "strategies" -> dict_has d0 k = true ->
               dict_get d k = dict_get d0 k).
Proof.
  intros H.
  destruct doc as [| | | | | |d0]; try discriminate.
  destruct (normalise_steps d0) as (o5 & h & v & E & S & A & O & Hh & Hm & T & Hv & F).
  rewrite E in H.
  (* the shape of the result, and what the strategies loop left *)
  assert (exists d v',
             out = JDict d /\
             dict_has d "schema_version" = true /\
             dict_has d "active_strategy" = true /\
             dict_get d "overrides" = Some h /\
             dict_get d "strategies" = Some v' /\ v' <> JNull /\
             (forall l, v' = JList l -> Forall migrated_strategy l) /\
             strategies_step d v' = Ok (JDict d) /\
             (forall k, k <> "overrides" -> k <> "strategies" -> dict_has d0 k = true ->
                        dict_get d k = dict_get d0 k)) as
      (d & v' & -> & S' & A' & O' & T' & Hv' & Hmig & Hstep & F').
  { assert ((forall l, v <> JList l) ->
            strategies_step o5 v = Ok out ->
            out = JDict o5 /\ strategies_step o5 v = Ok (JDict o5)) as Hother.
    { intros Hnl Hs. destruct v as [| | | | |l0|keys]; try (exfalso; eapply Hnl; reflexivity);
        cbn in Hs |- *;
        repeat match type of Hs with
               | (if ?b then _ else _) = _ => destruct b eqn:?; cbn in Hs |- *
               end; try discriminate; injection Hs as <-; auto. }
    destruct v as [| | | | |l|keys].
    1-5, 7: (destruct (Hother ltac:(intros; discriminate) H) as [-> Hs];
             exists o5; eexists; repeat split; try eassumption; intros; discriminate).
    cbn in H. destruct (migrate_strategies l) as [l'|e] eqn:El; [|discriminate].
    cbn [rbind] in H. injection H as <-.
    destruct (migrate_strategies_stable _ _ El) as [Hl' Hf'].
    exists (dict_set o5 "strategies" (JList l')), (JList l').
    split; [reflexivity|].
    split; [unfold dict_has in *; rewrite dict_get_set; exact S|].
    split; [unfold dict_has in *; rewrite dict_get_set; exact A|].
    split; [rewrite dict_get_set; exact O|].
    split; [apply dict_get_set_eq|]. split; [discriminate|].
    split; [intros l0 [= <-]; exact Hf'|].
    split.
    - cbn. rewrite Hl'. cbn [rbind].
      rewrite dict_set_same by apply dict_get_set_eq. reflexivity.
    - intros k Hk1 Hk2 Hk. rewrite dict_get_set_ne by congruence. apply F; assumption. }
  split.
  - (* normalising again *)
    unfold normalise_runtime_config. rewrite S'.
    rewrite O'.
    assert (match h with
            | JNull => dict_set d "overrides" (JDict [])
            | _ => d
            end = d) as -> by (destruct h; congruence).
    rewrite T'.
    assert (match v' with
            | JNull =>
                dict_set d "strategies"
                  (JList [JDict [("name", JStr "Default"); ("overrides", JDict [])]])
            | _ => d
            end = d) as -> by (destruct v'; congruence).
    rewrite A', O'.
    rewrite (migrate_holder_fixed h Hm).
    rewrite (dict_set_same d "overrides" h O'). rewrite T'.
    destruct v'; exact Hstep.
  - exists d0, d. split; [reflexivity|]. split; [reflexivity|].
    split; [exact S'|]. split; [exact A'|].
    split; [exists h; auto|]. split; [exists v'; auto|]. exact F'.
Qed.

End Normalise.

(** A stored document from before the upgrade: its deprecated keys are
    dropped, the old system prompt moves to the shortlist prompt, and the
    result is a fixed point. *)
Lemma normalise_runtime_config_witness :
  RuntimeConfig.normalise_runtime_config (Some Scenarios.doc_legacy_normalised) =
  Ok Scenarios.doc_legacy_normalised.
Proof.
  apply (normalise_runtime_config_stable Scenarios.doc_legacy Scenarios.doc_legacy_normalised).
  vm_compute. reflexivity.
Defined.

(** ** Merging overrides into a configuration ([deep_merge]) *)
Section DeepMerge.
Import RuntimeConfig ConfigNotions.

(** The loop [for k, v in patch.items()] of [deep_merge]. *)
Local Abbreviation merge_items :=
  (fix go (p : list (string * json)) (out : list (string * json)) {struct p}
     : list (string * json) :=
     match p with
     | [] => out
     | (k, v) :: rest =>
         let out' :=
           match v, dict_get out k with
           | JDict _, Some (JDict bv) => dict_set out k (JDict (deep_merge bv v))
           | _, _ => dict_set out k v
           end in
         go rest out'
     end).

(** [out[k]] after the step of the loop for [k, v]. *)
Local Abbreviation merged_value v old :=
  (match v, old with
   | JDict _, Some (JDict bv) => JDict (deep_merge bv v)
   | _, _ => v
   end).

Lemma deep_merge_dict base p : deep_merge base (JDict p) = merge_items p base.
Proof. reflexivity. Qed.

Lemma merge_step_set out k v :
  match v, dict_get out k with
  | JDict _, Some (JDict bv) => dict_set out k (JDict (deep_merge bv v))
  | _, _ => dict_set out k v
  end = dict_set out k (merged_value v (dict_get out k)).
Proof.
  destruct v; try reflexivity.
  destruct (dict_get out k) as [[| | | | | |bv]|]; reflexivity.
Qed.

Lemma dict_get_absent (d : list (string * json)) k :
  ~ In k (List.map fst d) -> dict_get d k = None.
Proof.
  induction d as [|[k0 v0] d IH]; simpl; [reflexivity|].
  intros H. destruct (String.eqb_spec k0 k) as [->|_]; [tauto|]. apply IH. tauto.
Qed.

Lemma merge_items_get p : forall out k,
  List.NoDup (List.map fst p) ->
  dict_get (merge_items p out) k =
  match dict_get p k with
  | None => dict_get out k
  | Some v => Some (merged_value v (dict_get out k))
  end.
Proof.
  induction p as [|[k0 v0] rest IH]; intros out k Hnd; [reflexivity|].
  inversion Hnd as [|? ? Hnot Hnd']; subst.
  cbn [dict_get]. cbv zeta. rewrite merge_step_set.
  rewrite IH by exact Hnd'. rewrite dict_get_set.
  destruct (String.eqb_spec k0 k) as [->|Hne].
  - rewrite dict_get_absent by exact Hnot. reflexivity.
  - destruct (dict_get rest k) as [v|]; reflexivity.
Qed.

Lemma merge_items_has p : forall out k,
  dict_has out k = true -> dict_has (merge_items p out) k = true.
Proof.
  induction p as [|[k0 v0] rest IH]; intros out k H; [exact H|].
  cbv zeta. rewrite merge_step_set. apply IH.
  unfold dict_has in *. rewrite dict_get_set.
  destruct (String.eqb k0 k); [reflexivity|exact H].
Qed.

Lemma distinct_NoDup l : distinct l = true -> List.NoDup l.
Proof.
  induction l as [|x r IH]; simpl; [constructor|].
  intros H. apply andb_true_iff in H. destruct H as [Hx Hr].
  constructor; [|apply IH; exact Hr].
  intros Hin. apply negb_true_iff in Hx. apply Bool.not_true_iff_false in Hx. apply Hx.
  apply existsb_exists. exists x. split; [exact Hin|apply String.eqb_refl].
Qed.

Lemma deep_merge_get base p k :
  distinct (List.map fst p) = true ->
  dict_get (deep_merge base (JDict p)) k =
  match dict_get p k with
  | None => dict_get base k
  | Some v =>
      match v, dict_get base k with
      | JDict _, Some (JDict bv) => Some (JDict (deep_merge bv v))
      | _, _ => Some v
      end
  end.
Proof.
  intros Hnd. apply distinct_NoDup in Hnd. rewrite deep_merge_dict.
  rewrite merge_items_get by exact Hnd.
  destruct (dict_get p k) as [v|]; [|reflexivity].
  destruct v; try reflexivity.
  destruct (dict_get base k) as [[| | | | | |bv]|]; reflexivity.
Qed.

(** X23. [deep_merge(base, patch)] looks keys up like this (the keys of
    [patch] being distinct, as in any Python dict): a key that [patch] lacks
    has its value of [base]; a key of [patch] has the value of [patch],
    except that when both values are objects it has their [deep_merge].  No
    key of [base] is ever removed. *)
Theorem deep_merge_lookup base p k :
  distinct (List.map fst p) = true ->
  dict_get (deep_merge base (JDict p)) k =
  match dict_get p k with
  | None => dict_get base k
  | Some v =>
      match v, dict_get base k with
      | JDict _, Some (JDict bv) => Some (JDict (deep_merge bv v))
      | _, _ => Some v
      end
  end /\
  (dict_has base k = true -> dict_has (deep_merge base (JDict p)) k = true).
Proof.
  intros Hnd. split; [apply deep_merge_get; exact Hnd|].
  rewrite deep_merge_dict. apply merge_items_has.
Qed.

Lemma unique_keys_dict d :
  unique_keys (JDict d) = true ->
  distinct (List.map fst d) = true /\
  forall k x, dict_get d k = Some x -> unique_keys x = true.
Proof.
  cbn [unique_keys]. intros H. apply andb_true_iff in H. destruct H as [Hd Hall].
  split; [exact Hd|]. clear Hd.
  induction d as [|[k0 v0] d IH]; intros k x; simpl; [discriminate|].
  apply andb_true_iff in Hall. destruct Hall as [H0 Hall].
  destruct (String.eqb k0 k); [intros [= <-]; exact H0|]. apply IH. exact Hall.
Qed.

Lemma get_path_leaf v path x :
  get_path v path = Some x -> is_dict v = false -> path = [] /\ x = v.
Proof.
  destruct path as [|k rest]; simpl.
  - intros [= <-] _. auto.
  - destruct v; try discriminate.
Qed.

Lemma deep_merge_path path : forall base p v,
  unique_keys (JDict p) = true ->
  path <> [] ->
  get_path (JDict p) path = Some v -> is_dict v = false ->
  get_path (JDict (deep_merge base (JDict p))) path = Some v.
Proof.
  induction path as [|k rest IH]; intros base p v Hu Hne Hget Hleaf; [congruence|].
  destruct (unique_keys_dict p Hu) as [Hnd Hsub].
  cbn [get_path] in Hget |- *.
  rewrite (deep_merge_get base p k Hnd).
  destruct (dict_get p k) as [x|] eqn:Ex; [|discriminate].
  pose proof (Hsub k x Ex) as Hux.
  destruct rest as [|k' rest'].
  - cbn [get_path] in Hget. injection Hget as ->.
    destruct v; try reflexivity. discriminate.
  - destruct x as [| | | | | |px]; try (cbn [get_path] in Hget; discriminate).
    destruct (dict_get base k) as [[| | | | | |bv]|]; try exact Hget.
    apply IH; [exact Hux|discriminate|exact Hget|exact Hleaf].
Qed.

(** X24. An override wins at any depth: when [patch] (a Python value, the
    keys of each of its dicts distinct) has the value [v] at a non-empty path
    and [v] is not an object, then [deep_merge(base, patch)] has [v] at that
    path, whatever [base] holds there; and a path whose first key [patch]
    lacks has its value of [base]. *)
Theorem deep_merge_override_wins base p path v :
  unique_keys (JDict p) = true ->
  path <> [] ->
  get_path (JDict p) path = Some v -> is_dict v = false ->
  get_path (JDict (deep_merge base (JDict p))) path = Some v /\
  (forall k rest, dict_get p k = None ->
                  get_path (JDict (deep_merge base (JDict p))) (k :: rest) =
                  get_path (JDict base) (k :: rest)).
Proof.
  intros Hu Hne Hget Hleaf. split; [apply deep_merge_path; assumption|].
  intros k rest Hk. cbn [get_path].
  rewrite (deep_merge_get base p k (proj1 (unique_keys_dict p Hu))), Hk.
  reflexivity.
Qed.

End DeepMerge.

(** Lowering [trading.max_positions] keeps [trading.risk_per_trade], which
    the overrides do not name. *)
Lemma deep_merge_lookup_witness :
  RuntimeConfig.dict_get
    (RuntimeConfig.deep_merge Scenarios.base_cfg (JDict Scenarios.patch_max_positions))
    "trading" =
  Some (JDict (RuntimeConfig.deep_merge
                 [("max_positions", JInt 5); ("risk_per_trade", JFloat (1#100))]
                 (JDict [("max_positions", JInt 3)]))).
Proof.
  apply (proj1 (deep_merge_lookup Scenarios.base_cfg Scenarios.patch_max_positions "trading"
                  ltac:(reflexivity))).
Defined.

Lemma deep_merge_override_wins_witness :
  ConfigNotions.get_path
    (JDict (RuntimeConfig.deep_merge Scenarios.base_cfg (JDict Scenarios.patch_max_positions)))
    ["trading"; "max_positions"] = Some (JInt 3).
Proof.
  apply (proj1 (deep_merge_override_wins Scenarios.base_cfg Scenarios.patch_max_positions
                  ["trading"; "max_positions"] (JInt 3)
                  ltac:(reflexivity) ltac:(discriminate) ltac:(reflexivity) ltac:(reflexivity))).
Defined.

(** ** Ranking the shortlist ([eligible.sort], the ranking loop) *)
Section Ranking.
Import Runner Notions.

Lemma insert_by_score_perm x l : insert_by_score x l ≡ₚ x :: l.
Proof.
  induction l as [|y l IH]; simpl; [reflexivity|].
  destruct (Qltb (e_score x) (e_score y)); [|reflexivity].
  rewrite IH. apply Permutation_swap.
Qed.

Lemma insert_by_score_Forall (P : Eligible -> Prop) x l :
  P x -> Forall P l -> Forall P (insert_by_score x l).
Proof.
  intros Hx Hl. rewrite insert_by_score_perm. constructor; assumption.
Qed.

Lemma insert_by_score_desc x l : by_score_desc l -> by_score_desc (insert_by_score x l).
Proof.
  induction l as [|y l IH]; simpl; [auto|].
  intros [Hy Hl]. destruct (Qltb (e_score x) (e_score y)) eqn:E.
  - apply Qltb_true in E. simpl. split; [|apply IH; exact Hl].
    apply insert_by_score_Forall; [apply Qlt_le_weak; exact E|exact Hy].
  - apply Qltb_false in E. simpl. split; [|split; assumption].
    constructor; [exact E|].
    eapply Forall_impl; [exact Hy|]. intros z Hz. simpl in Hz.
    apply Qle_trans with (e_score y); assumption.
Qed.

Lemma insert_by_score_filter q x l :
  List.filter (fun c => Qeqb (e_score c) q) (insert_by_score x l) =
  List.filter (fun c => Qeqb (e_score c) q) (x :: l).
Proof.
  induction l as [|y l IH]; [reflexivity|].
  cbn [insert_by_score]. destruct (Qltb (e_score x) (e_score y)) eqn:E; [|reflexivity].
  apply Qltb_true in E. cbn [List.filter] in IH |- *. rewrite IH.
  destruct (Qeqb (e_score x) q) eqn:Ex; [|reflexivity].
  apply Qeqb_true in Ex.
  assert (Qeqb (e_score y) q = false) as ->; [|reflexivity].
  apply Qeqb_false. intros Ey. rewrite Ex, Ey in E. exact (Qlt_irrefl _ E).
Qed.

(** X25. The shortlist is ranked by score, best first, and ties keep their
    order: [sort_by_score] returns a permutation of its input in which no
    candidate has a higher score than one before it, and the candidates of
    any one score come in the order in which they were found eligible. *)
Theorem sort_by_score_spec l :
  sort_by_score l ≡ₚ l /\
  by_score_desc (sort_by_score l) /\
  (forall q, List.filter (fun c => Qeqb (e_score c) q) (sort_by_score l) =
             List.filter (fun c => Qeqb (e_score c) q) l).
Proof.
  unfold sort_by_score. induction l as [|x l (IHp & IHs & IHf)]; simpl.
  - repeat split; constructor.
  - split; [rewrite insert_by_score_perm, IHp; reflexivity|].
    split; [apply insert_by_score_desc; exact IHs|].
    intros q. rewrite insert_by_score_filter. cbn [List.filter]. rewrite IHf. reflexivity.
Qed.

Lemma update_research_decision_length log i d r rank :
  length (update_research_decision log i d r rank) = length log.
Proof. unfold update_research_decision. apply length_alter. Qed.

Lemma assign_ranks_rows l : forall r log,
  List.NoDup (List.map e_research_id l) ->
  fst (assign_ranks r l log) = imap (fun i c => set_rank c (r + i)) l /\
  length (snd (assign_ranks r l log)) = length log /\
  (forall i c row,
      l !! i = Some c -> log !! e_research_id c = Some row ->
      snd (assign_ranks r l log) !! e_research_id c = Some (ranked_row row (r + i) c)) /\
  (forall j, ~ In j (List.map e_research_id l) ->
             snd (assign_ranks r l log) !! j = log !! j).
Proof.
  induction l as [|c l IH]; intros r log Hnd.
  - simpl. repeat split; auto. intros i c row H. discriminate.
  - inversion Hnd as [|? ? Hnot Hnd']; subst.
    cbn [assign_ranks].
    set (log1 := update_research_decision log (e_research_id c) SHORTLISTED
                                          (e_decision_reason c) r).
    destruct (IH (S r) log1 Hnd') as (Hf & Hlen & Hrow & Hother).
    destruct (assign_ranks (S r) l log1) as [rest' log2]. cbn [fst snd] in *.
    split; [|split; [|split]].
    + cbn [imap]. rewrite Nat.add_0_r. f_equal. rewrite Hf.
      apply imap_ext. intros i x _. simpl. f_equal. lia.
    + rewrite Hlen. apply update_research_decision_length.
    + intros [|i] c0 row Hc Hget.
      * injection Hc as <-. rewrite Nat.add_0_r.
        rewrite Hother by exact Hnot.
        subst log1. unfold update_research_decision.
        rewrite list_lookup_alter_eq, Hget. reflexivity.
      * cbn in Hc.
        assert (e_research_id c0 <> e_research_id c) as Hne.
        { intros Heq. apply Hnot. rewrite <- Heq. apply in_map.
          apply list_elem_of_In. eapply list_elem_of_lookup_2. exact Hc. }
        rewrite (Hrow i c0 row Hc).
        -- f_equal. f_equal. lia.
        -- subst log1. unfold update_research_decision.
           rewrite list_lookup_alter_ne by congruence. exact Hget.
    + intros j Hj. cbn [List.map] in Hj.
      rewrite Hother by (intros H; apply Hj; right; exact H).
      subst log1. unfold update_research_decision.
      apply list_lookup_alter_ne. intros Heq. apply Hj. left. exact Heq.
Qed.

(** X26. The ranking loop numbers the sorted shortlist 1, 2, 3, ... in
    order and changes nothing else of a candidate; the research log keeps
    its length; the row of every candidate (rows being distinct) is set to
    SHORTLISTED with the candidate's rank and reason, its other columns
    kept, so the rank shown for a candidate is the rank used in the
    selection; and every other row is left as it was. *)
Theorem assign_ranks_spec l log :
  List.NoDup (List.map e_research_id l) ->
  let ranked := fst (assign_ranks 1 l log) in
  let log' := snd (assign_ranks 1 l log) in
  ranked = imap (fun i c => set_rank c (S i)) l /\
  length log' = length log /\
  (forall i c row,
      l !! i = Some c -> log !! e_research_id c = Some row ->
      log' !! e_research_id c = Some (ranked_row row (S i) c)) /\
  (forall j, ~ In j (List.map e_research_id l) -> log' !! j = log !! j).
Proof.
  intros Hnd. cbv zeta. exact (assign_ranks_rows l 1%nat log Hnd).
Qed.

End Ranking.

(** One candidate with its research row: it gets rank 1. *)
Lemma assign_ranks_witness :
  let ranked := fst (Runner.assign_ranks 1 [demo_cand] [demo_row]) in
  let log' := snd (Runner.assign_ranks 1 [demo_cand] [demo_row]) in
  ranked = imap (fun i c => Runner.set_rank c (S i)) [demo_cand] /\
  length log' = length [demo_row] /\
  (forall i c row,
      [demo_cand] !! i = Some c -> [demo_row] !! Runner.e_research_id c = Some row ->
      log' !! Runner.e_research_id c = Some (Notions.ranked_row row (S i) c)) /\
  (forall j, ~ In j (List.map Runner.e_research_id [demo_cand]) ->
             log' !! j = [demo_row] !! j).
Proof.
  apply (assign_ranks_spec [demo_cand] [demo_row]).
  simpl. constructor; [simpl; tauto|constructor].
Defined.

(** ** Dotted keys in an overrides object *)
Section DottedKeys.
Import RuntimeConfig ConfigNotions.

Lemma append_neq_self (a s : string) : s <> "" -> String.append a s <> a.
Proof.
  intros Hs. induction a as [|c a IH]; simpl; [exact Hs|].
  intros [= H]. exact (IH H).
Qed.

Lemma join_key_neq a b : a <> "" -> join_key a b <> a.
Proof.
  intros Ha. unfold join_key.
  destruct (String.eqb_spec a "") as [->|_]; [congruence|].
  apply append_neq_self. discriminate.
Qed.

(** X27. A dotted key is validated like the nested path but merged as one
    top-level key.  For a non-object value [v], the overrides
    [{"a.b": v}] and [{"a": {"b": v}}] get the same verdict of
    [_validate_override_dict] (they flatten to the same pair), but
    [deep_merge(base, {"a.b": v})] leaves [base["a"]["b"]] as it was, while
    [deep_merge(base, {"a": {"b": v}})] sets it to [v]. *)
Theorem dotted_key_not_merged base a b v :
  a <> "" -> a <> "trading.min_cash_reserve_by_currency" -> is_dict v = false ->
  _validate_override_dict [(join_key a b, v)] =
  _validate_override_dict [(a, JDict [(b, v)])] /\
  get_path (JDict (deep_merge base (JDict [(join_key a b, v)]))) [a; b] =
  get_path (JDict base) [a; b] /\
  get_path (JDict (deep_merge base (JDict [(a, JDict [(b, v)])]))) [a; b] = Some v.
Proof.
  intros Ha Hsp Hv. split; [|split].
  - unfold _validate_override_dict. f_equal.
    cbn [_flatten_overrides]. rewrite !app_nil_r.
    change (join_key "" (join_key a b)) with (join_key a b).
    change (join_key "" a) with a.
    cbn [flatten_value].
    destruct (String.eqb_spec a "trading.min_cash_reserve_by_currency") as [->|_];
      [congruence|].
    rewrite app_nil_r. destruct v; first [reflexivity|discriminate].
  - cbn [get_path]. rewrite deep_merge_get by reflexivity.
    cbn [dict_get].
    destruct (String.eqb_spec (join_key a b) a) as [Heq|_]; [|reflexivity].
    exfalso. exact (join_key_neq a b Ha Heq).
  - cbn [get_path]. rewrite deep_merge_get by reflexivity.
    cbn [dict_get]. rewrite String.eqb_refl.
    assert (dict_get (deep_merge [] (JDict [(b, v)])) b = Some v /\
            forall bv, dict_get (deep_merge bv (JDict [(b, v)])) b = Some v) as [H0 H1].
    { split; [|intros bv]; rewrite deep_merge_get by reflexivity;
        cbn [dict_get]; rewrite String.eqb_refl;
        destruct v; first [reflexivity|discriminate]. }
    destruct (dict_get base a) as [[| | | | | |bv]|];
      first [rewrite H1; destruct v; reflexivity
            |cbn [dict_get]; rewrite String.eqb_refl; destruct v; reflexivity].
Qed.

End DottedKeys.

(** [{"trading.max_positions": 3}] passes the validator of
    [trading.max_positions], and the merged configuration still has
    [trading.max_positions = 5]. *)
Lemma dotted_key_not_merged_witness :
  RuntimeConfig._validate_override_dict [("trading.max_positions", JInt 3)] = Ok tt /\
  ConfigNotions.get_path
    (JDict (RuntimeConfig.deep_merge Scenarios.base_cfg
              (JDict [("trading.max_positions", JInt 3)])))
    ["trading"; "max_positions"] = Some (JInt 5).
Proof.
  destruct (dotted_key_not_merged Scenarios.base_cfg "trading" "max_positions" (JInt 3)
              ltac:(discriminate) ltac:(discriminate) ltac:(reflexivity)) as (Hv & Hg & _).
  split.
  - vm_compute. reflexivity.
  - etransitivity; [exact Hg|]. vm_compute. reflexivity.
Defined.

(** ** Cancelling the orders of a symbol, and entering a position *)
Section EntryOrders.
Import Executor ExitOrders.

Lemma filter_not_then {A} (P : A -> bool) (l : list A) :
  List.filter P (List.filter (fun t => negb (P t)) l) = [].
Proof.
  induction l as [|t l IH]; [reflexivity|]. cbn [List.filter].
  destruct (P t) eqn:E; cbn [negb]; [exact IH|]. cbn [List.filter]. rewrite E. exact IH.
Qed.

Lemma filter_not_other {A} (P Q : A -> bool) (l : list A) :
  (forall t, Q t = true -> P t = false) ->
  List.filter Q (List.filter (fun t => negb (P t)) l) = List.filter Q l.
Proof.
  intros H. induction l as [|t l IH]; [reflexivity|]. cbn [List.filter].
  destruct (P t) eqn:E; cbn [negb].
  - destruct (Q t) eqn:EQ; [rewrite (H t EQ) in E; discriminate|exact IH].
  - cbn [List.filter]. destruct (Q t); [f_equal|]; exact IH.
Qed.

(** X28. [cancel_orders_for_symbol] on a session with distinct order ids
    removes exactly the open orders of the symbol and returns how many they
    were: afterwards the symbol has no open order, the orders of every other
    symbol are as before, positions, the request-id counter and the log of
    placed orders are untouched, and a second call cancels nothing and
    returns 0. *)
Theorem cancel_orders_for_symbol_spec ib sym :
  NoDup (List.map oid (openTrades ib)) ->
  let ib' := fst (cancel_orders_for_symbol ib sym) in
  openTrades ib' =
    List.filter (fun t => negb (String.eqb (symbol (contract t)) sym)) (openTrades ib) /\
  snd (cancel_orders_for_symbol ib sym) =
    Z.of_nat (length (get_open_trades_for_symbol ib sym)) /\
  get_open_trades_for_symbol ib' sym = [] /\
  (forall sym', sym' <> sym ->
                get_open_trades_for_symbol ib' sym' = get_open_trades_for_symbol ib sym') /\
  positions ib' = positions ib /\ nextReqId ib' = nextReqId ib /\ placed ib' = placed ib /\
  cancel_orders_for_symbol ib' sym = (ib', 0).
Proof.
  intros Hnd. cbv zeta.
  assert (openTrades (fst (cancel_orders_for_symbol ib sym)) =
          List.filter (fun t => negb (String.eqb (symbol (contract t)) sym)) (openTrades ib))
    as Hbook.
  { rewrite cancel_orders_for_symbol_eq. unfold get_open_trades_for_symbol.
    apply (cancel_picked (fun t => String.eqb (symbol (contract t)) sym) ib Hnd). }
  assert (get_open_trades_for_symbol (fst (cancel_orders_for_symbol ib sym)) sym = []) as Hnone.
  { unfold get_open_trades_for_symbol at 1. rewrite Hbook.
    apply (filter_not_then (fun t => String.eqb (symbol (contract t)) sym)). }
  split; [exact Hbook|]. split; [reflexivity|]. split; [exact Hnone|].
  split; [|split; [|split; [|split]]].
  - intros sym' Hne. unfold get_open_trades_for_symbol at 1. rewrite Hbook.
    unfold get_open_trades_for_symbol.
    apply (filter_not_other (fun t => String.eqb (symbol (contract t)) sym)
                            (fun t => String.eqb (symbol (contract t)) sym')).
    intros t Ht. apply String.eqb_eq in Ht. apply String.eqb_neq. congruence.
  - rewrite cancel_orders_for_symbol_eq. apply cancel_extras_positions.
  - rewrite cancel_orders_for_symbol_eq. apply cancel_extras_nextReqId.
  - rewrite cancel_orders_for_symbol_eq. apply cancel_extras_placed.
  - unfold cancel_orders_for_symbol at 1. rewrite Hnone. reflexivity.
Qed.

Lemma placeOrder_fresh_id ib c o :
  orderId o <> 0 ->
  (forall y, In y (openTrades ib) -> oid y <> orderId o) ->
  placeOrder ib c o =
  (mkIB (openTrades ib ++ [mkTrade c o]) (positions ib) (nextReqId ib) (minTicks ib)
        (placed ib ++ [mkTrade c o]),
   mkTrade c o).
Proof.
  intros Ho Hnew.
  assert (has_order_id (orderId o) (openTrades ib) = false) as Hh.
  { destruct (has_order_id _ _) eqn:E; [|reflexivity]. exfalso.
    apply existsb_exists in E as (y & Hy & Hid). apply Z.eqb_eq in Hid.
    exact (Hnew y Hy Hid). }
  unfold placeOrder. apply Z.eqb_neq in Ho. rewrite Ho, set_orderId_same, Hh.
  destruct ib; reflexivity.
Qed.

Lemma placeOrder_fresh_new ib c o :
  orderId o = 0 ->
  (forall y, In y (openTrades ib) -> oid y <> nextReqId ib) ->
  placeOrder ib c o =
  (mkIB (openTrades ib ++ [mkTrade c (set_orderId o (nextReqId ib))]) (positions ib)
        (nextReqId ib + 1) (minTicks ib)
        (placed ib ++ [mkTrade c (set_orderId o (nextReqId ib))]),
   mkTrade c (set_orderId o (nextReqId ib))).
Proof.
  intros Ho Hnew.
  assert (has_order_id (nextReqId ib) (openTrades ib) = false) as Hh.
  { destruct (has_order_id _ _) eqn:E; [|reflexivity]. exfalso.
    apply existsb_exists in E as (y & Hy & Hid). apply Z.eqb_eq in Hid.
    exact (Hnew y Hy Hid). }
  unfold placeOrder. rewrite Ho.
  cbn [Z.eqb getReqId openTrades positions nextReqId minTicks placed].
  rewrite Hh. reflexivity.
Qed.

(** Rewrites the next [placeOrder] call on an explicit session. *)
Ltac place_fresh :=
  match goal with
  | |- context [placeOrder (mkIB ?a ?b ?n ?d ?e) ?c ?o] =>
      rewrite (placeOrder_fresh_id (mkIB a b n d e) c o)
  end.

(** The exit order that a bracket entry attaches to its parent. *)
Local Abbreviation is_child_of parent q t :=
  (contract t = contract parent /\ action (order t) = SELL /\
   totalQuantity (order t) = q /\ parentId (order t) = oid parent /\
   ocaGroup (order t) = oca_parent_group (oid parent) /\ ocaType (order t) = 1 /\
   oid parent < oid t).

(** X29. An entry on a session whose orders were filed through
    [placeOrder] (distinct positive ids below the request-id counter): for
    [quantity <= 0] nothing is done; otherwise [execute_buy_order] files the
    market BUY of the quantity as a new order and then, as new orders too,
    one SELL LMT at the take-profit price and one SELL STP at the stop price
    for those of the two that are given, each for the bought quantity, with
    the BUY as parent and in the OCA group of the parent.  No existing order
    is touched, positions are untouched, and the session stays
    well-formed. *)
Theorem execute_buy_order_orders ib c q sl tp :
  well_formed ib ->
  (q <= 0 -> execute_buy_order ib c q sl tp = (ib, None)) /\
  (0 < q ->
   exists ib' parent children,
     execute_buy_order ib c q sl tp = (ib', Some parent) /\
     openTrades ib' = openTrades ib ++ parent :: children /\
     placed ib' = placed ib ++ parent :: children /\
     positions ib' = positions ib /\
     well_formed ib' /\
     contract parent = c /\ action (order parent) = BUY /\
     orderType (order parent) = MKT /\ totalQuantity (order parent) = q /\
     parentId (order parent) = 0 /\ oid parent = nextReqId ib /\
     Forall (fun t => is_child_of parent q t) children /\
     List.map (fun t => (orderType (order t), lmtPrice (order t), auxPrice (order t)))
              children =
       match tp with Some p => [(LMT, Finite p, Finite 0)] | None => [] end ++
       match sl with Some s => [(STP, Finite 0, Finite s)] | None => [] end).
Proof.
  intros (Hpos & Hnd & Hbd). rewrite Forall_forall in Hbd.
  assert (forall y, In y (openTrades ib) -> 0 < oid y < nextReqId ib) as Hb
      by (intros y Hy; apply Hbd, list_elem_of_In; exact Hy).
  split.
  { intros Hq. unfold execute_buy_order.
    replace (q <=? 0) with true by (symmetry; apply Z.leb_le; exact Hq). reflexivity. }
  intros Hq. unfold execute_buy_order.
  replace (q <=? 0) with false by (symmetry; apply Z.leb_gt; exact Hq).
  set (n := nextReqId ib) in *.
  assert (forall (news : list Trade) m,
             n < m ->
             Forall (fun t => n <= oid t < m) news ->
             NoDup (List.map oid news) ->
             well_formed (mkIB (openTrades ib ++ news) (positions ib) m (minTicks ib)
                               (placed ib ++ news))) as Hwf.
  { intros news m Hm Hn Hnn. rewrite Forall_forall in Hn.
    split; [cbn [nextReqId]; lia|]. split.
    - cbn [openTrades]. rewrite map_app. apply NoDup_app. split; [exact Hnd|].
      split; [|exact Hnn].
      intros i Hi Hi'. apply list_elem_of_In, in_map_iff in Hi as (y & <- & Hy).
      apply list_elem_of_In, in_map_iff in Hi' as (t & Ht & Hin).
      apply list_elem_of_In in Hin. specialize (Hn t Hin). specialize (Hb y Hy). lia.
    - cbn [openTrades nextReqId]. apply Forall_app. split.
      + apply Forall_forall. intros y Hy. apply list_elem_of_In in Hy.
        specialize (Hb y Hy). lia.
      + apply Forall_forall. intros t Ht. specialize (Hn t Ht). lia. }
  assert (forall y, In y (openTrades ib) -> oid y <> n) as Hfresh
      by (intros y Hy; specialize (Hb y Hy); lia).
  destruct sl as [s|], tp as [p|];
    cbn [getReqId openTrades positions nextReqId minTicks placed app].
  - place_fresh;
      [|cbn; lia|cbn [openTrades]; intros y Hy; specialize (Hb y Hy); cbn; lia].
    cbn [fold_left openTrades positions nextReqId minTicks placed fst].
    place_fresh;
      [|cbn; lia
       |cbn [openTrades]; intros y Hy; apply in_app_iff in Hy as [Hy|[<-|[]]];
        [specialize (Hb y Hy); cbn; lia|cbn; lia]].
    cbn [fold_left openTrades positions nextReqId minTicks placed fst].
    place_fresh;
      [|cbn; lia
       |cbn [openTrades]; intros y Hy;
        apply in_app_iff in Hy as [Hy|[<-|[]]];
        [apply in_app_iff in Hy as [Hy|[<-|[]]];
         [specialize (Hb y Hy); cbn; lia|cbn; lia]|cbn; lia]].
    cbn [fst openTrades positions nextReqId minTicks placed].
    eexists _, _, [_; _]. rewrite <- !app_assoc. cbn [app].
    split; [reflexivity|]. split; [reflexivity|]. split; [reflexivity|].
    split; [reflexivity|].
    split; [apply Hwf; [lia| |]|].
    + repeat constructor; cbn; lia.
    + cbn. repeat (apply NoDup_cons_2 || apply NoDup_nil_2);
        rewrite ?elem_of_cons, ?elem_of_nil; lia.
    + repeat split; try reflexivity.
      repeat constructor; cbn; fold n; lia.
  - place_fresh;
      [|cbn; lia|cbn [openTrades]; intros y Hy; specialize (Hb y Hy); cbn; lia].
    cbn [fold_left openTrades positions nextReqId minTicks placed fst].
    place_fresh;
      [|cbn; lia
       |cbn [openTrades]; intros y Hy; apply in_app_iff in Hy as [Hy|[<-|[]]];
        [specialize (Hb y Hy); cbn; lia|cbn; lia]].
    cbn [fst openTrades positions nextReqId minTicks placed].
    eexists _, _, [_]. rewrite <- !app_assoc. cbn [app].
    split; [reflexivity|]. split; [reflexivity|]. split; [reflexivity|].
    split; [reflexivity|].
    split; [apply Hwf; [lia| |]|].
    + repeat constructor; cbn; lia.
    + cbn. repeat (apply NoDup_cons_2 || apply NoDup_nil_2);
        rewrite ?elem_of_cons, ?elem_of_nil; lia.
    + repeat split; try reflexivity.
      repeat constructor; cbn; fold n; lia.
  - place_fresh;
      [|cbn; lia|cbn [openTrades]; intros y Hy; specialize (Hb y Hy); cbn; lia].
    cbn [fold_left openTrades positions nextReqId minTicks placed fst].
    place_fresh;
      [|cbn; lia
       |cbn [openTrades]; intros y Hy; apply in_app_iff in Hy as [Hy|[<-|[]]];
        [specialize (Hb y Hy); cbn; lia|cbn; lia]].
    cbn [fst openTrades positions nextReqId minTicks placed].
    eexists _, _, [_]. rewrite <- !app_assoc. cbn [app].
    split; [reflexivity|]. split; [reflexivity|]. split; [reflexivity|].
    split; [reflexivity|].
    split; [apply Hwf; [lia| |]|].
    + repeat constructor; cbn; lia.
    + cbn. repeat (apply NoDup_cons_2 || apply NoDup_nil_2);
        rewrite ?elem_of_cons, ?elem_of_nil; lia.
    + repeat split; try reflexivity.
      repeat constructor; cbn; fold n; lia.
  - rewrite placeOrder_fresh_new; [|reflexivity|exact Hfresh].
    eexists _, _, []. 
    split; [reflexivity|]. split; [reflexivity|]. split; [reflexivity|].
    split; [reflexivity|].
    split; [apply Hwf; [lia| |]|].
    + repeat constructor; cbn; fold n; lia.
    + cbn. repeat (apply NoDup_cons_2 || apply NoDup_nil_2);
        rewrite ?elem_of_cons, ?elem_of_nil; lia.
    + repeat split; try reflexivity. constructor.
Qed.

End EntryOrders.

(** AAPL has one open stop: cancelling the orders of AAPL cancels it. *)
Lemma cancel_orders_for_symbol_witness :
  snd (Executor.cancel_orders_for_symbol ib_one_stop "AAPL") = 1 /\
  Executor.get_open_trades_for_symbol
    (fst (Executor.cancel_orders_for_symbol ib_one_stop "AAPL")) "AAPL" = [].
Proof.
  destruct (cancel_orders_for_symbol_spec ib_one_stop "AAPL"
              ltac:(apply (bool_decide_unpack _); vm_compute; exact I))
    as (_ & Hn & Hnone & _).
  split; [rewrite Hn; vm_compute; reflexivity|exact Hnone].
Defined.

(** A bracket entry of 10 AAPL shares with both exits files three new
    orders behind the open ones. *)
Lemma execute_buy_order_orders_witness :
  exists ib' parent children,
    Executor.execute_buy_order ib_one_stop demo_contract 10 (Some (140#1)) (Some (170#1)) =
      (ib', Some parent) /\
    Executor.openTrades ib' = Executor.openTrades ib_one_stop ++ parent :: children /\
    length children = 2%nat.
Proof.
  destruct (proj2 (execute_buy_order_orders ib_one_stop demo_contract 10
                     (Some (140#1)) (Some (170#1)) ib_one_stop_well_formed)
                  ltac:(lia))
    as (ib' & parent & children & He & Hb & _ & _ & _ & _ & _ & _ & _ & _ & _ & _ & Hm).
  exists ib', parent, children. split; [exact He|]. split; [exact Hb|].
  rewrite <- (length_map (fun t => (Executor.orderType (Executor.order t),
                                    Executor.lmtPrice (Executor.order t),
                                    Executor.auxPrice (Executor.order t))) children), Hm.
  reflexivity.
Defined.

(** ** The risk taken by a sized position ([calculate_position_size]) *)
Section RiskAtStop.
Import Executor.

(** X30. With a non-negative risk budget [net_liquidation * risk_per_trade],
    the size returned by [calculate_position_size] is never negative and the
    loss of the position if it is stopped out, size times the distance from
    price to stop, never exceeds the risk budget; the size is the largest such
    number (one share more would exceed the budget), and it is 0 when the stop
    equals the price. *)
Theorem position_size_risk_bound risk price stop net_liq :
  (0 <= net_liq * risk)%Q ->
  let size := calculate_position_size risk price stop net_liq in
  0 <= size /\
  (inject_Z size * Qabs (price - stop) <= net_liq * risk)%Q /\
  (~ (price == stop)%Q ->
   (net_liq * risk < (inject_Z size + 1) * Qabs (price - stop))%Q) /\
  ((price == stop)%Q -> size = 0).
Proof.
  intros Hb. cbv zeta. unfold calculate_position_size.
  pose proof (Qabs_nonneg (price - stop)) as Hn.
  destruct (Qeqb (Qabs (price - stop)) 0) eqn:E.
  - apply Qeqb_true in E. rewrite E.
    split; [lia|]. split; [rewrite Qmult_0_r; exact Hb|]. split; [|reflexivity].
    intros Hne. exfalso. apply Hne.
    assert (price - stop == 0)%Q as H0
        by (revert E; apply Qabs_case; intros _ H; lra).
    lra.
  - apply Qeqb_false in E.
    assert (0 < Qabs (price - stop))%Q as Hp.
    { apply Qle_lteq in Hn. destruct Hn as [Hn|Hn]; [exact Hn|]. exfalso. apply E.
      symmetry. exact Hn. }
    set (rps := Qabs (price - stop)) in *.
    assert (0 <= net_liq * risk / rps)%Q as Hx.
    { apply Qle_shift_div_l; [exact Hp|]. rewrite Qmult_0_l. exact Hb. }
    rewrite py_int_floor by exact Hx.
    pose proof (Qfloor_le (net_liq * risk / rps)) as Hlo.
    pose proof (Qlt_floor (net_liq * risk / rps)) as Hhi.
    assert (net_liq * risk == net_liq * risk / rps * rps)%Q as Hd by (field; lra).
    split; [|split; [|split]].
    + change 0 with (Qfloor 0). apply Qfloor_resp_le. exact Hx.
    + rewrite Hd at 2. apply Qmult_le_compat_r; [exact Hlo|lra].
    + intros _. rewrite Hd at 1. apply Qmult_lt_compat_r; [exact Hp|].
      rewrite inject_Z_plus in Hhi. exact Hhi.
    + intros Heq. exfalso. apply E. unfold rps.
      assert (price - stop == 0)%Q as -> by lra. reflexivity.
Qed.

End RiskAtStop.

(** Equity 100 000, 1 % risk, price 50, stop 48: 500 shares risk exactly
    the budget of 1000. *)
Lemma position_size_risk_bound_witness :
  (inject_Z (Executor.calculate_position_size (1#100) 50 48 100000) * Qabs (50 - 48)
   <= 100000 * (1#100))%Q.
Proof.
  apply (position_size_risk_bound (1#100) 50 48 100000).
  vm_compute. discriminate.
Defined.
